(* ===== verification/_CoqProject ===== *)
-Q . S2P
Prelude.v
ApiTypes.v
Matching.v
Validation.v
RestConfig.v
Admission.v
FlowControl.v
GlobalFlowControl.v
InflightRace.v
LimitStore.v
K8sStore.v
Float64.v
Meter.v
LoadPressure.v
RemoteFlowControl.v
TokenSystem.v
FlowControlCache.v
GatewayLimiter.v
RemoteCounter.v
Allocation.v
RateLimiter.v
RateLimiterSpec.v
ServerInvariant.v
Failover.v
Http.v
ClientSets.v
LimiterEndpoints.v
Impersonation.v
Clusters.v
Controller.v
Delegation.v
SyncQueue.v
Reconcile.v
Serving.v
HealthCheck.v
ReverseProxy.v
Dispatcher.v
LimiterInstance.v
Tracing.v
Registry.v
Metrics.v
Authentication.v
Options.v
LimiterController.v
