(* ===== verification/Prelude.v ===== *)
(** * A verification of kubegateway

    kubegateway is a layer 7 proxy in front of Kubernetes API servers.  Its
    source is Go, under [src/].

    ** The program

    An administrator describes upstream clusters by UpstreamCluster objects.
    The API server of the gateway defaults, normalises and validates them
    ([pkg/apis/proxy/v1alpha1], [plugin/admission/upstreamcluster]).  Every
    proxy process watches them; its controller
    ([pkg/gateway/controllers/upstream_controller.go]) keeps a table from
    host names to clusters ([pkg/clusters]), and a cluster keeps endpoints
    with their health, dispatch policies, and flow controls.  A request is
    authenticated, may impersonate another user
    ([pkg/gateway/endpoints/filters/impersonation.go]), is matched against the
    policies of the cluster of its host, passes the flow control the policy
    names ([pkg/flowcontrols]), and goes to an endpoint of the cluster with
    headers that name its user ([pkg/transport]).

    Flow controls are local to a process or shared between processes.  A
    shared one follows the rate limiter server ([pkg/ratelimiter]): either the
    server allocates quotas to the processes according to what they report
    ([limiter/allocation.go]), or the processes count every request with the
    server ([store/flowcontrol]).  Servers share the upstream clusters by
    shards with elected leaders, and keep what they allocated in memory or in
    the API server ([store/local], [store/k8s]).

    ** The files

    - [Prelude]: the result type of code that may fail or panic with its
      notation, integers of 32 and 64 bits, order of map iteration, sums,
      tactics and hints.
    - [ApiTypes]: the API objects.
    - [Matching]: which policy a request takes.
    - [Validation], [Admission]: what the API server does to an object.
    - [FlowControl]: the flow controls of one process.
    - [GlobalFlowControl], [InflightRace]: the counters of the rate limiter
      server, one call at a time and with interleaved calls.
    - [LimitStore], [K8sStore]: the stores of the rate limiter server.  The
      class [LimitStore] is what the server needs of a store; both stores
      are instances.
    - [Float64], [Allocation]: binary64 arithmetic and the allocation of
      quotas.
    - [RateLimiter], [RateLimiterSpec], [ServerInvariant]: the rate limiter
      server over any store, the properties of its operations, and its
      invariant over every run of them; [Failover]: a shard that passes from
      one server to another.
    - [Meter], [RemoteFlowControl], [FlowControlCache], [GatewayLimiter],
      [RemoteCounter], [TokenSystem]: the proxy's side of shared flow
      controls, from the meter of one flow control to the limiter of a
      cluster, with the system of tokens between a proxy and the server.
    - [ClientSets]: the proxy's clients of the rate limiter servers
      ([pkg/ratelimiter/clientsets]).
    - [LimiterEndpoints]: the HTTP interface of the rate limiter server
      ([pkg/ratelimiter/endpoints]).
    - [Http], [Impersonation]: header maps, the impersonation filter and the
      transport.
    - [Clusters], [Controller]: clusters, their endpoints, and the routing
      table.
    - [SyncQueue], [Reconcile]: the queue of a controller with its worker
      ([pkg/syncqueue]), and the controller of the routing table driven by it.
    - [RestConfig]: the configuration of the connections of a cluster to its
      servers ([pkg/clusters/util.go]).
    - [Serving]: the TLS configuration of a connection to the gateway
      ([WrapGetConfigForClient]).
    - [Delegation]: tokens and requests reviewed by the cluster a host names,
      with caches by host ([pkg/gateway/authentication],
      [pkg/gateway/authorization]).
    - [Authentication]: the chain of authenticators of the proxy
      ([pkg/gateway/proxy/authenticator]).
    - [HealthCheck]: probes of an endpoint and the two goroutines that make
      them ([pkg/clusters/endpoint.go], [GatewayHealthCheck]).
    - [ReverseProxy]: one request to an endpoint and its answer
      ([pkg/util/reverseproxy]).
    - [Dispatcher]: the chain of handlers a request of the proxy goes through
      ([cmd/kube-gateway/app/proxy.go], [pkg/gateway/endpoints],
      [pkg/gateway/proxy/dispatcher]), over any limiter that satisfies the
      class [FlowControls].
    - [LimiterInstance]: the limiter of [GatewayLimiter] as an instance of
      that class, limits on requests in flight, and a gateway put together
      from all parts that serves a request.
    - [LoadPressure], [Tracing]: the loads under which connections are asked
      to go away and the bytes of requests ([pkg/gateway/endpoints/filters],
      [pkg/gateway/endpoints/monitor]), the latencies of a request
      ([pkg/util/tracing]).
    - [Metrics]: what is reported of a request and under which labels, the
      observers and the monitor of a proxied request
      ([pkg/gateway/metrics], [pkg/gateway/proxy/dispatcher/proxylog.go]).
    - [LimiterController]: the controller of the rate limiter server with its
      queue ([pkg/ratelimiter/limiter/controller]).
    - [Options]: validation of the serving options and what is listened on
      ([pkg/gateway/controlplane/options], [pkg/gateway/proxy/options]).
    - [Registry]: how the API server of the gateway prepares and keeps objects
      (the staging module [apiserver-runtime]).

    A definition has the name of the Go function or type it models, prefixed
    by its receiver where names clash.  State is passed explicitly: a method
    takes the receiver and returns it.  A function whose Go code can
    dereference nil or hit another run-time panic returns [result], with
    [Panic] as one outcome.  Integers are [Z], wrapped where the code
    computes at a fixed width.

    ** What the theorems show

    - Objects: validation accepts exactly the objects a declarative
      specification describes ([ValidateUpstreamCluster_exact]) and where it
      panics instead; admission does not change which policy any request
      takes ([Admit_preserves_dispatch]) and keeps host names disjoint;
      matching takes the first policy that matches, by the declarative
      meaning of its lists.
    - Routing: after a synchronisation the table sends exactly the server
      names of an object to its cluster ([syncUpstreamCluster_routes]), the
      cluster reflects the object, and a request is dispatched as the object
      says ([dispatch_follows_spec]); endpoints are picked round robin.  Over
      every run of the queue the table is the one the objects handled so far
      describe ([table_follows_handled]); an object that keeps failing is
      given up ([failing_item_dropped]), and a deletion that the informer
      missed is not noticed ([missed_deletion_stays]); the health of an endpoint is that of
      its last probe, and a check that is asked for takes place
      ([checks_follow_probes], [trigger_is_checked]).
    - Trust: a connection is served with the certificates of the object its
      host belongs to ([serving_follows_objects]), a token or a request is
      accepted only on the answer of an endpoint of a cluster the host named,
      no older than the life of an answer ([tokens_reviewed],
      [access_reviewed]), a request is served as the user of the first method
      of authentication that knows it and an error never makes it anonymous
      ([proxy_authenticates]), and the gateway verifies the servers of a valid
      object and has credentials for them ([valid_object_trusted]).
    - Requests: what the proxy sends upstream was authenticated, authorised,
      matched and let pass by its flow control, and the API server decodes
      from it the user it was sent for, whatever headers the client sends
      ([sent_requests_authorized]); the flow controls hold afterwards what
      they held before ([flow_controls_balanced]), and never more than the
      limit ([inflight_limit_exact]).  The client gets the answer of the
      endpoint ([ServeHTTP_returns_response]), and what was written is
      flushed ([written_bytes_get_flushed]).  The stages of a request add up
      to its time ([latency_accounts]), and connections are asked to go away
      exactly over a threshold ([goaway_under_pressure]).  The gauge of
      watchers is the number of watches in progress
      ([watchers_and_requests_accounted]), and a request is counted as
      terminated or as proxied, never both ([terminated_counted_once]).
    - Counting: the counter of requests in flight refines a ledger of what
      every process reported ([SetState_refines_ledger]), stays within its
      capacity, and, with interleaved calls, is balanced once they returned
      ([concurrent_reports_balanced]); two theorems show what interleaving
      breaks.
    - Server: the totals are the sums of what was granted, answers to
      requests for tokens are those of the flow control, a server serves what
      it leads and forgets clients that are gone.  A server that takes over
      a shard knows what the one before it granted
      ([failover_keeps_quotas]).  Only
      authorised requests change a server ([changes_authorized]), and a
      gateway that knows the leaders asks the one that answers
      ([asked_server_answers]).  Over every run each condition is kept for
      its cluster in the store of its shard ([server_well_formed]).
    - Processes: valid options lead to servers that listen on their ports
      ([valid_options_listen]); a cluster delivered to the rate limiter waits
      until it is handled ([delivered_until_handled]).
    - Storage: what is stored of an object is what was last written to it and
      to its status ([halves_kept_apart]).
    - Proxy's side of shared limits: the limiter has one flow control per
      schema and enforces it; quotas received are enforced; what a process
      asks for is bounded, also at the limits of 32 bits; tokens are neither
      invented nor overspent under any interleaving; the meter reports the
      maximum of its window.

    ** Parameters

    Code outside the repository is an argument: the filters and errors of
    k8s.io/apiserver ([ApiServer], [ApiErrors]), the in-flight lock of golib
    the token bucket and the work queue of client-go ([InflightLock],
    [TokenBucketLimiter], [RateLimiter], [WorkQueue]), the router of
    go-restful ([Container]), the caches of k8s.io/apiserver
    ([LRUExpireCache], [TokenCache]), its authenticators and serving
    options ([Authenticators], [ServingSystem]), its encodings and update checks
    ([EncodingConfig], [BeforeUpdate]), the REST client and its back-off, Kubernetes'
    validation of metadata and certificates, feature gates, the names of
    impersonation headers and users, the order of map iteration ([MapRange]),
    and the result of float conversions the language leaves open.  Each has
    a concrete instance that the witnesses use.

    ** Bounds

    No model needs fuel: loops over data are structural, and the loops that
    retry (writes to the API server, requests for tokens) take the number of
    attempts the code takes.  Loops that run for ever (workers, tickers) are
    modelled by one turn, or by a step relation whose runs the theorems
    quantify over.

    ** Not modelled

    The bytes of a connection that switched protocols, the metrics of the rate
    limiter, the filter that starts a trace, the text of logs, flags and the
    start of the processes have no state a theorem here speaks about.
    Serialisation, clients, informers and deep copies are generated code.
    Goroutines and timers are represented by the operations they run: every
    order of operations is covered, fairness of the scheduler is not assumed.
    Counters of 64 bits (request ids, times) do not wrap. *)
From stdpp Require Import base list strings gmap sets numbers.
From Stdlib Require Import ZArith Lia Ascii.

Local Open Scope Z_scope.

(** * Hint database and tactics of the development *)

Create HintDb gw discriminated.
Create Rewrite HintDb gw_wrap.

(** Case analysis on every [match]/[if] of the goal and hypotheses, with
    the contradictory branches closed. *)
Ltac cases := repeat (case_match; simplify_eq/=); try done.

(** Turn the boolean tests of the code into the propositions they decide. *)
Ltac bool_to_prop :=
  repeat match goal with
  | H : (_ <? _) = true |- _ => apply Z.ltb_lt in H
  | H : (_ <? _) = false |- _ => apply Z.ltb_ge in H
  | H : (_ <=? _) = true |- _ => apply Z.leb_le in H
  | H : (_ <=? _) = false |- _ => apply Z.leb_gt in H
  | H : (_ =? _) = true |- _ => apply Z.eqb_eq in H
  | H : (_ =? _) = false |- _ => apply Z.eqb_neq in H
  | H : andb _ _ = true |- _ => apply andb_true_iff in H; destruct H
  | H : orb _ _ = false |- _ => apply orb_false_iff in H; destruct H
  | H : negb _ = true |- _ => apply negb_true_iff in H
  | H : negb _ = false |- _ => apply negb_false_iff in H
  | H : bool_decide _ = true |- _ => apply bool_decide_eq_true in H
  | H : bool_decide _ = false |- _ => apply bool_decide_eq_false in H
  end.

(** * Machine integers

    A Go [int32]/[int64] is a [Z] in range; the wrap-around of Go's
    arithmetic is written with [wrap32]/[wrap64] at each operation that the
    source performs at that width. *)

Definition in_int32 (z : Z) : Prop := - 2 ^ 31 <= z < 2 ^ 31.
Definition wrap32 (z : Z) : Z := (z + 2 ^ 31) mod 2 ^ 32 - 2 ^ 31.
Definition uwrap32 (z : Z) : Z := z mod 2 ^ 32.
Definition in_int64 (z : Z) : Prop := - 2 ^ 63 <= z < 2 ^ 63.
Definition wrap64 (z : Z) : Z := (z + 2 ^ 63) mod 2 ^ 64 - 2 ^ 63.
Definition uwrap64 (z : Z) : Z := z mod 2 ^ 64.

(** [time.Duration] counts nanoseconds. *)
Definition Millisecond : Z := 1000000.
Definition Second : Z := 1000000000.

Lemma wrap32_id z : in_int32 z -> wrap32 z = z.
Proof. unfold in_int32, wrap32. intros. rewrite Z.mod_small; lia. Qed.

Lemma wrap32_in z : in_int32 (wrap32 z).
Proof. unfold in_int32, wrap32. pose proof (Z.mod_pos_bound (z + 2^31) (2^32)). lia. Qed.

Lemma wrap32_add_l a b : wrap32 (wrap32 a + b) = wrap32 (a + b).
Proof.
  unfold wrap32.
  replace ((a + 2 ^ 31) mod 2 ^ 32 - 2 ^ 31 + b + 2 ^ 31)
    with ((a + 2^31) mod 2^32 + b) by lia.
  rewrite Zplus_mod_idemp_l. do 2 f_equal. lia.
Qed.

Lemma wrap32_add_r a b : wrap32 (a + wrap32 b) = wrap32 (a + b).
Proof. rewrite (Z.add_comm a), wrap32_add_l. f_equal. lia. Qed.

Lemma wrap32_sub_r a b : wrap32 (a - wrap32 b) = wrap32 (a - b).
Proof.
  unfold wrap32.
  replace (a - ((b + 2 ^ 31) mod 2 ^ 32 - 2 ^ 31) + 2 ^ 31)
    with ((a + 2 ^ 32) - (b + 2^31) mod 2^32) by lia.
  rewrite Zminus_mod_idemp_r.
  replace (a + 2 ^ 32 - (b + 2 ^ 31)) with (a - b + 2 ^ 31) by lia. done.
Qed.

Lemma uwrap32_id z : 0 <= z < 2 ^ 32 -> uwrap32 z = z.
Proof. intros. unfold uwrap32. by rewrite Z.mod_small. Qed.

Lemma uwrap32_range z : 0 <= uwrap32 z < 2 ^ 32.
Proof. unfold uwrap32. apply Z.mod_pos_bound. lia. Qed.

(** The conversion [int32(uint32(x))] is the identity on [int32] values. *)
Lemma wrap32_uwrap32 z : in_int32 z -> wrap32 (uwrap32 z) = z.
Proof.
  intros Hz. unfold wrap32, uwrap32. rewrite Zplus_mod_idemp_l.
  rewrite Z.mod_small; unfold in_int32 in *; lia.
Qed.

(** Go's integer division truncates towards zero ([Z.quot]). *)
Lemma quot_nonneg_bound a b : 0 <= a -> 0 < b -> 0 <= Z.quot a b <= a.
Proof.
  intros. rewrite Z.quot_div_nonneg by lia.
  split; [apply Z.div_pos; lia|]. apply Z.div_le_upper_bound; nia.
Qed.

#[export] Hint Resolve wrap32_in wrap32_id : gw.
#[export] Hint Rewrite wrap32_add_l wrap32_add_r wrap32_sub_r : gw_wrap.

(** * Go strings

    A Go string is a sequence of bytes, which is what [string] is. *)

(** [strings.HasPrefix(s, p)] *)
Fixpoint HasPrefix (s p : string) : bool :=
  match p, s with
  | EmptyString, _ => true
  | String a p', String b s' => if decide (a = b) then HasPrefix s' p' else false
  | String _ _, EmptyString => false
  end.

(** [strings.HasSuffix(s, p)] *)
Fixpoint HasSuffix (s p : string) : bool :=
  if decide (s = p) then true
  else match s with
       | EmptyString => false
       | String _ s' => HasSuffix s' p
       end.

(** [strings.TrimRight(s, c)] for a cutset of one byte. *)
Fixpoint TrimRight (s : string) (c : ascii) : string :=
  match s with
  | EmptyString => EmptyString
  | String a s' =>
      match TrimRight s' c with
      | EmptyString => if decide (a = c) then EmptyString else String a EmptyString
      | t => String a t
      end
  end.

(** [strings.Contains(s, p)] *)
Fixpoint Contains (s p : string) : bool :=
  if HasPrefix s p then true
  else match s with
       | EmptyString => false
       | String _ s' => Contains s' p
       end.

(** [len(s)] *)
Fixpoint slen (s : string) : Z :=
  match s with EmptyString => 0 | String _ s' => 1 + slen s' end.

(** [strings.Join(l, sep)] *)
Fixpoint Join (l : list string) (sep : string) : string :=
  match l with
  | [] => ""
  | [x] => x
  | x :: l' => x +:+ sep +:+ Join l' sep
  end.

(** [strings.ReplaceAll(s, old, new)] for an [old] of one byte. *)
Fixpoint ReplaceAll (s : string) (old : ascii) (new : string) : string :=
  match s with
  | EmptyString => EmptyString
  | String a s' => (if decide (a = old) then new else String a EmptyString) +:+ ReplaceAll s' old new
  end.

Definition byte (a : ascii) : Z := Z.of_N (N_of_ascii a).
Definition of_byte (z : Z) : ascii := ascii_of_N (Z.to_N z).

Lemma byte_range a : 0 <= byte a < 256.
Proof. unfold byte. pose proof (N_ascii_bounded a). lia. Qed.

Lemma of_byte_byte a : of_byte (byte a) = a.
Proof. unfold of_byte, byte. rewrite N2Z.id. apply ascii_N_embedding. Qed.

Lemma byte_of_byte z : 0 <= z < 256 -> byte (of_byte z) = z.
Proof. intros. unfold of_byte, byte. rewrite N_ascii_embedding by lia. lia. Qed.

(** The ASCII part of [strings.ToLower]: bytes 'A'..'Z' move to 'a'..'z'. *)
Definition lower_byte (a : ascii) : ascii :=
  if (65 <=? byte a) && (byte a <=? 90) then of_byte (byte a + 32) else a.

Fixpoint string_map (f : ascii -> ascii) (s : string) : string :=
  match s with
  | EmptyString => EmptyString
  | String a s' => String (f a) (string_map f s')
  end.

Fixpoint string_forallb (f : ascii -> bool) (s : string) : bool :=
  match s with
  | EmptyString => true
  | String a s' => f a && string_forallb f s'
  end.

Definition is_ascii (s : string) : bool := string_forallb (fun a => byte a <? 128) s.

(** [strings.ToLower] works bytewise on an ASCII string and falls back to
    the Unicode tables on any other; the tables are a parameter, of which
    the code relies on nothing but that lower case is a fixed point. *)
Class UnicodeLower := {
  unicode_lower : string -> string;
  ToLower (s : string) : string :=
    if is_ascii s then string_map lower_byte s else unicode_lower s;
  unicode_lower_fixed : forall s, ToLower (unicode_lower s) = unicode_lower s
}.

Lemma lower_byte_idem a : lower_byte (lower_byte a) = lower_byte a.
Proof.
  unfold lower_byte at 2 3.
  destruct ((65 <=? byte a) && (byte a <=? 90)) eqn:E; bool_to_prop.
  - unfold lower_byte. rewrite byte_of_byte by lia.
    destruct (byte a + 32 <=? 90) eqn:E'; bool_to_prop; [lia|].
    by rewrite andb_false_r.
  - unfold lower_byte. by rewrite E.
Qed.

Lemma lower_byte_ascii a : byte a < 128 -> byte (lower_byte a) < 128.
Proof.
  intros. unfold lower_byte. case_match; [|done]. bool_to_prop.
  rewrite byte_of_byte; lia.
Qed.

Lemma is_ascii_lower s : is_ascii s = true -> is_ascii (string_map lower_byte s) = true.
Proof.
  unfold is_ascii. induction s as [|a s IH]; [done|]; simpl. intros H. bool_to_prop.
  rewrite IH by done. rewrite andb_true_r. apply Z.ltb_lt. by apply lower_byte_ascii.
Qed.

Lemma string_map_idem f s :
  (forall a, f (f a) = f a) -> string_map f (string_map f s) = string_map f s.
Proof. intros Hf. induction s as [|a s IH]; simpl; [done|]. by rewrite Hf, IH. Qed.

Lemma ToLower_idem `{UnicodeLower} s : ToLower (ToLower s) = ToLower s.
Proof.
  unfold ToLower at 2 3. destruct (is_ascii s) eqn:E.
  - unfold ToLower. rewrite is_ascii_lower by done.
    apply string_map_idem, lower_byte_idem.
  - apply unicode_lower_fixed.
Qed.

(** The instance whose tables leave every non-ASCII string unchanged. *)
#[refine] Definition ascii_only_lower : UnicodeLower :=
  {| unicode_lower s := if is_ascii s then string_map lower_byte s else s |}.
Proof.
  intros s. destruct (is_ascii s) eqn:E.
  - rewrite is_ascii_lower by done. apply string_map_idem, lower_byte_idem.
  - by rewrite E.
Defined.

Lemma string_app_nil_r (s : string) : s +:+ "" = s.
Proof. induction s as [|a s IH]; [done|]. unfold String.app in *. simpl. by rewrite IH. Qed.

Lemma string_app_assoc (s1 s2 s3 : string) : (s1 +:+ s2) +:+ s3 = s1 +:+ s2 +:+ s3.
Proof. induction s1 as [|a s IH]; [done|]. unfold String.app in *. simpl. by rewrite IH. Qed.

Lemma HasPrefix_spec s p : HasPrefix s p = true <-> exists t, s = p +:+ t.
Proof.
  revert s. induction p as [|a p IH]; intros s.
  - split; [|destruct s; done]. intros _. by exists s.
  - destruct s as [|b s]; simpl.
    + split; [done|]. intros [t Ht]. done.
    + destruct (decide (a = b)) as [<-|Hne].
      * rewrite IH. split; intros [t Ht]; exists t; [by rewrite Ht|].
        unfold String.app in Ht. simpl in Ht. by simplify_eq.
      * split; [done|]. intros [t Ht]. unfold String.app in Ht. simpl in Ht. congruence.
Qed.

Lemma HasPrefix_nil s : HasPrefix s "" = true.
Proof. by destruct s. Qed.

Lemma Contains_char_cons a s c :
  Contains (String a s) (String c "") = bool_decide (c = a) || Contains s (String c "").
Proof.
  simpl. rewrite HasPrefix_nil. case_decide; case_bool_decide; done.
Qed.

Lemma HasSuffix_spec s p : HasSuffix s p = true <-> exists t, s = t +:+ p.
Proof.
  induction s as [|a s IH]; simpl.
  - case_decide as Hd; subst; split; try done; intros.
    + by exists "".
    + destruct H as [[|? ?] Ht]; [|done]. by rewrite Ht in Hd.
  - case_decide as Hd; subst.
    + split; [|done]. intros _. by exists "".
    + rewrite IH. split; intros [t Ht].
      * exists (String a t). by rewrite Ht.
      * destruct t as [|b t]; [by destruct Hd|].
        unfold String.app in Ht. simpl in Ht. simplify_eq. by exists t.
Qed.

(** * Lists *)

Lemma NoDup_fmap_elem_eq {A B} (f : A -> B) (l : list A) x y :
  NoDup (f <$> l) -> x ∈ l -> y ∈ l -> f x = f y -> x = y.
Proof.
  induction l as [|z l IH]; intros Hnd Hx Hy Hf; [by apply elem_of_nil in Hx|].
  rewrite fmap_cons, list.NoDup_cons in Hnd. destruct Hnd as [Hz Hnd].
  apply elem_of_cons in Hx as [->|Hx]; apply elem_of_cons in Hy as [->|Hy]; auto.
  - destruct Hz. rewrite Hf. by apply list_elem_of_fmap_2.
  - destruct Hz. rewrite <- Hf. by apply list_elem_of_fmap_2.
Qed.

(** * Sums over the values of a finite map *)

Section msum.
Context {K : Type} `{Countable K} {V : Type} (f : V -> Z).
Implicit Types m : gmap K V.

Definition msum m : Z := map_fold (fun _ v acc => f v + acc) 0 m.

Lemma msum_empty : msum ∅ = 0.
Proof. apply map_fold_empty. Qed.

Lemma msum_insert_new m k v : m !! k = None -> msum (<[k:=v]> m) = f v + msum m.
Proof.
  intros Hk. unfold msum. rewrite map_fold_insert_L; [done| |done].
  intros. lia.
Qed.

Lemma msum_delete m k v : m !! k = Some v -> msum (delete k m) = msum m - f v.
Proof.
  intros Hk. rewrite <- (insert_id m k v) at 2 by done.
  rewrite <- insert_delete_eq.
  rewrite msum_insert_new by apply lookup_delete_eq. lia.
Qed.

Lemma msum_insert m k v :
  msum (<[k:=v]> m) = msum m - from_option f 0 (m !! k) + f v.
Proof.
  rewrite <- insert_delete_eq. rewrite msum_insert_new by apply lookup_delete_eq.
  destruct (m !! k) as [w|] eqn:E; simpl.
  - rewrite (msum_delete m k w) by done. lia.
  - rewrite delete_id by done. lia.
Qed.

Lemma msum_nonneg m : map_Forall (fun _ v => 0 <= f v) m -> 0 <= msum m.
Proof.
  induction m as [|k v m Hk IH] using map_ind; intros Hall.
  - by rewrite msum_empty.
  - rewrite msum_insert_new by done. apply map_Forall_insert in Hall as [Hv Hm]; [|done].
    specialize (IH Hm). lia.
Qed.

Lemma msum_lookup_le m k v :
  map_Forall (fun _ w => 0 <= f w) m -> m !! k = Some v -> f v <= msum m.
Proof.
  intros Hall Hk. pose proof (msum_delete m k v Hk).
  assert (0 <= msum (delete k m)) by (apply msum_nonneg; by apply map_Forall_delete).
  lia.
Qed.

Lemma msum_le_size m : (forall v, f v <= 1) -> msum m <= Z.of_nat (size m).
Proof.
  intros Hf. induction m as [|k v m Hk IH] using map_ind; [by rewrite msum_empty, map_size_empty|].
  rewrite msum_insert_new, map_size_insert_None by done. specialize (Hf v). lia.
Qed.
End msum.

Lemma msum_ext {K} `{Countable K} {V} (f g : V -> Z) (m : gmap K V) :
  (forall k v, m !! k = Some v -> f v = g v) -> msum f m = msum g m.
Proof.
  induction m as [|k v m Hk IH] using map_ind; intros Hfg; [by rewrite !msum_empty|].
  rewrite !msum_insert_new by done. rewrite (Hfg k v) by apply lookup_insert_eq.
  rewrite IH; [done|]. intros j w Hj. apply (Hfg j). rewrite lookup_insert_ne; [done|]. congruence.
Qed.

Lemma msum_zero {K} `{Countable K} {V} (f : V -> Z) (m : gmap K V) :
  map_Forall (fun _ v => f v = 0) m -> msum f m = 0.
Proof.
  intros Hm. rewrite (msum_ext f (fun _ => 0)) by (intros k v Hk; apply (Hm k v Hk)).
  clear Hm. induction m as [|k v m Hk IH] using map_ind; [apply msum_empty|].
  by rewrite msum_insert_new, IH.
Qed.

Lemma msum_plus {K} `{Countable K} {V} (f g : V -> Z) (m : gmap K V) :
  msum (fun v => f v + g v) m = msum f m + msum g m.
Proof.
  induction m as [|k v m Hk IH] using map_ind; [by rewrite !msum_empty|].
  rewrite !msum_insert_new by done. lia.
Qed.

#[export] Hint Resolve msum_nonneg : gw.

(** * Iteration over maps *)

(** [Range] of a [sync.Map], or [range] over a Go map: every entry once, in
    an unspecified order. *)
Class MapRange := {
  Range : forall {K : Type} `{Countable K} {V : Type}, gmap K V -> list (K * V);
  Range_perm : forall {K : Type} `{Countable K} {V : Type} (m : gmap K V), Range m ≡ₚ map_to_list m
}.

Lemma elem_of_Range `{MapRange} {K} `{Countable K} {V} (m : gmap K V) k v :
  (k, v) ∈ Range m <-> m !! k = Some v.
Proof. by rewrite Range_perm, elem_of_map_to_list. Qed.

(** The visiting order of [map_to_list]. *)
Definition sorted_range : MapRange := {|
  Range K _ _ V m := map_to_list m;
  Range_perm K _ _ V m := reflexivity _
|}.

(** * Sums over lists *)

(** The longest suffix of a list whose elements all satisfy [f]. *)
Fixpoint last_run {A} (f : A -> bool) (l : list A) : list A :=
  match l with
  | [] => []
  | a :: l' => if forallb f l then l else last_run f l'
  end.

Lemma last_run_snoc {A} (f : A -> bool) l a :
  last_run f (l ++ [a]) = if f a then last_run f l ++ [a] else [].
Proof.
  induction l as [|b l IH]; cbn [app last_run].
  - cbn. rewrite andb_true_r. by destruct (f a).
  - cbn [forallb]. rewrite forallb_app, IH. cbn [forallb]. rewrite andb_true_r.
    destruct (f b), (forallb f l), (f a); done.
Qed.

Definition zsum {A} (f : A -> Z) (l : list A) : Z := foldr (fun a s => f a + s) 0 l.

Lemma zsum_cons {A} (f : A -> Z) a l : zsum f (a :: l) = f a + zsum f l.
Proof. reflexivity. Qed.

Lemma zsum_app {A} (f : A -> Z) l k : zsum f (l ++ k) = zsum f l + zsum f k.
Proof. induction l as [|a l IH]; simpl; lia. Qed.

#[export] Instance zsum_perm {A} (f : A -> Z) : Proper (Permutation ==> eq) (zsum f).
Proof. intros l k Hp. unfold zsum. induction Hp; simpl; lia. Qed.

Lemma zsum_nonneg {A} (f : A -> Z) l : Forall (fun a => 0 <= f a) l -> 0 <= zsum f l.
Proof. induction 1 as [|a l Ha _ IH]; simpl; lia. Qed.

(** * Errors

    A Go call returns normally, returns an error, or panics (nil
    dereference, index out of range). *)

Inductive result (E A : Type) : Type :=
  | Ok (a : A)
  | Err (e : E)
  | Panic.
Arguments Ok {E A} a.
Arguments Err {E A} e.
Arguments Panic {E A}.

Definition result_bind {E A B} (c : result E A) (k : A -> result E B) : result E B :=
  match c with Ok a => k a | Err e => Err e | Panic => Panic end.

Declare Scope go_scope.
Delimit Scope go_scope with go.
Notation "'let!' x := c 'in' k" := (result_bind c (fun x => k))
  (at level 10, x pattern, c at level 200, k at level 200) : go_scope.

Lemma result_bind_Ok {E A B} (c : result E A) (k : A -> result E B) b :
  result_bind c k = Ok b <-> exists a, c = Ok a /\ k a = Ok b.
Proof.
  destruct c; simpl; split; try done.
  - eauto.
  - intros (a' & [= ->] & Hk). done.
  - intros (a' & [=] & _).
  - intros (a' & [=] & _).
Qed.
