(* ===== verification/ApiTypes.v ===== *)
(** The API objects of the gateway and of the rate limiter, from
    [pkg/apis/proxy/v1alpha1/upstreamcluster_types.go] and
    [ratelimit_types.go].  A Go pointer to a struct is an [option]; a slice is
    a [list] (the code only looks at its length and elements); a string-typed
    constant that is decoded from a request stays a [string]; [int32] fields
    are [Z].  Of [metav1.ObjectMeta] the fields the code touches are kept: the
    name, the resource version, the labels and the annotations ([None] is a
    nil map). *)
From stdpp Require Import base list strings gmap.
From S2P Require Import Prelude.

Local Open Scope Z_scope.

(** * Constants *)

Definition MatchAll : string := "*".

Abbreviation LogMode := string (only parsing).
Definition LogOn : LogMode := "on".
Definition LogOff : LogMode := "off".

Abbreviation LimitStrategy := string (only parsing).
Definition LocalLimit : LimitStrategy := "local".
Definition GlobalAllocateLimit : LimitStrategy := "globalAllocate".
Definition GlobalCountLimit : LimitStrategy := "globalCount".

Abbreviation Strategy := string (only parsing).
Definition RoundRobin : Strategy := "RoundRobin".

(** The type of a flow control is only ever computed, so it is an
    enumeration. *)
Inductive FlowControlSchemaType :=
  | Unknown
  | Exempt
  | MaxRequestsInflight
  | TokenBucket.

(** * UpstreamCluster *)

Record ExemptFlowControlSchema := MkExempt {}.

Record MaxRequestsInflightFlowControlSchema := MkMaxInflight {
  Max : Z
}.

Record TokenBucketFlowControlSchema := MkTokenBucket {
  QPS : Z;
  Burst : Z
}.

Record FlowControlSchemaConfiguration := MkSchemaConfig {
  fc_Exempt : option ExemptFlowControlSchema;
  fc_MaxRequestsInflight : option MaxRequestsInflightFlowControlSchema;
  fc_TokenBucket : option TokenBucketFlowControlSchema;
  fc_GlobalMaxRequestsInflight : option MaxRequestsInflightFlowControlSchema;
  fc_GlobalTokenBucket : option TokenBucketFlowControlSchema
}.

Record FlowControlSchema := MkSchema {
  fs_Name : string;
  fs_Config : FlowControlSchemaConfiguration;
  fs_Strategy : LimitStrategy
}.

Record FlowControl := MkFlowControl {
  Schemas : list FlowControlSchema
}.

Record LoggingConfig := MkLogging {
  Mode : LogMode
}.

Record SecureServing := MkSecureServing {
  ss_KeyData : string;
  ss_CertData : string;
  ss_ClientCAData : string;
  ss_ServerNames : list string
}.

Record ClientConfig := MkClientConfig {
  cc_Insecure : bool;
  cc_BearerToken : string;
  cc_KeyData : string;
  cc_CertData : string;
  cc_CAData : string;
  cc_QPS : Z;
  cc_Burst : Z;
  cc_QPSDivisor : Z;
  cc_ServerName : string
}.

Record UpstreamClusterServer := MkServer {
  Endpoint : string;
  Disabled : option bool
}.

Record ServiceAccountRef := MkServiceAccountRef {
  sa_Name : string;
  sa_Namespace : string
}.

Record DispatchPolicyRule := MkRule {
  Verbs : list string;
  APIGroups : list string;
  Resources : list string;
  ResourceNames : list string;
  Users : list string;
  ServiceAccounts : list ServiceAccountRef;
  UserGroups : list string;
  NonResourceURLs : list string
}.

Record DispatchPolicy := MkPolicy {
  dp_Strategy : Strategy;
  UpstreamSubset : list string;
  Rules : list DispatchPolicyRule;
  FlowControlSchemaName : string;
  dp_LogMode : LogMode
}.

Record UpstreamClusterSpec := MkSpec {
  Servers : list UpstreamClusterServer;
  spec_ClientConfig : ClientConfig;
  spec_SecureServing : SecureServing;
  spec_FlowControl : FlowControl;
  DispatchPolicies : list DispatchPolicy;
  Logging : LoggingConfig
}.

Record UpstreamCluster := MkCluster {
  uc_Name : string;
  uc_Annotations : option (gmap string string);
  uc_Spec : UpstreamClusterSpec
}.

(** * Rate limit objects *)

Record LimitItemDetail := MkDetail {
  li_MaxRequestsInflight : option MaxRequestsInflightFlowControlSchema;
  li_TokenBucket : option TokenBucketFlowControlSchema
}.

Record RateLimitItemConfiguration := MkItemConfig {
  ric_Name : string;
  ric_Detail : LimitItemDetail;
  ric_Strategy : LimitStrategy
}.

Record RateLimitItemStatus := MkItemStatus {
  ris_Name : string;
  ris_Detail : LimitItemDetail;
  RequestLevel : Z
}.

Record RateLimitSpec := MkRateLimitSpec {
  rls_UpstreamCluster : string;
  rls_Instance : string;
  LimitItemConfigurations : list RateLimitItemConfiguration
}.

Record RateLimitStatus := MkRateLimitStatus {
  LimitItemStatuses : list RateLimitItemStatus
}.

Record RateLimitCondition := MkCondition {
  rlc_Name : string;
  rlc_ResourceVersion : string;
  rlc_Labels : option (gmap string string);
  rlc_Spec : RateLimitSpec;
  rlc_Status : RateLimitStatus
}.

Record EndpointInfo := MkEndpointInfo {
  Leader : string;
  ShardID : Z
}.

Record RateLimitServerInfo := MkServerInfo {
  si_Server : string;
  si_ID : string;
  si_ShardCount : Z;
  ManagedShards : list Z;
  si_Endpoints : list EndpointInfo
}.

Record RateLimitAcquireRequest := MkAcquireRequest {
  arq_FlowControl : string;
  Tokens : Z
}.

Record RateLimitAcquireSpec := MkAcquireSpec {
  as_Instance : string;
  Requests : list RateLimitAcquireRequest;
  RequestID : Z
}.

Record RateLimitAcquireResult := MkAcquireResult {
  arr_FlowControl : string;
  Accept : bool;
  Limit : Z;
  Error : string
}.

Record RateLimitAcquireStatus := MkAcquireStatus {
  Results : list RateLimitAcquireResult
}.

Record RateLimitAcquire := MkAcquire {
  ra_Name : string;
  ra_Spec : RateLimitAcquireSpec;
  ra_Status : RateLimitAcquireStatus
}.

(** * Decidable equality

    [apiequality.Semantic.DeepEqual] and [reflect.DeepEqual] on these
    objects are [decide (_ = _)]. *)

#[export] Instance FlowControlSchemaType_eq_dec : EqDecision FlowControlSchemaType.
Proof. solve_decision. Defined.
#[export] Instance ExemptFlowControlSchema_eq_dec : EqDecision ExemptFlowControlSchema.
Proof. solve_decision. Defined.
#[export] Instance MaxRequestsInflightFlowControlSchema_eq_dec :
  EqDecision MaxRequestsInflightFlowControlSchema.
Proof. solve_decision. Defined.
#[export] Instance TokenBucketFlowControlSchema_eq_dec : EqDecision TokenBucketFlowControlSchema.
Proof. solve_decision. Defined.
#[export] Instance FlowControlSchemaConfiguration_eq_dec : EqDecision FlowControlSchemaConfiguration.
Proof. solve_decision. Defined.
#[export] Instance FlowControlSchema_eq_dec : EqDecision FlowControlSchema.
Proof. solve_decision. Defined.
#[export] Instance FlowControl_eq_dec : EqDecision FlowControl.
Proof. solve_decision. Defined.
#[export] Instance LoggingConfig_eq_dec : EqDecision LoggingConfig.
Proof. solve_decision. Defined.
#[export] Instance SecureServing_eq_dec : EqDecision SecureServing.
Proof. solve_decision. Defined.
#[export] Instance ServiceAccountRef_eq_dec : EqDecision ServiceAccountRef.
Proof. solve_decision. Defined.
#[export] Instance DispatchPolicyRule_eq_dec : EqDecision DispatchPolicyRule.
Proof. solve_decision. Defined.
#[export] Instance LimitItemDetail_eq_dec : EqDecision LimitItemDetail.
Proof. solve_decision. Defined.
#[export] Instance RateLimitItemConfiguration_eq_dec : EqDecision RateLimitItemConfiguration.
Proof. solve_decision. Defined.
#[export] Instance RateLimitItemStatus_eq_dec : EqDecision RateLimitItemStatus.
Proof. solve_decision. Defined.
#[export] Instance ClientConfig_eq_dec : EqDecision ClientConfig.
Proof. solve_decision. Defined.
#[export] Instance UpstreamClusterServer_eq_dec : EqDecision UpstreamClusterServer.
Proof. solve_decision. Defined.
#[export] Instance DispatchPolicy_eq_dec : EqDecision DispatchPolicy.
Proof. solve_decision. Defined.
#[export] Instance UpstreamClusterSpec_eq_dec : EqDecision UpstreamClusterSpec.
Proof. solve_decision. Defined.
#[export] Instance UpstreamCluster_eq_dec : EqDecision UpstreamCluster.
Proof. solve_decision. Defined.

(** The zero value of the structures the code starts from. *)
Definition empty_config : FlowControlSchemaConfiguration := MkSchemaConfig None None None None None.
Definition empty_detail : LimitItemDetail := MkDetail None None.
Definition empty_item_status : RateLimitItemStatus := MkItemStatus "" empty_detail 0.
Definition empty_condition : RateLimitCondition :=
  MkCondition "" "" None (MkRateLimitSpec "" "" []) (MkRateLimitStatus []).
Definition empty_item_config : RateLimitItemConfiguration := MkItemConfig "" empty_detail "".
