(* ===== verification/Matching.v ===== *)
(** Request matching: which dispatch policy of a cluster a request takes
    ([pkg/apis/proxy/v1alpha1/evaluation_helpers.go] and
    [pkg/clusters/matcher.go]).  The definitions follow the code; the second
    half gives the declarative reading of a rule list ([entry], [accepts])
    and shows that the code computes it. *)
From stdpp Require Import base list strings.
From Stdlib Require Import ZArith Lia Ascii.
From S2P Require Import Prelude ApiTypes.

(** * The code *)

Definition ServiceAccountUsernamePrefix : string := "system:serviceaccount:".
Definition ServiceAccountUsernameSeparator : string := ":".

Definition MakeServiceAccountUsername (namespace name : string) : string :=
  ServiceAccountUsernamePrefix +:+ namespace +:+ ServiceAccountUsernameSeparator +:+ name.

Record matcher := MkMatcher {
  reverse : bool;
  value : string
}.

Definition matcher_match (m : matcher) (request : string) : bool :=
  if reverse m then negb (bool_decide (value m = request))
  else bool_decide (value m = request).

(** The loop of [filterRules]: [filtered] and [reversed] are the slices
    appended to; the [break] on ["*"] leaves the rest of the rules unread. *)
Fixpoint filterRules_loop (rules : list string) (filtered reversed : list matcher)
    : list matcher * list matcher * bool :=
  match rules with
  | [] => (filtered, reversed, false)
  | r :: rules' =>
      if decide (r = MatchAll) then (filtered, reversed, true)
      else match r with
           | String "-" v => filterRules_loop rules' filtered (reversed ++ [MkMatcher true v])
           | _ => filterRules_loop rules' (filtered ++ [MkMatcher false r]) reversed
           end
  end.

Definition filterRules (rules : list string) : list matcher * bool :=
  let '(filtered, reversed, matchAll) := filterRules_loop rules [] [] in
  match filtered with
  | [] => (reversed, matchAll)
  | _ :: _ => (filtered, matchAll)
  end.

Definition simpleMatches (rules requests : list string)
    (matchFn : list (matcher -> bool)) : bool :=
  let '(filtered, matchAll) := filterRules rules in
  if matchAll then true
  else existsb (fun v => existsb (matcher_match v) requests
                         || existsb (fun match_ => match_ v) matchFn) filtered.

Definition VerbMatches (verbs : list string) (request : string) : bool :=
  simpleMatches verbs [request] [].

Definition APIGroupMatches (apiGroups : list string) (request : string) : bool :=
  simpleMatches apiGroups [request] [].

(** The closure [ResourceMatches] passes to [simpleMatches]. *)
Definition subresource_matchFn (requestedSubresource : string) (m : matcher) : bool :=
  if decide (requestedSubresource = "") then false
  else if HasPrefix (value m) "*/" then
    let allSubresource := "*/" +:+ requestedSubresource in
    (negb (reverse m) && bool_decide (value m = allSubresource))
    || (reverse m && negb (bool_decide (value m = allSubresource)))
  else false.

Definition ResourceMatches (resources : list string)
    (combinedRequestedResource requestedSubresource : string) : bool :=
  simpleMatches resources [combinedRequestedResource]
    [subresource_matchFn requestedSubresource].

Definition ResourceNameMatches (resourceNames : list string) (request : string) : bool :=
  match resourceNames with
  | [] => true
  | _ :: _ => simpleMatches resourceNames [request] []
  end.

(** [strings.HasSuffix(v, "*") && strings.HasPrefix(request,
    strings.TrimRight(v, "*"))] *)
Definition trailing_wildcard (v request : string) : bool :=
  HasSuffix v "*" && HasPrefix request (TrimRight v "*"%char).

Definition UserOrServiceAccountMatches (users : list string)
    (serviceAccounts : list ServiceAccountRef) (requestUser : string) : bool :=
  match users, serviceAccounts with
  | [], [] => true
  | _, _ =>
      simpleMatches users [requestUser] [fun m => trailing_wildcard (value m) requestUser]
      || existsb (fun sa =>
           if decide (sa_Namespace sa = "" \/ sa_Name sa = "") then false
           else bool_decide (MakeServiceAccountUsername (sa_Namespace sa) (sa_Name sa)
                             = requestUser)) serviceAccounts
  end.

Definition UserGroupMatches (userGroups requestGroups : list string) : bool :=
  match userGroups with
  | [] => true
  | _ :: _ => simpleMatches userGroups requestGroups []
  end.

Definition NonResourceURLMatches (nonResourceURLs : list string) (request : string) : bool :=
  let '(filtered, matchAll) := filterRules nonResourceURLs in
  if matchAll then true
  else existsb (fun v => if reverse v then false
                         else matcher_match v request || trailing_wildcard (value v) request)
         filtered.

(** What [authorizer.Attributes] answers for a request. *)
Record Attributes := MkAttributes {
  GetUserName : string;
  GetUserGroups : list string;
  GetVerb : string;
  GetAPIGroup : string;
  GetResource : string;
  GetSubresource : string;
  GetName : string;
  GetPath : string;
  IsResourceRequest : bool
}.

Definition RuleMatches (attr : Attributes) (rule : DispatchPolicyRule) : bool :=
  let basicMatch :=
    VerbMatches (Verbs rule) (GetVerb attr)
    && UserOrServiceAccountMatches (Users rule) (ServiceAccounts rule) (GetUserName attr)
    && UserGroupMatches (UserGroups rule) (GetUserGroups attr) in
  if negb basicMatch then false
  else if IsResourceRequest attr then
    let combinedResource :=
      if decide (GetSubresource attr = "") then GetResource attr
      else GetResource attr +:+ "/" +:+ GetSubresource attr in
    APIGroupMatches (APIGroups rule) (GetAPIGroup attr)
    && ResourceMatches (Resources rule) combinedResource (GetSubresource attr)
    && ResourceNameMatches (ResourceNames rule) (GetName attr)
  else NonResourceURLMatches (NonResourceURLs rule) (GetPath attr).

Definition PolicyMatches (attr : Attributes) (policy : DispatchPolicy) : bool :=
  existsb (RuleMatches attr) (Rules policy).

Fixpoint MatchPolicies (attr : Attributes) (policies : list DispatchPolicy)
    : option DispatchPolicy :=
  match policies with
  | [] => None
  | p :: policies' => if PolicyMatches attr p then Some p else MatchPolicies attr policies'
  end.

(** * The declarative reading of a rule list *)

(** An entry of a rule list is positive, or inverted by a leading ['-']. *)
Definition entry (r : string) : matcher :=
  match r with
  | String "-" v => MkMatcher true v
  | _ => MkMatcher false r
  end.

Definition positives (rules : list string) : list matcher :=
  filter (fun m => reverse m = false) (entry <$> rules).
Definition negatives (rules : list string) : list matcher :=
  filter (fun m => reverse m = true) (entry <$> rules).

(** The entries that count: inverted entries only when there is no positive
    one. *)
Definition effective (rules : list string) : list matcher :=
  match positives rules with [] => negatives rules | _ => positives rules end.

(** * Lemmas *)

Lemma filterRules_loop_cons x rules f r :
  filterRules_loop (x :: rules) f r =
    if decide (x = MatchAll) then (f, r, true)
    else if reverse (entry x) then filterRules_loop rules f (r ++ [entry x])
    else filterRules_loop rules (f ++ [entry x]) r.
Proof.
  cbn [filterRules_loop]. destruct (decide (x = MatchAll)); [done|].
  by destruct x as [|[[] [] [] [] [] [] [] []] v].
Qed.

Lemma filterRules_loop_nostar rules f r :
  MatchAll ∉ rules ->
  filterRules_loop rules f r = (f ++ positives rules, r ++ negatives rules, false).
Proof.
  unfold positives, negatives. revert f r.
  induction rules as [|x rules IH]; intros f r Hx.
  - simpl. by rewrite !app_nil_r.
  - apply not_elem_of_cons in Hx as [Hne Hx].
    rewrite filterRules_loop_cons. rewrite (decide_False (P := x = MatchAll)) by congruence.
    rewrite fmap_cons, !filter_cons.
    destruct (reverse (entry x)) eqn:E; simpl; rewrite IH by done; by rewrite <- !app_assoc.
Qed.

Lemma filterRules_loop_star rules f r :
  MatchAll ∈ rules -> snd (filterRules_loop rules f r) = true.
Proof.
  revert f r. induction rules as [|x rules IH]; intros f r Hx.
  - by apply elem_of_nil in Hx.
  - rewrite filterRules_loop_cons. destruct (decide (x = MatchAll)); [done|].
    apply elem_of_cons in Hx as [Hx|Hx]; [congruence|]. case_match; auto.
Qed.

Lemma filterRules_star rules : MatchAll ∈ rules -> snd (filterRules rules) = true.
Proof.
  intros Hs. pose proof (filterRules_loop_star rules [] [] Hs).
  unfold filterRules. by destruct (filterRules_loop rules [] []) as [[[] ?] ?].
Qed.

Lemma filterRules_nostar rules :
  MatchAll ∉ rules -> filterRules rules = (effective rules, false).
Proof.
  intros Hs. unfold filterRules, effective. rewrite filterRules_loop_nostar by done.
  simpl. by destruct (positives rules).
Qed.

(** The declarative reading of [simpleMatches]. *)
Definition accepts (rules requests : list string) (fns : list (matcher -> bool)) : Prop :=
  MatchAll ∈ rules \/
  exists m, m ∈ effective rules /\
    ((exists q, q ∈ requests /\ matcher_match m q = true) \/
     (exists fn, fn ∈ fns /\ fn m = true)).

Lemma simpleMatches_accepts rules requests fns :
  simpleMatches rules requests fns = true <-> accepts rules requests fns.
Proof.
  unfold simpleMatches, accepts. destruct (decide (MatchAll ∈ rules)) as [Hs|Hs].
  - pose proof (filterRules_star rules Hs).
    destruct (filterRules rules) as [? []]; simpl in *; [|done]. tauto.
  - rewrite filterRules_nostar by done. rewrite existsb_exists.
    setoid_rewrite orb_true_iff. setoid_rewrite existsb_exists.
    setoid_rewrite <- list_elem_of_In. split; [by right|]. by intros [?|?].
Qed.

Lemma NonResourceURLMatches_accepts rules request :
  NonResourceURLMatches rules request = true <->
  MatchAll ∈ rules \/
  exists m, m ∈ effective rules /\ reverse m = false /\
    (matcher_match m request = true \/ trailing_wildcard (value m) request = true).
Proof.
  unfold NonResourceURLMatches. destruct (decide (MatchAll ∈ rules)) as [Hs|Hs].
  - pose proof (filterRules_star rules Hs).
    destruct (filterRules rules) as [? []]; simpl in *; [|done]. tauto.
  - rewrite filterRules_nostar by done. rewrite existsb_exists.
    setoid_rewrite <- list_elem_of_In. split.
    + intros (m & Hm & Hb). right. exists m. destruct (reverse m); [done|].
      apply orb_true_iff in Hb. auto.
    + intros [?|(m & Hm & Hr & Hb)]; [done|]. exists m. rewrite Hr.
      rewrite orb_true_iff. auto.
Qed.

(** [simpleMatches] and [NonResourceURLMatches] only look at whether the
    list has the wildcard and, if not, at its effective entries. *)
Definition rules_equiv (l k : list string) : Prop :=
  (MatchAll ∈ l <-> MatchAll ∈ k) /\
  (MatchAll ∉ l -> effective l = effective k) /\ (l = [] <-> k = []).

#[export] Instance rules_equiv_equivalence : Equivalence rules_equiv.
Proof.
  split.
  - intros l. repeat split; auto.
  - intros l k (H1 & H2 & H3). repeat split; try tauto.
    intros Hk. symmetry. apply H2. tauto.
  - intros l k j (H1 & H2 & H3) (K1 & K2 & K3).
    repeat split; try tauto. intros Hl. rewrite H2 by done. apply K2. tauto.
Qed.

#[export] Instance simpleMatches_proper :
  Proper (rules_equiv ==> eq ==> eq ==> eq) simpleMatches.
Proof.
  intros l k (Hs & He & _) q ? <- fns ? <-. apply eq_true_iff_eq.
  rewrite !simpleMatches_accepts. unfold accepts.
  destruct (decide (MatchAll ∈ l)); [tauto|]. rewrite He by done. tauto.
Qed.

#[export] Instance NonResourceURLMatches_proper :
  Proper (rules_equiv ==> eq ==> eq) NonResourceURLMatches.
Proof.
  intros l k (Hs & He & _) q ? <-. apply eq_true_iff_eq.
  rewrite !NonResourceURLMatches_accepts.
  destruct (decide (MatchAll ∈ l)); [tauto|]. rewrite He by done. tauto.
Qed.

#[export] Instance VerbMatches_proper : Proper (rules_equiv ==> eq ==> eq) VerbMatches.
Proof. intros l k H q ? <-. unfold VerbMatches. by rewrite H. Qed.
#[export] Instance APIGroupMatches_proper : Proper (rules_equiv ==> eq ==> eq) APIGroupMatches.
Proof. intros l k H q ? <-. unfold APIGroupMatches. by rewrite H. Qed.
#[export] Instance ResourceMatches_proper :
  Proper (rules_equiv ==> eq ==> eq ==> eq) ResourceMatches.
Proof. intros l k H q ? <- s ? <-. unfold ResourceMatches. by rewrite H. Qed.

(** The matchers that give an empty list a meaning of its own. *)
Lemma nil_case {A} (l k : list string) (x y : A) :
  (l = [] <-> k = []) ->
  match l with [] => x | _ :: _ => y end = match k with [] => x | _ :: _ => y end.
Proof. intros [Hl Hk]. destruct l, k; try done; [by discriminate Hl|by discriminate Hk]. Qed.

Lemma simpleMatches_equiv l k q fns :
  rules_equiv l k -> simpleMatches l q fns = simpleMatches k q fns.
Proof. intros H. by rewrite H. Qed.

#[export] Instance ResourceNameMatches_proper :
  Proper (rules_equiv ==> eq ==> eq) ResourceNameMatches.
Proof.
  intros l k H q ? <-. unfold ResourceNameMatches. rewrite (simpleMatches_equiv l k) by done.
  apply nil_case, H.
Qed.
#[export] Instance UserGroupMatches_proper : Proper (rules_equiv ==> eq ==> eq) UserGroupMatches.
Proof.
  intros l k H q ? <-. unfold UserGroupMatches. rewrite (simpleMatches_equiv l k) by done.
  apply nil_case, H.
Qed.
#[export] Instance UserOrServiceAccountMatches_proper :
  Proper (rules_equiv ==> eq ==> eq ==> eq) UserOrServiceAccountMatches.
Proof.
  intros l k H sas ? <- u ? <-. unfold UserOrServiceAccountMatches.
  rewrite (simpleMatches_equiv l k) by done.
  destruct H as (_ & _ & Hn). destruct l, k, sas; try done;
    (discriminate (proj1 Hn eq_refl) || discriminate (proj2 Hn eq_refl)).
Qed.

(** ** What an entry says *)

Lemma entry_inverted v : entry (String "-" v) = MkMatcher true v.
Proof. done. Qed.

Lemma entry_value r : reverse (entry r) = false -> value (entry r) = r.
Proof. by destruct r as [|[[] [] [] [] [] [] [] []] v]. Qed.

Lemma entry_spelling r : reverse (entry r) = true -> r = String "-" (value (entry r)).
Proof. by destruct r as [|[[] [] [] [] [] [] [] []] v]. Qed.

Lemma elem_of_positives rules m :
  m ∈ positives rules <-> reverse m = false /\ value m ∈ rules /\ entry (value m) = m.
Proof.
  unfold positives. rewrite list_elem_of_filter, list_elem_of_fmap. split.
  - intros (Hr & x & -> & Hx). pose proof (entry_value x Hr) as Hv. rewrite Hv. auto.
  - intros (Hr & Hin & He). split; [done|]. by exists (value m).
Qed.

Lemma elem_of_negatives rules m :
  m ∈ negatives rules <-> reverse m = true /\ String "-" (value m) ∈ rules.
Proof.
  unfold negatives. rewrite list_elem_of_filter, list_elem_of_fmap. split.
  - intros (Hr & x & -> & Hx). pose proof (entry_spelling x Hr) as Hv. rewrite <- Hv. auto.
  - intros (Hr & Hin). split; [done|]. exists (String "-" (value m)). split; [|done].
    rewrite entry_inverted. destruct m; simpl in *. by subst.
Qed.

(** A list made of inverted entries only. *)
Definition all_inverted (rules : list string) : Prop := positives rules = [].

Definition all_inverted_dec rules : Decision (all_inverted rules).
Proof.
  unfold all_inverted. destruct (positives rules); [by left|by right].
Defined.

Lemma effective_inverted rules : all_inverted rules -> effective rules = negatives rules.
Proof. unfold all_inverted, effective. by intros ->. Qed.

Lemma effective_positive rules : ~ all_inverted rules -> effective rules = positives rules.
Proof. unfold all_inverted, effective. by destruct (positives rules). Qed.

Lemma matcher_match_true m q :
  matcher_match m q = true <-> if reverse m then value m <> q else value m = q.
Proof.
  unfold matcher_match. destruct (reverse m).
  - by rewrite negb_true_iff, bool_decide_eq_false.
  - apply bool_decide_eq_true.
Qed.

Lemma simpleMatches_single rules q :
  simpleMatches rules [q] [] = true <->
  MatchAll ∈ rules \/ (q ∈ rules /\ reverse (entry q) = false) \/
  (all_inverted rules /\ exists v, String "-" v ∈ rules /\ v <> q).
Proof.
  rewrite simpleMatches_accepts. unfold accepts.
  destruct (all_inverted_dec rules) as [Hi|Hi].
  - rewrite effective_inverted by done. setoid_rewrite elem_of_negatives. split.
    + intros [?|(m & (Hr & Hm) & [(q' & ->%list_elem_of_singleton & Hq)|(fn & Hfn & _)])];
        [by left| |by apply elem_of_nil in Hfn].
      right; right. apply matcher_match_true in Hq. rewrite Hr in Hq. eauto.
    + intros [?|[[Hq Hr]|(_ & v & Hv & Hne)]]; [by left| |].
      * assert (entry q ∈ positives rules) as Hp.
        { apply elem_of_positives. rewrite entry_value by done. auto. }
        rewrite Hi in Hp. by apply elem_of_nil in Hp.
      * right. exists (MkMatcher true v). split; [done|]. left. exists q.
        rewrite list_elem_of_singleton, matcher_match_true. done.
  - rewrite effective_positive by done. setoid_rewrite elem_of_positives. split.
    + intros [?|(m & (Hr & Hm & He) & [(q' & ->%list_elem_of_singleton & Hq)|(fn & Hfn & _)])];
        [by left| |by apply elem_of_nil in Hfn].
      right; left. apply matcher_match_true in Hq. rewrite Hr in Hq. subst q. by rewrite He.
    + intros [?|[[Hq Hr]|(? & _)]]; [by left| |done].
      right. exists (entry q). rewrite (entry_value q) by done. split; [done|].
      left. exists q. rewrite list_elem_of_singleton, matcher_match_true, Hr, entry_value by done.
      done.
Qed.

(** ** Trailing wildcards *)

Lemma TrimRight_snoc p c : TrimRight (p +:+ String c "") c = TrimRight p c.
Proof.
  induction p as [|a p IH]; unfold String.app in *; simpl.
  - by rewrite decide_True.
  - by rewrite IH.
Qed.

Lemma TrimRight_fixed p c : HasSuffix p (String c "") = false -> TrimRight p c = p.
Proof.
  induction p as [|a p IH]; simpl; [done|].
  case_decide as Hd; [done|]. intros Hs. rewrite IH by done.
  destruct p as [|b p]; [|done]. rewrite decide_False; [done|]. congruence.
Qed.

Lemma trailing_wildcard_prefix p request :
  HasSuffix p "*" = false -> trailing_wildcard (p +:+ "*") request = HasPrefix request p.
Proof.
  intros Hp. unfold trailing_wildcard.
  rewrite TrimRight_snoc, TrimRight_fixed by done.
  replace (HasSuffix (p +:+ "*") "*") with true; [done|].
  symmetry. apply HasSuffix_spec. by exists p.
Qed.

(** ** Service account names *)

Definition no_colon (s : string) : Prop := Contains s ":" = false.

Lemma no_colon_split s t s' t' :
  no_colon s -> no_colon s' -> s +:+ ":" +:+ t = s' +:+ ":" +:+ t' -> s = s' /\ t = t'.
Proof.
  unfold no_colon. revert s'.
  induction s as [|a s IH]; intros [|b s'] Hs Hs' Heq; unfold String.app in *; simpl in Heq;
    rewrite ?Contains_char_cons in *; simplify_eq; bool_to_prop; try done.
  destruct (IH s') as [-> ->]; auto.
Qed.

Lemma MakeServiceAccountUsername_inj ns n ns' n' :
  no_colon ns -> no_colon ns' ->
  MakeServiceAccountUsername ns n = MakeServiceAccountUsername ns' n' -> ns = ns' /\ n = n'.
Proof.
  intros Hns Hns' Heq. unfold MakeServiceAccountUsername in Heq.
  unfold String.app in Heq. simpl in Heq. simplify_eq.
  by apply no_colon_split.
Qed.

Lemma service_accounts_only sas u :
  sas <> [] ->
  UserOrServiceAccountMatches [] sas u =
  existsb (fun sa =>
    if decide (sa_Namespace sa = "" \/ sa_Name sa = "") then false
    else bool_decide (MakeServiceAccountUsername (sa_Namespace sa) (sa_Name sa) = u)) sas.
Proof. destruct sas; [contradiction|reflexivity]. Qed.

(** ** The chosen policy *)

Lemma MatchPolicies_None attr policies :
  MatchPolicies attr policies = None <-> Forall (fun p => PolicyMatches attr p = false) policies.
Proof.
  induction policies as [|p policies IH]; simpl; [by split|].
  rewrite Forall_cons, <- IH. destruct (PolicyMatches attr p); [|tauto].
  split; [done|]. by intros [].
Qed.

Lemma MatchPolicies_app attr l k :
  MatchPolicies attr (l ++ k) =
    match MatchPolicies attr l with Some p => Some p | None => MatchPolicies attr k end.
Proof. induction l as [|p l IH]; simpl; [done|]. by destruct (PolicyMatches attr p). Qed.

(** A request takes the first policy of the list that has a rule
    matching it, and no policy exactly when no rule of any policy matches:
    earlier policies take precedence over later ones. *)
Theorem MatchPolicies_first attr policies :
  match MatchPolicies attr policies with
  | Some p => exists before after, policies = before ++ p :: after /\
      (exists r, r ∈ Rules p /\ RuleMatches attr r = true) /\
      forall q r, q ∈ before -> r ∈ Rules q -> RuleMatches attr r = false
  | None => forall q r, q ∈ policies -> r ∈ Rules q -> RuleMatches attr r = false
  end.
Proof.
  assert (forall q r, PolicyMatches attr q = false -> r ∈ Rules q -> RuleMatches attr r = false)
    as Hno.
  { intros q r Hq Hr. apply not_true_is_false. intros Ht. apply not_true_iff_false in Hq.
    apply Hq, existsb_exists. exists r. by rewrite <- list_elem_of_In. }
  induction policies as [|p policies IH]; simpl.
  - intros q r Hq. by apply elem_of_nil in Hq.
  - destruct (PolicyMatches attr p) eqn:Hp.
    + exists [], policies. split; [done|]. split.
      * apply existsb_exists in Hp as (r & Hr & ?). exists r. by rewrite list_elem_of_In.
      * intros q r Hq. by apply elem_of_nil in Hq.
    + destruct (MatchPolicies attr policies) as [p'|].
      * destruct IH as (b & a & -> & Hr & Hb). exists (p :: b), a. repeat split; [done..|].
        intros q r [->|Hq]%elem_of_cons; eauto.
      * intros q r [->|Hq]%elem_of_cons; eauto.
Qed.

(** The meaning of a verb list: the request's verb is accepted exactly
    when the list has ["*"], or lists the verb itself, or has only inverted
    entries and one of them inverts some other verb. *)
Theorem VerbMatches_meaning verbs verb :
  VerbMatches verbs verb = true <->
  MatchAll ∈ verbs \/ (verb ∈ verbs /\ reverse (entry verb) = false) \/
  (all_inverted verbs /\ exists v, String "-" v ∈ verbs /\ v <> verb).
Proof. apply simpleMatches_single. Qed.

(** One inverted entry excludes exactly its verb, but two inverted
    entries for different verbs exclude nothing: each accepts the verb that
    the other one inverts. *)
Theorem inverted_verbs v w verb :
  v <> w ->
  VerbMatches [String "-" v] verb = negb (bool_decide (v = verb)) /\
  VerbMatches [String "-" v; String "-" w] verb = true.
Proof.
  intros Hvw. split.
  - unfold VerbMatches, simpleMatches. simpl. by rewrite !orb_false_r.
  - apply simpleMatches_single. right; right. split; [done|].
    destruct (decide (v = verb)) as [->|Hv].
    + exists w. split; [by right; left|done].
    + exists v. split; [by left|done].
Qed.

Lemma inverted_verbs_witness :
  VerbMatches ["-get"] "list" = true /\ VerbMatches ["-get"; "-list"] "get" = true.
Proof.
  pose proof (inverted_verbs "get" "list" "get" ltac:(discriminate)) as [_ H].
  split; [reflexivity|exact H].
Defined.

(** A service account entry admits exactly its own service account: with
    no user entries, a request of a service account passes iff some entry has
    that (non-empty) namespace and name. *)
Theorem service_account_exact sas ns name :
  sas <> [] -> no_colon ns -> (forall sa, sa ∈ sas -> no_colon (sa_Namespace sa)) ->
  ns <> "" -> name <> "" ->
  UserOrServiceAccountMatches [] sas (MakeServiceAccountUsername ns name) = true <->
  MkServiceAccountRef name ns ∈ sas.
Proof.
  intros Hne Hns Hall Hns0 Hn0. rewrite service_accounts_only by exact Hne.
  rewrite existsb_exists. split.
  - intros (sa & Hsa & Hb). apply list_elem_of_In in Hsa.
    destruct (decide _); [discriminate Hb|]. apply bool_decide_eq_true in Hb.
    apply MakeServiceAccountUsername_inj in Hb as [<- <-]; [|by apply Hall|exact Hns].
    by destruct sa.
  - intros Hin. exists (MkServiceAccountRef name ns). split; [by apply list_elem_of_In|].
    cbn [sa_Namespace sa_Name]. rewrite decide_False by (intros [?|?]; contradiction).
    by apply bool_decide_eq_true.
Qed.

Lemma service_account_exact_witness :
  UserOrServiceAccountMatches [] [MkServiceAccountRef "a" "kube"]
    (MakeServiceAccountUsername "kube" "a") = true <->
  MkServiceAccountRef "a" "kube" ∈ [MkServiceAccountRef "a" "kube"].
Proof.
  apply (service_account_exact [MkServiceAccountRef "a" "kube"] "kube" "a"); try discriminate.
  - reflexivity.
  - intros sa ->%list_elem_of_singleton. reflexivity.
Defined.
