(* ===== verification/Validation.v ===== *)
(** Validation of an UpstreamCluster
    ([pkg/apis/proxy/v1alpha1/validation/validation.go]).

    An error keeps its type, the field path and the detail of
    [field.Error]; the bad value is only used to print the error and is not
    kept, but the dereferences made to compute it are ([Panic]).  The
    functions of other modules the code calls are the fields of
    [ValidationDeps]. *)
From stdpp Require Import base list strings gmap sets.
From Stdlib Require Import ZArith Lia.
From S2P Require Import Prelude ApiTypes.

Local Open Scope Z_scope.
Local Open Scope go_scope.

(** * Field errors *)

Inductive path_elem := PName (name : string) | PIndex (i : nat) | PKey (key : string).
Abbreviation Path := (list path_elem) (only parsing).

Definition NewPath (s : string) : Path := [PName s].
Definition Child (p : Path) (s : string) : Path := p ++ [PName s].
Definition Index (p : Path) (i : nat) : Path := p ++ [PIndex i].
Definition Key (p : Path) (k : string) : Path := p ++ [PKey k].

Inductive ErrorType := Required | Invalid | Duplicate | Forbidden.

Record FieldError := MkFieldError {
  fe_Type : ErrorType;
  fe_Field : Path;
  fe_Detail : string
}.
Abbreviation ErrorList := (list FieldError) (only parsing).

(** [if c { allErrs = append(allErrs, e) }] *)
Definition err_if (c : bool) (e : FieldError) : ErrorList := if c then [e] else [].

(** * The code of other modules

    [tls.X509KeyPair] and [certutil.ParseCertsPEM] give an error message or
    succeed; [sets.String.PopAny] picks an element in map iteration order. *)

Class ValidationDeps := {
  ValidateObjectMeta : UpstreamCluster -> Path -> ErrorList;
  X509KeyPair : string -> string -> option string;
  ParseCertsPEM : string -> option string;
  PopAny : gset string -> option string;
  PopAny_spec : forall s, match PopAny s with Some x => x ∈ s | None => s = ∅ end
}.

(** * The code *)

Definition getURLScheme (server : string) : string :=
  if HasPrefix server "http://" then "http"
  else if HasPrefix server "https://" then "https"
  else "".

(** The loop of [ValidateServers]: upstreams, schemes and errors so far. *)
Fixpoint ValidateServers_loop (fldPath : Path) (i : nat) (servers : list UpstreamClusterServer)
    (upstreams schemes : gset string) : gset string * gset string * ErrorList :=
  match servers with
  | [] => (upstreams, schemes, [])
  | s :: servers' =>
      let scheme := getURLScheme (Endpoint s) in
      let '(schemes', errs) :=
        if decide (scheme = "") then
          (schemes, [MkFieldError Invalid (Index (Child fldPath "servers") i)
                       "endpoint must supply http(s) schema"])
        else ({[scheme]} ∪ schemes, []) in
      let '(u, sc, errs') :=
        ValidateServers_loop fldPath (S i) servers' ({[Endpoint s]} ∪ upstreams) schemes' in
      (u, sc, errs ++ errs')
  end.

Definition ValidateServers `{ValidationDeps} (servers : list UpstreamClusterServer)
    (fldPath : Path) : gset string * string * ErrorList :=
  let errs0 := err_if (bool_decide (servers = []))
    (MkFieldError Required (Child fldPath "servers")
       "resource must supply at least one upstream server") in
  let '(upstreams, schemes, errs1) := ValidateServers_loop fldPath 0 servers ∅ ∅ in
  let errs2 := err_if (bool_decide (1 < size schemes)%nat)
    (MkFieldError Invalid (Child fldPath "servers")
       "all upstream servers' endpoints must use the same scheme") in
  let scheme := default "" (PopAny schemes) in
  (upstreams, scheme, errs0 ++ errs1 ++ errs2).

Definition at_least_one_auth : string :=
  "clientConfig must supply at least one user authentication when endpoint schema is HTTPS".

Definition ValidateClientConfig `{ValidationDeps} (scheme : string) (c : ClientConfig)
    (fldPath : Path) : ErrorList :=
  let hasToken := negb (bool_decide (cc_BearerToken c = "")) in
  let hasKey := negb (bool_decide (cc_KeyData c = "")) in
  let hasCert := negb (bool_decide (cc_CertData c = "")) in
  err_if (cc_QPS c <? 0)
    (MkFieldError Invalid (Child fldPath "qps") "qps must be bigger than or equal to 0")
  ++ err_if (cc_Burst c <? 0)
    (MkFieldError Invalid (Child fldPath "burst") "burst must be bigger than or equal to 0")
  ++ err_if (cc_QPSDivisor c <? 0)
    (MkFieldError Invalid (Child fldPath "qpsDivisor")
       "qpsDivisor must be bigger than or equal to 0")
  ++ err_if ((0 <? cc_QPS c) && (cc_Burst c <? cc_QPS c))
    (MkFieldError Invalid (Child fldPath "burst")
       "burst must be bigger than qps when qps is not equal to 0")
  ++ (if bool_decide (scheme = "https") then
        err_if (negb (cc_Insecure c) && bool_decide (cc_CAData c = ""))
          (MkFieldError Required (Child fldPath "caData")
             "clientConfig must supply caData when using secure mode")
        ++ (if negb hasToken && negb hasKey && negb hasCert then
              [MkFieldError Required [PName "spec.clientConfig"] at_least_one_auth]
            else if hasKey || hasCert then
              err_if (negb hasKey)
                (MkFieldError Required (Child fldPath "keyData") at_least_one_auth)
              ++ err_if (negb hasCert)
                (MkFieldError Required (Child fldPath "certData") at_least_one_auth)
            else
              err_if (negb hasToken)
                (MkFieldError Required (Child fldPath "bearerToken") at_least_one_auth))
      else [])
  ++ (if hasKey && hasCert then
        match X509KeyPair (cc_CertData c) (cc_KeyData c) with
        | Some err =>
            [MkFieldError Invalid (Child fldPath "certData")
               ("cluster client CertData invalid:" +:+ err);
             MkFieldError Invalid (Child fldPath "keyData")
               ("cluster client KeyData invalid:" +:+ err)]
        | None => []
        end
      else [])
  ++ (if bool_decide (cc_CAData c = "") then []
      else match ParseCertsPEM (cc_CAData c) with
           | Some err =>
               [MkFieldError Invalid (NewPath "spec.ClientConfig.CAData")
                  ("cluster client CAData invalid:" +:+ err)]
           | None => []
           end).

Definition ValidateSecureServing `{ValidationDeps} (serving : SecureServing)
    (fldPath : Path) : ErrorList :=
  (if bool_decide (ss_CertData serving <> "" /\ ss_KeyData serving <> "") then
     match X509KeyPair (ss_CertData serving) (ss_KeyData serving) with
     | Some err =>
         [MkFieldError Invalid (Child fldPath "certData")
            ("cluster secure serving CertData invalid:" +:+ err);
          MkFieldError Invalid (Child fldPath "keyData")
            ("cluster secure serving KeyData invalid:" +:+ err)]
     | None => []
     end
   else [])
  ++ (if bool_decide (ss_ClientCAData serving = "") then []
      else match ParseCertsPEM (ss_ClientCAData serving) with
           | Some err =>
               [MkFieldError Invalid (Child fldPath "clientCAData")
                  ("cluster secure serving ClientCAData invalid:" +:+ err)]
           | None => []
           end).

Definition validateTokenBucketFlowControlSchema (tb : TokenBucketFlowControlSchema)
    (fldPath : Path) : ErrorList :=
  err_if (QPS tb =? 0) (MkFieldError Invalid (Child fldPath "qps") "must bigger than 0")
  ++ err_if (Burst tb <? QPS tb)
       (MkFieldError Invalid (Child fldPath "burst") "must bigger than qps").

Definition more_than_one : string := "may not specify more than 1 flow control configuration".

(** The block on [MaxRequestsInflight]: errors and the new [numConfig]. *)
Definition checkMaxRequestsInflight (schema : FlowControlSchemaConfiguration)
    (fldPath : Path) (numConfig : Z) : ErrorList * Z :=
  match fc_MaxRequestsInflight schema with
  | None => ([], numConfig)
  | Some m =>
      if 0 <? numConfig then
        ([MkFieldError Forbidden (Child fldPath "maxRequestsInflight") more_than_one], numConfig)
      else
        (err_if (Max m <? 0)
           (MkFieldError Invalid (Child (Child fldPath "maxRequestsInflight") "max")
              "must be bigger than or equal to 0"), numConfig + 1)
  end.

(** The block on [GlobalMaxRequestsInflight].  The bad value of its first
    error is read through [schema.MaxRequestsInflight], nil or not. *)
Definition checkGlobalMaxRequestsInflight (schema : FlowControlSchemaConfiguration)
    (fldPath : Path) : result Empty_set ErrorList :=
  match fc_GlobalMaxRequestsInflight schema with
  | None => Ok []
  | Some g =>
      let path := Child (Child fldPath "globalMaxRequestsInflight") "max" in
      let! errs :=
        if Max g <? 0 then
          match fc_MaxRequestsInflight schema with
          | None => Panic
          | Some _ => Ok [MkFieldError Invalid path "must be bigger than or equal to 0"]
          end
        else Ok [] in
      Ok (errs ++
        match fc_MaxRequestsInflight schema with
        | None =>
            [MkFieldError Required (Child fldPath "maxRequestsInflight")
               "required if globalMaxRequestsInflight is specified"]
        | Some m =>
            err_if (Max g <? Max m)
              (MkFieldError Invalid path
                 "must be bigger than or equal to maxRequestsInflight.max")
        end)
  end.

Definition checkTokenBucket (schema : FlowControlSchemaConfiguration)
    (fldPath : Path) (numConfig : Z) : ErrorList * Z :=
  match fc_TokenBucket schema with
  | None => ([], numConfig)
  | Some tb =>
      if 0 <? numConfig then
        ([MkFieldError Forbidden (Child fldPath "tokenBucket") more_than_one], numConfig)
      else (validateTokenBucketFlowControlSchema tb (Child fldPath "tokenBucket"), numConfig + 1)
  end.

Definition checkGlobalTokenBucket (schema : FlowControlSchemaConfiguration)
    (fldPath : Path) : ErrorList :=
  match fc_GlobalTokenBucket schema with
  | None => []
  | Some g =>
      err_if (QPS g =? 0)
        (MkFieldError Invalid (Child (Child fldPath "globalTokenBucket") "qps")
           "must bigger than 0")
      ++ match fc_TokenBucket schema with
         | None =>
             [MkFieldError Required (Child fldPath "tokenBucket")
                "required if globalTokenBucket is specified"]
         | Some tb =>
             if QPS g <? QPS tb then
               [MkFieldError Invalid (Child (Child fldPath "globalTokenBucket") "qps")
                  "must be bigger than or equal to tokenBucket.qps"]
             else err_if (Burst g <? Burst tb)
               (MkFieldError Invalid (Child (Child fldPath "globalTokenBucket") "burst")
                  "must be bigger than or equal to tokenBucket.burst")
         end
  end.

Definition ValidateFlowControlConfiguration (schema : FlowControlSchemaConfiguration)
    (fldPath : Path) : result Empty_set ErrorList :=
  let numConfig := match fc_Exempt schema with Some _ => 1 | None => 0 end in
  let '(errs1, numConfig) := checkMaxRequestsInflight schema fldPath numConfig in
  let! errs2 := checkGlobalMaxRequestsInflight schema fldPath in
  let '(errs3, numConfig) := checkTokenBucket schema fldPath numConfig in
  let errs4 := checkGlobalTokenBucket schema fldPath in
  Ok (errs1 ++ errs2 ++ errs3 ++ errs4
      ++ err_if (numConfig =? 0)
           (MkFieldError Required fldPath "must specify a flow control type configuration")).

(** [field.Invalid] with the list of strategies printed in its detail. *)
Definition strategy_detail : string :=
  let quote := String (of_byte 34) "" in
  "valid value: must be of of [local globalAllocate globalCount " +:+ quote +:+ quote +:+ "]".

Definition valid_strategy (s : LimitStrategy) : bool :=
  bool_decide (s ∈ [LocalLimit; GlobalAllocateLimit; GlobalCountLimit; ""]).

(** The loop of [ValidateFlowControl] over the schemas from index [i]. *)
Fixpoint ValidateFlowControl_loop (flowControlFieldPath : Path) (i : nat)
    (schemas : list FlowControlSchema) (names : gset string)
    : result Empty_set (gset string * ErrorList) :=
  match schemas with
  | [] => Ok (names, [])
  | fs :: schemas' =>
      let here := Index flowControlFieldPath i in
      let '(names', errs0) :=
        if decide (fs_Name fs = "") then
          (names, [MkFieldError Required (Child here "name") (fs_Name fs)])
        else if decide (fs_Name fs ∈ names) then
          (names, [MkFieldError Duplicate (Child here "name") ""])
        else ({[fs_Name fs]} ∪ names, []) in
      let errs1 := err_if (negb (valid_strategy (fs_Strategy fs)))
        (MkFieldError Invalid (Child here "strategy") strategy_detail) in
      let! errs2 := ValidateFlowControlConfiguration (fs_Config fs) here in
      let! (names'', errs3) :=
        ValidateFlowControl_loop flowControlFieldPath (S i) schemas' names' in
      Ok (names'', errs0 ++ errs1 ++ errs2 ++ errs3)
  end.

Definition ValidateFlowControl (flowcontrol : FlowControl) (fldPath : Path)
    : result Empty_set (gset string * ErrorList) :=
  ValidateFlowControl_loop (Child fldPath "flowControlSchemas") 0 (Schemas flowcontrol) ∅.

Definition valid_log_mode (m : LogMode) : bool := bool_decide (m ∈ [LogOff; LogOn; ""]).

Definition ValidateLoggingConfig (logging : LoggingConfig) (fldPath : Path) : ErrorList :=
  err_if (negb (valid_log_mode (Mode logging)))
    (MkFieldError Invalid (Child fldPath "mode") "valid value: on or off").

Definition ValidateDispatchPolicy (upstreams flowControlSchemaNames : gset string)
    (policy : DispatchPolicy) (fldPath : Path) : ErrorList :=
  err_if (negb (bool_decide (dp_Strategy policy = RoundRobin)))
    (MkFieldError Invalid (Child fldPath "strategy") "")
  ++ mjoin (imap (fun j u =>
       err_if (negb (bool_decide (u ∈ upstreams)))
         (MkFieldError Invalid (Index (Child fldPath "upstreamSubset") j)
            "upstream subset endpoint must be present in servers")) (UpstreamSubset policy))
  ++ err_if (negb (bool_decide (FlowControlSchemaName policy = ""))
             && negb (bool_decide (FlowControlSchemaName policy ∈ flowControlSchemaNames)))
       (MkFieldError Invalid (Child fldPath "flowControlSchemaName")
          "policy's flowControlSchema name must be present in FlowControlShcemas")
  ++ err_if (bool_decide (Rules policy = []))
       (MkFieldError Required (Child fldPath "rules")
          "dispatch policy must supply at least one rule")
  ++ err_if (negb (valid_log_mode (dp_LogMode policy)))
       (MkFieldError Invalid (Child fldPath "mode") "valid value: on or off").

(** Declared beside the others; no caller in the repository. *)
Definition ValidateRule (rule : DispatchPolicyRule) (fldPath : Path) : ErrorList :=
  let errs := err_if (bool_decide (Verbs rule = []))
    (MkFieldError Required (Child fldPath "verbs") "verbs must contain at least one value") in
  match NonResourceURLs rule with
  | _ :: _ => errs
  | [] =>
      errs
      ++ err_if (bool_decide (APIGroups rule = []))
           (MkFieldError Required (Child fldPath "apiGroups")
              "resource rules must supply at least one api group")
      ++ err_if (bool_decide (Resources rule = []))
           (MkFieldError Required (Child fldPath "resources")
              "resource rules must supply at least one resource")
      ++ mjoin (imap (fun i r =>
           err_if (HasSuffix r "/*")
             (MkFieldError Required (Index (Child fldPath "resources") i)
                "rules must not match all subresources of resource")) (Resources rule))
  end.

Definition ValidateUpstreamClusterSpec `{ValidationDeps} (spec : UpstreamClusterSpec)
    (fldPath : Path) : result Empty_set ErrorList :=
  let '(upstreams, scheme, errs1) := ValidateServers (Servers spec) (Child fldPath "servers") in
  let errs2 := ValidateClientConfig scheme (spec_ClientConfig spec) (Child fldPath "clientConfig") in
  let errs3 := ValidateSecureServing (spec_SecureServing spec) (Child fldPath "secureServing") in
  let! (names, errs4) := ValidateFlowControl (spec_FlowControl spec) (Child fldPath "flowControl") in
  let errs5 := ValidateLoggingConfig (Logging spec) (Child fldPath "logging") in
  let errs6 := err_if (bool_decide (DispatchPolicies spec = []))
    (MkFieldError Required (Child fldPath "dispatchPolicies")
       "resource must supply at least one dispatch policy") in
  let errs7 := mjoin (imap (fun i policy =>
    ValidateDispatchPolicy upstreams names policy
      (Index (Child fldPath "dispatchPolicies") i)) (DispatchPolicies spec)) in
  Ok (errs1 ++ errs2 ++ errs3 ++ errs4 ++ errs5 ++ errs6 ++ errs7).

Definition ValidateUpstreamCluster `{ValidationDeps} (cluster : UpstreamCluster)
    : result Empty_set ErrorList :=
  let errs0 := ValidateObjectMeta cluster (NewPath "metadata") in
  let! errs1 := ValidateUpstreamClusterSpec (uc_Spec cluster) (NewPath "spec") in
  Ok (errs0 ++ errs1).

(** * What a clean verdict means *)

(** A flow control configuration that has exactly one kind, with sane
    numbers, and global limits at least the local ones. *)
Record config_ok (c : FlowControlSchemaConfiguration) : Prop := {
  ok_one : match fc_Exempt c, fc_MaxRequestsInflight c, fc_TokenBucket c with
           | Some _, None, None | None, Some _, None | None, None, Some _ => True
           | _, _, _ => False
           end;
  ok_max : forall m, fc_MaxRequestsInflight c = Some m -> 0 <= Max m;
  ok_tb : forall tb, fc_TokenBucket c = Some tb -> QPS tb <> 0 /\ QPS tb <= Burst tb;
  ok_gmax : forall g, fc_GlobalMaxRequestsInflight c = Some g ->
    exists m, fc_MaxRequestsInflight c = Some m /\ Max m <= Max g;
  ok_gtb : forall g, fc_GlobalTokenBucket c = Some g ->
    QPS g <> 0 /\ exists tb, fc_TokenBucket c = Some tb /\ QPS tb <= QPS g /\ Burst tb <= Burst g
}.

(** The schemas of a flow control: unique non-empty names, known strategies,
    good configurations. *)
Record schemas_ok (schemas : list FlowControlSchema) : Prop := {
  ok_names : NoDup (fs_Name <$> schemas);
  ok_schema : Forall (fun fs => fs_Name fs <> "" /\ valid_strategy (fs_Strategy fs) = true
                               /\ config_ok (fs_Config fs)) schemas
}.

Record policy_ok (spec : UpstreamClusterSpec) (p : DispatchPolicy) : Prop := {
  ok_strategy : dp_Strategy p = RoundRobin;
  ok_subset : forall u, u ∈ UpstreamSubset p -> u ∈ Endpoint <$> Servers spec;
  ok_schema_name : FlowControlSchemaName p = "" \/
    FlowControlSchemaName p ∈ fs_Name <$> Schemas (spec_FlowControl spec);
  ok_rules : Rules p <> [];
  ok_log : valid_log_mode (dp_LogMode p) = true
}.

(** All endpoints have one scheme, [http] or [https]. *)
Definition servers_ok (servers : list UpstreamClusterServer) (scheme : string) : Prop :=
  servers <> [] /\ (scheme = "http" \/ scheme = "https") /\
  Forall (fun s => getURLScheme (Endpoint s) = scheme) servers.

(** The client configuration: sane numbers; under https a way to trust the
    server and a way to authenticate; key pair and CA that parse. *)
Record client_ok `{ValidationDeps} (scheme : string) (c : ClientConfig) : Prop := {
  ok_numbers : 0 <= cc_QPS c /\ 0 <= cc_Burst c /\ 0 <= cc_QPSDivisor c /\
    (0 < cc_QPS c -> cc_QPS c <= cc_Burst c);
  ok_trust : scheme = "https" -> cc_Insecure c = true \/ cc_CAData c <> "";
  ok_auth : scheme = "https" ->
    (cc_KeyData c = "" <-> cc_CertData c = "") /\ (cc_KeyData c = "" -> cc_BearerToken c <> "");
  ok_pair : cc_KeyData c <> "" -> cc_CertData c <> "" ->
    X509KeyPair (cc_CertData c) (cc_KeyData c) = None;
  ok_ca : cc_CAData c <> "" -> ParseCertsPEM (cc_CAData c) = None
}.

Record serving_ok `{ValidationDeps} (s : SecureServing) : Prop := {
  ok_serving_pair : ss_CertData s <> "" -> ss_KeyData s <> "" ->
    X509KeyPair (ss_CertData s) (ss_KeyData s) = None;
  ok_client_ca : ss_ClientCAData s <> "" -> ParseCertsPEM (ss_ClientCAData s) = None
}.

(** A valid specification. *)
Record spec_ok `{ValidationDeps} (spec : UpstreamClusterSpec) : Prop := {
  ok_servers : exists scheme, servers_ok (Servers spec) scheme /\
    client_ok scheme (spec_ClientConfig spec);
  ok_serving : serving_ok (spec_SecureServing spec);
  ok_schemas : schemas_ok (Schemas (spec_FlowControl spec));
  ok_logging : valid_log_mode (Mode (Logging spec)) = true;
  ok_policies : DispatchPolicies spec <> [];
  ok_policy : Forall (policy_ok spec) (DispatchPolicies spec)
}.

(** * Lemmas *)

Lemma err_if_nil c e : err_if c e = [] <-> c = false.
Proof. by destruct c. Qed.

Lemma app_nil_iff {A} (l k : list A) : l ++ k = [] <-> l = [] /\ k = [].
Proof. destruct l; simpl; [tauto|]. split; [done|]. by intros [? _]. Qed.

Lemma mjoin_imap_nil {A B} (f : nat -> A -> list B) (l : list A) (P : A -> Prop) :
  (forall i x, f i x = [] <-> P x) -> mjoin (imap f l) = [] <-> Forall P l.
Proof.
  intros Hf. revert f Hf. induction l as [|x l IH]; intros f Hf; simpl.
  - split; [constructor|done].
  - rewrite app_nil_iff, Hf, Forall_cons. rewrite IH; [done|]. intros i y. apply Hf.
Qed.

Ltac errs_nil := rewrite ?app_nil_iff, ?err_if_nil, ?negb_false_iff, ?andb_false_iff,
  ?bool_decide_eq_true, ?bool_decide_eq_false, ?Z.ltb_ge, ?Z.eqb_neq.

Lemma result_Ok_inj {E A} (a b : A) : @Ok E A a = Ok b <-> a = b.
Proof. split; congruence. Qed.

Lemma checkMax_nil c p n errs k :
  0 <= n -> checkMaxRequestsInflight c p n = (errs, k) ->
  errs = [] <->
  (forall m, fc_MaxRequestsInflight c = Some m -> n = 0 /\ 0 <= Max m).
Proof.
  unfold checkMaxRequestsInflight. intros Hn.
  destruct (fc_MaxRequestsInflight c) as [m|]; [|naive_solver].
  destruct (Z.ltb_spec 0 n); intros [= <- <-].
  - split; [done|]. intros Hm. destruct (Hm m eq_refl). lia.
  - rewrite err_if_nil, Z.ltb_ge. split; [|naive_solver].
    intros Hm m' [= <-]. lia.
Qed.

Lemma checkGlobalMax_nil c p :
  checkGlobalMaxRequestsInflight c p = Ok [] <->
  (forall g, fc_GlobalMaxRequestsInflight c = Some g ->
     0 <= Max g /\ exists m, fc_MaxRequestsInflight c = Some m /\ Max m <= Max g).
Proof.
  unfold checkGlobalMaxRequestsInflight.
  destruct (fc_GlobalMaxRequestsInflight c) as [g|]; [|naive_solver].
  destruct (Z.ltb_spec (Max g) 0).
  - split; [destruct (fc_MaxRequestsInflight c); done|]. intros Hg.
    destruct (Hg g eq_refl). lia.
  - destruct (fc_MaxRequestsInflight c) as [m|]; simpl.
    + rewrite result_Ok_inj, err_if_nil, Z.ltb_ge. naive_solver.
    + split; [done|]. intros Hg. naive_solver.
Qed.

Lemma checkTokenBucket_nil c p n errs k :
  0 <= n -> checkTokenBucket c p n = (errs, k) ->
  errs = [] <->
  (forall tb, fc_TokenBucket c = Some tb -> n = 0 /\ QPS tb <> 0 /\ QPS tb <= Burst tb).
Proof.
  unfold checkTokenBucket. intros Hn.
  destruct (fc_TokenBucket c) as [tb|]; [|naive_solver].
  destruct (Z.ltb_spec 0 n); intros [= <- <-].
  - split; [done|]. intros Hm. destruct (Hm tb eq_refl). lia.
  - unfold validateTokenBucketFlowControlSchema. errs_nil. split; [|intros Hm; destruct (Hm tb eq_refl); tauto].
    intros Hm tb' [= <-]. split; [lia|tauto].
Qed.

Lemma checkGlobalTokenBucket_nil c p :
  checkGlobalTokenBucket c p = [] <->
  (forall g, fc_GlobalTokenBucket c = Some g ->
    QPS g <> 0 /\ exists tb, fc_TokenBucket c = Some tb /\ QPS tb <= QPS g /\ Burst tb <= Burst g).
Proof.
  unfold checkGlobalTokenBucket.
  destruct (fc_GlobalTokenBucket c) as [g|]; [|naive_solver]. errs_nil.
  destruct (fc_TokenBucket c) as [tb|]; [|naive_solver].
  destruct (Z.ltb_spec (QPS g) (QPS tb)).
  - split; [naive_solver|]. intros Hg. destruct (Hg g eq_refl) as [_ (? & [= <-] & ? & ?)]. lia.
  - errs_nil. naive_solver.
Qed.

(** [numConfig] after a block: 1 exactly when a kind has been counted. *)
Lemma checkMax_num c p n errs k :
  checkMaxRequestsInflight c p n = (errs, k) ->
  k = match fc_MaxRequestsInflight c with Some _ => if 0 <? n then n else n + 1 | None => n end.
Proof.
  unfold checkMaxRequestsInflight.
  destruct (fc_MaxRequestsInflight c); [destruct (0 <? n)|]; by intros [= _ <-].
Qed.

Lemma checkTokenBucket_num c p n errs k :
  checkTokenBucket c p n = (errs, k) ->
  k = match fc_TokenBucket c with Some _ => if 0 <? n then n else n + 1 | None => n end.
Proof.
  unfold checkTokenBucket.
  destruct (fc_TokenBucket c); [destruct (0 <? n)|]; by intros [= _ <-].
Qed.

Lemma ValidateFlowControlConfiguration_nil c p :
  ValidateFlowControlConfiguration c p = Ok [] <-> config_ok c.
Proof.
  unfold ValidateFlowControlConfiguration.
  set (n := match fc_Exempt c with Some _ => 1 | None => 0 end).
  assert (0 <= n) as Hn by (unfold n; by destruct (fc_Exempt c)).
  destruct (checkMaxRequestsInflight c p n) as [e1 k1] eqn:E1.
  destruct (checkTokenBucket c p k1) as [e3 k3] eqn:E3.
  pose proof (checkMax_num _ _ _ _ _ E1) as Hk1. pose proof (checkTokenBucket_num _ _ _ _ _ E3) as Hk3.
  assert (0 <= k1) as Hk by (subst k1; repeat case_match; lia).
  apply checkMax_nil in E1; [|done]. apply checkTokenBucket_nil in E3; [|done].
  pose proof (checkGlobalMax_nil c p) as E2. pose proof (checkGlobalTokenBucket_nil c p) as E4.
  rewrite result_bind_Ok. split.
  - intros (e2 & H2 & [= H]).
    rewrite !app_nil_iff, err_if_nil, Z.eqb_neq in H. destruct H as (He1 & -> & He3 & He4 & Hz).
    rewrite E1 in He1. rewrite E2 in H2. rewrite E3 in He3. rewrite E4 in He4.
    split; [|intros m Hm; apply (He1 m Hm)|intros tb Htb; apply (He3 tb Htb)
             |intros g Hg; apply (H2 g Hg)|exact He4].
    subst k3 k1 n. destruct (fc_Exempt c), (fc_MaxRequestsInflight c) as [m|],
      (fc_TokenBucket c) as [tb|]; simpl in *; try done;
      try (destruct (He1 _ eq_refl); lia); try (destruct (He3 _ eq_refl); lia).
  - intros [H1 Hm Htb Hgm Hgt]. exists []. rewrite E2. split.
    { intros g Hg. destruct (Hgm g Hg) as (m & Hm' & ?). specialize (Hm m Hm').
      split; [lia|eauto]. }
    rewrite result_Ok_inj, !app_nil_iff, err_if_nil, Z.eqb_neq, E1, E3, E4. clear E1 E2 E3 E4.
    subst k3 k1 n. destruct (fc_Exempt c), (fc_MaxRequestsInflight c) as [m|],
      (fc_TokenBucket c) as [tb|]; simpl in *; try done; split_and!;
      try exact Hgt; try lia; try done; intros ? [= <-]; auto.
Qed.

Lemma checkGlobalMax_panic c p :
  checkGlobalMaxRequestsInflight c p = Panic <->
  exists g, fc_GlobalMaxRequestsInflight c = Some g /\ Max g < 0 /\ fc_MaxRequestsInflight c = None.
Proof.
  unfold checkGlobalMaxRequestsInflight.
  destruct (fc_GlobalMaxRequestsInflight c) as [g|]; [|naive_solver].
  destruct (Z.ltb_spec (Max g) 0), (fc_MaxRequestsInflight c); simpl; split; try done;
    [by intros (? & _ & _ & ?)|by exists g|by intros (? & _ & _ & ?)|].
  intros (? & [= <-] & ? & _). lia.
Qed.

Lemma result_bind_pure_Panic {E A B} (c : result E A) (f : A -> B) :
  result_bind c (fun a => Ok (f a)) = Panic <-> c = Panic.
Proof. by destruct c. Qed.

Lemma ValidateFlowControlConfiguration_panic c p :
  ValidateFlowControlConfiguration c p = Panic <->
  exists g, fc_GlobalMaxRequestsInflight c = Some g /\ Max g < 0 /\ fc_MaxRequestsInflight c = None.
Proof.
  unfold ValidateFlowControlConfiguration.
  destruct (checkMaxRequestsInflight _ _ _) as [e1 k1].
  destruct (checkTokenBucket _ _ _) as [e3 k3].
  rewrite (result_bind_pure_Panic (checkGlobalMaxRequestsInflight c p)).
  apply checkGlobalMax_panic.
Qed.

(** ** Schemas *)

Definition schema_ok (fs : FlowControlSchema) : Prop :=
  fs_Name fs <> "" /\ valid_strategy (fs_Strategy fs) = true /\ config_ok (fs_Config fs).

Lemma ValidateFlowControl_loop_nil p i schemas names names' :
  ValidateFlowControl_loop p i schemas names = Ok (names', []) <->
  Forall schema_ok schemas /\ NoDup (fs_Name <$> schemas) /\
  (forall n, n ∈ fs_Name <$> schemas -> n ∉ names) /\
  names' = list_to_set (fs_Name <$> schemas) ∪ names.
Proof.
  revert i names names'. induction schemas as [|fs schemas IH]; intros i names names';
    cbn [ValidateFlowControl_loop].
  - split.
    + intros [= <-]. repeat split; [constructor..| |set_solver]. set_solver.
    + intros (_ & _ & _ & ->). do 2 f_equal. set_solver.
  - rewrite Forall_cons. cbn [fmap list_fmap]. rewrite NoDup_cons. unfold schema_ok at 1.
    destruct (decide (fs_Name fs = "")) as [Hz|Hz];
      [|destruct (decide (fs_Name fs ∈ names)) as [Hd|Hd]].
    + split; [|tauto]. rewrite result_bind_Ok. intros (e2 & _ & He).
      apply result_bind_Ok in He as ([n3 e3] & _ & He). by injection He.
    + split; [|intros (_ & _ & Hnew & _); by destruct (Hnew (fs_Name fs)); [left|]].
      rewrite result_bind_Ok. intros (e2 & _ & He).
      apply result_bind_Ok in He as ([n3 e3] & _ & He). by injection He.
    + rewrite result_bind_Ok. split.
      * intros (e2 & H2 & ([n3 e3] & H3 & He)%result_bind_Ok).
        injection He as -> He. simpl in He. rewrite !app_nil_iff, err_if_nil, negb_false_iff in He.
        destruct He as (Hs & -> & ->). apply ValidateFlowControlConfiguration_nil in H2.
        apply IH in H3 as (Hall & Hnd & Hnew & ->). split_and!; try done.
        -- intros Hin. apply (Hnew _ Hin). apply elem_of_union_l. by apply elem_of_singleton.
        -- intros n [->|Hn]%elem_of_cons Hin; [done|]. by apply (Hnew n Hn), elem_of_union_r.
        -- clear. set_solver.
      * intros (((_ & Hs & Hc) & Hall) & (Hni & Hnd) & Hnew & ->).
        exists []. rewrite ValidateFlowControlConfiguration_nil. split; [done|].
        apply result_bind_Ok.
        exists (list_to_set (fs_Name <$> schemas) ∪ ({[fs_Name fs]} ∪ names), []). split.
        { apply IH. split_and!; try done. clear - Hni Hnew. set_solver. }
        rewrite Hs. simpl. do 2 f_equal. clear. set_solver.
Qed.

(** ** Servers *)

Lemma ValidateServers_loop_spec p i servers u sc u' sc' errs :
  ValidateServers_loop p i servers u sc = (u', sc', errs) ->
  u' = list_to_set (Endpoint <$> servers) ∪ u /\
  (errs = [] <-> Forall (fun s => getURLScheme (Endpoint s) <> "") servers) /\
  (errs = [] -> sc' = list_to_set (getURLScheme ∘ Endpoint <$> servers) ∪ sc).
Proof.
  revert i u sc u' sc' errs. induction servers as [|s servers IH];
    intros i u sc u' sc' errs; cbn [ValidateServers_loop].
  - intros [= <- <- <-]. cbn. split_and!; [set_solver|done|set_solver].
  - cbn [fmap list_fmap]. rewrite Forall_cons.
    set (scheme := getURLScheme (Endpoint s)) in *.
    destruct (decide (scheme = "")) as [Hz|Hz].
    + destruct (ValidateServers_loop _ _ _ _ _) as [[u1 sc1] e1] eqn:E.
      intros [= <- <- <-]. apply IH in E as (-> & _ & _).
      split_and!; [clear; set_solver|split; [done|tauto]|done].
    + destruct (ValidateServers_loop _ _ _ _ _) as [[u1 sc1] e1] eqn:E.
      intros [= <- <- <-]. apply IH in E as (-> & He & Hsc). simpl.
      split_and!; [clear; set_solver|tauto|]. intros H1. rewrite Hsc by done.
      fold scheme. clear. set_solver.
Qed.

Lemma getURLScheme_values e :
  getURLScheme e = "http" \/ getURLScheme e = "https" \/ getURLScheme e = "".
Proof. unfold getURLScheme. repeat case_match; auto. Qed.

Lemma size_le_1_singleton (X : gset string) x :
  x ∈ X -> (size X <= 1)%nat -> forall y, y ∈ X -> y = x.
Proof.
  intros Hx Hs y Hy. destruct (decide (size X = 0%nat)) as [H0|H0].
  - apply size_empty_inv in H0. set_solver.
  - apply (size_singleton_inv X); [lia|done|done].
Qed.

Lemma size_singleton_le (X : gset string) x :
  (forall y, y ∈ X -> y = x) -> (size X <= 1)%nat.
Proof.
  intros HX. rewrite <- (size_singleton (C := gset string) x). apply subseteq_size.
  intros y Hy. rewrite (HX y Hy). by apply elem_of_singleton.
Qed.

Lemma ValidateServers_nil `{ValidationDeps} servers p u scheme errs :
  ValidateServers servers p = (u, scheme, errs) ->
  u = list_to_set (Endpoint <$> servers) /\
  (errs = [] -> servers_ok servers scheme) /\
  (forall sch, servers_ok servers sch -> errs = [] /\ scheme = sch).
Proof.
  unfold ValidateServers. destruct (ValidateServers_loop _ _ _ _ _) as [[u1 sc] e1] eqn:E.
  intros [= <- <- <-]. apply ValidateServers_loop_spec in E as (-> & He & Hsc).
  rewrite union_empty_r_L in *. rewrite !app_nil_iff, !err_if_nil, !bool_decide_eq_false.
  pose proof (PopAny_spec sc) as Hp. split_and!; [done| |].
  - intros (Hne & He1 & Hsz). specialize (Hsc He1). apply He in He1.
    assert (forall s, s ∈ servers -> getURLScheme (Endpoint s) ∈ sc) as Hmem.
    { intros s Hs. rewrite Hsc. apply elem_of_list_to_set.
      apply list_elem_of_fmap. by exists s. }
    destruct (PopAny sc) as [x|].
    + assert (Forall (fun s => getURLScheme (Endpoint s) = x) servers) as Hall.
      { apply Forall_forall. intros s Hs. apply (size_le_1_singleton sc); [done|lia|auto]. }
      split_and!; [done| |done]. rewrite Forall_forall in Hall, He1.
      destruct servers as [|s servers]; [done|]. specialize (Hall s ltac:(by left)).
      specialize (He1 s ltac:(by left)). simpl. rewrite <- Hall.
      destruct (getURLScheme_values (Endpoint s)); tauto.
    + destruct servers as [|s servers]; [done|]. specialize (Hmem s ltac:(by left)).
      rewrite Hp in Hmem. by apply elem_of_empty in Hmem.
  - intros sch (Hne & Hval & Hall).
    assert (e1 = []) as He1.
    { apply He. eapply Forall_impl; [exact Hall|]. intros s ->. by destruct Hval as [->| ->]. }
    specialize (Hsc He1).
    assert (forall y, y ∈ sc <-> y = sch) as Hy.
    { intros y. rewrite Hsc, elem_of_list_to_set, list_elem_of_fmap.
      rewrite Forall_forall in Hall. split.
      - intros (s & -> & Hs). by apply Hall.
      - intros ->. destruct servers as [|s ?]; [done|]. exists s.
        split; [symmetry; apply Hall|]; by left. }
    rewrite !app_nil_iff, !err_if_nil, !bool_decide_eq_false.
    split; [split; [exact Hne|split; [exact He1|]]|].
    + apply Nat.nlt_ge, size_singleton_le with sch. intros y. by rewrite Hy.
    + destruct (PopAny sc) as [x|]; simpl; [by apply Hy|].
      assert (sch ∈ sc) as Hin by by apply Hy.
      rewrite Hp in Hin. by apply elem_of_empty in Hin.
Qed.

(** ** The other parts *)

Lemma ValidateClientConfig_nil `{ValidationDeps} scheme c p :
  ValidateClientConfig scheme c p = [] <-> client_ok scheme c.
Proof.
  unfold ValidateClientConfig. errs_nil. split.
  - intros (Hq & Hb & Hd & Hqb & Hs & Hp & Hca). split.
    + split_and!; try done. intros ?. destruct Hqb; [lia|done].
    + intros ->. rewrite bool_decide_eq_true_2, app_nil_iff, err_if_nil in Hs by done.
      destruct Hs as [Hs _]. destruct (cc_Insecure c); [by left|].
      right. simpl in Hs. by apply bool_decide_eq_false in Hs.
    + intros ->. rewrite bool_decide_eq_true_2, app_nil_iff in Hs by done. destruct Hs as [_ Hs].
      destruct (decide (cc_BearerToken c = "")), (decide (cc_KeyData c = "")),
        (decide (cc_CertData c = "")); repeat case_bool_decide; try done; simpl in Hs; tauto.
    + intros Hk Hc. rewrite !bool_decide_eq_false_2 in Hp by done. simpl in Hp.
      by destruct (X509KeyPair _ _).
    + intros Ha. rewrite bool_decide_eq_false_2 in Hca by done.
      by destruct (ParseCertsPEM _).
  - intros [(Hq & Hb & Hd & Hqb) Ht Ha Hp Hca]. split_and!; try done.
    + destruct (Z.le_gt_cases (cc_QPS c) 0); [by left|right; lia].
    + case_bool_decide as Hs; [|done]. rewrite app_nil_iff, err_if_nil. split.
      * destruct (Ht Hs) as [->|Hca']; [done|]. rewrite bool_decide_eq_false_2 by done.
        apply andb_false_r.
      * destruct (Ha Hs) as [Hkc Htok].
        repeat case_bool_decide; simpl; try done; tauto.
    + repeat case_bool_decide; simpl; try done. by rewrite Hp.
    + case_bool_decide; [done|]. by rewrite Hca.
Qed.

Lemma ValidateSecureServing_nil `{ValidationDeps} s p :
  ValidateSecureServing s p = [] <-> serving_ok s.
Proof.
  unfold ValidateSecureServing. rewrite app_nil_iff. split.
  - intros [Hp Hc]. split.
    + intros H1 H2. rewrite bool_decide_eq_true_2 in Hp by done. by destruct (X509KeyPair _ _).
    + intros H1. rewrite bool_decide_eq_false_2 in Hc by done. by destruct (ParseCertsPEM _).
  - intros [Hp Hc]. split.
    + case_bool_decide as Hb; [|done]. by rewrite Hp by apply Hb.
    + case_bool_decide; [done|]. by rewrite Hc.
Qed.

Lemma ValidateDispatchPolicy_nil spec p fp :
  ValidateDispatchPolicy (list_to_set (Endpoint <$> Servers spec))
    (list_to_set (fs_Name <$> Schemas (spec_FlowControl spec))) p fp = [] <->
  policy_ok spec p.
Proof.
  unfold ValidateDispatchPolicy.
  rewrite !app_nil_iff, !err_if_nil, andb_false_iff, !negb_false_iff, !bool_decide_eq_true,
    bool_decide_eq_false, elem_of_list_to_set.
  rewrite (mjoin_imap_nil _ _ (fun u => u ∈ Endpoint <$> Servers spec)), Forall_forall.
  - split; [|by intros []]. intros (? & ? & ? & ? & ?). by split.
  - intros i u. by rewrite err_if_nil, negb_false_iff, bool_decide_eq_true, elem_of_list_to_set.
Qed.

Lemma ValidateFlowControl_nil f p names errs :
  ValidateFlowControl f p = Ok (names, errs) ->
  errs = [] <-> schemas_ok (Schemas f) /\ names = list_to_set (fs_Name <$> Schemas f).
Proof.
  unfold ValidateFlowControl. intros E.
  pose proof (ValidateFlowControl_loop_nil (Child p "flowControlSchemas") 0 (Schemas f) ∅ names)
    as Hl. rewrite union_empty_r_L in Hl. rewrite E in Hl. split.
  - intros ->. destruct Hl as [Hl _]. destruct (Hl eq_refl) as (Ha & Hn & _ & ->). by repeat split.
  - intros [[Hn Ha] ->]. destruct Hl as [_ Hl].
    assert (forall n, n ∈ fs_Name <$> Schemas f -> n ∉ (∅ : gset string)) as Hfresh
      by (intros; apply not_elem_of_empty).
    specialize (Hl (conj Ha (conj Hn (conj Hfresh eq_refl)))). by injection Hl.
Qed.

Lemma ValidateUpstreamClusterSpec_nil `{ValidationDeps} spec p :
  ValidateUpstreamClusterSpec spec p = Ok [] <-> spec_ok spec.
Proof.
  unfold ValidateUpstreamClusterSpec.
  destruct (ValidateServers _ _) as [[u sch] e1] eqn:E1.
  apply ValidateServers_nil in E1 as (-> & Hs & Hs').
  rewrite result_bind_Ok. split.
  - intros ([names e4] & E4 & [= He]). rewrite !app_nil_iff in He.
    destruct He as (He1 & He2 & He3 & He4 & He5 & He6 & He7).
    apply ValidateClientConfig_nil in He2. apply ValidateSecureServing_nil in He3.
    apply (ValidateFlowControl_nil _ _ _ _ E4) in He4 as [Hsch ->].
    unfold ValidateLoggingConfig in He5. apply err_if_nil, negb_false_iff in He5.
    apply err_if_nil, bool_decide_eq_false in He6.
    rewrite (mjoin_imap_nil _ _ (policy_ok spec)) in He7
      by (intros; apply ValidateDispatchPolicy_nil).
    split; try done. exists sch. split; [by apply Hs|done].
  - intros [(scheme & Hsrv & Hcl) Hss Hsch Hlog Hne Hpol].
    destruct (Hs' scheme Hsrv) as [-> ->].
    exists (list_to_set (fs_Name <$> Schemas (spec_FlowControl spec)), []). split.
    { unfold ValidateFlowControl. apply ValidateFlowControl_loop_nil.
      destruct Hsch. split_and!; [done|done|set_solver|set_solver]. }
    apply ValidateClientConfig_nil with (p := Child p "clientConfig") in Hcl.
    apply ValidateSecureServing_nil with (p := Child p "secureServing") in Hss.
    rewrite Hcl, Hss. f_equal. rewrite !app_nil_iff.
    split_and!; try done.
    + unfold ValidateLoggingConfig. by rewrite err_if_nil, negb_false_iff.
    + by rewrite err_if_nil, bool_decide_eq_false.
    + rewrite (mjoin_imap_nil _ _ (policy_ok spec)); [done|].
      intros; apply ValidateDispatchPolicy_nil.
Qed.

(** ** Panics *)

Definition panics (fs : FlowControlSchema) : Prop :=
  exists g, fc_GlobalMaxRequestsInflight (fs_Config fs) = Some g /\ Max g < 0 /\
    fc_MaxRequestsInflight (fs_Config fs) = None.

Lemma ValidateFlowControl_loop_panic p i schemas names :
  ValidateFlowControl_loop p i schemas names = Panic <-> Exists panics schemas.
Proof.
  revert i names. induction schemas as [|fs schemas IH]; intros i names;
    cbn [ValidateFlowControl_loop].
  - split; [done|]. by intros ?%Exists_nil.
  - rewrite Exists_cons.
    pose proof (ValidateFlowControlConfiguration_panic (fs_Config fs) (Index p i)) as Hp.
    fold (panics fs) in Hp.
    set (c := if decide (fs_Name fs = "") then _ else _).
    destruct c as [names' errs0].
    destruct (ValidateFlowControlConfiguration _ _) as [e2|[]|]; simpl.
    + rewrite <- (IH (S i) names').
      destruct (ValidateFlowControl_loop _ _ _ _) as [[n3 e3]|[]|]; simpl; split; try done.
      * intros [Hq|?]; [by apply Hp in Hq|done].
      * intros _. by right.
    + split; [|done]. intros _. left. by apply Hp.
Qed.

(** * Properties *)

(** A cluster with one https server, a token, one token bucket and one
    policy; and dependencies under which every certificate parses. *)
Module Example.
#[refine] Definition deps : ValidationDeps := {|
  ValidateObjectMeta c p := if decide (uc_Name c = "") then [MkFieldError Required p ""] else [];
  X509KeyPair _ _ := None;
  ParseCertsPEM _ := None;
  PopAny s := head (elements s)
|}.
Proof.
  intros s. destruct (elements s) as [|x l] eqn:E; simpl.
  - apply leibniz_equiv. by apply elements_empty_inv.
  - apply elem_of_elements. rewrite E. by left.
Defined.

Definition schema (qps : Z) : FlowControlSchema :=
  MkSchema "fc" (MkSchemaConfig None None (Some (MkTokenBucket qps (qps + 10))) None None) "local".

Definition any_rule : DispatchPolicyRule := MkRule ["*"] ["*"] ["*"] [] [] [] [] ["*"].

Definition cluster (fs : FlowControlSchema) : UpstreamCluster :=
  MkCluster "c1" None
    (MkSpec [MkServer "https://10.0.0.1:6443" None]
       (MkClientConfig true "token" "" "" "" 0 0 0 "")
       (MkSecureServing "" "" "" ["c1.example.com"])
       (MkFlowControl [fs])
       [MkPolicy RoundRobin [] [any_rule] "fc" ""]
       (MkLogging "")).
End Example.

(** C4: Validation accepts a cluster exactly when its metadata is accepted and
    its specification is well formed: one URL scheme, usable client
    credentials, uniquely named flow control schemas with exactly one kind
    each and global limits not below the local ones, and policies that only
    refer to declared servers and schemas. *)
Theorem ValidateUpstreamCluster_exact `{ValidationDeps} cluster :
  ValidateUpstreamCluster cluster = Ok [] <->
  ValidateObjectMeta cluster (NewPath "metadata") = [] /\ spec_ok (uc_Spec cluster).
Proof.
  unfold ValidateUpstreamCluster. rewrite result_bind_Ok. split.
  - intros (e & He & [= Heq]). apply app_nil_iff in Heq as [H0 ->].
    split; [done|]. by apply ValidateUpstreamClusterSpec_nil in He.
  - intros [H0 Hs]. exists []. rewrite H0. split; [|done].
    by apply ValidateUpstreamClusterSpec_nil.
Qed.

Lemma ValidateUpstreamCluster_exact_witness :
  spec_ok (H := Example.deps) (uc_Spec (Example.cluster (Example.schema 5))).
Proof.
  apply (proj1 (ValidateUpstreamCluster_exact (H := Example.deps)
                  (Example.cluster (Example.schema 5)))).
  vm_compute. reflexivity.
Defined.

(** Validation fails to return, by dereferencing nil, exactly on the
    clusters that have a schema with a negative global in-flight limit and no
    local one. *)
Theorem ValidateUpstreamCluster_panics `{ValidationDeps} cluster :
  ValidateUpstreamCluster cluster = Panic <->
  exists fs, fs ∈ Schemas (spec_FlowControl (uc_Spec cluster)) /\ panics fs.
Proof.
  unfold ValidateUpstreamCluster. rewrite (result_bind_pure_Panic _ (fun e => _ ++ e)).
  unfold ValidateUpstreamClusterSpec. destruct (ValidateServers _ _) as [[u sch] e1].
  rewrite <- Exists_exists.
  rewrite <- (ValidateFlowControl_loop_panic
    (Child (Child (NewPath "spec") "flowControl") "flowControlSchemas") 0 _ ∅).
  unfold ValidateFlowControl. by destruct (ValidateFlowControl_loop _ _ _ _) as [[]|[]|].
Qed.

Lemma ValidateUpstreamCluster_panics_witness :
  ValidateUpstreamCluster (H := Example.deps)
    (Example.cluster (MkSchema "fc"
       (MkSchemaConfig (Some MkExempt) None None (Some (MkMaxInflight (-1))) None) "")) = Panic.
Proof.
  apply (ValidateUpstreamCluster_panics (H := Example.deps)). eexists. split.
  - by left.
  - exists (MkMaxInflight (-1)). split_and!; [reflexivity|vm_compute; reflexivity|reflexivity].
Defined.

(** A token bucket of negative rate passes validation, although the message
    of the check asks for a rate bigger than 0. *)
Example negative_qps_valid :
  ValidateUpstreamCluster (H := Example.deps) (Example.cluster (Example.schema (-5))) = Ok [].
Proof. vm_compute. reflexivity. Qed.
