(* ===== verification/RestConfig.v ===== *)
(** How an upstream is reached ([pkg/clusters/util.go],
    [pkg/clusters/clusterinfo.go], [pkg/clusters/endpoint.go]): the client
    configuration built from an object, and those of its endpoints.

    [url.Parse] is a parameter of which only the scheme is used; a limiter of
    client-go is the rate and burst it is made with. *)
From stdpp Require Import base tactics list strings gmap.
From Stdlib Require Import ZArith SpecFloat Lia.
From S2P Require Import Prelude ApiTypes Validation.

Local Open Scope Z_scope.
Local Open Scope go_scope.

(** The scheme of a URL that parses. *)
Class UrlScheme := {
  parse_scheme : string -> option string;
  parse_https : forall u s, HasPrefix u "https://" = true -> parse_scheme u = Some s -> s = "https";
  parse_http : forall u s, HasPrefix u "http://" = true -> parse_scheme u = Some s -> s = "http"
}.

(** [float32(z)], and division. *)
Abbreviation float32 := spec_float (only parsing).
Definition f32_of_int (z : Z) : float32 := binary_normalize 24 128 z 0 false.
Definition f32_div (x y : float32) : float32 := SFdiv 24 128 x y.

Definition calQPS (qps qpsDivisor : Z) : float32 :=
  let ret := f32_of_int qps in
  if 1 <? qpsDivisor then f32_div ret (f32_of_int qpsDivisor) else ret.

(** [rest.TLSClientConfig] *)
Record tls_client := MkTlsClient {
  tl_ServerName : string;
  tl_KeyData : string;
  tl_CertData : string;
  tl_CAData : string;
  tl_Insecure : bool
}.

Definition no_tls : tls_client := MkTlsClient "" "" "" "" false.

(** [rest.Config]: the limiter ([None] lets everything pass), and whether
    requests are wrapped to impersonate. *)
Record client_config := MkClient {
  cf_Host : string;
  cf_BearerToken : string;
  cf_Timeout : Z;
  cf_RateLimiter : option (float32 * Z);
  cf_TLS : tls_client;
  cf_impersonating : bool;
  cf_NextProtos : list string;
  cf_shared_transport : bool
}.

Definition newRESTConfig : client_config := MkClient "" "" (5 * Second) None no_tls false [] false.

(** The TLS settings of a cluster reached over a scheme. *)
Definition tls_of (httpScheme : string) (cluster : UpstreamCluster) : tls_client :=
  let c := spec_ClientConfig (uc_Spec cluster) in
  let serverName := if decide (cc_ServerName c = "") then uc_Name cluster else cc_ServerName c in
  if decide (httpScheme = "https")
  then MkTlsClient serverName (cc_KeyData c) (cc_CertData c) (cc_CAData c) (cc_Insecure c)
  else cf_TLS newRESTConfig.

Section config.
Context `{UrlScheme}.

Definition buildClusterRESTConfig (cluster : UpstreamCluster) : string + client_config :=
  let spec := uc_Spec cluster in
  let c := spec_ClientConfig spec in
  match match Servers spec with
        | [] => Some "https"
        | server :: _ => parse_scheme (Endpoint server)
        end with
  | None => inl "failed to parse endpoint"
  | Some httpScheme =>
      let cfg := newRESTConfig in
      let limiter := if 0 <? cc_QPS c then Some (calQPS (cc_QPS c) (cc_QPSDivisor c), cc_Burst c) else cf_RateLimiter cfg in
      inr (MkClient (cf_Host cfg) (cc_BearerToken c) (cf_Timeout cfg) limiter (tls_of httpScheme cluster) (cf_impersonating cfg)
             (cf_NextProtos cfg) (cf_shared_transport cfg))
  end.

(** The configurations of [addOrUpdateEndpoint] and [createTransport]: of the
    proxy, of the proxy for upgrades, and of the client set. *)
Definition proxyConfig (restConfig : client_config) (endpoint : string) : client_config :=
  MkClient endpoint (cf_BearerToken restConfig) (cf_Timeout restConfig) (cf_RateLimiter restConfig) (cf_TLS restConfig)
    true (cf_NextProtos restConfig) (cf_shared_transport restConfig).

Definition proxyUpgradeConfig (restConfig : client_config) (endpoint : string) : client_config :=
  let c := proxyConfig restConfig endpoint in
  MkClient (cf_Host c) (cf_BearerToken c) (cf_Timeout c) (cf_RateLimiter c) (cf_TLS c) (cf_impersonating c)
    ["http/1.1"] (cf_shared_transport c).

Definition clientsetConfig (restConfig : client_config) (endpoint : string) : client_config :=
  let c := proxyConfig restConfig endpoint in
  MkClient (cf_Host c) (cf_BearerToken c) (cf_Timeout c) (cf_RateLimiter c) no_tls (cf_impersonating c)
    (cf_NextProtos c) true.
End config.

(** * What validation makes of it *)

(** An endpoint is reached at its own address, as an impersonator.  Over
    https its certificate is verified against an authority unless the object
    says not to, and the proxy has credentials; over http there is no TLS. *)
Record trusted (cluster : UpstreamCluster) (endpoint : string) (c : client_config) : Prop := {
  tr_host : cf_Host c = endpoint;
  tr_impersonating : cf_impersonating c = true;
  tr_https : getURLScheme endpoint = "https" ->
    (tl_Insecure (cf_TLS c) = true -> cc_Insecure (spec_ClientConfig (uc_Spec cluster)) = true) /\
    (tl_Insecure (cf_TLS c) = true \/ tl_CAData (cf_TLS c) <> "") /\
    (cf_BearerToken c <> "" \/ (tl_KeyData (cf_TLS c) <> "" /\ tl_CertData (cf_TLS c) <> "")) /\
    (tl_ServerName (cf_TLS c) = cc_ServerName (spec_ClientConfig (uc_Spec cluster)) \/ tl_ServerName (cf_TLS c) = uc_Name cluster);
  tr_http : getURLScheme endpoint = "http" -> cf_TLS c = no_tls;
  tr_limit : match cf_RateLimiter c with
    | None => cc_QPS (spec_ClientConfig (uc_Spec cluster)) = 0
    | Some (_, burst) => cc_QPS (spec_ClientConfig (uc_Spec cluster)) <= burst
    end
}.

Section config_lemmas.
Context `{UrlScheme} `{ValidationDeps}.

Lemma getURLScheme_prefix u :
  (getURLScheme u = "https" -> HasPrefix u "https://" = true) /\ (getURLScheme u = "http" -> HasPrefix u "http://" = true).
Proof.
  unfold getURLScheme. destruct (HasPrefix u "http://"); [by split|]. destruct (HasPrefix u "https://"); by split.
Qed.

(** The scheme of the configuration is that of every server. *)
Lemma config_scheme servers scheme s0 servers' httpScheme :
  servers_ok servers scheme -> servers = s0 :: servers' -> parse_scheme (Endpoint s0) = Some httpScheme -> httpScheme = scheme.
Proof.
  intros (_ & Hs & Hall) -> Hp. inversion Hall as [|? ? Hs0 _]. subst.
  destruct (getURLScheme_prefix (Endpoint s0)) as [Hhttps Hhttp]. destruct Hs as [Hs|Hs].
  - rewrite Hs. apply (parse_http (Endpoint s0)); [by apply Hhttp|done].
  - rewrite Hs. apply (parse_https (Endpoint s0)); [by apply Hhttps|done].
Qed.

Lemma trusted_tls cluster scheme endpoint c :
  client_ok scheme (spec_ClientConfig (uc_Spec cluster)) -> getURLScheme endpoint = scheme ->
  cf_Host c = endpoint -> cf_impersonating c = true -> cf_TLS c = tls_of scheme cluster ->
  cf_BearerToken c = cc_BearerToken (spec_ClientConfig (uc_Spec cluster)) ->
  cf_RateLimiter c = (if 0 <? cc_QPS (spec_ClientConfig (uc_Spec cluster))
    then Some (calQPS (cc_QPS (spec_ClientConfig (uc_Spec cluster))) (cc_QPSDivisor (spec_ClientConfig (uc_Spec cluster))),
               cc_Burst (spec_ClientConfig (uc_Spec cluster))) else None) ->
  trusted cluster endpoint c.
Proof.
  intros [Hnum Htrust Hauth _ _] Hs Hh Hi Ht Hb Hr. split; [done|done|..]; rewrite ?Ht, ?Hb, ?Hr, ?Hs.
  - intros ->. unfold tls_of. rewrite decide_True by done. destruct (Hauth eq_refl) as [Hpair Htoken].
    split_and!; cbn; [done|by apply Htrust| |].
    + destruct (decide (cc_KeyData (spec_ClientConfig (uc_Spec cluster)) = "")); [left; by apply Htoken|right; naive_solver].
    + case_decide; [by right|by left].
  - intros ->. done.
  - destruct Hnum as (Hq & _ & _ & Hqb). destruct (Z.ltb_spec 0 (cc_QPS (spec_ClientConfig (uc_Spec cluster)))); [by apply Hqb|lia].
Qed.

End config_lemmas.

(** * Example *)

Module RestConfigExample.
(** A parser that knows two schemes. *)
#[local, refine] Instance two_schemes : UrlScheme := {|
  parse_scheme u := if HasPrefix u "https://" then Some "https" else if HasPrefix u "http://" then Some "http" else None
|}.
Proof.
  - intros u s ->. by intros [= <-].
  - intros u s Hu. destruct (HasPrefix u "https://") eqn:Hs.
    + apply HasPrefix_spec in Hu as [r ->], Hs as [r' Hr]. discriminate Hr.
    + rewrite Hu. by intros [= <-].
Defined.

Definition object : UpstreamCluster := Example.cluster (Example.schema 5).

Definition config : client_config := match buildClusterRESTConfig object with inr c => c | inl _ => newRESTConfig end.


(** 5 queries per second shared by two, and by three. *)
Example calQPS_examples :
  calQPS 5 2 = f32_div (f32_of_int 5) (f32_of_int 2) /\ SFeqb (calQPS 5 2) (f32_div (f32_of_int 25) (f32_of_int 10)) = true /\
  calQPS 5 1 = f32_of_int 5 /\ calQPS 5 0 = f32_of_int 5.
Proof. vm_compute. auto. Qed.
End RestConfigExample.
