(* ===== verification/Admission.v ===== *)
(** The admission plugin of UpstreamCluster
    ([plugin/admission/upstreamcluster/admission.go]) and the defaults it
    applies ([upstreamcluster_defaults.go]).  The plugin normalises the rules
    of every policy and rejects a cluster whose names are already served by
    another one. *)
From stdpp Require Import base list strings gmap sets.
From Stdlib Require Import ZArith Lia Ascii.
From S2P Require Import Prelude ApiTypes Matching Validation.

Local Open Scope go_scope.

(** * Defaults *)

Definition default_policy (p : DispatchPolicy) : DispatchPolicy :=
  if decide (dp_Strategy p = "") then
    MkPolicy RoundRobin (UpstreamSubset p) (Rules p) (FlowControlSchemaName p) (dp_LogMode p)
  else p.

Definition with_policies (c : UpstreamCluster) (ps : list DispatchPolicy) : UpstreamCluster :=
  let s := uc_Spec c in
  MkCluster (uc_Name c) (uc_Annotations c)
    (MkSpec (Servers s) (spec_ClientConfig s) (spec_SecureServing s) (spec_FlowControl s) ps
       (Logging s)).

Definition SetDefaults_UpstreamCluster (obj : UpstreamCluster) : UpstreamCluster :=
  with_policies obj (default_policy <$> DispatchPolicies (uc_Spec obj)).

(** * Normalisation of the rules *)

(** The loop of the plugin's [filterRules]; it keeps the entries as they are
    spelled. *)
Fixpoint admission_filterRules_loop (rules filtered reversed : list string)
    : list string * list string * bool :=
  match rules with
  | [] => (filtered, reversed, false)
  | r :: rules' =>
      if decide (r = "*") then (filtered, reversed, true)
      else match r with
           | String "-" _ => admission_filterRules_loop rules' filtered (reversed ++ [r])
           | _ => admission_filterRules_loop rules' (filtered ++ [r]) reversed
           end
  end.

Definition admission_filterRules (rules : list string) : list string :=
  let '(filtered, reversed, matchAll) := admission_filterRules_loop rules [] [] in
  if matchAll then ["*"]
  else match filtered with
       | _ :: _ => filtered
       | [] => reversed
       end.

Definition normalizeRules (r : DispatchPolicyRule) : DispatchPolicyRule :=
  {| Verbs := admission_filterRules (Verbs r);
     APIGroups := admission_filterRules (APIGroups r);
     Resources := admission_filterRules (Resources r);
     ResourceNames := admission_filterRules (ResourceNames r);
     Users := admission_filterRules (Users r);
     ServiceAccounts := ServiceAccounts r;
     UserGroups := admission_filterRules (UserGroups r);
     NonResourceURLs := admission_filterRules (NonResourceURLs r) |}.

Definition normalize_policy (p : DispatchPolicy) : DispatchPolicy :=
  MkPolicy (dp_Strategy p) (UpstreamSubset p) (normalizeRules <$> Rules p)
    (FlowControlSchemaName p) (dp_LogMode p).

(** * The plugin *)

(** The object of an admission request, if it is one of ours. *)
Inductive admission_object := ClusterObject (c : UpstreamCluster) | OtherObject.

Record admission_attributes := MkAdmissionAttributes {
  aa_Group : string;
  aa_Resource : string;
  aa_Subresource : string;
  aa_Object : option admission_object
}.

Definition shouldIgnore (a : admission_attributes) : bool :=
  if decide ((aa_Group a, aa_Resource a) = ("proxy.kubegateway.io", "upstreamclusters")) then
    if decide (aa_Subresource a = "") then
      match aa_Object a with Some (ClusterObject _) => false | _ => true end
    else true
  else true.

(** [Admit] mutates the object of the request in place; the model gives the
    request after the call. *)
Definition Admit (a : admission_attributes) : admission_attributes :=
  if shouldIgnore a then a
  else match aa_Object a with
       | Some (ClusterObject cluster) =>
           let cluster := SetDefaults_UpstreamCluster cluster in
           let cluster :=
             with_policies cluster (normalize_policy <$> DispatchPolicies (uc_Spec cluster)) in
           MkAdmissionAttributes (aa_Group a) (aa_Resource a) (aa_Subresource a)
             (Some (ClusterObject cluster))
       | _ => a
       end.

Inductive admission_error :=
  | NotReady
  | ListFailed (err : string)
  | Aggregate (errs : list FieldError).

Definition FeatureGateAnnotationKey : string := "proxy.kubegateway.io/feature-gates".

(** What the plugin sees around it: its cache and the feature gates. *)
Record plugin_env := MkPluginEnv {
  WaitForReady : bool;
  lister_List : string + list UpstreamCluster;
  featuregate_Set : string -> option string
}.

Definition featuregate_errors (env : plugin_env) (cluster : UpstreamCluster) : list FieldError :=
  match uc_Annotations cluster with
  | None => []
  | Some annotations =>
      let featuregate := default "" (annotations !! FeatureGateAnnotationKey) in
      if decide (featuregate = "") then []
      else match featuregate_Set env featuregate with
           | Some err =>
               [MkFieldError Invalid
                  (Key (Child (NewPath "metadata") "annotations") FeatureGateAnnotationKey) err]
           | None => []
           end
  end.

(** The body of the loop over the existing clusters. *)
Definition conflict_errors `{UnicodeLower} (cluster : UpstreamCluster) (clusterName : string)
    (upstreamCluster : UpstreamCluster) : list FieldError :=
  if decide (ToLower (uc_Name upstreamCluster) = clusterName) then []
  else
    let detail := "conflict with cluster " +:+ uc_Name upstreamCluster +:+ " ["
      +:+ Join (ss_ServerNames (spec_SecureServing (uc_Spec upstreamCluster))) " " +:+ "]" in
    mjoin ((fun s =>
      err_if (bool_decide (ToLower clusterName = ToLower s))
        (MkFieldError Invalid (Child (NewPath "metadata") "name") detail)
      ++ mjoin ((fun serverName =>
           err_if (bool_decide (ToLower serverName = ToLower s))
             (MkFieldError Invalid
                (Child (Child (NewPath "spec") "secureServing") "serverNames") detail))
         <$> ss_ServerNames (spec_SecureServing (uc_Spec cluster))))
    <$> (uc_Name upstreamCluster :: ss_ServerNames (spec_SecureServing (uc_Spec upstreamCluster)))).

Definition Validate `{UnicodeLower} `{ValidationDeps} (env : plugin_env)
    (a : admission_attributes) : result admission_error unit :=
  if shouldIgnore a then Ok tt
  else match aa_Object a with
       | Some (ClusterObject cluster) =>
           match ValidateUpstreamCluster cluster with
           | Panic => Panic
           | Err e => match e with end
           | Ok errs =>
               let errs := errs ++ featuregate_errors env cluster in
               if WaitForReady env then
                 let clusterName := ToLower (uc_Name cluster) in
                 match lister_List env with
                 | inl err => Err (ListFailed err)
                 | inr clusters =>
                     let errs := errs ++ mjoin (conflict_errors cluster clusterName <$> clusters) in
                     match errs with [] => Ok tt | _ => Err (Aggregate errs) end
                 end
               else Err NotReady
           end
       | _ => Ok tt
       end.

(** * Lemmas *)

Definition pos_entries (l : list string) : list string := filter (fun r => reverse (entry r) = false) l.
Definition neg_entries (l : list string) : list string := filter (fun r => reverse (entry r) = true) l.

Lemma positives_pos l : positives l = entry <$> pos_entries l.
Proof.
  unfold positives, pos_entries. induction l as [|x l IH]; [done|].
  rewrite fmap_cons, !filter_cons. destruct (reverse (entry x)); simpl; by rewrite IH.
Qed.

Lemma negatives_neg l : negatives l = entry <$> neg_entries l.
Proof.
  unfold negatives, neg_entries. induction l as [|x l IH]; [done|].
  rewrite fmap_cons, !filter_cons. destruct (reverse (entry x)); simpl; by rewrite IH.
Qed.

Lemma pos_pos l : pos_entries (pos_entries l) = pos_entries l.
Proof.
  unfold pos_entries. rewrite list_filter_filter_l; auto.
Qed.

Lemma neg_neg l : neg_entries (neg_entries l) = neg_entries l.
Proof.
  unfold neg_entries. rewrite list_filter_filter_l; auto.
Qed.

Lemma pos_neg l : pos_entries (neg_entries l) = [].
Proof.
  unfold pos_entries, neg_entries. induction l as [|x l IH]; [done|].
  rewrite filter_cons. case_decide as Hx; [|done]. rewrite filter_cons, IH.
  rewrite decide_False; [done|]. congruence.
Qed.

Lemma admission_loop_cons x rules f r :
  admission_filterRules_loop (x :: rules) f r =
    if decide (x = "*") then (f, r, true)
    else if reverse (entry x) then admission_filterRules_loop rules f (r ++ [x])
    else admission_filterRules_loop rules (f ++ [x]) r.
Proof.
  cbn [admission_filterRules_loop]. destruct (decide (x = "*")); [done|].
  by destruct x as [|[[] [] [] [] [] [] [] []] v].
Qed.

Lemma admission_loop_nostar rules f r :
  MatchAll ∉ rules ->
  admission_filterRules_loop rules f r = (f ++ pos_entries rules, r ++ neg_entries rules, false).
Proof.
  unfold pos_entries, neg_entries. revert f r.
  induction rules as [|x rules IH]; intros f r Hx.
  - simpl. by rewrite !app_nil_r.
  - apply not_elem_of_cons in Hx as [Hne Hx].
    rewrite admission_loop_cons. rewrite (decide_False (P := x = "*")) by (intros ->; by apply Hne).
    rewrite !filter_cons.
    destruct (reverse (entry x)) eqn:E; simpl; rewrite IH by done; by rewrite <- !app_assoc.
Qed.

Lemma admission_loop_star rules f r :
  MatchAll ∈ rules -> snd (admission_filterRules_loop rules f r) = true.
Proof.
  revert f r. induction rules as [|x rules IH]; intros f r Hx.
  - by apply elem_of_nil in Hx.
  - rewrite admission_loop_cons. destruct (decide (x = "*")); [done|].
    apply elem_of_cons in Hx as [Hx|Hx]; [by destruct n|]. case_match; auto.
Qed.

Lemma admission_filterRules_star rules :
  MatchAll ∈ rules -> admission_filterRules rules = ["*"].
Proof.
  intros Hs. pose proof (admission_loop_star rules [] [] Hs). unfold admission_filterRules.
  destruct (admission_filterRules_loop rules [] []) as [[f r] b]; simpl in *. by subst.
Qed.

Lemma admission_filterRules_nostar rules :
  MatchAll ∉ rules ->
  admission_filterRules rules =
    match pos_entries rules with [] => neg_entries rules | _ :: _ => pos_entries rules end.
Proof.
  intros Hs. unfold admission_filterRules. rewrite admission_loop_nostar by done.
  simpl. by destruct (pos_entries rules).
Qed.

Lemma pos_or_neg l : l <> [] -> pos_entries l = [] -> neg_entries l <> [].
Proof.
  unfold pos_entries, neg_entries. intros Hl Hp. destruct l as [|x l]; [done|].
  rewrite filter_cons in *. destruct (reverse (entry x)); [|done]. by simpl.
Qed.

Lemma pos_subset l x : x ∈ pos_entries l -> x ∈ l.
Proof. unfold pos_entries. rewrite list_elem_of_filter. tauto. Qed.

Lemma neg_subset l x : x ∈ neg_entries l -> x ∈ l.
Proof. unfold neg_entries. rewrite list_elem_of_filter. tauto. Qed.

(** The normalised list selects the same requests as the written one. *)
Lemma admission_filterRules_equiv rules : rules_equiv (admission_filterRules rules) rules.
Proof.
  destruct (decide (MatchAll ∈ rules)) as [Hs|Hs].
  - rewrite admission_filterRules_star by done. split_and!.
    + split; [done|]. intros _. by left.
    + intros Hn. destruct Hn. by left.
    + split; [done|]. intros ->. by apply elem_of_nil in Hs.
  - rewrite admission_filterRules_nostar by done.
    assert (forall l : list string, (forall x, x ∈ l -> x ∈ rules) -> MatchAll ∉ l) as Hno
      by (intros l Hl Hm; exact (Hs (Hl _ Hm))).
    destruct (pos_entries rules) as [|x l] eqn:Hp.
    + split_and!.
      * split; [|done]. intros Hm. by apply (Hno _ (neg_subset rules)) in Hm.
      * intros _. unfold effective. rewrite !positives_pos, !negatives_neg, pos_neg, neg_neg, Hp.
        done.
      * split; [|by intros ->]. intros Hn. destruct rules; [done|].
        by destruct (pos_or_neg (s :: rules)).
    + rewrite <- Hp. split_and!.
      * split; [|done]. intros Hm. by apply (Hno _ (pos_subset rules)) in Hm.
      * intros _. unfold effective. rewrite !positives_pos, pos_pos, Hp. done.
      * split; [by rewrite Hp|by intros ->].
Qed.

Lemma admission_filterRules_idem rules :
  admission_filterRules (admission_filterRules rules) = admission_filterRules rules.
Proof.
  destruct (admission_filterRules_equiv rules) as ([Hs1 Hs2] & _ & _).
  destruct (decide (MatchAll ∈ rules)) as [Hs|Hs].
  - by rewrite (admission_filterRules_star rules).
  - rewrite (admission_filterRules_nostar (admission_filterRules rules)) by auto.
    rewrite (admission_filterRules_nostar rules) by done.
    destruct (pos_entries rules) as [|x l] eqn:Hp.
    + by rewrite pos_neg, neg_neg.
    + rewrite <- Hp, pos_pos, Hp. done.
Qed.

(** ** Matching of normalised rules *)

Lemma RuleMatches_normalize attr r : RuleMatches attr (normalizeRules r) = RuleMatches attr r.
Proof. unfold RuleMatches. simpl. by rewrite !admission_filterRules_equiv. Qed.

Lemma PolicyMatches_normalize attr p : PolicyMatches attr (normalize_policy p) = PolicyMatches attr p.
Proof.
  unfold PolicyMatches. simpl. induction (Rules p) as [|r rs IH]; [done|].
  rewrite fmap_cons. cbn [existsb]. by rewrite RuleMatches_normalize, IH.
Qed.

Lemma PolicyMatches_default attr p : PolicyMatches attr (default_policy p) = PolicyMatches attr p.
Proof. unfold default_policy. by case_decide. Qed.

Lemma MatchPolicies_fmap attr (f : DispatchPolicy -> DispatchPolicy) ps :
  (forall p, PolicyMatches attr (f p) = PolicyMatches attr p) ->
  MatchPolicies attr (f <$> ps) = f <$> MatchPolicies attr ps.
Proof.
  intros Hf. induction ps as [|p ps IH]; [done|]. simpl. rewrite Hf.
  by destruct (PolicyMatches attr p).
Qed.

Lemma normalizeRules_idem r : normalizeRules (normalizeRules r) = normalizeRules r.
Proof. unfold normalizeRules. simpl. by rewrite !admission_filterRules_idem. Qed.

(** What [Admit] does to one policy. *)
Definition admit_policy (p : DispatchPolicy) : DispatchPolicy := normalize_policy (default_policy p).

Lemma admit_policy_idem p : admit_policy (admit_policy p) = admit_policy p.
Proof.
  unfold admit_policy, normalize_policy, default_policy. repeat case_decide; simpl in *;
    try done; f_equal; rewrite <- list_fmap_compose; apply list_fmap_ext; intros; apply normalizeRules_idem.
Qed.

Definition admit_cluster (c : UpstreamCluster) : UpstreamCluster :=
  with_policies c (admit_policy <$> DispatchPolicies (uc_Spec c)).

Lemma Admit_cluster a c :
  shouldIgnore a = false -> aa_Object a = Some (ClusterObject c) ->
  Admit a = MkAdmissionAttributes (aa_Group a) (aa_Resource a) (aa_Subresource a)
              (Some (ClusterObject (admit_cluster c))).
Proof.
  intros Hi Ho. unfold Admit. rewrite Hi, Ho. simpl. by rewrite <- list_fmap_compose.
Qed.

Lemma shouldIgnore_cluster a :
  shouldIgnore a = false -> exists c, aa_Object a = Some (ClusterObject c).
Proof. unfold shouldIgnore. repeat case_match; try done. eauto. Qed.

(** ** Conflicts *)

Section conflicts.
Context `{UnicodeLower}.

(** The host names a cluster is served under, case folded. *)
Definition served_names (c : UpstreamCluster) : list string :=
  ToLower <$> (uc_Name c :: ss_ServerNames (spec_SecureServing (uc_Spec c))).

Definition same_cluster (c d : UpstreamCluster) : Prop := ToLower (uc_Name c) = ToLower (uc_Name d).

(** No host name is served by two clusters. *)
Definition names_disjoint (l : list UpstreamCluster) : Prop :=
  forall c d n, c ∈ l -> d ∈ l -> ~ same_cluster c d -> n ∈ served_names c -> n ∈ served_names d -> False.

(** The stored clusters after [c] is created or updated. *)
Definition upsert (c : UpstreamCluster) (l : list UpstreamCluster) : list UpstreamCluster :=
  c :: filter (fun d => ToLower (uc_Name d) <> ToLower (uc_Name c)) l.

Lemma mjoin_fmap_nil {A B} (f : A -> list B) (l : list A) :
  mjoin (f <$> l) = [] <-> forall x, x ∈ l -> f x = [].
Proof.
  induction l as [|x l IH]; simpl.
  - split; [|done]. intros _ x Hx. by apply elem_of_nil in Hx.
  - rewrite app_nil_iff, IH. setoid_rewrite elem_of_cons. naive_solver.
Qed.

Lemma conflict_errors_nil c d :
  conflict_errors c (ToLower (uc_Name c)) d = [] <->
  same_cluster d c \/ forall n, n ∈ served_names c -> n ∈ served_names d -> False.
Proof.
  unfold conflict_errors, same_cluster. case_decide as Hd; [tauto|].
  rewrite mjoin_fmap_nil. split.
  - intros Hall. right. intros n Hc Hn. apply list_elem_of_fmap in Hn as (s & -> & Hs).
    specialize (Hall s Hs). rewrite app_nil_iff, err_if_nil, ToLower_idem in Hall.
    destruct Hall as [H1 H2]. rewrite mjoin_fmap_nil in H2.
    apply list_elem_of_fmap in Hc as (t & Ht & [->|Hin]%elem_of_cons).
    + by apply bool_decide_eq_false in H1.
    + specialize (H2 t Hin). apply err_if_nil, bool_decide_eq_false in H2. done.
  - intros [?|Hdis]; [done|]. intros s Hs.
    assert (forall t, t ∈ uc_Name c :: ss_ServerNames (spec_SecureServing (uc_Spec c)) ->
              ToLower t <> ToLower s) as Hne.
    { intros t Ht Heq. apply (Hdis (ToLower t)); [by apply list_elem_of_fmap_2|].
      rewrite Heq. by apply list_elem_of_fmap_2. }
    rewrite app_nil_iff, err_if_nil, ToLower_idem, mjoin_fmap_nil, bool_decide_eq_false. split.
    + apply Hne. by left.
    + intros t Ht. apply err_if_nil, bool_decide_eq_false, Hne. by right.
Qed.

Lemma upsert_disjoint c l :
  names_disjoint l ->
  (forall d, d ∈ l -> same_cluster d c \/ forall n, n ∈ served_names c -> n ∈ served_names d -> False) ->
  names_disjoint (upsert c l).
Proof.
  intros Hl Hc x y n Hx Hy Hne Hnx Hny. unfold upsert in Hx, Hy.
  apply elem_of_cons in Hx as [->|[Hx Hxl]%list_elem_of_filter];
    apply elem_of_cons in Hy as [->|[Hy Hyl]%list_elem_of_filter].
  - by destruct Hne.
  - destruct (Hc y Hyl) as [?|Hno]; [by destruct Hy|exact (Hno n Hnx Hny)].
  - destruct (Hc x Hxl) as [?|Hno]; [by destruct Hx|exact (Hno n Hny Hnx)].
  - by apply (Hl x y n).
Qed.
End conflicts.

(** * Properties *)

(** Normalising the rules at admission never changes which requests a
    rule selects, and a normalised rule is in normal form (normalising it
    again changes nothing). *)
Theorem normalizeRules_preserves_matching attr r :
  RuleMatches attr (normalizeRules r) = RuleMatches attr r /\
  normalizeRules (normalizeRules r) = normalizeRules r.
Proof. split; [apply RuleMatches_normalize|apply normalizeRules_idem]. Qed.

(** C3: Admission keeps the dispatching of every request: after [Admit] a
    request takes the policy at the same place as before, with its default
    strategy set and its rules normalised; admitting again changes nothing. *)
Theorem Admit_preserves_dispatch a c :
  shouldIgnore a = false -> aa_Object a = Some (ClusterObject c) ->
  exists c', aa_Object (Admit a) = Some (ClusterObject c') /\
    (forall attr, MatchPolicies attr (DispatchPolicies (uc_Spec c')) =
       admit_policy <$> MatchPolicies attr (DispatchPolicies (uc_Spec c))) /\
    Admit (Admit a) = Admit a.
Proof.
  intros Hi Ho. exists (admit_cluster c). rewrite (Admit_cluster a c) by done. split_and!.
  - done.
  - intros attr. simpl. apply MatchPolicies_fmap. intros p. unfold admit_policy.
    by rewrite PolicyMatches_normalize, PolicyMatches_default.
  - rewrite (Admit_cluster _ (admit_cluster c)); [|unfold shouldIgnore in *; simpl|done].
    + unfold admit_cluster, with_policies. simpl. do 3 f_equal. f_equal.
      rewrite <- list_fmap_compose. f_equal. apply list_fmap_ext. intros. apply admit_policy_idem.
    + repeat case_decide; congruence.
Qed.

Lemma Admit_preserves_dispatch_witness :
  exists c', aa_Object (Admit (MkAdmissionAttributes "proxy.kubegateway.io" "upstreamclusters" ""
                 (Some (ClusterObject (Example.cluster (Example.schema 5)))))) =
    Some (ClusterObject c').
Proof.
  pose proof (Admit_preserves_dispatch
    (MkAdmissionAttributes "proxy.kubegateway.io" "upstreamclusters" ""
       (Some (ClusterObject (Example.cluster (Example.schema 5)))))
    (Example.cluster (Example.schema 5)) eq_refl eq_refl) as (c' & Hc & _).
  exists c'. exact Hc.
Defined.

(** C24: Admission keeps host names unambiguous: if no host name is served by
    two of the stored clusters and the plugin accepts a cluster, then no host
    name is served by two clusters once it is stored. *)
Theorem Validate_keeps_names_disjoint `{UnicodeLower} `{ValidationDeps} env a c l :
  shouldIgnore a = false -> aa_Object a = Some (ClusterObject c) ->
  lister_List env = inr l -> names_disjoint l ->
  Validate env a = Ok tt -> names_disjoint (upsert c l) /\ spec_ok (uc_Spec c).
Proof.
  intros Hi Ho Hl Hd HV. unfold Validate in HV. rewrite Hi, Ho, Hl in HV.
  destruct (ValidateUpstreamCluster c) as [errs|[]|] eqn:Hv; try done.
  destruct (WaitForReady env); [|done].
  destruct (_ ++ mjoin _) as [|e es] eqn:He; [|done].
  rewrite !app_nil_iff in He. destruct He as ((-> & _) & Hc). split.
  - apply upsert_disjoint; [done|]. intros d Hin.
    rewrite mjoin_fmap_nil in Hc. by apply conflict_errors_nil, Hc.
  - unfold ValidateUpstreamCluster in Hv. apply result_bind_Ok in Hv as (e1 & H1 & [= He]).
    apply app_nil_iff in He as [_ ->]. by apply ValidateUpstreamClusterSpec_nil in H1.
Qed.

Module AdmissionExample.
Definition stored : UpstreamCluster :=
  MkCluster "c2" None (uc_Spec (with_policies (Example.cluster (Example.schema 3)) [])).
Definition other : UpstreamCluster :=
  let s := uc_Spec stored in
  MkCluster "c3" None
    (MkSpec (Servers s) (spec_ClientConfig s) (MkSecureServing "" "" "" ["C3.example.com"])
       (spec_FlowControl s) [] (Logging s)).
Definition env : plugin_env := MkPluginEnv true (inr [other]) (fun _ => None).
Definition request : admission_attributes :=
  MkAdmissionAttributes "proxy.kubegateway.io" "upstreamclusters" ""
    (Some (ClusterObject (Example.cluster (Example.schema 5)))).
End AdmissionExample.

Lemma Validate_keeps_names_disjoint_witness :
  names_disjoint (H := ascii_only_lower)
    (upsert (H := ascii_only_lower) (Example.cluster (Example.schema 5)) [AdmissionExample.other]).
Proof.
  apply (Validate_keeps_names_disjoint (H := ascii_only_lower) (H0 := Example.deps)
    AdmissionExample.env AdmissionExample.request _ [AdmissionExample.other] eq_refl eq_refl eq_refl).
  - intros c d n ->%list_elem_of_singleton ->%list_elem_of_singleton Hne. by destruct Hne.
  - vm_compute. reflexivity.
Defined.
