(* ===== verification/FlowControl.v ===== *)
(** The flow controls of the gateway process
    ([pkg/flowcontrols/flowcontrol/flowcontrol.go]): the in-flight lock and
    the token bucket behind a flow control schema, and how the kind of a
    schema is guessed.

    The lock of [golib/lock/maxinflight] and the rate limiter of
    [client-go/util/flowcontrol] are parameters. *)
From stdpp Require Import base list strings gmap.
From Stdlib Require Import ZArith Lia.
From S2P Require Import Prelude ApiTypes Validation.

Local Open Scope Z_scope.
Local Open Scope go_scope.

(** [maxinflight.TokenBucket]: at most [n] tokens taken, or any number for
    [InfinityTokenBucket] ([None]).  [Release] adds a token back, [Resize]
    changes the capacity and leaves the taken tokens taken. *)
Class InflightLock := {
  Lock : Type;
  lock_New : Z -> Lock;
  InfinityTokenBucket : Lock;
  lock_TryAcquire : Lock -> Lock * bool;
  lock_Release : Lock -> Lock;
  lock_Resize : Lock -> Z -> Lock;
  lock_capacity : Lock -> option Z;
  lock_taken : Lock -> Z;
  lock_New_spec : forall n, lock_capacity (lock_New n) = Some n /\ lock_taken (lock_New n) = 0;
  lock_Infinity_spec : lock_capacity InfinityTokenBucket = None;
  lock_TryAcquire_spec : forall l,
    let '(l', ok) := lock_TryAcquire l in
    lock_capacity l' = lock_capacity l /\
    lock_taken l' = (if ok then lock_taken l + 1 else lock_taken l) /\
    (ok = true <-> forall n, lock_capacity l = Some n -> lock_taken l < n);
  lock_Release_spec : forall l, 0 < lock_taken l ->
    lock_capacity (lock_Release l) = lock_capacity l /\ lock_taken (lock_Release l) = lock_taken l - 1;
  lock_Resize_spec : forall l n m, lock_capacity l = Some m ->
    lock_capacity (lock_Resize l n) = Some n /\ lock_taken (lock_Resize l n) = lock_taken l
}.

(** [flowcontrol.RateLimiter] as [NewTokenBucketRateLimiter] makes it;
    [TryAccept] reads the clock.  The rate is given before its conversion to
    float32. *)
Class TokenBucketLimiter := {
  TokenLimiter : Type;
  NewTokenBucketRateLimiter : Z -> Z -> TokenLimiter;
  TryAccept : TokenLimiter -> Z -> TokenLimiter * bool
}.

(** * Kinds *)

Definition is_some {A} (o : option A) : bool := match o with Some _ => true | None => false end.

Definition GuessFlowControlSchemaType (s : FlowControlSchema) : FlowControlSchemaType :=
  let c := fs_Config s in
  if is_some (fc_Exempt c) then Exempt
  else if is_some (fc_MaxRequestsInflight c) || is_some (fc_GlobalMaxRequestsInflight c) then
    MaxRequestsInflight
  else if is_some (fc_TokenBucket c) || is_some (fc_GlobalTokenBucket c) then TokenBucket
  else Exempt.

Definition GetFlowControlTypeFromLimitItem (d : LimitItemDetail) : FlowControlSchemaType :=
  if is_some (li_MaxRequestsInflight d) then MaxRequestsInflight
  else if is_some (li_TokenBucket d) then TokenBucket
  else Unknown.

(** * Flow controls *)

Section flow_control.
Context `{InflightLock} `{TokenBucketLimiter}.

Record flowControl := MkInflight {
  if_TokenBucket : Lock;
  if_name : string;
  if_typ : FlowControlSchemaType;
  if_max : Z
}.

Record resizeableTokenBucket := MkBucket {
  tb_rateLimiter : TokenLimiter;
  tb_name : string;
  tb_typ : FlowControlSchemaType;
  tb_qps : Z;
  tb_burst : Z
}.

(** The [FlowControl] interface, with its two implementations. *)
Inductive LocalFlowControl :=
  | InflightControl (f : flowControl)
  | BucketControl (f : resizeableTokenBucket).

Definition flowControl_Resize (f : flowControl) (n burst : Z) : flowControl * bool :=
  if if_max f =? n then (f, false)
  else (MkInflight (lock_Resize (if_TokenBucket f) n) (if_name f) (if_typ f) n, true).

Definition flowControl_MaxInflight (f : flowControl) : Z := wrap32 (if_max f).

Definition resizeableTokenBucket_TryAcquire (now : Z) (f : resizeableTokenBucket)
    : resizeableTokenBucket * bool :=
  let '(l, ok) := TryAccept (tb_rateLimiter f) now in
  (MkBucket l (tb_name f) (tb_typ f) (tb_qps f) (tb_burst f), ok).

Definition resizeableTokenBucket_Resize (f : resizeableTokenBucket) (n burst : Z)
    : resizeableTokenBucket * bool :=
  if (tb_qps f =? n) && (tb_burst f =? burst) then (f, false)
  else (MkBucket (NewTokenBucketRateLimiter n burst) (tb_name f) (tb_typ f) n burst, true).

Definition resizeableTokenBucket_Release (f : resizeableTokenBucket) : resizeableTokenBucket := f.
Definition resizeableTokenBucket_QPS (f : resizeableTokenBucket) : Z := wrap32 (tb_qps f).
Definition resizeableTokenBucket_Burst (f : resizeableTokenBucket) : Z := wrap32 (tb_burst f).

(** [NewFlowControl] dereferences the local limit of the guessed kind. *)
Definition NewFlowControl (schema : FlowControlSchema) : result Empty_set LocalFlowControl :=
  let name := fs_Name schema in
  let typ := GuessFlowControlSchemaType schema in
  match typ with
  | MaxRequestsInflight =>
      match fc_MaxRequestsInflight (fs_Config schema) with
      | None => Panic
      | Some m =>
          Ok (InflightControl (MkInflight (lock_New (uwrap32 (Max m))) name typ (uwrap32 (Max m))))
      end
  | TokenBucket =>
      match fc_TokenBucket (fs_Config schema) with
      | None => Panic
      | Some tb =>
          Ok (BucketControl (MkBucket (NewTokenBucketRateLimiter (QPS tb) (Burst tb)) name typ
                               (uwrap32 (QPS tb)) (uwrap32 (Burst tb))))
      end
  | _ => Ok (InflightControl (MkInflight InfinityTokenBucket name typ 0))
  end.

Definition DefaultFlowControl : LocalFlowControl :=
  InflightControl (MkInflight InfinityTokenBucket "system-default" Exempt 0).

Definition LocalFlowControl_Type (fc : LocalFlowControl) : FlowControlSchemaType :=
  match fc with InflightControl f => if_typ f | BucketControl f => tb_typ f end.

Definition LocalFlowControl_TryAcquire (now : Z) (fc : LocalFlowControl) : LocalFlowControl * bool :=
  match fc with
  | InflightControl f =>
      let '(l, ok) := lock_TryAcquire (if_TokenBucket f) in
      (InflightControl (MkInflight l (if_name f) (if_typ f) (if_max f)), ok)
  | BucketControl f =>
      let '(f', ok) := resizeableTokenBucket_TryAcquire now f in (BucketControl f', ok)
  end.

Definition LocalFlowControl_Release (fc : LocalFlowControl) : LocalFlowControl :=
  match fc with
  | InflightControl f =>
      InflightControl (MkInflight (lock_Release (if_TokenBucket f)) (if_name f) (if_typ f) (if_max f))
  | BucketControl f => BucketControl (resizeableTokenBucket_Release f)
  end.

Definition LocalFlowControl_Resize (fc : LocalFlowControl) (n burst : Z) : LocalFlowControl * bool :=
  match fc with
  | InflightControl f => let '(f', r) := flowControl_Resize f n burst in (InflightControl f', r)
  | BucketControl f =>
      let '(f', r) := resizeableTokenBucket_Resize f n burst in (BucketControl f', r)
  end.

(** The limit a flow control enforces: how many requests in flight, or which
    rate and burst; nothing for an exempt one. *)
Definition enforced (fc : LocalFlowControl) : option (Z * Z) :=
  match fc with
  | InflightControl f => option_map (fun n => (n, 0)) (lock_capacity (if_TokenBucket f))
  | BucketControl f => Some (tb_qps f, tb_burst f)
  end.

(** The limit a configuration asks for. *)
Definition wanted (c : FlowControlSchemaConfiguration) : option (Z * Z) :=
  match fc_MaxRequestsInflight c, fc_TokenBucket c with
  | Some m, _ => Some (Max m, 0)
  | None, Some tb => Some (QPS tb, Burst tb)
  | None, None => None
  end.

(** * Lemmas *)

Lemma Guess_config_ok s :
  config_ok (fs_Config s) ->
  GuessFlowControlSchemaType s =
    match fc_MaxRequestsInflight (fs_Config s), fc_TokenBucket (fs_Config s) with
    | Some _, _ => MaxRequestsInflight
    | None, Some _ => TokenBucket
    | None, None => Exempt
    end.
Proof.
  intros [H1 _ _ Hg Hgt]. unfold GuessFlowControlSchemaType.
  destruct (fc_Exempt (fs_Config s)), (fc_MaxRequestsInflight (fs_Config s)),
    (fc_TokenBucket (fs_Config s)); simpl; try done.
  destruct (fc_GlobalMaxRequestsInflight (fs_Config s)) as [g|]; [|done].
  destruct (Hg g eq_refl) as (m & [=] & _).
Qed.

(** The range of the numbers of a configuration that comes off the wire. *)
Definition int32_config (c : FlowControlSchemaConfiguration) : Prop :=
  (forall m, fc_MaxRequestsInflight c = Some m -> in_int32 (Max m)) /\
  (forall tb, fc_TokenBucket c = Some tb -> in_int32 (QPS tb) /\ in_int32 (Burst tb)).
End flow_control.

(** * Properties *)

(** Every schema that validation accepts gives a flow control that
    enforces the limit it asks for; creation cannot fail.  (A negative rate,
    which validation accepts, reads back as the same number.) *)
Theorem NewFlowControl_enforces `{InflightLock} `{TokenBucketLimiter} schema :
  config_ok (fs_Config schema) -> int32_config (fs_Config schema) ->
  exists fc, NewFlowControl schema = Ok fc /\
    LocalFlowControl_Type fc = GuessFlowControlSchemaType schema /\
    option_map (fun '(n, b) => (wrap32 n, wrap32 b)) (enforced fc) = wanted (fs_Config schema).
Proof.
  intros Hok [Hm Htb]. pose proof (Guess_config_ok schema Hok) as Hg. unfold NewFlowControl, wanted.
  rewrite Hg.
  destruct (fc_MaxRequestsInflight (fs_Config schema)) as [m|].
  - eexists. split_and!; [done|done|]. simpl.
    rewrite (proj1 (lock_New_spec _)). simpl. rewrite wrap32_uwrap32 by (by apply Hm). done.
  - destruct (fc_TokenBucket (fs_Config schema)) as [tb|].
    + eexists. split_and!; [done|done|]. simpl. destruct (Htb tb eq_refl).
      by rewrite !wrap32_uwrap32.
    + eexists. split_and!; [done|done|]. simpl. by rewrite lock_Infinity_spec.
Qed.

(** Parameters over integers that meet the laws. *)
Module SimpleLock.
Record t := Mk { capacity : option Z; taken : Z }.

#[refine] Definition lock : InflightLock := {|
  Lock := t;
  lock_New n := Mk (Some n) 0;
  InfinityTokenBucket := Mk None 0;
  lock_TryAcquire l :=
    if match capacity l with Some n => taken l <? n | None => true end
    then (Mk (capacity l) (taken l + 1), true) else (l, false);
  lock_Release l := Mk (capacity l) (taken l - 1);
  lock_Resize l n := Mk (Some n) (taken l);
  lock_capacity := capacity;
  lock_taken := taken
|}.
Proof.
  - done.
  - done.
  - intros l. destruct (capacity l) as [n|] eqn:E; [|done].
    destruct (Z.ltb_spec (taken l) n); simpl; rewrite ?E; split_and!; try done.
    + split; [|done]. intros _ m [= <-]. lia.
    + split; [done|]. intros Hn. specialize (Hn n eq_refl). lia.
  - done.
  - done.
Defined.

Definition limiter : TokenBucketLimiter := {|
  TokenLimiter := Z;
  NewTokenBucketRateLimiter qps burst := burst;
  TryAccept l now := if 0 <? l then (l - 1, true) else (l, false)
|}.
End SimpleLock.

Lemma NewFlowControl_enforces_witness :
  exists fc, NewFlowControl (H := SimpleLock.lock) (H0 := SimpleLock.limiter) (Example.schema 5) = Ok fc.
Proof.
  destruct (NewFlowControl_enforces (H := SimpleLock.lock) (H0 := SimpleLock.limiter)
    (Example.schema 5)) as (fc & Hfc & _).
  - apply (ValidateFlowControlConfiguration_nil _ []). vm_compute. reflexivity.
  - split; [done|]. intros tb [= <-]. split; split; vm_compute; (discriminate || reflexivity).
  - exists fc. exact Hfc.
Defined.
