(* ===== verification/GlobalFlowControl.v ===== *)
(** The flow controls of the rate limit server
    ([pkg/ratelimiter/store/flowcontrol]): the global in-flight counter, the
    global token bucket, and their common interface.

    This file models the operations one call at a time; the interleaving of
    concurrent [SetState] calls is in [InflightRace].  [rate.Limiter] is a
    parameter ([RateLimiter]). *)
From stdpp Require Import base list strings gmap sets.
From Stdlib Require Import ZArith Lia.
From S2P Require Import Prelude ApiTypes.

Local Open Scope Z_scope.

(** * golang.org/x/time/rate

    [AllowN] at a time answers and updates the limiter; what the server
    relies on is that one call never grants more than the burst. *)
Class RateLimiter := {
  Limiter : Type;
  Limiter_eq_dec :: EqDecision Limiter;
  NewLimiter : Z -> Z -> Limiter;
  AllowN : Limiter -> Z -> Z -> Limiter * bool;
  limiter_Burst : Limiter -> Z;
  NewLimiter_Burst : forall qps burst, limiter_Burst (NewLimiter qps burst) = burst;
  AllowN_Burst : forall l now n, limiter_Burst (fst (AllowN l now n)) = limiter_Burst l;
  AllowN_le : forall l now n, snd (AllowN l now n) = true -> n <= limiter_Burst l
}.

(** * The in-flight counter *)

Record instanceState := MkInstanceState {
  is_count : Z;
  is_requestId : Z
}.

Record globalMaxInflight := MkGlobalMaxInflight {
  gm_name : string;
  gm_typ : FlowControlSchemaType;
  gm_max : Z;
  gm_count : Z;
  gm_instanceStates : gmap string instanceState
}.

Definition newMaxInflightFlowControl (name : string) (typ : FlowControlSchemaType) (max : Z)
    : globalMaxInflight :=
  MkGlobalMaxInflight name typ max 0 ∅.

Definition globalMaxInflight_Resize (f : globalMaxInflight) (n burst : Z)
    : globalMaxInflight * bool :=
  if gm_max f =? n then (f, false)
  else (MkGlobalMaxInflight (gm_name f) (gm_typ f) n (gm_count f) (gm_instanceStates f), true).

Definition globalMaxInflight_TryAcquireN (f : globalMaxInflight) (instance : string) (n : Z)
    : globalMaxInflight * bool := (f, false).

(** [add]: the counter after adding [n], and by how much it exceeds [max]. *)
Definition globalMaxInflight_add (f : globalMaxInflight) (n : Z) : globalMaxInflight * Z :=
  let count := wrap32 (gm_count f + n) in
  (MkGlobalMaxInflight (gm_name f) (gm_typ f) (gm_max f) count (gm_instanceStates f),
   wrap32 (count - gm_max f)).

Definition globalMaxInflight_overflow (f : globalMaxInflight) : Z :=
  wrap32 (gm_count f - gm_max f).

Definition with_states (f : globalMaxInflight) (m : gmap string instanceState)
    : globalMaxInflight :=
  MkGlobalMaxInflight (gm_name f) (gm_typ f) (gm_max f) (gm_count f) m.

(** The error value of [SetState]. *)
Inductive SetState_error := RequestIDTooOld.

(** What [SetState] does once the instance has a state. *)
Definition SetState_known (f : globalMaxInflight) (instance : string) (state : instanceState)
    (requestId current : Z) : globalMaxInflight * (bool * Z * option SetState_error) :=
  let oldId := is_requestId state in
  if (0 <? requestId) && (requestId <=? oldId) then (f, (false, current, Some RequestIDTooOld))
  else
    let newId := if 0 <? requestId then requestId else oldId in
    let old := is_count state in
    let delta := wrap32 (current - old) in
    let f1 := with_states f (<[instance := MkInstanceState current newId]> (gm_instanceStates f)) in
    let '(f2, overflowed) := globalMaxInflight_add f1 delta in
    if 0 <? overflowed then
      let f3 := with_states f2
        (<[instance := MkInstanceState (wrap32 (current + wrap32 (- delta))) newId]>
           (gm_instanceStates f2)) in
      let '(f4, _) := globalMaxInflight_add f3 (wrap32 (- delta)) in
      (f4, (false, old, None))
    else if (overflowed =? 0) && (0 <? current) then (f2, (false, current, None))
    else (f2, (true, current, None)).

Definition globalMaxInflight_SetState (f : globalMaxInflight) (instance : string)
    (requestId current : Z) : globalMaxInflight * (bool * Z * option SetState_error) :=
  match gm_instanceStates f !! instance with
  | Some state =>
      if current <? 0 then
        let f1 := with_states f (delete instance (gm_instanceStates f)) in
        let '(f2, _) := globalMaxInflight_add f1 (wrap32 (- is_count state)) in
        (f2, (false, -1, None))
      else SetState_known f instance state requestId current
  | None =>
      if current <? 0 then (f, (false, -1, None))
      else
        let state := MkInstanceState 0 0 in
        let f1 := with_states f (<[instance := state]> (gm_instanceStates f)) in
        SetState_known f1 instance state requestId current
  end.

(** * The token bucket *)

Section token_bucket.
Context `{RateLimiter}.

Record globalTokenBucket := MkGlobalTokenBucket {
  gt_limiter : Limiter;
  gt_name : string;
  gt_typ : FlowControlSchemaType;
  gt_qps : Z;
  gt_burst : Z
}.

Definition newTokenBucketFlowControl (name : string) (typ : FlowControlSchemaType)
    (qps burst : Z) : globalTokenBucket :=
  MkGlobalTokenBucket (NewLimiter qps burst) name typ qps burst.

Definition globalTokenBucket_TryAcquireN (now : Z) (f : globalTokenBucket) (instance : string)
    (n : Z) : globalTokenBucket * bool :=
  let '(l, ok) := AllowN (gt_limiter f) now n in
  (MkGlobalTokenBucket l (gt_name f) (gt_typ f) (gt_qps f) (gt_burst f), ok).

Definition globalTokenBucket_Resize (f : globalTokenBucket) (n burst : Z)
    : globalTokenBucket * bool :=
  if (gt_qps f =? n) && (gt_burst f =? burst) then (f, false)
  else (MkGlobalTokenBucket (NewLimiter n burst) (gt_name f) (gt_typ f) n burst, true).

Definition globalTokenBucket_SetState (f : globalTokenBucket) (instance : string)
    (requestId current : Z) : globalTokenBucket * (bool * Z * option SetState_error) :=
  (f, (false, -1, None)).

(** * The interface

    A [GlobalFlowControl] value is one of the two implementations; each
    method dispatches on it.  [now] is [time.Now()] at the call. *)

Inductive GlobalFlowControl :=
  | GlobalMaxInflight (f : globalMaxInflight)
  | GlobalTokenBucket (f : globalTokenBucket).

Definition GlobalFlowControl_Type (fc : GlobalFlowControl) : FlowControlSchemaType :=
  match fc with
  | GlobalMaxInflight f => gm_typ f
  | GlobalTokenBucket f => gt_typ f
  end.

Definition GlobalFlowControl_TryAcquireN (now : Z) (fc : GlobalFlowControl) (instance : string)
    (token : Z) : GlobalFlowControl * bool :=
  match fc with
  | GlobalMaxInflight f =>
      let '(f', ok) := globalMaxInflight_TryAcquireN f instance token in (GlobalMaxInflight f', ok)
  | GlobalTokenBucket f =>
      let '(f', ok) := globalTokenBucket_TryAcquireN now f instance token in
      (GlobalTokenBucket f', ok)
  end.

Definition GlobalFlowControl_SetState (fc : GlobalFlowControl) (instance : string)
    (requestId current : Z) : GlobalFlowControl * (bool * Z * option SetState_error) :=
  match fc with
  | GlobalMaxInflight f =>
      let '(f', r) := globalMaxInflight_SetState f instance requestId current in
      (GlobalMaxInflight f', r)
  | GlobalTokenBucket f =>
      let '(f', r) := globalTokenBucket_SetState f instance requestId current in
      (GlobalTokenBucket f', r)
  end.

Definition GlobalFlowControl_Resize (fc : GlobalFlowControl) (n burst : Z)
    : GlobalFlowControl * bool :=
  match fc with
  | GlobalMaxInflight f =>
      let '(f', r) := globalMaxInflight_Resize f n burst in (GlobalMaxInflight f', r)
  | GlobalTokenBucket f =>
      let '(f', r) := globalTokenBucket_Resize f n burst in (GlobalTokenBucket f', r)
  end.

(** [None] is the nil interface. *)
Definition NewGlobalFlowControl (schema : FlowControlSchema) : option GlobalFlowControl :=
  let name := fs_Name schema in
  let c := fs_Config schema in
  match fc_GlobalMaxRequestsInflight c with
  | Some g => Some (GlobalMaxInflight (newMaxInflightFlowControl name MaxRequestsInflight (Max g)))
  | None =>
      match fc_GlobalTokenBucket c with
      | Some g =>
          Some (GlobalTokenBucket (newTokenBucketFlowControl name TokenBucket (QPS g) (Burst g)))
      | None => None
      end
  end.

Definition ResizeGlobalFlowControl (fc : GlobalFlowControl) (schema : FlowControlSchema)
    : GlobalFlowControl :=
  let c := fs_Config schema in
  match fc_GlobalMaxRequestsInflight c with
  | Some g => fst (GlobalFlowControl_Resize fc (Max g) 0)
  | None =>
      match fc_GlobalTokenBucket c with
      | Some g => fst (GlobalFlowControl_Resize fc (QPS g) (Burst g))
      | None => fc
      end
  end.
End token_bucket.

(** * The contract of the in-flight counter

    A ledger: a capacity, and for each instance the number of requests in
    flight it was last granted with the id of its last report. *)

Record ledger := MkLedger {
  cap : Z;
  entries : gmap string (Z * Z)
}.

Definition ledger_total (l : ledger) : Z := msum fst (entries l).

Inductive answer := Removed | TooOld | Rejected (old : Z) | Full | Accepted.

(** A report of [current] requests in flight by an instance: it is recorded
    exactly when the total stays within the capacity. *)
Definition report (l : ledger) (instance : string) (requestId current : Z) : ledger * answer :=
  if current <? 0 then (MkLedger (cap l) (delete instance (entries l)), Removed)
  else
    let '(old, id) := default (0, 0) (entries l !! instance) in
    if (0 <? requestId) && (requestId <=? id) then (l, TooOld)
    else
      let id' := if 0 <? requestId then requestId else id in
      let total' := ledger_total l - old + current in
      if cap l <? total' then (MkLedger (cap l) (<[instance := (old, id')]> (entries l)), Rejected old)
      else (MkLedger (cap l) (<[instance := (current, id')]> (entries l)),
            if (total' =? cap l) && (0 <? current) then Full else Accepted).

(** How the code returns each answer. *)
Definition answer_values (current : Z) (a : answer) : bool * Z * option SetState_error :=
  match a with
  | Removed => (false, -1, None)
  | TooOld => (false, current, Some RequestIDTooOld)
  | Rejected old => (false, old, None)
  | Full => (false, current, None)
  | Accepted => (true, current, None)
  end.

Definition state_entry (s : instanceState) : Z * Z := (is_count s, is_requestId s).

Definition to_ledger (f : globalMaxInflight) : ledger :=
  MkLedger (gm_max f) (state_entry <$> gm_instanceStates f).

Definition total (f : globalMaxInflight) : Z := msum is_count (gm_instanceStates f).

Definition recorded (f : globalMaxInflight) (instance : string) : Z :=
  from_option is_count 0 (gm_instanceStates f !! instance).

(** The counter is the sum of the recorded counts, which are not negative. *)
Record inflight_inv (f : globalMaxInflight) : Prop := {
  inv_count : gm_count f = total f;
  inv_int32 : total f < 2 ^ 31;
  inv_nonneg : map_Forall (fun _ s => 0 <= is_count s) (gm_instanceStates f);
  inv_max : 0 <= gm_max f < 2 ^ 31
}.

(** * Lemmas *)

Lemma msum_fmap {A B} (g : A -> B) (h : B -> Z) (m : gmap string A) :
  msum h (g <$> m) = msum (h ∘ g) m.
Proof.
  induction m as [|k v m Hk IH] using map_ind; [by rewrite fmap_empty, !msum_empty|].
  rewrite fmap_insert, !msum_insert_new; [by rewrite IH|done|].
  by rewrite lookup_fmap, Hk.
Qed.

Lemma ledger_total_to_ledger f : ledger_total (to_ledger f) = total f.
Proof. unfold ledger_total, total. simpl. by rewrite msum_fmap. Qed.

Lemma recorded_bounds f i : inflight_inv f -> 0 <= recorded f i <= total f.
Proof.
  intros [_ _ Hn _]. unfold recorded. destruct (gm_instanceStates f !! i) as [s|] eqn:E; simpl.
  - split; [by apply (Hn i s)|]. by apply (msum_lookup_le is_count _ i s).
  - split; [lia|]. by apply msum_nonneg.
Qed.

Lemma total_insert f i s :
  msum is_count (<[i := s]> (gm_instanceStates f)) = total f - recorded f i + is_count s.
Proof. rewrite msum_insert. unfold total, recorded. done. Qed.

(** The call of [SetState_known] with the state it is given: in the map, or
    freshly made. *)
Definition known (f : globalMaxInflight) (i : string) (s : instanceState) : Prop :=
  gm_instanceStates f !! i = Some s.

Lemma wrap32_range_id z : - 2 ^ 31 <= z < 2 ^ 31 -> wrap32 z = z.
Proof. apply wrap32_id. Qed.

(** One report on a known instance, as arithmetic without wrap-around: the
    difference to the maximum is all that has to fit in 32 bits. *)
Lemma SetState_known_eq f i s rid cur :
  inflight_inv f -> known f i s -> 0 <= cur < 2 ^ 31 ->
  total f - is_count s + cur - gm_max f < 2 ^ 31 ->
  SetState_known f i s rid cur =
    if (0 <? rid) && (rid <=? is_requestId s) then (f, (false, cur, Some RequestIDTooOld))
    else
      let id := if 0 <? rid then rid else is_requestId s in
      let t := total f - is_count s + cur in
      if gm_max f <? t then
        (with_states f (<[i := MkInstanceState (is_count s) id]> (gm_instanceStates f)),
         (false, is_count s, None))
      else
        (MkGlobalMaxInflight (gm_name f) (gm_typ f) (gm_max f) t
           (<[i := MkInstanceState cur id]> (gm_instanceStates f)),
         (negb ((t =? gm_max f) && (0 <? cur)), cur, None)).
Proof.
  intros Hinv Hk Hcur Hfit. pose proof (recorded_bounds f i Hinv) as Hb.
  unfold known in Hk. unfold recorded in Hb. rewrite Hk in Hb. simpl in Hb.
  destruct Hinv as [Hc H31 Hn Hmax]. unfold SetState_known.
  destruct ((0 <? rid) && (rid <=? is_requestId s)); [done|].
  unfold globalMaxInflight_add, with_states. simpl.
  rewrite (wrap32_range_id (cur - is_count s)) by lia. rewrite Hc.
  replace (total f + (cur - is_count s)) with (total f - is_count s + cur) by lia.
  set (t := total f - is_count s + cur) in *.
  replace (wrap32 t - gm_max f) with (wrap32 t + - gm_max f) by lia.
  rewrite wrap32_add_l, (wrap32_range_id (t + - gm_max f)) by lia.
  destruct (Z.ltb_spec (gm_max f) t) as [Ho|Ho].
  - rewrite (proj2 (Z.ltb_lt 0 (t + - gm_max f))) by lia.
    rewrite (wrap32_range_id (- (cur - is_count s))) by lia.
    rewrite wrap32_add_l, insert_insert_eq.
    replace (t + - (cur - is_count s)) with (total f) by lia.
    replace (cur + - (cur - is_count s)) with (is_count s) by lia.
    rewrite !wrap32_range_id by lia. by rewrite <- Hc.
  - rewrite (proj2 (Z.ltb_ge 0 (t + - gm_max f))) by lia.
    rewrite (wrap32_range_id t) by lia.
    replace (t + - gm_max f =? 0) with (t =? gm_max f)
      by (destruct (Z.eqb_spec t (gm_max f)), (Z.eqb_spec (t + - gm_max f) 0); lia || done).
    by destruct ((t =? gm_max f) && (0 <? cur)).
Qed.

(** Adding an empty state changes nothing the ledger counts. *)
Lemma fresh_state_inv f i :
  inflight_inv f -> gm_instanceStates f !! i = None ->
  inflight_inv (with_states f (<[i := MkInstanceState 0 0]> (gm_instanceStates f))) /\
  total (with_states f (<[i := MkInstanceState 0 0]> (gm_instanceStates f))) = total f.
Proof.
  intros [Hc H31 Hn Hm] Hi.
  assert (total (with_states f (<[i := MkInstanceState 0 0]> (gm_instanceStates f))) = total f) as Ht.
  { unfold total at 1. simpl. rewrite total_insert. unfold recorded. rewrite Hi. simpl. lia. }
  split; [|done]. split; rewrite ?Ht; try done.
  apply map_Forall_insert_2; [done|done].
Qed.

Lemma inv_insert f i c id cnt :
  inflight_inv f -> 0 <= c -> cnt = total f - recorded f i + c -> cnt < 2 ^ 31 ->
  inflight_inv (MkGlobalMaxInflight (gm_name f) (gm_typ f) (gm_max f) cnt
    (<[i := MkInstanceState c id]> (gm_instanceStates f))).
Proof.
  intros [Hc H31 Hn Hm] H0 Hcnt Hlt.
  assert (total (MkGlobalMaxInflight (gm_name f) (gm_typ f) (gm_max f) cnt
    (<[i := MkInstanceState c id]> (gm_instanceStates f))) = cnt) as Ht.
  { unfold total at 1. simpl. by rewrite total_insert. }
  split; rewrite ?Ht; try done. by apply map_Forall_insert_2.
Qed.

(** The refinement for a report on a known instance. *)
Lemma SetState_known_refines f i s rid cur :
  inflight_inv f -> known f i s -> 0 <= cur < 2 ^ 31 ->
  total f - is_count s + cur - gm_max f < 2 ^ 31 ->
  let '(f', r) := SetState_known f i s rid cur in
  let '(l', a) := report (to_ledger f) i rid cur in
  to_ledger f' = l' /\ r = answer_values cur a /\ inflight_inv f'.
Proof.
  intros Hinv Hk Hcur Hfit. rewrite (SetState_known_eq f i s rid cur) by done.
  pose proof (recorded_bounds f i Hinv) as Hb.
  assert (recorded f i = is_count s) as Hr by (unfold recorded; by rewrite Hk).
  rewrite Hr in Hb.
  unfold report. rewrite (proj2 (Z.ltb_ge cur 0)) by lia. simpl.
  rewrite lookup_fmap, Hk. simpl. rewrite ledger_total_to_ledger.
  pose proof (inv_int32 f Hinv). pose proof (inv_max f Hinv).
  destruct ((0 <? rid) && (rid <=? is_requestId s)); [done|].
  set (id := if 0 <? rid then rid else is_requestId s).
  destruct (Z.ltb_spec (gm_max f) (total f - is_count s + cur)); split_and!; try done.
  - unfold to_ledger, with_states. simpl. by rewrite fmap_insert.
  - unfold with_states. apply inv_insert; [done|lia| |]; rewrite (inv_count f Hinv); lia.
  - unfold to_ledger. simpl. by rewrite fmap_insert.
  - by destruct ((_ =? _) && (0 <? cur)).
  - apply inv_insert; [done|lia|lia|lia].
Qed.

Lemma SetState_known_capacity f i s rid cur :
  inflight_inv f -> known f i s -> 0 <= cur < 2 ^ 31 -> total f <= gm_max f ->
  let f' := fst (SetState_known f i s rid cur) in
  inflight_inv f' /\ total f' <= gm_max f' /\ gm_max f' = gm_max f.
Proof.
  intros Hinv Hk H0 Htot. pose proof (recorded_bounds f i Hinv) as Hb.
  assert (recorded f i = is_count s) as Hr by (unfold recorded; by rewrite Hk).
  rewrite Hr in Hb. pose proof (inv_max f Hinv).
  pose proof (SetState_known_refines f i s rid cur Hinv Hk ltac:(lia) ltac:(lia)) as Href.
  rewrite (SetState_known_eq f i s rid cur) in * by (done || lia).
  destruct ((0 <? rid) && (rid <=? is_requestId s)); [done|]. simpl in *.
  destruct (Z.ltb_spec (gm_max f) (total f - is_count s + cur));
    destruct (report _ _ _ _) as [l' a]; destruct Href as (_ & _ & Hi'); simpl;
    (split; [done|split; [|done]]); unfold total; simpl; rewrite total_insert, Hr; simpl; lia.
Qed.

Lemma remove_refines f i s :
  inflight_inv f -> known f i s ->
  let f' := fst (globalMaxInflight_add (with_states f (delete i (gm_instanceStates f)))
                   (wrap32 (- is_count s))) in
  to_ledger f' = MkLedger (gm_max f) (delete i (entries (to_ledger f))) /\ inflight_inv f'.
Proof.
  intros Hinv Hk. pose proof (recorded_bounds f i Hinv) as Hb.
  unfold recorded in Hb. rewrite Hk in Hb. simpl in Hb. destruct Hinv as [Hc H31 Hn Hm].
  unfold globalMaxInflight_add, with_states, to_ledger. simpl.
  rewrite (wrap32_range_id (- is_count s)), Hc, wrap32_range_id by lia.
  split; [by rewrite fmap_delete|].
  assert (total (MkGlobalMaxInflight (gm_name f) (gm_typ f) (gm_max f) (total f + - is_count s)
    (delete i (gm_instanceStates f))) = total f - is_count s) as Ht.
  { unfold total. simpl. by rewrite (msum_delete _ _ i s). }
  split; rewrite ?Ht; simpl; try lia. by apply map_Forall_delete.
Qed.

(** Removing an instance. *)
Lemma SetState_remove f i rid :
  inflight_inv f ->
  let f' := fst (globalMaxInflight_SetState f i rid (-1)) in
  inflight_inv f' /\ entries (to_ledger f') = delete i (entries (to_ledger f)).
Proof.
  intros Hinv. unfold globalMaxInflight_SetState.
  destruct (gm_instanceStates f !! i) as [s|] eqn:Hi; simpl.
  - destruct (remove_refines f i s Hinv Hi) as [Hl Hi']. split; [done|].
    exact (f_equal entries Hl).
  - split; [done|]. rewrite delete_id; [done|]. by rewrite lookup_fmap, Hi.
Qed.

(** An instance without a state is, for the ledger, one that has recorded
    nothing. *)
Lemma report_fresh f i rid cur :
  gm_instanceStates f !! i = None -> 0 <= cur ->
  report (to_ledger (with_states f (<[i := MkInstanceState 0 0]> (gm_instanceStates f)))) i rid cur =
  report (to_ledger f) i rid cur.
Proof.
  intros Hi Hc. unfold report. rewrite (proj2 (Z.ltb_ge cur 0)) by lia.
  rewrite !ledger_total_to_ledger. simpl. rewrite fmap_insert, lookup_insert_eq, lookup_fmap, Hi.
  simpl. replace ((0 <? rid) && (rid <=? 0)) with false
    by (symmetry; apply andb_false_iff; rewrite Z.ltb_ge, Z.leb_gt; lia).
  rewrite !insert_insert_eq.
  replace (total (with_states f (<[i := MkInstanceState 0 0]> (gm_instanceStates f)))) with (total f);
    [done|].
  unfold total at 2. simpl. rewrite total_insert. unfold recorded. rewrite Hi. simpl. lia.
Qed.

(** The whole call against the ledger. *)
Lemma SetState_refines f i rid cur :
  inflight_inv f -> cur < 2 ^ 31 -> total f - recorded f i + cur - gm_max f < 2 ^ 31 ->
  let '(f', r) := globalMaxInflight_SetState f i rid cur in
  let '(l', a) := report (to_ledger f) i rid cur in
  to_ledger f' = l' /\ r = answer_values cur a /\ inflight_inv f'.
Proof.
  intros Hinv Hcur Hfit. unfold globalMaxInflight_SetState, recorded in *.
  destruct (gm_instanceStates f !! i) as [s|] eqn:Hi; simpl in Hfit.
  - destruct (Z.ltb_spec cur 0) as [Hneg|Hpos]; [|by apply SetState_known_refines].
    destruct (remove_refines f i s Hinv Hi) as [Hl Hi'].
    unfold report. rewrite (proj2 (Z.ltb_lt cur 0)) by done. by split_and!.
  - destruct (Z.ltb_spec cur 0) as [Hneg|Hpos].
    + unfold report. rewrite (proj2 (Z.ltb_lt cur 0)) by done. split_and!; try done.
      unfold to_ledger. simpl. rewrite delete_id; [done|]. by rewrite lookup_fmap, Hi.
    + destruct (fresh_state_inv f i Hinv Hi) as [Hinv' Ht].
      rewrite <- (report_fresh f i rid cur Hi Hpos).
      apply SetState_known_refines; [done|apply lookup_insert_eq|lia|].
      rewrite Ht. simpl in *. lia.
Qed.

(** * Properties *)

(** C1: The in-flight counter implements its ledger: a call of [SetState]
    changes the recorded counts as the ledger prescribes, returns the
    matching answer, and keeps the counter equal to the sum of the recorded
    counts.  The only arithmetic that must fit in 32 bits is the distance of
    the new total to the maximum. *)
Theorem SetState_refines_ledger f i rid cur :
  inflight_inv f -> cur < 2 ^ 31 -> total f - recorded f i + cur - gm_max f < 2 ^ 31 ->
  let '(f', r) := globalMaxInflight_SetState f i rid cur in
  let '(l', a) := report (to_ledger f) i rid cur in
  to_ledger f' = l' /\ r = answer_values cur a /\ inflight_inv f'.
Proof. apply SetState_refines. Qed.

Lemma SetState_refines_ledger_witness :
  let f := newMaxInflightFlowControl "fc" MaxRequestsInflight 10 in
  to_ledger (fst (globalMaxInflight_SetState f "gw-1" 7 4)) =
  fst (report (to_ledger f) "gw-1" 7 4).
Proof.
  simpl. pose proof (SetState_refines_ledger
    (newMaxInflightFlowControl "fc" MaxRequestsInflight 10) "gw-1" 7 4) as H.
  apply H; [|lia|vm_compute; reflexivity].
  split; [reflexivity|vm_compute; reflexivity|done|split; [discriminate|reflexivity]].
Defined.

(** The capacity is respected: as long as the maximum is not lowered, the
    recorded total never exceeds it, whatever the instances report, and no
    32-bit overflow can make an excessive report pass. *)
Theorem SetState_within_capacity f i rid cur :
  inflight_inv f -> total f <= gm_max f -> in_int32 cur ->
  let f' := fst (globalMaxInflight_SetState f i rid cur) in
  inflight_inv f' /\ total f' <= gm_max f' /\ gm_max f' = gm_max f.
Proof.
  intros Hinv Htot Hcur. unfold in_int32 in Hcur.
  pose proof (recorded_bounds f i Hinv) as Hb. unfold globalMaxInflight_SetState, recorded in *.
  destruct (gm_instanceStates f !! i) as [s|] eqn:Hi; simpl in Hb.
  - destruct (Z.ltb_spec cur 0); [|apply SetState_known_capacity; done || lia].
    destruct (remove_refines f i s Hinv Hi) as [_ Hi']. split; [done|]. split; [|done].
    simpl. unfold total in *. simpl. rewrite (msum_delete _ _ i s) by done. lia.
  - destruct (Z.ltb_spec cur 0); [done|].
    destruct (fresh_state_inv f i Hinv Hi) as [Hinv' Ht].
    apply (SetState_known_capacity
      (with_states f (<[i := MkInstanceState 0 0]> (gm_instanceStates f))));
      [done|apply lookup_insert_eq|lia|]. by rewrite Ht.
Qed.

Lemma SetState_within_capacity_witness :
  let f := newMaxInflightFlowControl "fc" MaxRequestsInflight 10 in
  total (fst (globalMaxInflight_SetState f "gw-1" 7 (2 ^ 31 - 1))) <= 10.
Proof.
  apply (SetState_within_capacity (newMaxInflightFlowControl "fc" MaxRequestsInflight 10)).
  - split; [reflexivity|vm_compute; reflexivity|done|split; [discriminate|reflexivity]].
  - vm_compute. discriminate.
  - split; [discriminate|vm_compute; reflexivity].
Defined.

(** Lowering the maximum below the recorded total makes the counter refuse
    reports of fewer requests too: the instance had 10 in flight, reports 8
    under the new maximum 5, and stays recorded with 10. *)
Example lower_report_refused :
  let f := fst (globalMaxInflight_SetState
                  (newMaxInflightFlowControl "fc" MaxRequestsInflight 10) "gw-1" 1 10) in
  let f' := fst (globalMaxInflight_Resize f 5 0) in
  let '(f'', r) := globalMaxInflight_SetState f' "gw-1" 2 8 in
  r = (false, 10, None) /\ recorded f'' "gw-1" = 10.
Proof. vm_compute. split; reflexivity. Qed.

(** ** Kinds and resizing *)

Section kinds.
Context `{RateLimiter}.

(** The kind a configuration asks the server for. *)
Definition schema_kind (c : FlowControlSchemaConfiguration) : option FlowControlSchemaType :=
  match fc_GlobalMaxRequestsInflight c, fc_GlobalTokenBucket c with
  | Some _, _ => Some MaxRequestsInflight
  | None, Some _ => Some TokenBucket
  | None, None => None
  end.

Lemma NewGlobalFlowControl_kind schema :
  GlobalFlowControl_Type <$> NewGlobalFlowControl schema = schema_kind (fs_Config schema).
Proof.
  unfold NewGlobalFlowControl, schema_kind.
  by destruct (fc_GlobalMaxRequestsInflight (fs_Config schema)),
    (fc_GlobalTokenBucket (fs_Config schema)).
Qed.

(** A value of the interface carries the type of its implementation. *)
Definition kind_ok (fc : GlobalFlowControl) : Prop :=
  GlobalFlowControl_Type fc =
    match fc with GlobalMaxInflight _ => MaxRequestsInflight | GlobalTokenBucket _ => TokenBucket end.

Lemma NewGlobalFlowControl_kind_ok schema fc :
  NewGlobalFlowControl schema = Some fc -> kind_ok fc.
Proof. unfold NewGlobalFlowControl. intros. by repeat case_match; simplify_eq. Qed.

Lemma Resize_kind fc n b :
  GlobalFlowControl_Type (fst (GlobalFlowControl_Resize fc n b)) = GlobalFlowControl_Type fc.
Proof.
  destruct fc as [f|f]; simpl; unfold globalMaxInflight_Resize, globalTokenBucket_Resize.
  - by destruct (gm_max f =? n).
  - by destruct ((gt_qps f =? n) && (gt_burst f =? b)).
Qed.

Lemma SetState_known_typ f i s rid cur : gm_typ (fst (SetState_known f i s rid cur)) = gm_typ f.
Proof. unfold SetState_known, globalMaxInflight_add. repeat case_match; by simplify_eq/=. Qed.

Lemma SetState_kind fc i rid cur :
  GlobalFlowControl_Type (fst (GlobalFlowControl_SetState fc i rid cur)) = GlobalFlowControl_Type fc.
Proof.
  destruct fc as [f|f]; [|done]. simpl.
  destruct (globalMaxInflight_SetState f i rid cur) as [f' r] eqn:E. simpl.
  replace f' with (fst (globalMaxInflight_SetState f i rid cur)) by by rewrite E.
  unfold globalMaxInflight_SetState.
  destruct (gm_instanceStates f !! i), (cur <? 0); simpl; by rewrite ?SetState_known_typ.
Qed.

Lemma TryAcquireN_kind now fc i n :
  GlobalFlowControl_Type (fst (GlobalFlowControl_TryAcquireN now fc i n)) = GlobalFlowControl_Type fc.
Proof.
  destruct fc as [f|f]; [done|]. simpl. unfold globalTokenBucket_TryAcquireN.
  by destruct (AllowN _ _ _).
Qed.
End kinds.

(** A limiter over integers that meets the laws: a bucket of billionths of
    tokens refilled with the time that passed. *)
Module SimpleLimiter.
Record t := Mk { rate : Z; burst : Z; level : Z; last : Z }.

#[export] Instance t_eq_dec : EqDecision t.
Proof. solve_decision. Defined.

Definition allow (l : t) (now n : Z) : t * bool :=
  let level' := Z.min (burst l * 10 ^ 9) (level l + Z.max 0 (now - last l) * rate l) in
  if n * 10 ^ 9 <=? level' then (Mk (rate l) (burst l) (level' - n * 10 ^ 9) now, true)
  else (l, false).

#[refine] Definition limiter : RateLimiter := {|
  Limiter := t;
  NewLimiter qps b := Mk qps b (b * 10 ^ 9) 0;
  AllowN := allow;
  limiter_Burst := burst
|}.
Proof.
  - done.
  - intros l now n. unfold allow. by case_match.
  - intros l now n. unfold allow. case_match eqn:E; [|done]. intros _.
    apply Z.leb_le in E. lia.
Defined.
End SimpleLimiter.
