(* ===== verification/InflightRace.v ===== *)
(** Concurrent calls of [globalMaxInflight.SetState]
    ([pkg/ratelimiter/store/flowcontrol/maxinflight.go]).

    The instance states are cells of a heap that calls keep pointers to, as
    in the code.  A call is a program counter between the atomic actions of
    its body: the sections under the write lock are one action each, and the
    section under the read lock is split at every atomic operation on the
    shared counters.  A run interleaves the actions of any number of calls
    and changes of the maximum. *)
From stdpp Require Import base list strings gmap sets.
From Stdlib Require Import ZArith Lia.
From S2P Require Import Prelude ApiTypes GlobalFlowControl.

Local Open Scope Z_scope.

(** * Shared memory, calls and program counters *)

Record shared := MkShared {
  sh_max : Z;
  sh_count : Z;
  sh_heap : gmap nat instanceState;
  sh_states : gmap string nat;
  sh_next : nat
}.

Record call := MkCall {
  call_instance : string;
  call_requestId : Z;
  call_current : Z
}.

(** The line of [SetState] an active call is at, with its local variables. *)
Inductive pc :=
  | AtLookup
  | AtBranch (state : option nat)
  | AtRLock (state : nat)
  | AtCheckId (state : nat)
  | AtStoreId (state : nat)
  | AtSwap (state : nat)
  | AtAdd (state : nat) (old delta : Z)
  | AtCompare (state : nat) (old delta count : Z)
  | AtRollState (state : nat) (old delta : Z)
  | AtRollCount (state : nat) (old delta : Z)
  | Returned (r : bool * Z * option SetState_error).

(** The calls between [RLock] and the deferred [RUnlock]. *)
Definition holds_rlock (p : pc) : bool :=
  match p with
  | AtLookup | AtBranch _ | AtRLock _ | Returned _ => false
  | _ => true
  end.

Definition set_count (σ : shared) (c : Z) : shared :=
  MkShared (sh_max σ) c (sh_heap σ) (sh_states σ) (sh_next σ).
Definition set_cell (σ : shared) (l : nat) (s : instanceState) : shared :=
  MkShared (sh_max σ) (sh_count σ) (<[l := s]> (sh_heap σ)) (sh_states σ) (sh_next σ).

(** The [add] of [-state.count] that a removal does under the write lock. *)
Definition remove_instance (σ : shared) (instance : string) (s : instanceState) : shared :=
  MkShared (sh_max σ) (wrap32 (sh_count σ + wrap32 (- is_count s))) (sh_heap σ)
    (delete instance (sh_states σ)) (sh_next σ).

Definition alloc_instance (σ : shared) (instance : string) : shared :=
  MkShared (sh_max σ) (sh_count σ) (<[sh_next σ := MkInstanceState 0 0]> (sh_heap σ))
    (<[instance := sh_next σ]> (sh_states σ)) (S (sh_next σ)).

(** One action of a call.  [rlocked] tells whether another call holds the
    read lock, which keeps the write-locked actions waiting; [None] is a call
    that cannot move (waiting for the lock, returned). *)
Definition call_step (rlocked : bool) (c : call) (σ : shared) (p : pc) : option (shared * pc) :=
  let i := call_instance c in
  let current := call_current c in
  let rid := call_requestId c in
  match p with
  | AtLookup => Some (σ, AtBranch (sh_states σ !! i))
  | AtBranch (Some l) =>
      if current <? 0 then
        if rlocked then None
        else
          s ← sh_heap σ !! l;
          Some (remove_instance σ i s, Returned (false, -1, None))
      else Some (σ, AtRLock l)
  | AtBranch None =>
      if current <? 0 then Some (σ, Returned (false, -1, None))
      else if rlocked then None
      else match sh_states σ !! i with
           | Some l => Some (σ, AtRLock l)
           | None => Some (alloc_instance σ i, AtRLock (sh_next σ))
           end
  | AtRLock l => Some (σ, AtCheckId l)
  | AtCheckId l =>
      s ← sh_heap σ !! l;
      if 0 <? rid then
        if rid <=? is_requestId s then Some (σ, Returned (false, current, Some RequestIDTooOld))
        else Some (σ, AtStoreId l)
      else Some (σ, AtSwap l)
  | AtStoreId l =>
      s ← sh_heap σ !! l;
      Some (set_cell σ l (MkInstanceState (is_count s) rid), AtSwap l)
  | AtSwap l =>
      s ← sh_heap σ !! l;
      let old := is_count s in
      Some (set_cell σ l (MkInstanceState current (is_requestId s)),
            AtAdd l old (wrap32 (current - old)))
  | AtAdd l old delta =>
      let count := wrap32 (sh_count σ + delta) in
      Some (set_count σ count, AtCompare l old delta count)
  | AtCompare l old delta count =>
      let overflowed := wrap32 (count - sh_max σ) in
      Some (σ, if 0 <? overflowed then AtRollState l old delta
               else if (overflowed =? 0) && (0 <? current) then Returned (false, current, None)
               else Returned (true, current, None))
  | AtRollState l old delta =>
      s ← sh_heap σ !! l;
      Some (set_cell σ l (MkInstanceState (wrap32 (is_count s + wrap32 (- delta))) (is_requestId s)),
            AtRollCount l old delta)
  | AtRollCount l old delta =>
      Some (set_count σ (wrap32 (sh_count σ + wrap32 (- delta))), Returned (false, old, None))
  | Returned _ => None
  end.

(** * Runs *)

Abbreviation threads := (gmap nat (call * pc)) (only parsing).

Record system := MkSystem {
  sys_shared : shared;
  sys_threads : threads
}.

(** A call takes an action, or the maximum is stored by [Resize], which takes
    no lock. *)
Inductive event := Step (t : nat) | StoreMax (n : Z).

Definition other_holds_rlock (ts : threads) (t : nat) : bool :=
  bool_decide (map_Exists (fun _ cp => holds_rlock (snd cp) = true) (delete t ts)).

Definition sys_step (s : system) (e : event) : option system :=
  match e with
  | StoreMax n =>
      let σ := sys_shared s in
      Some (MkSystem (MkShared n (sh_count σ) (sh_heap σ) (sh_states σ) (sh_next σ)) (sys_threads s))
  | Step t =>
      '(c, p) ← sys_threads s !! t;
      '(σ', p') ← call_step (other_holds_rlock (sys_threads s) t) c (sys_shared s) p;
      Some (MkSystem σ' (<[t := (c, p')]> (sys_threads s)))
  end.

Fixpoint run (s : system) (es : list event) : option system :=
  match es with
  | [] => Some s
  | e :: es' => s' ← sys_step s e; run s' es'
  end.

Definition initial (max : Z) (calls : gmap nat call) : system :=
  MkSystem (MkShared max 0 ∅ ∅ 0) ((fun c => (c, AtLookup)) <$> calls).

(** No call is inside the read-locked section. *)
Definition quiescent (s : system) : Prop :=
  map_Forall (fun _ cp => holds_rlock (snd cp) = false) (sys_threads s).

(** The total of the recorded counts, as [DebugInfo] computes it. *)
Definition cell_count (σ : shared) (l : nat) : Z := from_option is_count 0 (sh_heap σ !! l).
Definition sh_total (σ : shared) : Z := msum (cell_count σ) (sh_states σ).

(** * The accounting invariant *)

(** What a call has put in its cell and not yet in the counter. *)
Definition pending (cp : call * pc) : Z :=
  match snd cp with
  | AtAdd _ _ delta => delta
  | AtRollCount _ _ delta => - delta
  | _ => 0
  end.

(** The cell a call points to. *)
Definition pc_loc (p : pc) : option nat :=
  match p with
  | AtLookup | Returned _ => None
  | AtBranch l => l
  | AtRLock l | AtCheckId l | AtStoreId l | AtSwap l => Some l
  | AtAdd l _ _ | AtCompare l _ _ _ | AtRollState l _ _ | AtRollCount l _ _ => Some l
  end.

(** Every instance has its own cell, which exists. *)
Record cells_ok (σ : shared) : Prop := {
  cells_inj : forall i j l, sh_states σ !! i = Some l -> sh_states σ !! j = Some l -> i = j;
  cells_heap : forall i l, sh_states σ !! i = Some l -> (l < sh_next σ)%nat /\ is_Some (sh_heap σ !! l)
}.

Record race_inv (s : system) : Prop := {
  ri_count : wrap32 (sh_count (sys_shared s) + msum pending (sys_threads s)) =
             wrap32 (sh_total (sys_shared s));
  ri_range : in_int32 (sh_count (sys_shared s));
  ri_cells : cells_ok (sys_shared s);
  ri_loc : forall t c p l, sys_threads s !! t = Some (c, p) -> pc_loc p = Some l ->
             sh_states (sys_shared s) !! call_instance c = Some l;
  ri_keep : forall t c p, sys_threads s !! t = Some (c, p) -> 0 <= call_current c
}.

(** Writing one cell changes the total by the change of that cell. *)
Lemma sh_total_set_cell σ i l s :
  cells_ok σ -> sh_states σ !! i = Some l ->
  sh_total (set_cell σ l s) = sh_total σ - cell_count σ l + is_count s.
Proof.
  intros Hc Hi. unfold sh_total. simpl.
  pose proof (msum_delete (cell_count σ) (sh_states σ) i l Hi) as H1.
  pose proof (msum_delete (cell_count (set_cell σ l s)) (sh_states σ) i l Hi) as H2.
  assert (cell_count (set_cell σ l s) l = is_count s) as Hl
    by (unfold cell_count; simpl; by rewrite lookup_insert_eq).
  assert (msum (cell_count (set_cell σ l s)) (delete i (sh_states σ)) =
          msum (cell_count σ) (delete i (sh_states σ))) as H3.
  { apply msum_ext. intros j l' [Hne Hj]%lookup_delete_Some. unfold cell_count. simpl.
    rewrite lookup_insert_ne; [done|]. intros ->. apply Hne. by apply (cells_inj σ Hc i j l'). }
  simpl in H2. lia.
Qed.

Lemma sh_total_alloc σ i :
  cells_ok σ -> sh_states σ !! i = None -> sh_total (alloc_instance σ i) = sh_total σ.
Proof.
  intros Hc Hi. unfold sh_total. simpl. rewrite msum_insert_new by done.
  unfold cell_count at 1. simpl. rewrite lookup_insert_eq. simpl.
  apply msum_ext. intros j l Hj. unfold cell_count. simpl.
  rewrite lookup_insert_ne; [done|]. intros <-. destruct (cells_heap σ Hc j _ Hj). lia.
Qed.

Lemma cells_ok_set_cell σ l s : cells_ok σ -> cells_ok (set_cell σ l s).
Proof.
  intros [Hi Hh]. split; simpl; [done|]. intros i l' Hl'. destruct (Hh i l' Hl') as [? ?].
  split; [done|]. by apply lookup_insert_is_Some'; right.
Qed.

Lemma cells_ok_alloc σ i :
  cells_ok σ -> sh_states σ !! i = None -> cells_ok (alloc_instance σ i).
Proof.
  intros [Hi Hh] Hn. split; simpl.
  - intros j k l [[<- <-]|[? Hj]]%lookup_insert_Some [[<- ?]|[? Hk]]%lookup_insert_Some; subst.
    + done.
    + destruct (Hh k _ Hk). lia.
    + destruct (Hh j _ Hj). lia.
    + by apply (Hi j k l).
  - intros j l [[<- <-]|[? Hj]]%lookup_insert_Some.
    + split; [lia|]. rewrite lookup_insert_eq. eauto.
    + destruct (Hh j l Hj). split; [lia|]. by apply lookup_insert_is_Some'; right.
Qed.

(** What one action of a call has to re-establish. *)
Lemma race_inv_step s t c p σ' p' :
  race_inv s -> sys_threads s !! t = Some (c, p) ->
  (forall i l, sh_states (sys_shared s) !! i = Some l -> sh_states σ' !! i = Some l) ->
  cells_ok σ' -> in_int32 (sh_count σ') ->
  (forall l, pc_loc p' = Some l -> sh_states σ' !! call_instance c = Some l) ->
  wrap32 (sh_count σ' + (msum pending (sys_threads s) - pending (c, p) + pending (c, p'))) =
    wrap32 (sh_total σ') ->
  race_inv (MkSystem σ' (<[t := (c, p')]> (sys_threads s))).
Proof.
  intros [Hc Hr Hcells Hloc Hkeep] Ht Hmono Hcells' Hr' Hloc' Hsum. split; simpl; try done.
  - rewrite msum_insert, Ht. done.
  - intros t' c' p'' l [[<- [= <- <-]]|[_ Ht']]%lookup_insert_Some Hl; [auto|].
    by apply Hmono, (Hloc t' c' p'').
  - intros t' c' p'' [[<- [= <- <-]]|[_ Ht']]%lookup_insert_Some; eauto.
Qed.

(** Actions that leave the shared memory alone. *)
Lemma race_inv_local s t c p p' :
  race_inv s -> sys_threads s !! t = Some (c, p) ->
  (forall l, pc_loc p' = Some l -> sh_states (sys_shared s) !! call_instance c = Some l) ->
  pending (c, p) = pending (c, p') ->
  race_inv (MkSystem (sys_shared s) (<[t := (c, p')]> (sys_threads s))).
Proof.
  intros Hinv Ht Hloc Hp. apply race_inv_step with p; try done; [apply Hinv..|].
  rewrite <- (ri_count s Hinv). f_equal. lia.
Qed.

(** Actions that write the cell of the call. *)
Lemma race_inv_cell s t c p p' l st :
  race_inv s -> sys_threads s !! t = Some (c, p) -> pc_loc p = Some l -> pc_loc p' = Some l ->
  wrap32 (cell_count (sys_shared s) l + (pending (c, p') - pending (c, p))) = wrap32 (is_count st) ->
  race_inv (MkSystem (set_cell (sys_shared s) l st) (<[t := (c, p')]> (sys_threads s))).
Proof.
  intros Hinv Ht Hl Hl' Hp. pose proof (ri_loc s Hinv t c p l Ht Hl) as Hst.
  apply race_inv_step with p; try done; [|apply Hinv| |].
  - apply cells_ok_set_cell, Hinv.
  - intros l0 H0. rewrite Hl' in H0. by injection H0 as <-.
  - rewrite (sh_total_set_cell _ (call_instance c) l st) by (done || apply Hinv).
    rewrite <- (wrap32_add_r _ (is_count st)), <- Hp, wrap32_add_r.
    replace (sh_total (sys_shared s) - cell_count (sys_shared s) l +
      (cell_count (sys_shared s) l + (pending (c, p') - pending (c, p))))
      with (sh_total (sys_shared s) + (pending (c, p') - pending (c, p))) by lia.
    rewrite <- (wrap32_add_l (sh_total _)), <- (ri_count s Hinv), wrap32_add_l.
    f_equal. simpl. lia.
Qed.

(** Actions that write the counter. *)
Lemma race_inv_counter s t c p p' n :
  race_inv s -> sys_threads s !! t = Some (c, p) ->
  (forall l, pc_loc p' = Some l -> pc_loc p = Some l) ->
  in_int32 n ->
  wrap32 (n + (pending (c, p') - pending (c, p))) = wrap32 (sh_count (sys_shared s)) ->
  race_inv (MkSystem (set_count (sys_shared s) n) (<[t := (c, p')]> (sys_threads s))).
Proof.
  intros Hinv Ht Hl Hn Hp. apply race_inv_step with p; try done.
  - destruct (ri_cells s Hinv). by split.
  - intros l Hl'. simpl. by apply (ri_loc s Hinv t c p), Hl.
  - simpl. change (sh_total (set_count (sys_shared s) n)) with (sh_total (sys_shared s)).
    rewrite <- (ri_count s Hinv).
    replace (n + (msum pending (sys_threads s) - pending (c, p) + pending (c, p')))
      with (n + (pending (c, p') - pending (c, p)) + msum pending (sys_threads s)) by lia.
    by rewrite <- wrap32_add_l, Hp, wrap32_add_l.
Qed.

Lemma race_inv_call_step s t c p σ' p' rl :
  race_inv s -> sys_threads s !! t = Some (c, p) ->
  call_step rl c (sys_shared s) p = Some (σ', p') ->
  race_inv (MkSystem σ' (<[t := (c, p')]> (sys_threads s))).
Proof.
  intros Hinv Ht Hs. pose proof (ri_keep s Hinv t c p Ht) as Hk.
  pose proof (ri_loc s Hinv t c p) as Hloc. specialize (fun l => Hloc l Ht).
  assert ((call_current c <? 0) = false) as Hneg by (apply Z.ltb_ge; lia).
  destruct p as [|[l|]|l|l|l|l|l old d|l old d cnt|l old d|l old d|r]; simpl in Hs;
    try rewrite Hneg in Hs; simplify_eq.
  - by apply race_inv_local with AtLookup.
  - by apply race_inv_local with (AtBranch (Some l)).
  - destruct rl; [done|].
    destruct (sh_states (sys_shared s) !! call_instance c) as [l|] eqn:Hst; simplify_eq.
    + apply race_inv_local with (AtBranch None); try done. simpl. by intros ? [= <-].
    + apply race_inv_step with (AtBranch None); try done.
      * intros i l Hi. simpl. rewrite lookup_insert_ne; [done|]. congruence.
      * apply cells_ok_alloc; [apply Hinv|done].
      * apply Hinv.
      * simpl. intros ? [= <-]. apply lookup_insert_eq.
      * rewrite sh_total_alloc by (apply Hinv || done). rewrite <- (ri_count s Hinv).
        f_equal. simpl. unfold pending. simpl. lia.
  - by apply race_inv_local with (AtRLock l).
  - destruct (sh_heap (sys_shared s) !! l) as [st|]; [|done]. simpl in Hs.
    repeat case_match; simplify_eq; by apply race_inv_local with (AtCheckId l).
  - destruct (sh_heap (sys_shared s) !! l) as [st|] eqn:Hh; [|done]. simplify_eq/=.
    apply race_inv_cell with (AtStoreId l); try done.
    unfold cell_count, pending. rewrite Hh. simpl. f_equal. lia.
  - destruct (sh_heap (sys_shared s) !! l) as [st|] eqn:Hh; [|done]. simplify_eq/=.
    apply race_inv_cell with (AtSwap l); try done.
    unfold cell_count, pending. rewrite Hh. simpl.
    rewrite Z.sub_0_r, wrap32_add_r. f_equal. lia.
  - apply race_inv_counter with (AtAdd l old d); try done; [apply wrap32_in|].
    unfold pending. simpl. rewrite wrap32_add_l. f_equal. lia.
  - repeat case_match; simplify_eq; by apply race_inv_local with (AtCompare l old d cnt).
  - destruct (sh_heap (sys_shared s) !! l) as [st|] eqn:Hh; [|done]. simplify_eq/=.
    apply race_inv_cell with (AtRollState l old d); try done.
    unfold cell_count, pending. rewrite Hh. simpl.
    rewrite wrap32_add_r, !(wrap32_id (wrap32 _)) by apply wrap32_in. f_equal. lia.
  - apply race_inv_counter with (AtRollCount l old d); try done; [apply wrap32_in|].
    unfold pending. simpl. rewrite wrap32_add_r, wrap32_add_l. f_equal. lia.
Qed.

Lemma race_inv_sys_step s e s' : race_inv s -> sys_step s e = Some s' -> race_inv s'.
Proof.
  intros Hinv. destruct e as [t|n]; simpl.
  - destruct (sys_threads s !! t) as [[c p]|] eqn:Ht; [|done]. simpl.
    destruct (call_step _ _ _ _) as [[σ' p']|] eqn:Hs; [|done]. intros [= <-].
    by apply (race_inv_call_step s t c p σ' p' _ Hinv Ht Hs).
  - intros [= <-]. destruct Hinv as [Hc Hr [Hi Hh] Hl Hk]. by split.
Qed.

Lemma race_inv_run s es s' : race_inv s -> run s es = Some s' -> race_inv s'.
Proof.
  revert s. induction es as [|e es IH]; intros s Hinv; simpl; [by intros [= <-]|].
  destruct (sys_step s e) as [s1|] eqn:E; [|done]. simpl. eauto using race_inv_sys_step.
Qed.

Lemma race_inv_initial max calls :
  map_Forall (fun _ c => 0 <= call_current c) calls -> race_inv (initial max calls).
Proof.
  intros Hc. split; simpl.
  - rewrite msum_zero; [unfold sh_total; simpl; by rewrite msum_empty|]. intros k cp Hk. rewrite lookup_fmap in Hk.
    destruct (calls !! k); [|done]. by injection Hk as <-.
  - split; [discriminate|done].
  - split; simpl; intros *; by rewrite lookup_empty.
  - intros t c p l. rewrite lookup_fmap. destruct (calls !! t); [|done]. by intros [= <- <-].
  - intros t c p. rewrite lookup_fmap. destruct (calls !! t) as [c'|] eqn:Ht; [|done].
    intros [= <- <-]. by apply (Hc t c').
Qed.

Lemma quiescent_pending s : quiescent s -> msum pending (sys_threads s) = 0.
Proof.
  intros Hq. apply msum_zero. intros t [c p] Ht. specialize (Hq t (c, p) Ht). simpl in Hq.
  by destruct p.
Qed.

(** * Properties *)

(** C22: Concurrent reports keep the books: whatever the interleaving of any
    number of calls that report (and of changes of the maximum), whenever no
    call is inside its critical section the counter equals the sum of the
    recorded counts modulo 2^32, and exactly if that sum fits in 32 bits. *)
Theorem concurrent_reports_balanced max calls es s :
  map_Forall (fun _ c => 0 <= call_current c) calls ->
  run (initial max calls) es = Some s -> quiescent s ->
  sh_count (sys_shared s) = wrap32 (sh_total (sys_shared s)) /\
  (in_int32 (sh_total (sys_shared s)) -> sh_count (sys_shared s) = sh_total (sys_shared s)).
Proof.
  intros Hc Hr Hq. apply race_inv_run in Hr; [|by apply race_inv_initial].
  assert (sh_count (sys_shared s) = wrap32 (sh_total (sys_shared s))) as Heq.
  { rewrite <- (ri_count s Hr), quiescent_pending, Z.add_0_r by done.
    symmetry. apply wrap32_id, Hr. }
  split; [done|]. intros Hin. rewrite Heq. by apply wrap32_id.
Qed.

Module RaceExample.
Definition step_n (t n : nat) : list event := replicate n (Step t).

(** Two reports that overlap. *)
Definition two_calls : gmap nat call :=
  <[0%nat := MkCall "a" 0 3]> (<[1%nat := MkCall "b" 0 4]> ∅).
Definition interleaved : list event :=
  step_n 0 2 ++ step_n 1 2 ++ step_n 0 3 ++ step_n 1 5 ++ step_n 0 2.

(** An instance with five requests in flight, then two removals of it that
    both looked it up before either took the write lock. *)
Definition remove_calls : gmap nat call :=
  <[0%nat := MkCall "a" 0 5]> (<[1%nat := MkCall "a" (-1) (-1)]> (<[2%nat := MkCall "a" (-1) (-1)]> ∅)).
Definition double_remove : list event :=
  step_n 0 7 ++ [Step 1; Step 2; Step 1; Step 2].

(** Under a maximum of 5, with a=2 and b=3 recorded: b reports 6 and
    overflows; a reports 0 while that overflow is still counted and is
    refused; b is rolled back; d reports 2, which fits; a is rolled back. *)
Definition overshoot_calls : gmap nat call :=
  <[0%nat := MkCall "a" 0 2]> (<[1%nat := MkCall "b" 0 3]>
  (<[2%nat := MkCall "b" 0 6]> (<[3%nat := MkCall "a" 0 0]> (<[4%nat := MkCall "d" 0 2]> ∅)))).
Definition overshoot : list event :=
  step_n 0 7 ++ step_n 1 7 ++ [Step 4; Step 4; Step 4]
  ++ step_n 2 6 ++ step_n 3 6 ++ step_n 2 3 ++ step_n 4 4 ++ step_n 3 3.
End RaceExample.

Lemma concurrent_reports_balanced_witness :
  exists s, run (initial 10 RaceExample.two_calls) RaceExample.interleaved = Some s /\
    sh_count (sys_shared s) = wrap32 (sh_total (sys_shared s)).
Proof.
  destruct (run (initial 10 RaceExample.two_calls) RaceExample.interleaved) as [s|] eqn:E.
  - exists s. split; [reflexivity|].
    refine (proj1 (concurrent_reports_balanced 10 _ _ s _ E _)).
    + apply map_Forall_to_list. vm_compute. repeat constructor; discriminate.
    + vm_compute in E. injection E as <-. refine (bool_decide_unpack _ _). vm_compute. exact I.
  - exfalso. vm_compute in E. discriminate E.
Defined.

(** Concurrent removals lose the balance: two removals of one instance
    can both subtract its count, after which no call is active, nothing is
    recorded, and the counter is negative. *)
Theorem double_removal_unbalanced :
  exists s, run (initial 10 RaceExample.remove_calls) RaceExample.double_remove = Some s /\
    map_Forall (fun _ cp => exists r, snd cp = Returned r) (sys_threads s) /\
    sh_states (sys_shared s) = ∅ /\ sh_count (sys_shared s) = -5.
Proof.
  eexists. split; [vm_compute; reflexivity|]. split; [|by vm_compute].
  apply map_Forall_to_list. vm_compute. repeat constructor; eauto.
Qed.

(** Concurrent reports can exceed the maximum: a refused decrease is
    rolled back after another report took the room it had seemed to free, and
    the recorded total ends above a maximum that never changed. *)
Theorem concurrent_reports_overshoot :
  exists s, run (initial 5 RaceExample.overshoot_calls) RaceExample.overshoot = Some s /\
    map_Forall (fun _ cp => exists r, snd cp = Returned r) (sys_threads s) /\
    sh_max (sys_shared s) = 5 /\ sh_total (sys_shared s) = 7 /\ sh_count (sys_shared s) = 7.
Proof.
  eexists. split; [vm_compute; reflexivity|]. split; [|by vm_compute].
  apply map_Forall_to_list. vm_compute. repeat constructor; eauto.
Qed.
