(* ===== verification/LimitStore.v ===== *)
(** The stores of the rate limit server: the interface
    ([pkg/ratelimiter/store/interface/store.go]), the in-memory store
    ([store/local]), and the helpers they share ([pkg/ratelimiter/util]).

    A [sync.Map] is a [gmap]; the order in which [Range] visits it is a
    parameter ([MapRange]).  A flow control returned by [GetFlowControl] is a
    pointer into the store, as is a condition returned by [Get]: what the
    caller does through them is [ls_UpdateFlowControl] and
    [ls_UpdateCondition].  Label selectors are predicates on label sets. *)
From stdpp Require Import base list strings gmap sets sorting.
From Stdlib Require Import ZArith Lia Ascii.
From S2P Require Import Prelude ApiTypes Validation FlowControl GlobalFlowControl.

Local Open Scope Z_scope.
Local Open Scope go_scope.

(** * Helpers *)

Definition FlowControlConfigToMap (l : list RateLimitItemConfiguration)
    : gmap string RateLimitItemConfiguration :=
  foldl (fun configs fc => <[ric_Name fc := fc]> configs) ∅ l.

Definition FlowControlStatusToMap (l : list RateLimitItemStatus)
    : gmap string RateLimitItemStatus :=
  foldl (fun statusMap fs => <[ris_Name fs := fs]> statusMap) ∅ l.

Definition GenerateRateLimitConditionName (domain instance : string) : string :=
  domain +:+ "." +:+ ReplaceAll instance ":"%char "-".

(** [hash/fnv]: the 32-bit FNV-1a hash. *)
Fixpoint fnv32a (h : Z) (s : string) : Z :=
  match s with
  | EmptyString => h
  | String a s' => fnv32a (uwrap32 (Z.lxor h (byte a) * 16777619)) s'
  end.

(** The division by [uint32(shardCount)] panics when that is zero. *)
Definition GetShardID (value : string) (shardCount : Z) : result Empty_set Z :=
  let n := uwrap32 shardCount in
  if n =? 0 then Panic else Ok (fnv32a 2166136261 value mod n).

(** Errors of [k8s.io/apimachinery/pkg/api/errors], by their reason. *)
Inductive api_error :=
  | NotFound (resource name : string)
  | AlreadyExists (resource name : string)
  | Conflict (name : string)
  | WrongShard (name : string) (shard own : Z)
  | SyncError (name : string) (cause : api_error)
  | OtherError (msg : string).

Definition IsNotFound (e : api_error) : bool :=
  match e with NotFound _ _ => true | _ => false end.
Definition IsConflict (e : api_error) : bool :=
  match e with Conflict _ => true | _ => false end.

Section limit_store.
Context `{RateLimiter}.

(** * The interface *)

(** [S] is the store, [W] the state of the API server behind it. *)
Class LimitStore (W S : Type) := {
  ls_Get : S -> string -> string -> result api_error RateLimitCondition;
  ls_UpdateCondition : S -> string -> string -> (RateLimitCondition -> RateLimitCondition) -> S;
  ls_Save : W -> S -> string -> RateLimitCondition -> W * S * result api_error unit;
  ls_Delete : W -> S -> string -> string -> W * S * result api_error unit;
  ls_DeleteUpstream : W -> S -> string -> W * S * result api_error unit;
  ls_ListUpstream : S -> string -> list RateLimitCondition;
  ls_List : S -> (gmap string string -> bool) -> list RateLimitCondition;
  ls_GetFlowControl : S -> string -> string -> result api_error GlobalFlowControl;
  ls_UpdateFlowControl : S -> string -> string -> (GlobalFlowControl -> GlobalFlowControl) -> S;
  ls_SyncFlowControl : S -> string -> FlowControl -> S;
  ls_DeleteInstanceState : S -> string -> S;
  ls_Load : W -> S -> W * S * result api_error unit;
  ls_Flush : W -> S -> W * S * result api_error unit;
  ls_Stop : W -> S -> W * S * result api_error unit
}.

(** * The in-memory store *)

(** One upstream cluster ([upstreamCondition]). *)
Record upstreamCondition := MkUpstreamCondition {
  up_conditions : gmap string RateLimitCondition;
  up_flowControls : gmap string GlobalFlowControl;
  up_upstream : string;
  up_currentFlowControlSpec : FlowControl
}.

Definition newUpstreamCondition (upstream : string) : upstreamCondition :=
  MkUpstreamCondition ∅ ∅ upstream (MkFlowControl []).

Definition loadFlowControls (c : upstreamCondition) (name : string) : option GlobalFlowControl :=
  up_flowControls c !! name.

Definition loadCondition (c : upstreamCondition) (name : string) : option RateLimitCondition :=
  up_conditions c !! name.

Definition storeCondition (c : upstreamCondition) (condition : RateLimitCondition)
    : upstreamCondition :=
  MkUpstreamCondition (<[rlc_Name condition := condition]> (up_conditions c)) (up_flowControls c)
    (up_upstream c) (up_currentFlowControlSpec c).

Definition deleteCondition (c : upstreamCondition) (name : string) : upstreamCondition :=
  MkUpstreamCondition (delete name (up_conditions c)) (up_flowControls c)
    (up_upstream c) (up_currentFlowControlSpec c).

(** A schema the server has nothing to do for. *)
Definition no_global (s : FlowControlSchema) : bool :=
  negb (is_some (fc_GlobalTokenBucket (fs_Config s)))
  && negb (is_some (fc_GlobalMaxRequestsInflight (fs_Config s))).

(** The body of the loop over the new schemas, on the flow controls.  It is
    only entered with a global limit, so [NewGlobalFlowControl] is not nil. *)
Definition sync_schema (fcs : gmap string GlobalFlowControl) (newSchema : FlowControlSchema)
    : gmap string GlobalFlowControl :=
  let name := fs_Name newSchema in
  let newType := GuessFlowControlSchemaType newSchema in
  match fcs !! name with
  | None =>
      match NewGlobalFlowControl newSchema with
      | Some fc => <[name := fc]> fcs
      | None => fcs
      end
  | Some fc =>
      if decide (GlobalFlowControl_Type fc = newType) then
        <[name := ResizeGlobalFlowControl fc newSchema]> fcs
      else
        match NewGlobalFlowControl newSchema with
        | Some fc' => <[name := ResizeGlobalFlowControl fc' newSchema]> fcs
        | None => fcs
        end
  end.

(** The loop, which also collects the names that stay. *)
Definition sync_step (acc : gmap string GlobalFlowControl * gset string) (s : FlowControlSchema)
    : gmap string GlobalFlowControl * gset string :=
  if no_global s then acc else (sync_schema (fst acc) s, {[fs_Name s]} ∪ snd acc).

Definition sync_schemas (fcs : gmap string GlobalFlowControl) (schemas : list FlowControlSchema)
    : gmap string GlobalFlowControl * gset string :=
  foldl sync_step (fcs, ∅) schemas.

Definition delete_all {V} (names : list string) (m : gmap string V) : gmap string V :=
  foldl (fun m n => delete n m) m names.

Definition syncLocalFlowControls (c : upstreamCondition) (flowControls : FlowControl)
    : upstreamCondition :=
  let oldObj := up_currentFlowControlSpec c in
  if decide (oldObj = flowControls) then c
  else
    let oldset : gset string := list_to_set (fs_Name <$> Schemas oldObj) in
    let '(fcs, newset) := sync_schemas (up_flowControls c) (Schemas flowControls) in
    MkUpstreamCondition (up_conditions c) (delete_all (elements (oldset ∖ newset)) fcs)
      (up_upstream c) flowControls.

Record localStore := MkLocalStore {
  clusters : gmap string upstreamCondition
}.

Definition NewLocalStore : localStore := MkLocalStore ∅.

(** The entry of a cluster, made when it is missing. *)
Definition ensure_cluster (s : localStore) (cluster : string) : upstreamCondition :=
  default (newUpstreamCondition cluster) (clusters s !! cluster).

Definition put_cluster (s : localStore) (cluster : string) (c : upstreamCondition) : localStore :=
  MkLocalStore (<[cluster := c]> (clusters s)).

Definition localStore_Get (s : localStore) (cluster name : string)
    : result api_error RateLimitCondition :=
  match clusters s !! cluster with
  | None => Err (NotFound "ratelimitcondition" name)
  | Some c =>
      match loadCondition c name with
      | None => Err (NotFound "ratelimitcondition" name)
      | Some condition => Ok condition
      end
  end.

Definition localStore_Add (s : localStore) (cluster : string) (condition : RateLimitCondition)
    : localStore * result api_error unit :=
  let cd := ensure_cluster s cluster in
  let s := put_cluster s cluster cd in
  match loadCondition cd (rlc_Name condition) with
  | Some _ => (s, Err (AlreadyExists "ratelimitcondition" (rlc_Name condition)))
  | None => (put_cluster s cluster (storeCondition cd condition), Ok tt)
  end.

Definition localStore_Save (s : localStore) (cluster : string) (condition : RateLimitCondition)
    : localStore * result api_error unit :=
  (put_cluster s cluster (storeCondition (ensure_cluster s cluster) condition), Ok tt).

Definition localStore_Delete (s : localStore) (cluster name : string)
    : localStore * result api_error unit :=
  match clusters s !! cluster with
  | None => (s, Ok tt)
  | Some c => (put_cluster s cluster (deleteCondition c name), Ok tt)
  end.

Definition localStore_DeleteUpstream (s : localStore) (cluster : string)
    : localStore * result api_error unit :=
  (MkLocalStore (delete cluster (clusters s)), Ok tt).

Definition localStore_ListUpstream `{MapRange} (s : localStore) (cluster : string)
    : list RateLimitCondition :=
  match clusters s !! cluster with
  | None => []
  | Some c => snd <$> Range (up_conditions c)
  end.

Definition localStore_List `{MapRange} (s : localStore) (selector : gmap string string -> bool)
    : list RateLimitCondition :=
  mjoin ((fun '(_, c) =>
    filter (fun item => selector (default ∅ (rlc_Labels item)) = true)
      (snd <$> Range (up_conditions c))) <$> Range (clusters s)).

Definition localStore_GetFlowControl (s : localStore) (cluster name : string)
    : result api_error GlobalFlowControl :=
  match clusters s !! cluster with
  | None => Err (NotFound "flowControl" name)
  | Some c =>
      match loadFlowControls c name with
      | None => Err (NotFound "flowControl" name)
      | Some fc => Ok fc
      end
  end.

Definition with_flowControls (c : upstreamCondition) (m : gmap string GlobalFlowControl)
    : upstreamCondition :=
  MkUpstreamCondition (up_conditions c) m (up_upstream c) (up_currentFlowControlSpec c).

(** A method call on the flow control that [GetFlowControl] returned. *)
Definition localStore_UpdateFlowControl (s : localStore) (cluster name : string)
    (f : GlobalFlowControl -> GlobalFlowControl) : localStore :=
  MkLocalStore (alter (fun c => with_flowControls c (alter f name (up_flowControls c)))
                  cluster (clusters s)).

Definition localStore_SyncFlowControl (s : localStore) (cluster : string) (fc : FlowControl)
    : localStore :=
  put_cluster s cluster (syncLocalFlowControls (ensure_cluster s cluster) fc).

(** Visits every flow control once; the visits touch disjoint objects. *)
Definition localStore_DeleteInstanceState (s : localStore) (instance : string) : localStore :=
  MkLocalStore ((fun c => with_flowControls c
    ((fun fc => fst (GlobalFlowControl_SetState fc instance (-1) (-1))) <$> up_flowControls c))
    <$> clusters s).

(** A write to the condition that [Get] returned. *)
Definition localStore_UpdateCondition (s : localStore) (cluster name : string)
    (f : RateLimitCondition -> RateLimitCondition) : localStore :=
  MkLocalStore (alter (fun c => MkUpstreamCondition (alter f name (up_conditions c))
    (up_flowControls c) (up_upstream c) (up_currentFlowControlSpec c)) cluster (clusters s)).

(** An operation that does not involve the API server. *)
Definition offline {W S A} (w : W) (r : S * A) : W * S * A := (w, fst r, snd r).

#[global] Instance localStore_LimitStore {W} `{MapRange} : LimitStore W localStore := {|
  ls_Get := localStore_Get;
  ls_UpdateCondition := localStore_UpdateCondition;
  ls_Save w s c cond := offline w (localStore_Save s c cond);
  ls_Delete w s c n := offline w (localStore_Delete s c n);
  ls_DeleteUpstream w s c := offline w (localStore_DeleteUpstream s c);
  ls_ListUpstream := localStore_ListUpstream;
  ls_List := localStore_List;
  ls_GetFlowControl := localStore_GetFlowControl;
  ls_UpdateFlowControl := localStore_UpdateFlowControl;
  ls_SyncFlowControl := localStore_SyncFlowControl;
  ls_DeleteInstanceState := localStore_DeleteInstanceState;
  ls_Load w s := (w, s, Ok tt);
  ls_Flush w s := (w, s, Ok tt);
  ls_Stop w s := (w, s, Ok tt)
|}.
End limit_store.

(** * What the interface promises *)

(** Conditions that carry the same name, specification and status (a store
    behind the API server returns its own copy). *)
Definition same_content (c d : RateLimitCondition) : Prop :=
  rlc_Name c = rlc_Name d /\ rlc_Spec c = rlc_Spec d /\ rlc_Status c = rlc_Status d.

Class LimitStoreLaws `{RateLimiter} (W S : Type) `{!LimitStore W S} := {
  ls_inv : S -> Prop;
  law_save : forall w s c cond w' s', ls_inv s -> ls_Save w s c cond = (w', s', Ok tt) ->
    ls_inv s' /\
    (exists cond', ls_Get s' c (rlc_Name cond) = Ok cond' /\ same_content cond' cond) /\
    (forall c' n', (c', n') <> (c, rlc_Name cond) -> ls_Get s' c' n' = ls_Get s c' n') /\
    (forall c' n', ls_GetFlowControl s' c' n' = ls_GetFlowControl s c' n');
  law_delete : forall w s c n w' s' res, ls_inv s -> ls_Delete w s c n = (w', s', res) ->
    ls_inv s' /\ (res = Ok tt -> ls_Get s' c n = Err (NotFound "ratelimitcondition" n)) /\
    (forall c' n', (c', n') <> (c, n) -> ls_Get s' c' n' = ls_Get s c' n') /\
    (forall c' n', ls_GetFlowControl s' c' n' = ls_GetFlowControl s c' n');
  law_delete_upstream : forall w s c w' s', ls_inv s -> ls_DeleteUpstream w s c = (w', s', Ok tt) ->
    ls_inv s' /\ ls_ListUpstream s' c = [] /\
    (forall c' n', c' <> c -> ls_Get s' c' n' = ls_Get s c' n');
  law_list : forall s c cond, ls_inv s ->
    cond ∈ ls_ListUpstream s c <-> ls_Get s c (rlc_Name cond) = Ok cond;
  law_list_nodup : forall s c, ls_inv s -> NoDup (rlc_Name <$> ls_ListUpstream s c);
  law_name : forall s c n cond, ls_inv s -> ls_Get s c n = Ok cond -> rlc_Name cond = n;
  law_sync : forall s c fc, ls_inv s ->
    ls_inv (ls_SyncFlowControl s c fc) /\
    (forall c' n', ls_Get (ls_SyncFlowControl s c fc) c' n' = ls_Get s c' n');
  law_delete_instance : forall s instance, ls_inv s ->
    ls_inv (ls_DeleteInstanceState s instance) /\
    (forall c n, ls_Get (ls_DeleteInstanceState s instance) c n = ls_Get s c n) /\
    (forall c n, ls_GetFlowControl (ls_DeleteInstanceState s instance) c n =
      match ls_GetFlowControl s c n with
      | Ok fc => Ok (fst (GlobalFlowControl_SetState fc instance (-1) (-1)))
      | e => e
      end);
  law_update_condition : forall s c n f, ls_inv s ->
    (forall x, ls_Get s c n = Ok x -> rlc_Name (f x) = rlc_Name x) ->
    ls_inv (ls_UpdateCondition s c n f) /\
    (forall c' n', ls_Get (ls_UpdateCondition s c n f) c' n' =
      match ls_Get s c' n' with
      | Ok x => Ok (if decide ((c', n') = (c, n)) then f x else x)
      | e => e
      end) /\
    (forall c' n', ls_GetFlowControl (ls_UpdateCondition s c n f) c' n' = ls_GetFlowControl s c' n');
  law_update : forall s c n f c' n', ls_inv s ->
    ls_inv (ls_UpdateFlowControl s c n f) /\
    ls_GetFlowControl (ls_UpdateFlowControl s c n f) c' n' =
      match ls_GetFlowControl s c' n' with
      | Ok fc => Ok (if decide ((c', n') = (c, n)) then f fc else fc)
      | e => e
      end
}.

(** * Lemmas *)

Section local_lemmas.
Context `{RateLimiter} `{MapRange}.

(** Conditions are stored under their own name. *)
Definition local_inv (s : localStore) : Prop :=
  map_Forall (fun _ c => map_Forall (fun n cond => rlc_Name cond = n) (up_conditions c)) (clusters s).

Lemma local_inv_put s cluster c :
  local_inv s -> map_Forall (fun n cond => rlc_Name cond = n) (up_conditions c) ->
  local_inv (put_cluster s cluster c).
Proof. intros Hs Hc. by apply map_Forall_insert_2. Qed.

Lemma local_inv_ensure s cluster :
  local_inv s -> map_Forall (fun n cond => rlc_Name cond = n) (up_conditions (ensure_cluster s cluster)).
Proof.
  intros Hs. unfold ensure_cluster. destruct (clusters s !! cluster) as [c|] eqn:E; simpl.
  - by apply (Hs cluster c).
  - apply map_Forall_empty.
Qed.

Lemma Get_conditions s c n cond :
  localStore_Get s c n = Ok cond <-> up_conditions (ensure_cluster s c) !! n = Some cond.
Proof.
  unfold localStore_Get, ensure_cluster, loadCondition.
  destruct (clusters s !! c) as [u|]; simpl.
  - destruct (up_conditions u !! n); split; congruence.
  - rewrite lookup_empty. by split.
Qed.

Lemma Get_put s c c' n u :
  localStore_Get (put_cluster s c u) c' n =
    if decide (c' = c) then
      match up_conditions u !! n with
      | Some cond => Ok cond
      | None => Err (NotFound "ratelimitcondition" n)
      end
    else localStore_Get s c' n.
Proof.
  unfold localStore_Get, put_cluster. simpl. case_decide as Hc.
  - subst. by rewrite lookup_insert_eq.
  - by rewrite lookup_insert_ne.
Qed.

Lemma Get_ensure s c n :
  localStore_Get s c n =
    match up_conditions (ensure_cluster s c) !! n with
    | Some cond => Ok cond
    | None => Err (NotFound "ratelimitcondition" n)
    end.
Proof.
  unfold localStore_Get, ensure_cluster, loadCondition.
  destruct (clusters s !! c); simpl; [done|]. by rewrite lookup_empty.
Qed.

Lemma ListUpstream_ensure s c :
  localStore_ListUpstream s c ≡ₚ snd <$> map_to_list (up_conditions (ensure_cluster s c)).
Proof.
  unfold localStore_ListUpstream, ensure_cluster. destruct (clusters s !! c); simpl.
  - by rewrite Range_perm.
  - by rewrite map_to_list_empty.
Qed.

Lemma GetFlowControl_put s c c' n u :
  up_flowControls u = up_flowControls (ensure_cluster s c) ->
  localStore_GetFlowControl (put_cluster s c u) c' n = localStore_GetFlowControl s c' n.
Proof.
  intros Hu. unfold localStore_GetFlowControl, put_cluster, loadFlowControls. simpl.
  destruct (decide (c = c')) as [<-|Hc]; [|by rewrite lookup_insert_ne].
  rewrite lookup_insert_eq, Hu. unfold ensure_cluster.
  destruct (clusters s !! c); simpl; [done|]. by rewrite lookup_empty.
Qed.

Lemma Save_spec s c cond s' :
  local_inv s -> localStore_Save s c cond = (s', Ok tt) ->
  local_inv s' /\ localStore_Get s' c (rlc_Name cond) = Ok cond /\
  (forall c' n', (c', n') <> (c, rlc_Name cond) -> localStore_Get s' c' n' = localStore_Get s c' n') /\
  (forall c' n', localStore_GetFlowControl s' c' n' = localStore_GetFlowControl s c' n').
Proof.
  intros Hs [= <-]. split_and!.
  - apply local_inv_put; [done|]. simpl. apply map_Forall_insert_2; [done|]. by apply local_inv_ensure.
  - rewrite Get_put, decide_True by done. simpl. by rewrite lookup_insert_eq.
  - intros c' n' Hne. rewrite Get_put. case_decide; [|done]. subst. simpl.
    rewrite lookup_insert_ne by congruence. by rewrite Get_ensure.
  - intros c' n'. by apply GetFlowControl_put.
Qed.

Lemma Delete_spec s c n s' :
  local_inv s -> localStore_Delete s c n = (s', Ok tt) ->
  local_inv s' /\ localStore_Get s' c n = Err (NotFound "ratelimitcondition" n) /\
  (forall c' n', (c', n') <> (c, n) -> localStore_Get s' c' n' = localStore_Get s c' n') /\
  (forall c' n', localStore_GetFlowControl s' c' n' = localStore_GetFlowControl s c' n').
Proof.
  intros Hs. unfold localStore_Delete. destruct (clusters s !! c) as [u|] eqn:E.
  - intros [= <-].
    assert (ensure_cluster s c = u) as Hu by (unfold ensure_cluster; by rewrite E). split_and!.
    + apply local_inv_put; [done|]. simpl. apply map_Forall_delete. by apply (Hs c u).
    + rewrite Get_put, decide_True by done. simpl. by rewrite lookup_delete_eq.
    + intros c' n' Hne. rewrite Get_put. case_decide; [|done]. subst c'. simpl.
      rewrite lookup_delete_ne by congruence. by rewrite Get_ensure, Hu.
    + intros c' n'. apply GetFlowControl_put. by rewrite Hu.
  - intros [= <-]. split_and!; [done| |done..]. unfold localStore_Get. by rewrite E.
Qed.

Lemma localStore_Delete_Ok s c n :
  localStore_Delete s c n = (fst (localStore_Delete s c n), Ok tt).
Proof. unfold localStore_Delete. by destruct (clusters s !! c). Qed.

Lemma DeleteUpstream_spec s c s' :
  local_inv s -> localStore_DeleteUpstream s c = (s', Ok tt) ->
  local_inv s' /\ localStore_ListUpstream s' c = [] /\
  (forall c' n', c' <> c -> localStore_Get s' c' n' = localStore_Get s c' n').
Proof.
  intros Hs [= <-]. split_and!.
  - by apply map_Forall_delete.
  - unfold localStore_ListUpstream. simpl. by rewrite lookup_delete_eq.
  - intros c' n' Hne. unfold localStore_Get. simpl. by rewrite lookup_delete_ne.
Qed.

Lemma ListUpstream_spec s c cond :
  local_inv s -> cond ∈ localStore_ListUpstream s c <-> localStore_Get s c (rlc_Name cond) = Ok cond.
Proof.
  intros Hs. rewrite ListUpstream_ensure, Get_conditions, list_elem_of_fmap.
  pose proof (local_inv_ensure s c Hs) as Hn. split.
  - intros ([n cond'] & -> & Hin). apply elem_of_map_to_list in Hin. simpl.
    by rewrite (Hn n cond' Hin).
  - intros Hin. exists (rlc_Name cond, cond). by rewrite elem_of_map_to_list.
Qed.

Lemma ListUpstream_nodup s c : local_inv s -> NoDup (rlc_Name <$> localStore_ListUpstream s c).
Proof.
  intros Hs. rewrite ListUpstream_ensure, <- list_fmap_compose.
  pose proof (local_inv_ensure s c Hs) as Hn.
  assert (rlc_Name ∘ snd <$> map_to_list (up_conditions (ensure_cluster s c)) =
          fst <$> map_to_list (up_conditions (ensure_cluster s c))) as ->.
  { apply list_fmap_ext. intros i [n cond] Hi. simpl. apply (Hn n cond).
    apply elem_of_map_to_list. by apply list_elem_of_lookup_2 with i. }
  apply NoDup_fst_map_to_list.
Qed.

Lemma UpdateFlowControl_spec s c n f c' n' :
  local_inv s -> local_inv (localStore_UpdateFlowControl s c n f) /\
  localStore_GetFlowControl (localStore_UpdateFlowControl s c n f) c' n' =
    match localStore_GetFlowControl s c' n' with
    | Ok fc => Ok (if decide ((c', n') = (c, n)) then f fc else fc)
    | e => e
    end.
Proof.
  intros Hs. split.
  - intros k u Hk. simpl in Hk. rewrite lookup_alter_Some in Hk.
    destruct Hk as [(-> & u' & Hu' & ->)|[_ Hu]]; [by apply (Hs k u')|by apply (Hs k u)].
  - unfold localStore_GetFlowControl, localStore_UpdateFlowControl, loadFlowControls. simpl.
    destruct (decide (c = c')) as [<-|Hc].
    + rewrite lookup_alter_eq. destruct (clusters s !! c) as [u|]; simpl; [|done].
      destruct (decide (n = n')) as [<-|Hn].
      * rewrite lookup_alter_eq. destruct (up_flowControls u !! n); simpl; [|done].
        by rewrite decide_True.
      * rewrite lookup_alter_ne by done. destruct (up_flowControls u !! n'); [|done].
        rewrite decide_False by congruence. done.
    + rewrite lookup_alter_ne by done. destruct (clusters s !! c') as [u|]; [|done].
      destruct (up_flowControls u !! n'); [|done]. rewrite decide_False by congruence. done.
Qed.

Lemma UpdateCondition_spec s c n f :
  local_inv s -> (forall x, localStore_Get s c n = Ok x -> rlc_Name (f x) = rlc_Name x) ->
  local_inv (localStore_UpdateCondition s c n f) /\
  (forall c' n', localStore_Get (localStore_UpdateCondition s c n f) c' n' =
    match localStore_Get s c' n' with
    | Ok x => Ok (if decide ((c', n') = (c, n)) then f x else x)
    | e => e
    end) /\
  (forall c' n', localStore_GetFlowControl (localStore_UpdateCondition s c n f) c' n' =
    localStore_GetFlowControl s c' n').
Proof.
  intros Hs Hf. split_and!.
  - intros k u Hk. simpl in Hk. rewrite lookup_alter_Some in Hk.
    destruct Hk as [(-> & u' & Hu' & ->)|[_ Hu]]; [|by apply (Hs k u)]. simpl.
    intros m x Hx. rewrite lookup_alter_Some in Hx.
    destruct Hx as [(-> & x' & Hx' & ->)|[_ Hx]]; [|by apply (Hs k u' Hu')].
    rewrite Hf; [by apply (Hs k u' Hu')|]. unfold localStore_Get, loadCondition. by rewrite Hu', Hx'.
  - intros c' n'. unfold localStore_Get, localStore_UpdateCondition, loadCondition. simpl.
    destruct (decide (c = c')) as [<-|Hc].
    + rewrite lookup_alter_eq. destruct (clusters s !! c) as [u|]; simpl; [|done].
      destruct (decide (n = n')) as [<-|Hn].
      * rewrite lookup_alter_eq. destruct (up_conditions u !! n); simpl; [|done].
        by rewrite decide_True.
      * rewrite lookup_alter_ne by done. destruct (up_conditions u !! n'); [|done].
        rewrite decide_False by congruence. done.
    + rewrite lookup_alter_ne by done. destruct (clusters s !! c') as [u|]; [|done].
      destruct (up_conditions u !! n'); [|done]. rewrite decide_False by congruence. done.
  - intros c' n'. unfold localStore_GetFlowControl, localStore_UpdateCondition, loadFlowControls. simpl.
    destruct (decide (c = c')) as [<-|Hc].
    + rewrite lookup_alter_eq. by destruct (clusters s !! c).
    + by rewrite lookup_alter_ne.
Qed.

Lemma Get_name s c n cond : local_inv s -> localStore_Get s c n = Ok cond -> rlc_Name cond = n.
Proof.
  intros Hs Hg. apply Get_conditions in Hg. by apply (local_inv_ensure s c Hs).
Qed.

Lemma syncLocalFlowControls_conditions c new :
  up_conditions (syncLocalFlowControls c new) = up_conditions c.
Proof. unfold syncLocalFlowControls. case_decide; [done|]. by case_match. Qed.

Lemma SyncFlowControl_conditions s c new :
  local_inv s ->
  local_inv (localStore_SyncFlowControl s c new) /\
  forall c' n', localStore_Get (localStore_SyncFlowControl s c new) c' n' = localStore_Get s c' n'.
Proof.
  intros Hs. unfold localStore_SyncFlowControl. split.
  - apply local_inv_put; [done|]. rewrite syncLocalFlowControls_conditions. by apply local_inv_ensure.
  - intros c' n'. rewrite Get_put, syncLocalFlowControls_conditions. case_decide; [|done].
    subst. by rewrite Get_ensure.
Qed.

Lemma DeleteInstanceState_spec s instance :
  local_inv s ->
  local_inv (localStore_DeleteInstanceState s instance) /\
  (forall c n, localStore_Get (localStore_DeleteInstanceState s instance) c n = localStore_Get s c n) /\
  (forall c n, localStore_GetFlowControl (localStore_DeleteInstanceState s instance) c n =
    match localStore_GetFlowControl s c n with
    | Ok fc => Ok (fst (GlobalFlowControl_SetState fc instance (-1) (-1)))
    | e => e
    end).
Proof.
  intros Hs. unfold localStore_DeleteInstanceState, localStore_Get, localStore_GetFlowControl,
    loadCondition, loadFlowControls. split_and!.
  - intros c u Hc. simpl in Hc. apply lookup_fmap_Some in Hc as (u' & <- & Hu). by apply (Hs c u').
  - intros c n. simpl. rewrite lookup_fmap. by destruct (clusters s !! c).
  - intros c n. simpl. rewrite lookup_fmap. destruct (clusters s !! c) as [u|]; simpl; [|done].
    rewrite lookup_fmap. by destruct (up_flowControls u !! n).
Qed.

#[export] Instance localStore_laws {W} : LimitStoreLaws W localStore.
Proof.
  refine {| ls_inv := local_inv |}.
  - intros w s c cond w' s' Hs [= _ <-].
    destruct (Save_spec s c cond _ Hs eq_refl) as (? & Hg & ? & ?).
    split_and!; try done. exists cond. by split.
  - intros w s c n w' s' res Hs [= _ <- <-].
    destruct (Delete_spec s c n _ Hs (localStore_Delete_Ok s c n)) as (? & ? & ? & ?). by split_and!.
  - intros w s c w' s' Hs [= _ <-]. by apply DeleteUpstream_spec.
  - apply ListUpstream_spec.
  - apply ListUpstream_nodup.
  - apply Get_name.
  - apply SyncFlowControl_conditions.
  - apply DeleteInstanceState_spec.
  - apply UpdateCondition_spec.
  - apply UpdateFlowControl_spec.
Defined.
End local_lemmas.

(** ** Synchronising the flow controls of an upstream *)

Section sync_lemmas.
Context `{RateLimiter}.

(** [sync_schema] on the one entry it looks at. *)
Definition sync_one (o : option GlobalFlowControl) (s : FlowControlSchema) : option GlobalFlowControl :=
  match o with
  | None => NewGlobalFlowControl s
  | Some fc =>
      if decide (GlobalFlowControl_Type fc = GuessFlowControlSchemaType s) then
        Some (ResizeGlobalFlowControl fc s)
      else match NewGlobalFlowControl s with
           | Some fc' => Some (ResizeGlobalFlowControl fc' s)
           | None => Some fc
           end
  end.

Lemma sync_schema_lookup fcs s n :
  sync_schema fcs s !! n = if decide (n = fs_Name s) then sync_one (fcs !! n) s else fcs !! n.
Proof.
  unfold sync_schema, sync_one. case_decide as Hn.
  - subst n. destruct (fcs !! fs_Name s) as [fc|] eqn:E.
    + case_decide; [apply lookup_insert_eq|].
      destruct (NewGlobalFlowControl s); [apply lookup_insert_eq|done].
    + destruct (NewGlobalFlowControl s); [apply lookup_insert_eq|done].
  - repeat case_match; rewrite ?lookup_insert_ne by congruence; done.
Qed.

Definition global_names (schemas : list FlowControlSchema) : list string :=
  fs_Name <$> filter (fun s => no_global s = false) schemas.

Lemma sync_schemas_spec schemas fcs ns fcs' ns' :
  NoDup (fs_Name <$> schemas) ->
  foldl sync_step (fcs, ns) schemas = (fcs', ns') ->
  (forall n, n ∈ ns' <-> n ∈ global_names schemas \/ n ∈ ns) /\
  (forall n, n ∉ global_names schemas -> fcs' !! n = fcs !! n) /\
  (forall s, s ∈ schemas -> no_global s = false -> fcs' !! fs_Name s = sync_one (fcs !! fs_Name s) s).
Proof.
  unfold global_names. revert fcs ns. induction schemas as [|s schemas IH]; intros fcs ns Hnd Hf.
  - injection Hf as <- <-. split_and!; [|done|].
    + intros n. simpl. rewrite elem_of_nil. tauto.
    + intros s Hs. by apply elem_of_nil in Hs.
  - rewrite fmap_cons, NoDup_cons in Hnd. destruct Hnd as [Hni Hnd]. simpl in Hf.
    unfold sync_step at 2 in Hf. rewrite filter_cons. destruct (no_global s) eqn:Hg; simpl in *.
    + destruct (IH fcs ns Hnd Hf) as (H1 & H2 & H3). split_and!; [done|done|].
      intros s' [->|Hs']%elem_of_cons Hs; [congruence|auto].
    + destruct (IH _ _ Hnd Hf) as (H1 & H2 & H3). split_and!.
      * intros n. rewrite H1, elem_of_cons, elem_of_union, elem_of_singleton. tauto.
      * intros n [Hne Hn]%not_elem_of_cons. rewrite H2 by done.
        by rewrite sync_schema_lookup, decide_False.
      * intros s' [->|Hs']%elem_of_cons Hs.
        -- rewrite H2, sync_schema_lookup, decide_True; [done|done|]. intros Hin. apply Hni.
           apply list_elem_of_fmap in Hin as (s'' & Heq & Hin). apply list_elem_of_filter in Hin as [_ Hin].
           rewrite Heq. by apply list_elem_of_fmap_2.
        -- rewrite H3 by done. rewrite sync_schema_lookup, decide_False; [done|].
           intros Heq. apply Hni. rewrite <- Heq. by apply list_elem_of_fmap_2.
Qed.

Lemma delete_all_lookup {V} (names : list string) (m : gmap string V) n :
  delete_all names m !! n = if decide (n ∈ names) then None else m !! n.
Proof.
  unfold delete_all. revert m. induction names as [|x names IH]; intros m; cbn [foldl].
  - done.
  - rewrite IH. destruct (decide (n ∈ names)) as [Hin|Hin].
    + by rewrite decide_True by by right.
    + destruct (decide (n = x)) as [->|Hne].
      * rewrite lookup_delete_eq, decide_True by by left. done.
      * rewrite lookup_delete_ne by done. rewrite decide_False; [done|].
        by intros [?|?]%elem_of_cons.
Qed.

(** A flow control that enforces the global limit of its schema. *)
Definition fc_matches (s : FlowControlSchema) (fc : GlobalFlowControl) : Prop :=
  match fc with
  | GlobalMaxInflight f =>
      gm_typ f = MaxRequestsInflight /\
      exists g, fc_GlobalMaxRequestsInflight (fs_Config s) = Some g /\ gm_max f = Max g
  | GlobalTokenBucket f =>
      gt_typ f = TokenBucket /\ fc_GlobalMaxRequestsInflight (fs_Config s) = None /\
      exists g, fc_GlobalTokenBucket (fs_Config s) = Some g /\ gt_qps f = QPS g /\ gt_burst f = Burst g
  end.

Lemma fc_matches_kind s fc : fc_matches s fc -> kind_ok fc.
Proof. unfold kind_ok. by destruct fc; intros [? _]. Qed.

(** The instance states a flow control keeps. *)
Definition kept_states (fc : GlobalFlowControl) : option (Z * gmap string instanceState) :=
  match fc with
  | GlobalMaxInflight f => Some (gm_count f, gm_instanceStates f)
  | GlobalTokenBucket _ => None
  end.

Lemma New_matches s fc : NewGlobalFlowControl s = Some fc -> fc_matches s fc.
Proof.
  unfold NewGlobalFlowControl.
  destruct (fc_GlobalMaxRequestsInflight (fs_Config s)) as [g|] eqn:Eg.
  - intros [= <-]. split; [done|]. by exists g.
  - destruct (fc_GlobalTokenBucket (fs_Config s)) as [g|] eqn:Et; [|done].
    intros [= <-]. split_and!; [done|done|]. by exists g.
Qed.

Lemma New_global s : no_global s = false -> exists fc, NewGlobalFlowControl s = Some fc.
Proof.
  unfold no_global, NewGlobalFlowControl.
  destruct (fc_GlobalMaxRequestsInflight (fs_Config s)), (fc_GlobalTokenBucket (fs_Config s)); eauto.
  done.
Qed.

(** In a valid schema the guessed kind is the kind of its global limit. *)
Lemma Guess_schema_kind s :
  config_ok (fs_Config s) -> no_global s = false ->
  schema_kind (fs_Config s) = Some (GuessFlowControlSchemaType s).
Proof.
  intros Hok Hg. rewrite (Guess_config_ok s Hok). destruct Hok as [H1 _ _ Hgm Hgt].
  unfold no_global in Hg. unfold schema_kind.
  destruct (fc_GlobalMaxRequestsInflight (fs_Config s)) as [g|].
  - destruct (Hgm g eq_refl) as (m & -> & _). done.
  - destruct (fc_GlobalTokenBucket (fs_Config s)) as [g|]; [|done].
    destruct (Hgt g eq_refl) as (_ & tb & Htb & _). rewrite Htb in *.
    by destruct (fc_Exempt (fs_Config s)), (fc_MaxRequestsInflight (fs_Config s)).
Qed.

Lemma Resize_matches s fc :
  kind_ok fc -> Some (GlobalFlowControl_Type fc) = schema_kind (fs_Config s) ->
  fc_matches s (ResizeGlobalFlowControl fc s) /\ kept_states (ResizeGlobalFlowControl fc s) = kept_states fc.
Proof.
  unfold kind_ok, schema_kind, ResizeGlobalFlowControl. intros Hk Ht. rewrite Hk in Ht.
  destruct (fc_GlobalMaxRequestsInflight (fs_Config s)) as [g|] eqn:Eg.
  - destruct fc as [f|f]; [|done]. simpl in *. unfold globalMaxInflight_Resize.
    destruct (Z.eqb_spec (gm_max f) (Max g)); simpl; rewrite Eg; eauto.
  - destruct (fc_GlobalTokenBucket (fs_Config s)) as [g|] eqn:Et; [|done].
    destruct fc as [f|f]; [done|]. simpl in *. unfold globalTokenBucket_Resize.
    destruct ((gt_qps f =? QPS g) && (gt_burst f =? Burst g)) eqn:Eq; simpl; rewrite Eg, Et.
    + bool_to_prop. eauto 8.
    + eauto 8.
Qed.

(** One schema: the flow control it leaves matches it, and keeps its state if
    the kind did not change. *)
Lemma sync_one_spec o s :
  config_ok (fs_Config s) -> no_global s = false -> (forall fc, o = Some fc -> kind_ok fc) ->
  exists fc', sync_one o s = Some fc' /\ fc_matches s fc' /\
    (forall fc, o = Some fc -> Some (GlobalFlowControl_Type fc) = schema_kind (fs_Config s) ->
       kept_states fc' = kept_states fc).
Proof.
  intros Hok Hg Hk. pose proof (Guess_schema_kind s Hok Hg) as Hgk. unfold sync_one.
  destruct (New_global s Hg) as [fn Hn]. destruct o as [fc|].
  - case_decide as Ht.
    + rewrite <- Ht in Hgk. symmetry in Hgk.
      destruct (Resize_matches s fc (Hk fc eq_refl) Hgk) as [Hm Hs].
      eexists. split_and!; [done|done|]. by intros ? [= <-].
    + rewrite Hn. destruct (Resize_matches s fn (NewGlobalFlowControl_kind_ok s fn Hn)) as [Hm Hs].
      { pose proof (NewGlobalFlowControl_kind s) as Hkind. by rewrite Hn in Hkind. }
      eexists. split_and!; [done|done|]. intros ? [= <-] Hsome. congruence.
  - exists fn. split_and!; [done|by apply New_matches|done].
Qed.

(** The flow controls of an upstream are exactly those of the schemas with a
    global limit in its current specification, each enforcing that limit. *)
Definition fcs_inv (c : upstreamCondition) : Prop :=
  (forall n fc, up_flowControls c !! n = Some fc ->
     exists s, s ∈ Schemas (up_currentFlowControlSpec c) /\ fs_Name s = n /\ no_global s = false /\
       fc_matches s fc) /\
  (forall s, s ∈ Schemas (up_currentFlowControlSpec c) -> no_global s = false ->
     is_Some (up_flowControls c !! fs_Name s)).

Lemma elem_of_global_names schemas n :
  n ∈ global_names schemas <-> exists s, s ∈ schemas /\ no_global s = false /\ fs_Name s = n.
Proof.
  unfold global_names. rewrite list_elem_of_fmap. setoid_rewrite list_elem_of_filter.
  split; [intros (s & -> & ? & ?)|intros (s & ? & ? & <-)]; eauto.
Qed.

Lemma syncLocalFlowControls_spec c new :
  fcs_inv c -> schemas_ok (Schemas new) ->
  fcs_inv (syncLocalFlowControls c new) /\
  (forall s fc, s ∈ Schemas new -> no_global s = false ->
     up_flowControls c !! fs_Name s = Some fc ->
     Some (GlobalFlowControl_Type fc) = schema_kind (fs_Config s) ->
     exists fc', up_flowControls (syncLocalFlowControls c new) !! fs_Name s = Some fc' /\
       kept_states fc' = kept_states fc).
Proof.
  intros Hc [Hnd Hok]. rewrite Forall_forall in Hok. unfold syncLocalFlowControls.
  case_decide as Heq; [split; [done|]; eauto|].
  destruct (sync_schemas (up_flowControls c) (Schemas new)) as [fcs ns] eqn:E.
  destruct (sync_schemas_spec _ _ _ _ _ Hnd E) as (Hns & Hout & Hin).
  destruct Hc as [Hc1 Hc2].
  assert (forall s, s ∈ Schemas new -> no_global s = false -> fs_Name s ∉
    elements ((list_to_set (fs_Name <$> Schemas (up_currentFlowControlSpec c)) : gset string) ∖ ns)) as Hkeep.
  { intros s Hs Hg. rewrite elem_of_elements, elem_of_difference, Hns. intros [_ Hn]. apply Hn.
    left. apply elem_of_global_names. eauto. }
  assert (forall s, s ∈ Schemas new -> no_global s = false -> exists fc',
    fcs !! fs_Name s = Some fc' /\ fc_matches s fc' /\
    (forall fc, up_flowControls c !! fs_Name s = Some fc ->
       Some (GlobalFlowControl_Type fc) = schema_kind (fs_Config s) ->
       kept_states fc' = kept_states fc)) as Hone.
  { intros s Hs Hg. rewrite (Hin s Hs Hg). apply sync_one_spec; [by apply Hok|done|].
    intros fc Hfc. destruct (Hc1 _ _ Hfc) as (s0 & _ & _ & _ & Hm). by eapply fc_matches_kind. }
  split.
  - split; simpl.
    + intros n fc. rewrite delete_all_lookup. case_decide as Hdel; [done|]. intros Hn.
      destruct (decide (n ∈ global_names (Schemas new))) as [Hgn|Hgn].
      * apply elem_of_global_names in Hgn as (s & Hs & Hg & <-).
        destruct (Hone s Hs Hg) as (fc' & Hfc' & Hm & _). rewrite Hn in Hfc'. injection Hfc' as <-.
        by exists s.
      * rewrite Hout in Hn by done. destruct (Hc1 _ _ Hn) as (s0 & Hs0 & <- & _ & _).
        destruct Hdel. rewrite elem_of_elements, elem_of_difference, Hns. split.
        -- by apply elem_of_list_to_set, list_elem_of_fmap_2.
        -- intros [?|Habs]; [done|]. by apply elem_of_empty in Habs.
    + intros s Hs Hg. rewrite delete_all_lookup, decide_False by auto.
      destruct (Hone s Hs Hg) as (fc' & -> & _). eauto.
  - intros s fc Hs Hg Hfc Ht. simpl. rewrite delete_all_lookup, decide_False by auto.
    destruct (Hone s Hs Hg) as (fc' & Hfc' & _ & Hk). eauto.
Qed.
End sync_lemmas.

(** ** Shards *)

Lemma GetShardID_range value n :
  0 < n < 2 ^ 32 -> exists id, GetShardID value n = Ok id /\ 0 <= id < n.
Proof.
  intros Hn. unfold GetShardID. rewrite uwrap32_id by lia.
  destruct (Z.eqb_spec n 0); [lia|]. eexists. split; [done|]. apply Z.mod_pos_bound. lia.
Qed.

(** The hash agrees with published FNV-1a values. *)
Example fnv32a_vectors :
  fnv32a 2166136261 "" = 0x811c9dc5 /\ fnv32a 2166136261 "a" = 0xe40c292c /\
  fnv32a 2166136261 "foobar" = 0xbf9cf968.
Proof. vm_compute. auto. Qed.

(** * Properties *)

(** Every upstream of the store meets its invariant. *)
Definition store_inv `{RateLimiter} (s : localStore) : Prop :=
  local_inv s /\ map_Forall (fun _ c => fcs_inv c) (clusters s).


Module StoreExample.
Definition schema (max : Z) : FlowControlSchema :=
  MkSchema "fc" (MkSchemaConfig None (Some (MkMaxInflight 1)) None (Some (MkMaxInflight max)) None)
    "globalCount".
Definition spec (max : Z) : FlowControl := MkFlowControl [schema max].

Lemma schemas_valid max : 1 <= max -> schemas_ok (Schemas (spec max)).
Proof.
  intros Hm. split; [simpl; apply NoDup_singleton|]. simpl. apply Forall_singleton.
  split_and!; [discriminate|reflexivity|].
  split; simpl; try done.
  - by intros m [= <-].
  - intros g [= <-]. exists (MkMaxInflight 1). simpl. split; [done|lia].
Qed.

Lemma empty_inv : store_inv (H := SimpleLimiter.limiter) NewLocalStore.
Proof. split; by intros c u Hu. Qed.
End StoreExample.


(** The in-memory store is a map from cluster and name to condition:
    what is saved is what is read back, deleting removes exactly what was
    asked for, and listing an upstream gives each of its conditions once. *)
Theorem localStore_contract `{RateLimiter} `{MapRange} s :
  local_inv s ->
  (forall c cond, let s' := fst (localStore_Save s c cond) in
     local_inv s' /\ localStore_Get s' c (rlc_Name cond) = Ok cond /\
     forall c' n', (c', n') <> (c, rlc_Name cond) -> localStore_Get s' c' n' = localStore_Get s c' n') /\
  (forall c n, let s' := fst (localStore_Delete s c n) in
     local_inv s' /\ localStore_Get s' c n = Err (NotFound "ratelimitcondition" n) /\
     forall c' n', (c', n') <> (c, n) -> localStore_Get s' c' n' = localStore_Get s c' n') /\
  (forall c, let s' := fst (localStore_DeleteUpstream s c) in
     local_inv s' /\ localStore_ListUpstream s' c = [] /\
     forall c' n', c' <> c -> localStore_Get s' c' n' = localStore_Get s c' n') /\
  (forall c cond, cond ∈ localStore_ListUpstream s c <-> localStore_Get s c (rlc_Name cond) = Ok cond) /\
  (forall c, NoDup (rlc_Name <$> localStore_ListUpstream s c)).
Proof.
  intros Hs. split_and!.
  - intros c cond. destruct (Save_spec s c cond _ Hs eq_refl) as (? & ? & ? & _). by split_and!.
  - intros c n. destruct (Delete_spec s c n _ Hs (localStore_Delete_Ok s c n)) as (? & ? & ? & _).
    by split_and!.
  - intros c. by apply (DeleteUpstream_spec s c).
  - intros c cond. by apply ListUpstream_spec.
  - intros c. by apply ListUpstream_nodup.
Qed.

Lemma localStore_contract_witness :
  localStore_Get (H := SimpleLimiter.limiter)
    (fst (localStore_Save NewLocalStore "c1"
       (MkCondition "c1.gw" "" None (MkRateLimitSpec "c1" "gw" []) (MkRateLimitStatus [])))) "c1" "c1.gw" =
  Ok (MkCondition "c1.gw" "" None (MkRateLimitSpec "c1" "gw" []) (MkRateLimitStatus [])).
Proof.
  destruct (localStore_contract (H := SimpleLimiter.limiter) (H0 := sorted_range) NewLocalStore)
    as (Hsave & _).
  - by intros c u Hu.
  - apply (Hsave "c1" (MkCondition "c1.gw" "" None (MkRateLimitSpec "c1" "gw" []) (MkRateLimitStatus []))).
Defined.
