(* ===== verification/K8sStore.v ===== *)
(** The store of the rate limit server behind the API server
    ([pkg/ratelimiter/store/k8s/cache_store.go]), with the typed client it
    uses ([pkg/client/.../ratelimitcondition.go]).

    The REST client, [wait.ExponentialBackoff] and [retry.RetryOnConflict]
    are parameters with their documented behaviour as laws. *)
From stdpp Require Import base list strings gmap sets.
From Stdlib Require Import ZArith Lia.
From S2P Require Import Prelude ApiTypes FlowControl GlobalFlowControl LimitStore.

Local Open Scope Z_scope.
Local Open Scope go_scope.

(** * Parameters *)

(** The conditions the API server holds, by name, and the requests on them.
    A write that succeeds stores the content that was sent; one that fails
    stores nothing.  A request for an object without a name is refused. *)
Class RestClient (W : Type) := {
  rest_Put : W -> RateLimitCondition -> W * (api_error + RateLimitCondition);
  rest_Post : W -> RateLimitCondition -> W * (api_error + RateLimitCondition);
  rest_Get : W -> string -> api_error + RateLimitCondition;
  rest_Delete : W -> string -> W * option api_error;
  rest_List : W -> api_error + list RateLimitCondition;
  api_view : W -> gmap string RateLimitCondition;
  api_view_key : forall w, map_Forall (fun n c => rlc_Name c = n) (api_view w);
  rest_Put_ok : forall w c w' c', rest_Put w c = (w', inr c') ->
    rlc_Name c <> "" /\ same_content c' c /\ api_view w' = <[rlc_Name c := c']> (api_view w);
  rest_Put_err : forall w c w' e, rest_Put w c = (w', inl e) -> api_view w' = api_view w;
  rest_Post_ok : forall w c w' c', rest_Post w c = (w', inr c') ->
    rlc_Name c <> "" /\ same_content c' c /\ api_view w' = <[rlc_Name c := c']> (api_view w);
  rest_Post_err : forall w c w' e, rest_Post w c = (w', inl e) -> api_view w' = api_view w;
  rest_Get_ok : forall w n c, rest_Get w n = inr c -> rlc_Name c = n;
  rest_Delete_ok : forall w n w', rest_Delete w n = (w', None) -> api_view w' = delete n (api_view w);
  rest_List_ok : forall w l, rest_List w = inr l -> l ≡ₚ snd <$> map_to_list (api_view w)
}.

(** The ways a backoff can run a condition function: until it is done or
    fails, giving up at some point if it keeps asking for more. *)
Inductive attempts {St : Type} (cond : St -> St * (api_error + bool))
    : St -> St * option api_error -> Prop :=
  | attempts_done s s' : cond s = (s', inr true) -> attempts cond s (s', None)
  | attempts_fail s s' e : cond s = (s', inl e) -> attempts cond s (s', Some e)
  | attempts_timeout s :
      attempts cond s (s, Some (OtherError "timed out waiting for the condition"))
  | attempts_again s s' r : cond s = (s', inr false) -> attempts cond s' r -> attempts cond s r.

(** The ways a function can be retried on conflicts. *)
Inductive conflict_retries {St : Type} (fn : St -> St * option api_error)
    : St -> St * option api_error -> Prop :=
  | retries_once s : conflict_retries fn s (fn s)
  | retries_again s s' e r : fn s = (s', Some e) -> IsConflict e = true ->
      conflict_retries fn s' r -> conflict_retries fn s r.

Class Backoff := {
  ExponentialBackoff : forall {St : Type},
    (St -> St * (api_error + bool)) -> St -> St * option api_error;
  RetryOnConflict : forall {St : Type},
    (St -> St * option api_error) -> St -> St * option api_error;
  ExponentialBackoff_attempts : forall {St} (cond : St -> St * (api_error + bool)) s,
    attempts cond s (ExponentialBackoff cond s);
  RetryOnConflict_retries : forall {St} (fn : St -> St * option api_error) s,
    conflict_retries fn s (RetryOnConflict fn s)
}.

Section k8s_store.
Context `{RateLimiter} `{MapRange} {W : Type} `{!RestClient W} `{Backoff}.

(** * The typed client

    It returns the object it decodes into: an empty one beside an error. *)

Definition client_Update (w : W) (c : RateLimitCondition)
    : W * RateLimitCondition * option api_error :=
  match rest_Put w c with
  | (w', inr c') => (w', c', None)
  | (w', inl e) => (w', empty_condition, Some e)
  end.

Definition client_Create (w : W) (c : RateLimitCondition)
    : W * RateLimitCondition * option api_error :=
  match rest_Post w c with
  | (w', inr c') => (w', c', None)
  | (w', inl e) => (w', empty_condition, Some e)
  end.

Definition client_Get (w : W) (name : string) : RateLimitCondition * option api_error :=
  match rest_Get w name with
  | inr c => (c, None)
  | inl e => (empty_condition, Some e)
  end.

(** * The store *)

Record objectStore := MkObjectStore {
  os_shard : Z;
  os_shardCount : Z;
  os_stopChClosed : bool;
  os_stopped : bool;
  os_syncPeriod : Z;
  os_localStore : localStore
}.

Definition NewK8sCacheStore (syncPeriod shard shardCount : Z) : objectStore :=
  MkObjectStore shard shardCount false false syncPeriod NewLocalStore.

Definition with_local (s : objectStore) (l : localStore) : objectStore :=
  MkObjectStore (os_shard s) (os_shardCount s) (os_stopChClosed s) (os_stopped s)
    (os_syncPeriod s) l.

Definition with_version (c : RateLimitCondition) (rv : string) : RateLimitCondition :=
  MkCondition (rlc_Name c) rv (rlc_Labels c) (rlc_Spec c) (rlc_Status c).

(** One attempt of [createOrUpdate], on the server and the item to write. *)
Definition createOrUpdate_attempt (condition : RateLimitCondition)
    (st : W * RateLimitCondition) : W * RateLimitCondition * (api_error + bool) :=
  let '(w, item) := st in
  let '(w, _, err) := client_Update w item in
  match err with
  | None => (w, item, inr true)
  | Some e =>
      if IsNotFound e then
        let '(w, item, err) := client_Create w item in
        (w, item, inr (match err with None => true | Some _ => false end))
      else if IsConflict e then
        let '(latest, err) := client_Get w (rlc_Name condition) in
        match err with
        | None =>
            (w, MkCondition (rlc_Name latest) (rlc_ResourceVersion latest) (rlc_Labels latest)
                  (rlc_Spec condition) (rlc_Status condition), inr false)
        | Some _ => (w, item, inr false)
        end
      else (w, item, inl e)
  end.

Definition createOrUpdate (w : W) (condition : RateLimitCondition)
    : W * RateLimitCondition * option api_error :=
  ExponentialBackoff (createOrUpdate_attempt condition) (w, with_version condition "").

Definition objectStore_Save (w : W) (s : objectStore) (cluster : string)
    (condition : RateLimitCondition) : W * objectStore * result api_error unit :=
  match GetShardID (rls_UpstreamCluster (rlc_Spec condition)) (os_shardCount s) with
  | Panic => (w, s, Panic)
  | Err e => match e with end
  | Ok shard =>
      if negb (shard =? os_shard s) then
        (w, s, Err (WrongShard (rlc_Name condition) shard (os_shard s)))
      else
        let '(w, condition, err) :=
          if os_syncPeriod s =? 0 then createOrUpdate w condition else (w, condition, None) in
        match err with
        | None =>
            let '(l, r) := localStore_Save (os_localStore s) cluster condition in
            (w, with_local s l, r)
        | Some e => (w, s, Err e)
        end
  end.

(** The closure that deletes one condition on the server. *)
Definition delete_on_server (name : string) (w : W) : W * option api_error :=
  let '(w', err) := rest_Delete w name in
  match err with
  | None => (w', None)
  | Some e => if IsNotFound e then (w', None) else (w', Some e)
  end.

Definition objectStore_Delete (w : W) (s : objectStore) (cluster name : string)
    : W * objectStore * result api_error unit :=
  let '(w, err) := RetryOnConflict (delete_on_server name) w in
  match err with
  | Some e => (w, s, Err e)
  | None =>
      let '(l, r) := localStore_Delete (os_localStore s) cluster name in (w, with_local s l, r)
  end.

(** The loop of [DeleteUpstream] over the conditions of the cluster. *)
Fixpoint delete_all_on_server (w : W) (items : list RateLimitCondition)
    : W * option api_error :=
  match items with
  | [] => (w, None)
  | item :: items' =>
      let '(w, err) := RetryOnConflict (delete_on_server (rlc_Name item)) w in
      match err with
      | None => delete_all_on_server w items'
      | Some e => (w, Some e)
      end
  end.

Definition objectStore_DeleteUpstream (w : W) (s : objectStore) (cluster : string)
    : W * objectStore * result api_error unit :=
  let '(w, err) := delete_all_on_server w (localStore_ListUpstream (os_localStore s) cluster) in
  match err with
  | Some e => (w, s, Err e)
  | None =>
      let '(l, r) := localStore_DeleteUpstream (os_localStore s) cluster in (w, with_local s l, r)
  end.

(** The loop of [Load] over the listed items. *)
Fixpoint load_items (s : objectStore) (items : list RateLimitCondition)
    : result Empty_set objectStore :=
  match items with
  | [] => Ok s
  | item :: items' =>
      let! shard := GetShardID (rls_UpstreamCluster (rlc_Spec item)) (os_shardCount s) in
      if negb (shard =? os_shard s) then load_items s items'
      else
        let '(l, _) := localStore_Save (os_localStore s) (rls_UpstreamCluster (rlc_Spec item)) item in
        load_items (with_local s l) items'
  end.

Definition objectStore_Load (w : W) (s : objectStore) : W * objectStore * result api_error unit :=
  match rest_List w with
  | inl e => (w, s, Err e)
  | inr items =>
      match load_items s items with
      | Ok s' => (w, s', Ok tt)
      | Err e => match e with end
      | Panic => (w, s, Panic)
      end
  end.

(** The loop of [doSyncLocked] over the local conditions. *)
Fixpoint sync_items (w : W) (s : objectStore) (items : list RateLimitCondition)
    : W * result api_error unit :=
  match items with
  | [] => (w, Ok tt)
  | item :: items' =>
      match GetShardID (rls_UpstreamCluster (rlc_Spec item)) (os_shardCount s) with
      | Panic => (w, Panic)
      | Err e => match e with end
      | Ok shard =>
          if negb (shard =? os_shard s) then sync_items w s items'
          else
            let '(w, _, err) := createOrUpdate w item in
            match err with
            | None => sync_items w s items'
            | Some e => (w, Err (SyncError (rlc_Name item) e))
            end
      end
  end.

Definition doSyncLocked (w : W) (s : objectStore) : W * result api_error unit :=
  sync_items w s (localStore_List (os_localStore s) (fun _ => true)).

Definition objectStore_Flush (w : W) (s : objectStore) : W * objectStore * result api_error unit :=
  let '(w, r) := doSyncLocked w s in (w, s, r).

Definition objectStore_Stop (w : W) (s : objectStore) : W * objectStore * result api_error unit :=
  if os_stopped s then (w, s, Ok tt)
  else
    match doSyncLocked w s with
    | (w, Ok _) =>
        (* the local store's Stop returns nil *)
        (w, MkObjectStore (os_shard s) (os_shardCount s) true true (os_syncPeriod s)
              (os_localStore s), Ok tt)
    | (w, Err e) => (w, s, Err e)
    | (w, Panic) => (w, s, Panic)
    end.

#[global] Instance objectStore_LimitStore : LimitStore W objectStore := {|
  ls_Get s := localStore_Get (os_localStore s);
  ls_UpdateCondition s c n f := with_local s (localStore_UpdateCondition (os_localStore s) c n f);
  ls_Save := objectStore_Save;
  ls_Delete := objectStore_Delete;
  ls_DeleteUpstream := objectStore_DeleteUpstream;
  ls_ListUpstream s := localStore_ListUpstream (os_localStore s);
  ls_List s := localStore_List (os_localStore s);
  ls_GetFlowControl s := localStore_GetFlowControl (os_localStore s);
  ls_UpdateFlowControl s c n f := with_local s (localStore_UpdateFlowControl (os_localStore s) c n f);
  ls_SyncFlowControl s c fc := with_local s (localStore_SyncFlowControl (os_localStore s) c fc);
  ls_DeleteInstanceState s i := with_local s (localStore_DeleteInstanceState (os_localStore s) i);
  ls_Load := objectStore_Load;
  ls_Flush := objectStore_Flush;
  ls_Stop := objectStore_Stop
|}.
End k8s_store.

(** * Lemmas *)

Section k8s_lemmas.
Context `{RateLimiter} `{MapRange} {W : Type} `{!RestClient W} `{Backoff}.

Lemma same_content_refl c : same_content c c.
Proof. by split. Qed.

Lemma same_content_trans c d e : same_content c d -> same_content d e -> same_content c e.
Proof. intros (? & ? & ?) (? & ? & ?). split_and!; congruence. Qed.

(** What one attempt does to the server: nothing unless it is the last one,
    which stores the item; the item keeps the content of the condition or is
    the empty object of a failed creation. *)
Lemma attempt_spec cond w item w' item' r :
  same_content item cond \/ item = empty_condition ->
  createOrUpdate_attempt cond (w, item) = (w', item', r) ->
  match r with
  | inr true => same_content item' cond /\
      exists c', same_content c' cond /\ api_view w' = <[rlc_Name cond := c']> (api_view w)
  | _ => (same_content item' cond \/ item' = empty_condition) /\ api_view w' = api_view w
  end.
Proof.
  intros Hitem. unfold createOrUpdate_attempt, client_Update.
  destruct (rest_Put w item) as [w1 [e|c1]] eqn:Eput.
  - pose proof (rest_Put_err _ _ _ _ Eput) as Hv.
    destruct (IsNotFound e); [|destruct (IsConflict e)].
    + unfold client_Create. destruct (rest_Post w1 item) as [w2 [e2|c2]] eqn:Epost;
        intros [= <- <- <-].
      * split; [by right|]. by rewrite (rest_Post_err _ _ _ _ Epost).
      * destruct (rest_Post_ok _ _ _ _ Epost) as (Hn & Hc2 & Hv2).
        destruct Hitem as [Hitem| ->]; [|done].
        assert (same_content c2 cond) as Hc by by eapply same_content_trans.
        split; [done|]. exists c2. split; [done|]. rewrite Hv2, Hv. by destruct Hitem as [-> _].
    + unfold client_Get. destruct (rest_Get w1 (rlc_Name cond)) as [e2|latest] eqn:Eget;
        intros [= <- <- <-].
      * by split.
      * split; [left|done]. split_and!; [exact (rest_Get_ok _ _ _ Eget)|done|done].
    + intros [= <- <- <-]. by split.
  - intros [= <- <- <-]. destruct (rest_Put_ok _ _ _ _ Eput) as (Hn & Hc1 & Hv).
    destruct Hitem as [Hitem| ->]; [|done]. split; [done|]. exists c1.
    split; [by eapply same_content_trans|]. rewrite Hv. by destruct Hitem as [-> _].
Qed.

Lemma attempts_spec cond w item out :
  same_content item cond \/ item = empty_condition ->
  attempts (createOrUpdate_attempt cond) (w, item) out ->
  match out with
  | (w', item', None) => same_content item' cond /\
      exists c', same_content c' cond /\ api_view w' = <[rlc_Name cond := c']> (api_view w)
  | (w', _, Some _) => api_view w' = api_view w
  end.
Proof.
  intros Hitem Hat. remember (w, item) as st eqn:Est. revert w item Hitem Est.
  induction Hat as [st [w' item'] Hc|st [w' item'] e Hc|st|st [w1 item1] r Hc Hat IH];
    intros w item Hitem ->.
  - by apply attempt_spec in Hc.
  - by apply attempt_spec in Hc as [_ Hv].
  - done.
  - apply attempt_spec in Hc as [Hi1 Hv1]; [|done]. specialize (IH w1 item1 Hi1 eq_refl).
    rewrite <- Hv1. done.
Qed.

Lemma createOrUpdate_spec cond w w' item err :
  createOrUpdate w cond = (w', item, err) ->
  match err with
  | None => same_content item cond /\
      exists c', same_content c' cond /\ api_view w' = <[rlc_Name cond := c']> (api_view w)
  | Some _ => api_view w' = api_view w
  end.
Proof.
  intros Hc. pose proof (ExponentialBackoff_attempts (createOrUpdate_attempt cond)
    (w, with_version cond "")) as Hat. unfold createOrUpdate in Hc. rewrite Hc in Hat.
  apply attempts_spec in Hat; [by destruct err|]. left. by split.
Qed.

(** Once a creation has failed, the next attempt works on the empty object
    the client returned beside the error, and cannot succeed. *)
Lemma attempt_after_failed_create cond w w' item' r :
  createOrUpdate_attempt cond (w, empty_condition) = (w', item', r) -> r <> inr true.
Proof.
  unfold createOrUpdate_attempt, client_Update, client_Create, client_Get.
  destruct (rest_Put w empty_condition) as [w1 [e|c1]] eqn:Eput.
  - destruct (IsNotFound e); [|destruct (IsConflict e)].
    + destruct (rest_Post w1 empty_condition) as [w2 [e2|c2]] eqn:Epost; intros [= <- <- <-]; [done|].
      by destruct (rest_Post_ok _ _ _ _ Epost).
    + destruct (rest_Get w1 (rlc_Name cond)); by intros [= <- <- <-].
    + by intros [= <- <- <-].
  - by destruct (rest_Put_ok _ _ _ _ Eput).
Qed.

(** ** Writing everything out and loading it again *)

Definition own_item (s : objectStore) (x : RateLimitCondition) : Prop :=
  GetShardID (rls_UpstreamCluster (rlc_Spec x)) (os_shardCount s) = Ok (os_shard s).

#[export] Instance own_item_dec s x : Decision (own_item s x).
Proof.
  unfold own_item. destruct (GetShardID _ _) as [sh|[]|]; [|by right].
  destruct (decide (sh = os_shard s)) as [->|Hne]; [by left|right; congruence].
Defined.

Lemma sync_items_spec items s w w' :
  sync_items w s items = (w', Ok tt) ->
  (forall x, x ∈ items -> own_item s x -> exists y c', y ∈ items /\ own_item s y /\
     rlc_Name y = rlc_Name x /\ same_content c' y /\ api_view w' !! rlc_Name x = Some c') /\
  (forall n, (forall x, x ∈ items -> own_item s x -> rlc_Name x <> n) ->
     api_view w' !! n = api_view w !! n).
Proof.
  revert w. induction items as [|item items IH]; intros w Hsync.
  - injection Hsync as <-. split; [|done]. intros x Hx. by apply elem_of_nil in Hx.
  - cbn [sync_items] in Hsync.
    destruct (GetShardID _ _) as [shard|[]|] eqn:Esh; [|done].
    destruct (Z.eqb_spec shard (os_shard s)) as [->|Hne]; simpl in Hsync.
    + destruct (createOrUpdate w item) as [[w1 item1] [e|]] eqn:Ec; [done|].
      apply createOrUpdate_spec in Ec as (_ & c' & Hc' & Hv).
      destruct (IH w1 Hsync) as [Hin Hout]. split.
      * intros x [->|Hx]%elem_of_cons Hown.
        -- destruct (decide (Exists (fun y => own_item s y /\ rlc_Name y = rlc_Name item) items))
             as [Hex|Hex].
           ++ apply Exists_exists in Hex as (y & Hy & Hoy & Hny).
              destruct (Hin y Hy Hoy) as (z & cz & Hz & Hoz & Hnz & Hcz & Hvz).
              exists z, cz. split_and!; [by right|done|congruence|done|]. by rewrite <- Hny.
           ++ exists item, c'. split_and!; [by left|done|done|done|].
              rewrite Hout, Hv; [apply lookup_insert_eq|]. intros y Hy Hoy Hny. apply Hex.
              apply Exists_exists. eauto.
        -- destruct (Hin x Hx Hown) as (z & cz & Hz & ? & ? & ? & ?).
           exists z, cz. split_and!; try done. by right.
      * intros n Hn. rewrite Hout.
        -- rewrite Hv, lookup_insert_ne; [done|]. apply Hn; [by left|]. by unfold own_item.
        -- intros x Hx. apply Hn. by right.
    + destruct (IH w Hsync) as [Hin Hout].
      assert (~ own_item s item) as Hno by (unfold own_item; rewrite Esh; congruence). split.
      * intros x [->|Hx]%elem_of_cons Hown; [done|].
        destruct (Hin x Hx Hown) as (z & cz & Hz & ? & ? & ? & ?).
        exists z, cz. split_and!; try done. by right.
      * intros n Hn. apply Hout. intros x Hx. apply Hn. by right.
Qed.

Lemma load_items_spec items s s' :
  local_inv (os_localStore s) -> NoDup (rlc_Name <$> items) -> load_items s items = Ok s' ->
  (forall x, x ∈ items -> own_item s x ->
     localStore_Get (os_localStore s') (rls_UpstreamCluster (rlc_Spec x)) (rlc_Name x) = Ok x) /\
  (forall c n, n ∉ rlc_Name <$> items ->
     localStore_Get (os_localStore s') c n = localStore_Get (os_localStore s) c n).
Proof.
  revert s. induction items as [|item items IH]; intros s Hs Hnd Hload.
  - injection Hload as <-. split; [|done]. intros x Hx. by apply elem_of_nil in Hx.
  - rewrite fmap_cons in *. apply list.NoDup_cons in Hnd as [Hni Hnd].
    cbn [load_items] in Hload. destruct (GetShardID _ _) as [shard|[]|] eqn:Esh; [|done].
    simpl in Hload. destruct (Z.eqb_spec shard (os_shard s)) as [->|Hne]; simpl in Hload.
    + destruct (Save_spec (os_localStore s) (rls_UpstreamCluster (rlc_Spec item)) item _ Hs eq_refl)
        as (Hs1 & Hg1 & Hf1 & _).
      set (l1 := put_cluster _ _ _) in *.
      destruct (IH (with_local s l1) Hs1 Hnd Hload) as (Hin & Hout). split.
      * intros x [->|Hx]%elem_of_cons Hown; [by rewrite Hout|by apply Hin].
      * intros c n [Hn1 Hn2]%not_elem_of_cons. rewrite Hout by done.
        simpl. apply Hf1. congruence.
    + destruct (IH s Hs Hnd Hload) as (Hin & Hout). split.
      * intros x [->|Hx]%elem_of_cons Hown; [unfold own_item in Hown; congruence|by apply Hin].
      * intros c n [Hn1 Hn2]%not_elem_of_cons. by apply Hout.
Qed.

(** The listed items of a shard can always be loaded. *)
Lemma load_items_total items s :
  uwrap32 (os_shardCount s) <> 0 -> exists s', load_items s items = Ok s'.
Proof.
  revert s. induction items as [|item items IH]; intros s Hn; [by eexists|].
  cbn [load_items]. unfold GetShardID at 1. destruct (Z.eqb_spec (uwrap32 (os_shardCount s)) 0); [done|].
  simpl. destruct (negb _); by apply IH.
Qed.

Lemma localStore_List_all s x :
  local_inv s -> x ∈ localStore_List s (fun _ => true) <->
  exists c, localStore_Get s c (rlc_Name x) = Ok x.
Proof.
  intros Hs. unfold localStore_List. rewrite list_elem_of_join. split.
  - intros (l & Hx & Hl). apply list_elem_of_fmap in Hl as ([c u] & -> & Hc).
    rewrite elem_of_Range in Hc.
    apply list_elem_of_filter in Hx as [_ Hx]. apply list_elem_of_fmap in Hx as ([n y] & -> & Hy).
    rewrite elem_of_Range in Hy. simpl in *. exists c.
    unfold localStore_Get, loadCondition. rewrite Hc. pose proof (Hs c u Hc n y Hy) as Hn.
    simpl in Hn. by rewrite Hn, Hy.
  - intros [c Hg]. unfold localStore_Get, loadCondition in Hg.
    destruct (clusters s !! c) as [u|] eqn:Hc; [|done].
    destruct (up_conditions u !! rlc_Name x) as [y|] eqn:Hy; [|done]. injection Hg as ->.
    exists (filter (fun item => true = true) (snd <$> Range (up_conditions u))). split.
    + apply list_elem_of_filter. split; [done|]. apply list_elem_of_fmap.
      exists (rlc_Name x, x). by rewrite elem_of_Range.
    + apply list_elem_of_fmap. exists (c, u). split; [done|]. by rewrite elem_of_Range.
Qed.

#[export] Instance objectStore_laws : LimitStoreLaws W objectStore.
Proof.
  refine {| ls_inv s := local_inv (os_localStore s) |}; simpl.
  - intros w s c cond w' s' Hs. unfold objectStore_Save.
    destruct (GetShardID _ _) as [shard|[]|]; [|done]. destruct (negb _); [done|].
    destruct (if os_syncPeriod s =? 0 then _ else _) as [[w1 cond1] err] eqn:E.
    destruct err as [e|]; [done|]. intros [= <- <-]. simpl.
    assert (same_content cond1 cond) as Hc.
    { destruct (os_syncPeriod s =? 0); [|injection E as _ <-; apply same_content_refl].
      by apply createOrUpdate_spec in E as [? _]. }
    destruct (Save_spec (os_localStore s) c cond1 _ Hs eq_refl) as (Hs' & Hg & Hne & Hf).
    destruct Hc as (Hn & Hspec & Hst). rewrite <- Hn. split_and!; try done.
    exists cond1. by split_and!.
  - intros w s c n w' s' res Hs. unfold objectStore_Delete.
    destruct (RetryOnConflict _ w) as [w1 [e|]]; [by intros [= <- <- <-]|].
    rewrite localStore_Delete_Ok. intros [= <- <- <-].
    destruct (Delete_spec (os_localStore s) c n _ Hs (localStore_Delete_Ok _ c n)) as (? & ? & ? & ?).
    by split_and!.
  - intros w s c w' s' Hs. unfold objectStore_DeleteUpstream.
    destruct (delete_all_on_server _ _) as [w1 [e|]]; [done|]. intros [= <- <-].
    by apply (DeleteUpstream_spec (os_localStore s) c).
  - intros s c cond Hs. by apply ListUpstream_spec.
  - intros s c Hs. by apply ListUpstream_nodup.
  - intros s c n cond Hs. by apply Get_name.
  - intros s c fc Hs. by apply SyncFlowControl_conditions.
  - intros s i Hs. by apply DeleteInstanceState_spec.
  - intros s c n f Hs Hf. by apply UpdateCondition_spec.
  - intros s c n f c' n' Hs. by apply UpdateFlowControl_spec.
Defined.
End k8s_lemmas.

(** * Properties *)

(** Conditions are kept under the cluster they are for, and names are unique
    on the API server. *)
Definition keyed `{RateLimiter} (s : localStore) : Prop :=
  (forall c n x, localStore_Get s c n = Ok x -> rls_UpstreamCluster (rlc_Spec x) = c) /\
  (forall c d n x y, localStore_Get s c n = Ok x -> localStore_Get s d n = Ok y -> c = d).

(** Fail-over keeps the quotas: when a store has stopped without error,
    the store a new leader of the shard loads from the API server has every
    condition of the shard with the same specification and status. *)
Theorem stop_then_load `{RateLimiter} `{MapRange} {W} `{!RestClient W} `{Backoff}
    w s w1 s1 period w2 s2 :
  local_inv (os_localStore s) -> keyed (os_localStore s) -> os_stopped s = false ->
  objectStore_Stop w s = (w1, s1, Ok tt) ->
  objectStore_Load w1 (NewK8sCacheStore period (os_shard s) (os_shardCount s)) = (w2, s2, Ok tt) ->
  forall c n x, localStore_Get (os_localStore s) c n = Ok x ->
    GetShardID c (os_shardCount s) = Ok (os_shard s) ->
    exists y, localStore_Get (os_localStore s2) c n = Ok y /\ same_content y x.
Proof.
  intros Hinv [Hkey Huniq] Hrun Hstop Hload c n x Hx Hshard.
  unfold objectStore_Stop in Hstop. rewrite Hrun in Hstop. unfold doSyncLocked in Hstop.
  destruct (sync_items _ _ _) as [w' [[]|e|]] eqn:Esync; [|done|done]. injection Hstop as -> _.
  pose proof Hx as Hname. rewrite Get_conditions in Hname.
  apply (local_inv_ensure (os_localStore s) c Hinv) in Hname. subst n.
  apply sync_items_spec in Esync as [Hin _].
  assert (own_item s x) as Hown by (unfold own_item; by rewrite (Hkey c _ x Hx)).
  destruct (Hin x) as (y & z & Hy & _ & Hny & Hz & Hview); [|done|].
  { apply localStore_List_all; [done|]. eauto. }
  apply localStore_List_all in Hy as [d Hy]; [|done]. rewrite Hny in Hy.
  assert (y = x) as ->.
  { rewrite (Huniq c d _ _ _ Hx Hy) in Hx. congruence. }
  unfold objectStore_Load in Hload. destruct (rest_List w1) as [e|items] eqn:El; [done|].
  apply rest_List_ok in El.
  destruct (load_items _ items) as [s2'|[]|] eqn:Eload; [|done]. injection Hload as _ <-.
  apply load_items_spec in Eload as [Hload _]; [|by intros ? ?|].
  - exists z. split; [|done]. destruct Hz as (Hzn & Hzs & Hzt).
    rewrite <- Hzn, <- (Hkey c _ x Hx), <- Hzs. apply Hload.
    + rewrite El. apply list_elem_of_fmap. exists (rlc_Name x, z). by rewrite elem_of_map_to_list.
    + unfold own_item in *. simpl. by rewrite Hzs.
  - rewrite El, <- list_fmap_compose.
    assert (rlc_Name ∘ snd <$> map_to_list (api_view w1) = fst <$> map_to_list (api_view w1)) as ->.
    { apply list_fmap_ext. intros i [k v] Hi. simpl. apply (api_view_key w1 k v).
      apply elem_of_map_to_list. by apply list_elem_of_lookup_2 with i. }
    apply NoDup_fst_map_to_list.
Qed.

(** An API server that is a map, and a backoff of five attempts. *)
Module SimpleServer.
Definition named (n : string) (c : RateLimitCondition) : RateLimitCondition :=
  MkCondition n (rlc_ResourceVersion c) (rlc_Labels c) (rlc_Spec c) (rlc_Status c).

Lemma named_id c : named (rlc_Name c) c = c.
Proof. by destruct c. Qed.

Definition view (w : gmap string RateLimitCondition) : gmap string RateLimitCondition :=
  map_imap (fun n c => Some (named n c)) w.

Definition write (w : gmap string RateLimitCondition) (c : RateLimitCondition)
    : gmap string RateLimitCondition * (api_error + RateLimitCondition) :=
  if decide (rlc_Name c = "") then (w, inl (OtherError "resource name may not be empty"))
  else (<[rlc_Name c := c]> w, inr c).

Definition put (w : gmap string RateLimitCondition) (c : RateLimitCondition)
    : gmap string RateLimitCondition * (api_error + RateLimitCondition) :=
  if decide (is_Some (w !! rlc_Name c)) then write w c
  else (w, inl (NotFound "ratelimitconditions" (rlc_Name c))).

Lemma view_insert w c : view (<[rlc_Name c := c]> w) = <[rlc_Name c := c]> (view w).
Proof. unfold view. rewrite map_imap_insert. by rewrite named_id. Qed.

Lemma write_ok w c w' c' :
  write w c = (w', inr c') ->
  rlc_Name c <> "" /\ same_content c' c /\ view w' = <[rlc_Name c := c']> (view w).
Proof.
  unfold write. case_decide; [done|]. intros [= <- <-]. split_and!; [done|by split|].
  apply view_insert.
Qed.

Lemma write_err w c w' e : write w c = (w', inl e) -> view w' = view w.
Proof. unfold write. case_decide; [|done]. by intros [= <- _]. Qed.

#[refine] Definition client : RestClient (gmap string RateLimitCondition) := {|
  rest_Put := put;
  rest_Post := write;
  rest_Get w n := match view w !! n with Some c => inr c | None => inl (NotFound "ratelimitconditions" n) end;
  rest_Delete w n := (delete n w, None);
  rest_List w := inr (snd <$> map_to_list (view w));
  api_view := view
|}.
Proof.
  - intros w n c Hc. unfold view in Hc. rewrite map_lookup_imap in Hc.
    destruct (w !! n); [|done]. simpl in Hc. by injection Hc as <-.
  - intros w c w' c'. unfold put. case_decide; [|done]. apply write_ok.
  - intros w c w' e. unfold put. case_decide; [apply write_err|]. by intros [= <- _].
  - apply write_ok.
  - apply write_err.
  - intros w n c. unfold view. rewrite map_lookup_imap. destruct (w !! n); [|done].
    simpl. by intros [= <-].
  - intros w n w' [= <-]. unfold view. apply map_imap_delete.
  - intros w l [= <-]. done.
Defined.

Fixpoint backoff {St} (fuel : nat) (cond : St -> St * (api_error + bool)) (s : St)
    : St * option api_error :=
  match fuel with
  | O => (s, Some (OtherError "timed out waiting for the condition"))
  | S k =>
      match cond s with
      | (s', inr true) => (s', None)
      | (s', inl e) => (s', Some e)
      | (s', inr false) => backoff k cond s'
      end
  end.

#[refine] Definition retry : Backoff := {|
  ExponentialBackoff St cond s := backoff 5 cond s;
  RetryOnConflict St fn s := fn s
|}.
Proof.
  - intros St cond. generalize 5%nat as fuel. induction fuel as [|k IH]; intros s; simpl.
    + apply attempts_timeout.
    + destruct (cond s) as [s' [e|[]]] eqn:E; [by constructor..|by eapply attempts_again].
  - intros St fn s. constructor.
Defined.
End SimpleServer.

Module K8sExample.
Definition condition : RateLimitCondition :=
  MkCondition "c1.gw-1" "" None (MkRateLimitSpec "c1" "gw-1" []) (MkRateLimitStatus []).
Definition store : objectStore (H := SimpleLimiter.limiter) :=
  MkObjectStore (H := SimpleLimiter.limiter) 0 1 false false 30
    (fst (localStore_Save (H := SimpleLimiter.limiter) NewLocalStore "c1" condition)).

Lemma store_get c n x :
  localStore_Get (os_localStore store) c n = Ok x -> c = "c1" /\ n = "c1.gw-1" /\ x = condition.
Proof.
  unfold store. cbn [os_localStore]. cbn [localStore_Save fst]. rewrite Get_put.
  case_decide as Hc; [|done]. intros Hx. split; [done|]. cbn [up_conditions storeCondition] in Hx.
  destruct (_ !! n) as [y|] eqn:E; [|done]. injection Hx as ->.
  apply lookup_insert_Some in E as [[<- <-]|[_ E]]; [done|].
  unfold ensure_cluster in E. simpl in E. by rewrite lookup_empty in E.
Qed.

Lemma store_keyed : keyed (os_localStore store).
Proof.
  split.
  - intros c n x (-> & _ & ->)%store_get. done.
  - intros c d n x y (-> & _)%store_get (-> & _)%store_get. done.
Qed.

Lemma store_local_inv : local_inv (os_localStore store).
Proof.
  apply (Save_spec (H := SimpleLimiter.limiter) NewLocalStore "c1" condition _); [|reflexivity].
  by intros ? ?.
Qed.
End K8sExample.

Lemma stop_then_load_witness :
  exists w1 s1 w2 s2 y,
    objectStore_Stop (H := SimpleLimiter.limiter) (H0 := sorted_range)
      (RestClient0 := SimpleServer.client) (H1 := SimpleServer.retry) ∅ K8sExample.store = (w1, s1, Ok tt) /\
    objectStore_Load (H := SimpleLimiter.limiter) (RestClient0 := SimpleServer.client)
      w1 (NewK8sCacheStore 30 0 1) = (w2, s2, Ok tt) /\
    localStore_Get (os_localStore s2) "c1" "c1.gw-1" = Ok y /\ same_content y K8sExample.condition.
Proof.
  destruct (objectStore_Stop (H := SimpleLimiter.limiter) (H0 := sorted_range)
      (RestClient0 := SimpleServer.client) (H1 := SimpleServer.retry) ∅ K8sExample.store)
    as [[w1 s1] r1] eqn:E1.
  destruct (objectStore_Load (H := SimpleLimiter.limiter) (RestClient0 := SimpleServer.client)
      w1 (NewK8sCacheStore 30 0 1)) as [[w2 s2] r2] eqn:E2.
  assert (r1 = Ok tt) as ->.
  { change r1 with (snd (w1, s1, r1)). rewrite <- E1. vm_compute. reflexivity. }
  assert (r2 = Ok tt) as ->.
  { unfold objectStore_Load in E2. cbn [rest_List SimpleServer.client] in E2.
    destruct (load_items_total (H := SimpleLimiter.limiter) (snd <$> map_to_list (SimpleServer.view w1))
      (NewK8sCacheStore 30 0 1)) as [s' Hs']; [discriminate|]. rewrite Hs' in E2. congruence. }
  assert (localStore_Get (os_localStore K8sExample.store) "c1" "c1.gw-1" = Ok K8sExample.condition)
    as Hget by (vm_compute; reflexivity).
  assert (GetShardID "c1" 1 = Ok 0) as Hshard by (vm_compute; reflexivity).
  destruct (stop_then_load (H := SimpleLimiter.limiter) (H0 := sorted_range)
    (RestClient0 := SimpleServer.client) (H1 := SimpleServer.retry)
    ∅ K8sExample.store w1 s1 30 w2 s2 K8sExample.store_local_inv K8sExample.store_keyed eq_refl E1 E2
    "c1" "c1.gw-1" K8sExample.condition Hget Hshard) as (y & Hy & Hc).
  exists w1, s1, w2, s2, y. split; [reflexivity|]. split; [exact E2|]. split; [exact Hy|exact Hc].
Defined.
