(* ===== verification/Float64.v ===== *)
(** Go's float64: IEEE 754 binary64 with round to nearest even, over the
    [spec_float] of the standard library, and the functions of package math
    the code uses.  Every operation rounds on its own (no fused operations).

    The conversion of a float64 that does not fit to int32 depends on the
    implementation, by the language specification; it is a parameter. *)
From stdpp Require Import base tactics.
From Stdlib Require Import ZArith SpecFloat Lia.
From S2P Require Import Prelude.

Local Open Scope Z_scope.

Abbreviation float64 := spec_float (only parsing).

Definition fadd (x y : float64) : float64 := SFadd 53 1024 x y.
Definition fsub (x y : float64) : float64 := SFsub 53 1024 x y.
Definition fmul (x y : float64) : float64 := SFmul 53 1024 x y.
Definition fdiv (x y : float64) : float64 := SFdiv 53 1024 x y.
Definition fltb (x y : float64) : bool := SFltb x y.
Definition fleb (x y : float64) : bool := SFleb x y.
Definition feqb (x y : float64) : bool := SFeqb x y.

(** [float64(z)] of an integer. *)
Definition of_int (z : Z) : float64 := binary_normalize 53 1024 z 0 false.

(** The constant [a/b] rounded to float64. *)
Definition of_ratio (a b : Z) : float64 := fdiv (of_int a) (of_int b).

(** [math.Sqrt] *)
Definition fsqrt (x : float64) : float64 := SFsqrt 53 1024 x.

(** The integer part of [m * 2^e] towards zero. *)
Definition trunc_pos (m : positive) (e : Z) : Z :=
  if 0 <=? e then Z.pos m * 2 ^ e else Z.pos m / 2 ^ (- e).

Definition signed (s : bool) (z : Z) : Z := if s then - z else z.

(** [math.Ceil] *)
Definition fceil (x : float64) : float64 :=
  match x with
  | S754_finite s m e =>
      if 0 <=? e then x
      else
        let n := Z.pos m / 2 ^ (- e) in
        let exact := n * 2 ^ (- e) =? Z.pos m in
        binary_normalize 53 1024 (if s then - n else if exact then n else n + 1) 0 s
  | _ => x
  end.

(** [math.Round]: to the nearest integer, halves away from zero. *)
Definition fround (x : float64) : float64 :=
  match x with
  | S754_finite s m e =>
      if 0 <=? e then x
      else
        let n := (2 * Z.pos m + 2 ^ (- e)) / 2 ^ (1 - e) in
        binary_normalize 53 1024 (signed s n) 0 s
  | _ => x
  end.

(** [int32(x)]: truncation when it fits. *)
Class FloatToInt := {
  int32_undefined : float64 -> Z;
  int32_undefined_range : forall x, in_int32 (int32_undefined x)
}.

Definition to_int32 `{FloatToInt} (x : float64) : Z :=
  match x with
  | S754_zero _ => 0
  | S754_finite s m e =>
      let z := signed s (trunc_pos m e) in
      if (- 2 ^ 31 <=? z) && (z <? 2 ^ 31) then z else int32_undefined x
  | _ => int32_undefined x
  end.

Lemma to_int32_range `{FloatToInt} x : in_int32 (to_int32 x).
Proof.
  unfold to_int32. destruct x as [s|s| |s m e]; [split; discriminate || reflexivity|..];
    try apply int32_undefined_range.
  case_match eqn:E; [|apply int32_undefined_range]. bool_to_prop. split; lia.
Qed.

(** What amd64 does: a conversion through int64 whose low half is kept. *)
Definition amd64_conversion : FloatToInt.
Proof.
  refine {| int32_undefined x :=
    match x with
    | S754_finite s m e =>
        let z := signed s (trunc_pos m e) in
        if (- 2 ^ 63 <=? z) && (z <? 2 ^ 63) then wrap32 z else 0
    | _ => 0
    end |}.
  intros x. destruct x; try (split; discriminate || reflexivity).
  cbv zeta. case_match; [apply wrap32_in|split; discriminate || reflexivity].
Defined.

Example float_examples :
  to_int32 (H := amd64_conversion) (fceil (fmul (of_int 10) (of_ratio 7 10))) = 7 /\
  to_int32 (H := amd64_conversion) (fround (of_ratio 5 2)) = 3 /\
  to_int32 (H := amd64_conversion) (fround (of_ratio (-5) 2)) = -3 /\
  to_int32 (H := amd64_conversion) (fsqrt (of_int 144)) = 12 /\
  feqb (fadd (of_ratio 1 10) (of_ratio 2 10)) (of_ratio 3 10) = false.
Proof. vm_compute. auto. Qed.
