(* ===== verification/Meter.v ===== *)
(** The meter of a flow control ([pkg/flowcontrols/util/meter.go]): requests in
    flight, a sliding window of their maxima, and an average request rate.

    The goroutines of the code call [calculateAvgRate] and [calInflight]; the
    channel between [addInflight] and the worker holds one value.  Time is in
    nanoseconds since the epoch. *)
From stdpp Require Import base tactics list.
From Stdlib Require Import ZArith SpecFloat Lia.
From S2P Require Import Prelude Float64.

Local Open Scope Z_scope.

(** [time.Duration.Seconds] *)
Definition Seconds (d : Z) : float64 :=
  fadd (of_int (Z.quot d Second)) (fdiv (of_int (Z.rem d Second)) (of_int Second)).

(** The constants the code uses are in [Second]s and [Millisecond]s; int64
    counters are not wrapped. *)
Record Meter := MkMeter {
  inflightBucketLen : Z;
  inflightBucketDuration : Z;
  mt_stopped : bool;
  mt_started : bool;
  mt_uncounted : Z;
  mt_counter : Z;
  mt_currentIndex : nat;
  mt_rateAvg : float64;
  mt_last : Z;
  mt_counterBuckets : list float64;
  mt_inflight : Z;
  mt_inflightIndex : Z;
  mt_inflightAvg : float64;
  mt_inflightMax : Z;
  mt_inflightBuckets : list Z;
  mt_inflightChan : option Z
}.

Definition NewMeter (now : Z) (rateBucketLen : nat) (bucketLen bucketDuration : Z) : Meter :=
  MkMeter bucketLen bucketDuration false false 0 0 0 (of_int 0) now (replicate rateBucketLen (of_int 0))
    0 0 (of_int 0) 0 (replicate (Z.to_nat bucketLen) 0) None.

Definition with_rate (m : Meter) (uncounted counter : Z) (index : nat) (avg : float64) (last : Z)
    (buckets : list float64) : Meter :=
  MkMeter (inflightBucketLen m) (inflightBucketDuration m) (mt_stopped m) (mt_started m)
    uncounted counter index avg last buckets (mt_inflight m) (mt_inflightIndex m) (mt_inflightAvg m)
    (mt_inflightMax m) (mt_inflightBuckets m) (mt_inflightChan m).

Definition with_window (m : Meter) (index : Z) (avg : float64) (max : Z) (buckets : list Z) : Meter :=
  MkMeter (inflightBucketLen m) (inflightBucketDuration m) (mt_stopped m) (mt_started m)
    (mt_uncounted m) (mt_counter m) (mt_currentIndex m) (mt_rateAvg m) (mt_last m) (mt_counterBuckets m)
    (mt_inflight m) index avg max buckets (mt_inflightChan m).

Definition with_inflight (m : Meter) (inflight : Z) (chan : option Z) : Meter :=
  MkMeter (inflightBucketLen m) (inflightBucketDuration m) (mt_stopped m) (mt_started m)
    (mt_uncounted m) (mt_counter m) (mt_currentIndex m) (mt_rateAvg m) (mt_last m) (mt_counterBuckets m)
    inflight (mt_inflightIndex m) (mt_inflightAvg m) (mt_inflightMax m) (mt_inflightBuckets m) chan.

Definition with_flags (m : Meter) (stopped started : bool) : Meter :=
  MkMeter (inflightBucketLen m) (inflightBucketDuration m) stopped started
    (mt_uncounted m) (mt_counter m) (mt_currentIndex m) (mt_rateAvg m) (mt_last m) (mt_counterBuckets m)
    (mt_inflight m) (mt_inflightIndex m) (mt_inflightAvg m) (mt_inflightMax m) (mt_inflightBuckets m)
    (mt_inflightChan m).

Definition Meter_Start (m : Meter) : Meter := with_flags m (mt_stopped m) true.

(** Closing a channel twice panics. *)
Definition Meter_Stop (m : Meter) : result Empty_set Meter :=
  if mt_stopped m then Panic else Ok (with_flags m true (mt_started m)).

Definition Meter_Rate (m : Meter) : float64 := mt_rateAvg m.
Definition Meter_AvgInflight (m : Meter) : float64 := mt_inflightAvg m.
Definition Meter_MaxInflight (m : Meter) : Z := mt_inflightMax m.
Definition CurrentInflight (m : Meter) : Z := mt_inflight m.
Definition Meter_Count (m : Meter) : Z := mt_counter m.

(** The send to the channel is skipped when it is full. *)
Definition addInflight (m : Meter) (n : Z) : Meter :=
  let inflight := wrap32 (mt_inflight m + n) in
  with_inflight m inflight (match mt_inflightChan m with Some v => Some v | None => Some inflight end).

Definition Meter_add (m : Meter) (n : Z) : Meter :=
  with_rate m (mt_uncounted m + n) (mt_counter m + n) (mt_currentIndex m) (mt_rateAvg m) (mt_last m)
    (mt_counterBuckets m).

Definition AddN (m : Meter) (n : Z) : Meter := Meter_add m n.
Definition StartOne (m : Meter) : Meter := Meter_add (addInflight m 1) 1.
Definition EndOne (m : Meter) : Meter := addInflight m (-1).

(** ** Rate *)

Definition latestRate (now : Z) (m : Meter) : Meter * float64 :=
  let count := mt_uncounted m in
  let timeWindow := fdiv (of_int (now - mt_last m)) (of_int Second) in
  let instantRate := fdiv (of_int count) timeWindow in
  (with_rate m (mt_uncounted m - count) (mt_counter m) (mt_currentIndex m) (mt_rateAvg m) now
     (mt_counterBuckets m), instantRate).

(** The comparison of the old rate with NaN is never true. *)
Definition calculateAvgRate (now : Z) (m : Meter) : Meter :=
  let '(m, latest) := latestRate now m in
  let n := length (mt_counterBuckets m) in
  let lastRate := nth (mt_currentIndex m) (mt_counterBuckets m) (of_int 0) in
  let rateAvg := fadd (mt_rateAvg m) (fdiv (fsub latest lastRate) (of_int (Z.of_nat n))) in
  with_rate m (mt_uncounted m) (mt_counter m) ((mt_currentIndex m + 1) mod n)%nat rateAvg (mt_last m)
    (<[mt_currentIndex m := latest]> (mt_counterBuckets m)).

(** ** Requests in flight *)

Definition bucket (buckets : list Z) (i : Z) : Z := nth (Z.to_nat i) buckets 0.
Definition set_bucket (buckets : list Z) (i v : Z) : list Z := <[Z.to_nat i := v]> buckets.

(** The loop that clears [n] buckets from [i] on, taking them off [delta]. *)
Fixpoint clear_from (len : Z) (n : nat) (i : Z) (buckets : list Z) (delta : Z) : list Z * Z :=
  match n with
  | O => (buckets, delta)
  | S n' =>
      let index := i mod len in
      clear_from len n' (i + 1) (set_bucket buckets index 0) (wrap32 (delta - bucket buckets index))
  end.

Definition max_bucket (buckets : list Z) : Z := foldl Z.max 0 buckets.

(** The bucket number of a moment; the index is its remainder. *)
Definition bucket_number (m : Meter) (now : Z) : Z :=
  (now / Millisecond) / (inflightBucketDuration m / Millisecond).

Definition calInflight (now inflight : Z) (m : Meter) : Meter :=
  let len := inflightBucketLen m in
  let currentIndex := bucket_number m now mod len in
  let lastIndex := mt_inflightIndex m in
  if currentIndex =? lastIndex then
    let max := bucket (mt_inflightBuckets m) currentIndex in
    if max <? inflight then
      with_window m lastIndex (mt_inflightAvg m) (mt_inflightMax m)
        (set_bucket (mt_inflightBuckets m) currentIndex inflight)
    else m
  else
    let fakeIndex := if currentIndex <? lastIndex then currentIndex + len else currentIndex in
    let delta := bucket (mt_inflightBuckets m) lastIndex in
    let '(buckets, delta) :=
      clear_from len (Z.to_nat (fakeIndex - (lastIndex + 1))) (lastIndex + 1) (mt_inflightBuckets m) delta in
    let delta := wrap32 (delta - bucket buckets currentIndex) in
    let buckets := set_bucket buckets currentIndex inflight in
    with_window m currentIndex
      (fadd (mt_inflightAvg m) (fmul (of_int delta) (Seconds (inflightBucketDuration m))))
      (max_bucket buckets) buckets.

(** One turn of the worker: a value from the channel, or the timer. *)
Definition inflight_turn (now : Z) (m : Meter) : Meter :=
  match mt_inflightChan m with
  | Some v => calInflight now v (with_inflight m (mt_inflight m) None)
  | None => calInflight now (mt_inflight m) m
  end.

(** * The window *)

Section window.
Context (len : Z) (Hlen : 0 < len).

Definition sized (bs : list Z) : Prop := Z.of_nat (length bs) = len.

Lemma set_bucket_sized bs i v : sized bs -> sized (set_bucket bs i v).
Proof. unfold sized, set_bucket. by rewrite length_insert. Qed.

Lemma bucket_set bs i j v :
  sized bs -> 0 <= i < len -> 0 <= j -> bucket (set_bucket bs i v) j = if decide (i = j) then v else bucket bs j.
Proof.
  unfold sized, bucket, set_bucket. intros Hs Hi Hj. rewrite !nth_lookup. case_decide as Hd.
  - subst j. rewrite list_lookup_insert_eq; [done|lia].
  - rewrite list_lookup_insert_ne; [done|lia].
Qed.

(** Bucket numbers less than a window apart have different indices. *)
Lemma same_index a b : a mod len = b mod len -> - len < a - b < len -> a = b.
Proof.
  intros Heq Hab. pose proof (Z.div_mod a len) as Ha. pose proof (Z.div_mod b len) as Hb.
  rewrite Heq in Ha. assert (len * (a / len - b / len) = a - b) as Hd by lia.
  assert (a / len - b / len = 0) by nia. lia.
Qed.

(** The index the code counts with is the bucket number up to a multiple. *)
Lemma fake_index cur b :
  cur <= b < cur + len ->
  (if b mod len <? cur mod len then b mod len + len else b mod len) = cur mod len + (b - cur).
Proof.
  intros Hb. pose proof (Z.mod_pos_bound cur len Hlen) as Hc.
  assert (b mod len = (cur mod len + (b - cur)) mod len) as ->.
  { rewrite Z.add_mod_idemp_l by lia. f_equal. lia. }
  set (x := cur mod len + (b - cur)). destruct (Z.lt_ge_cases x len) as [Hx|Hx].
  - rewrite Z.mod_small by lia. destruct (Z.ltb_spec x (cur mod len)); lia.
  - assert (x mod len = x - len) as ->.
    { symmetry. apply (Z.mod_unique_pos _ _ 1); lia. }
    destruct (Z.ltb_spec (x - len) (cur mod len)); lia.
Qed.

Lemma clear_from_spec n i bs delta :
  sized bs -> Z.of_nat n <= len ->
  let '(bs', _) := clear_from len n i bs delta in
  sized bs' /\
  (forall b, i <= b < i + Z.of_nat n -> bucket bs' (b mod len) = 0) /\
  (forall j, 0 <= j < len -> (forall b, i <= b < i + Z.of_nat n -> b mod len <> j) ->
     bucket bs' j = bucket bs j).
Proof.
  revert i bs delta. induction n as [|n IH]; intros i bs delta Hs Hn; cbn [clear_from].
  { split_and!; [done|lia|done]. }
  pose proof (Z.mod_pos_bound i len Hlen) as Hi.
  specialize (IH (i + 1) (set_bucket bs (i mod len) 0) (wrap32 (delta - bucket bs (i mod len)))
    (set_bucket_sized _ _ _ Hs) ltac:(lia)).
  destruct (clear_from _ _ _ _ _) as [bs' delta']. destruct IH as (Hs' & Hz & Hk). split_and!; [done|..].
  - intros b Hb. destruct (decide (b = i)) as [->|Hne]; [|apply Hz; lia].
    rewrite Hk; [rewrite bucket_set by (done || lia); by rewrite decide_True|done|].
    intros b' Hb' Heq. apply same_index in Heq; lia.
  - intros j Hj Hout. rewrite Hk; [|done|intros b Hb; apply Hout; lia].
    rewrite bucket_set by (done || lia). rewrite decide_False; [done|]. apply Hout. lia.
Qed.

(** The greatest value observed in a bucket, 0 without one. *)
Fixpoint seen (h : list (Z * Z)) (b : Z) : Z :=
  match h with
  | [] => 0
  | (k, v) :: h' => if k =? b then Z.max v (seen h' b) else seen h' b
  end.

Lemma seen_nonneg h b : 0 <= seen h b.
Proof. induction h as [|[k v] h IH]; cbn; [lia|]. destruct (k =? b); lia. Qed.

Lemma seen_app h h' b : seen (h ++ h') b = Z.max (seen h b) (seen h' b).
Proof.
  induction h as [|[k v] h IH]; cbn.
  - pose proof (seen_nonneg h' b). lia.
  - destruct (k =? b); rewrite IH; lia.
Qed.

Lemma seen_single b v b' : 0 <= v -> seen [(b, v)] b' = if b =? b' then v else 0.
Proof. intros Hv. cbn. destruct (b =? b'); lia. Qed.

Lemma seen_absent h b : Forall (fun o => fst o < b) h -> seen h b = 0.
Proof.
  induction 1 as [|[k v] h Ho _ IH]; [done|]. cbn in *. destruct (Z.eqb_spec k b); [lia|done].
Qed.
End window.

(** What the buckets hold after the observations [h], by bucket number, of
    which [cur] is the current one. *)
Record window_inv (h : list (Z * Z)) (cur : Z) (m : Meter) : Prop := {
  wi_sized : sized (inflightBucketLen m) (mt_inflightBuckets m);
  wi_index : mt_inflightIndex m = cur mod inflightBucketLen m;
  wi_past : Forall (fun o => fst o <= cur) h;
  wi_buckets : forall b, cur - inflightBucketLen m < b <= cur ->
    bucket (mt_inflightBuckets m) (b mod inflightBucketLen m) = seen h b
}.

Definition settings (m : Meter) : Z * Z := (inflightBucketLen m, inflightBucketDuration m).

Lemma calInflight_settings now v m : settings (calInflight now v m) = settings m.
Proof.
  unfold calInflight. destruct (_ =? _); [by destruct (_ <? _)|]. by destruct (clear_from _ _ _ _ _).
Qed.

Lemma past_app h cur b v :
  Forall (fun o => fst o <= cur) h -> cur <= b -> Forall (fun o : Z * Z => fst o <= b) (h ++ [(b, v)]).
Proof.
  intros Hp Hb. apply Forall_app. split; [|by repeat constructor].
  eapply Forall_impl; [exact Hp|]. cbn. lia.
Qed.

(** An observation in the current bucket. *)
Lemma calInflight_same h cur m now v :
  0 < inflightBucketLen m -> window_inv h cur m -> 0 <= v -> bucket_number m now = cur ->
  window_inv (h ++ [(cur, v)]) cur (calInflight now v m).
Proof.
  intros Hl [Hs Hi Hp Hb] Hv Hn. set (len := inflightBucketLen m) in *.
  pose proof (Z.mod_pos_bound cur len Hl) as Hm.
  assert (forall b, cur - len < b <= cur -> seen (h ++ [(cur, v)]) b =
            if decide (cur mod len = b mod len) then Z.max (bucket (mt_inflightBuckets m) (cur mod len)) v
            else bucket (mt_inflightBuckets m) (b mod len)) as Hseen.
  { intros b Hrange. rewrite seen_app, seen_single by done. rewrite !Hb by lia. case_decide as Hd.
    - apply (same_index len Hl) in Hd; [subst b|lia]. by rewrite Z.eqb_refl.
    - destruct (Z.eqb_spec cur b); [by subst b|].
      pose proof (seen_nonneg h b). lia. }
  unfold calInflight. fold len. rewrite Hn, Hi, Z.eqb_refl.
  destruct (Z.ltb_spec (bucket (mt_inflightBuckets m) (cur mod len)) v) as [Hlt|Hge]; split; cbn -[bucket set_bucket seen Z.modulo]; fold len.
  - by apply set_bucket_sized.
  - done.
  - by apply (past_app h cur).
  - intros b Hrange. pose proof (Z.mod_pos_bound b len Hl). rewrite Hseen by done.
    rewrite (bucket_set len) by (done || lia). case_decide; [lia|done].
  - done.
  - done.
  - by apply (past_app h cur).
  - intros b Hrange. rewrite Hseen by done. case_decide as Hd; [rewrite <-Hd; lia|done].
Qed.

(** An observation that opens a new bucket. *)
Lemma calInflight_next h cur m now v b0 :
  0 < inflightBucketLen m -> window_inv h cur m -> 0 <= v -> bucket_number m now = b0 ->
  cur < b0 < cur + inflightBucketLen m ->
  window_inv (h ++ [(b0, v)]) b0 (calInflight now v m) /\
  mt_inflightMax (calInflight now v m) = max_bucket (mt_inflightBuckets (calInflight now v m)).
Proof.
  intros Hl [Hs Hi Hp Hb] Hv Hn Hgap. set (len := inflightBucketLen m) in *.
  unfold calInflight. fold len. rewrite Hn, Hi.
  destruct (Z.eqb_spec (b0 mod len) (cur mod len)) as [Heq|_]; [apply (same_index len Hl) in Heq; lia|].
  rewrite (fake_index len Hl) by lia.
  replace (Z.to_nat (cur mod len + (b0 - cur) - (cur mod len + 1))) with (Z.to_nat (b0 - cur - 1)) by lia.
  pose proof (clear_from_spec len Hl (Z.to_nat (b0 - cur - 1)) (cur mod len + 1) (mt_inflightBuckets m)
    (bucket (mt_inflightBuckets m) (cur mod len)) Hs ltac:(lia)) as Hc.
  destruct (clear_from _ _ _ _ _) as [bs delta]. destruct Hc as (Hs' & Hz & Hk). split; [|done].
  pose proof (Z.mod_pos_bound b0 len Hl) as Hb0.
  assert (forall x, (cur mod len + x) mod len = (cur + x) mod len) as Hshift
    by (intros x; by rewrite Z.add_mod_idemp_l by lia).
  split; cbn -[bucket set_bucket seen Z.modulo]; fold len.
  - by apply set_bucket_sized.
  - done.
  - apply (past_app h cur); [done|lia].
  - intros b Hrange. pose proof (Z.mod_pos_bound b len Hl) as Hbb.
    rewrite (bucket_set len), seen_app, seen_single by (done || lia).
    case_decide as Hd.
    { apply (same_index len Hl) in Hd; [subst b|lia]. rewrite Z.eqb_refl, seen_absent; [lia|].
      eapply Forall_impl; [exact Hp|]. cbn. lia. }
    destruct (Z.eqb_spec b0 b); [by subst b|]. destruct (Z.le_gt_cases b cur) as [Hle|Hgt].
    + rewrite Hk; [rewrite Hb by lia| |].
      * pose proof (seen_nonneg h b). lia.
      * done.
      * intros b' Hb' Heq. replace b' with (cur mod len + (b' - cur mod len)) in Heq by lia.
        rewrite Hshift in Heq. apply (same_index len Hl) in Heq; lia.
    + replace (b mod len) with ((cur mod len + (b - cur)) mod len) by (rewrite Hshift; f_equal; lia).
      rewrite Hz by lia. rewrite seen_absent; [done|]. eapply Forall_impl; [exact Hp|]. cbn. lia.
Qed.

(** Observations, each a moment and the requests in flight at it. *)
Definition observe (m : Meter) (o : Z * Z) : Meter := calInflight (fst o) (snd o) m.
Definition observe_all (m : Meter) (obs : list (Z * Z)) : Meter := foldl observe m obs.

(** The bucket of a moment, for buckets of length [dur]. *)
Definition number (dur t : Z) : Z := (t / Millisecond) / (dur / Millisecond).

(** Time does not go back, no bucket is more than a window after the one
    before it, and counts are not negative. *)
Fixpoint paced (len dur cur : Z) (obs : list (Z * Z)) : Prop :=
  match obs with
  | [] => True
  | (t, v) :: obs' => 0 <= v /\ cur <= number dur t < cur + len /\ paced len dur (number dur t) obs'
  end.

Definition numbered (dur : Z) (obs : list (Z * Z)) : list (Z * Z) := prod_map (number dur) id <$> obs.

Lemma observe_all_inv len dur obs h cur m :
  0 < len -> settings m = (len, dur) -> window_inv h cur m -> paced len dur cur obs ->
  settings (observe_all m obs) = (len, dur) /\
  window_inv (h ++ numbered dur obs) (foldl (fun _ o => number dur (fst o)) cur obs) (observe_all m obs).
Proof.
  intros Hl. revert h cur m. induction obs as [|[t v] obs IH]; intros h cur m Hset Hinv Hp.
  { cbn. by rewrite app_nil_r. }
  destruct Hp as (Hv & Hb & Hp). pose proof Hset as Heq. injection Heq as Hlen Hdur.
  assert (bucket_number m t = number dur t) as Hn by (unfold bucket_number, number; by rewrite Hdur).
  assert (window_inv (h ++ [(number dur t, v)]) (number dur t) (calInflight t v m)) as Hstep.
  { destruct (decide (number dur t = cur)) as [Hsame|Hne].
    - rewrite Hsame. apply calInflight_same; [by rewrite Hlen|done|done|congruence].
    - apply (calInflight_next h cur); try done; rewrite ?Hlen; lia. }
  destruct (IH _ _ _ (eq_trans (calInflight_settings t v m) Hset) Hstep Hp) as [Hs' Hi']. split; [done|].
  rewrite <-app_assoc in Hi'. exact Hi'.
Qed.

Lemma max_bucket_spec bs :
  (forall x, x ∈ bs -> x <= max_bucket bs) /\ (max_bucket bs = 0 \/ max_bucket bs ∈ bs).
Proof.
  unfold max_bucket. assert (forall a, a <= foldl Z.max a bs /\ (forall x, x ∈ bs -> x <= foldl Z.max a bs) /\
    (foldl Z.max a bs = a \/ foldl Z.max a bs ∈ bs)) as Hall.
  { induction bs as [|b bs IH]; intros a; cbn.
    - split_and!; [lia| |by left]. by intros x Hx%elem_of_nil.
    - destruct (IH (Z.max a b)) as (H1 & H2 & H3). split_and!; [lia| |].
      + intros x [->|Hx]%elem_of_cons; [lia|by apply H2].
      + destruct H3 as [->|H3]; [|by right; right].
        destruct (Z.max_spec a b) as [[_ ->]|[_ ->]]; [right; left|by left]. }
  destruct (Hall 0) as (_ & ? & ?). done.
Qed.

Lemma elem_of_bucket bs x : x ∈ bs <-> exists i, 0 <= i < Z.of_nat (length bs) /\ bucket bs i = x.
Proof.
  rewrite list_elem_of_lookup. unfold bucket. split.
  - intros [i Hi]. exists (Z.of_nat i). apply lookup_lt_Some in Hi as Hlt. split; [lia|].
    rewrite Nat2Z.id. by apply nth_lookup_Some.
  - intros (i & Hi & <-). exists (Z.to_nat i). destruct (nth_lookup_or_length bs (Z.to_nat i) 0); [done|lia].
Qed.

Lemma seen_spec h b :
  (forall v, (b, v) ∈ h -> v <= seen h b) /\ (seen h b = 0 \/ (b, seen h b) ∈ h).
Proof.
  induction h as [|[k w] h [IH1 IH2]]; cbn; [split; [by intros v Hv%elem_of_nil|by left]|].
  destruct (Z.eqb_spec k b) as [->|Hne]; split.
  - intros v [[= ->]|Hv]%elem_of_cons; [lia|]. specialize (IH1 v Hv). lia.
  - destruct (Z.max_spec w (seen h b)) as [[_ ->]|[_ ->]]; [|right; left].
    destruct IH2 as [?|?]; [by left|right; by right].
  - intros v [[= -> ->]|Hv]%elem_of_cons; [done|by apply IH1].
  - destruct IH2 as [?|?]; [by left|right; by right].
Qed.

Lemma new_meter_inv now n len dur b :
  0 < len -> window_inv [] (b - b mod len) (NewMeter now n len dur).
Proof.
  intros Hl. split; cbn -[bucket].
  - unfold sized. rewrite length_replicate. lia.
  - rewrite Zminus_mod_idemp_r. by rewrite Z.sub_diag.
  - constructor.
  - intros b' _. unfold bucket. rewrite nth_lookup.
    destruct (replicate _ 0 !! _) as [x|] eqn:E; [|done]. by apply lookup_replicate in E as [-> _].
Qed.

Lemma observe_all_app m obs obs' : observe_all m (obs ++ obs') = observe_all (observe_all m obs) obs'.
Proof. apply foldl_app. Qed.

Lemma paced_app len dur cur obs obs' :
  paced len dur cur (obs ++ obs') <->
  paced len dur cur obs /\ paced len dur (foldl (fun _ o => number dur (fst o)) cur obs) obs'.
Proof.
  revert cur. induction obs as [|[t v] obs IH]; intros cur; cbn; [tauto|]. rewrite IH. tauto.
Qed.

Lemma elem_of_numbered dur obs b v : (b, v) ∈ numbered dur obs <-> exists t, number dur t = b /\ (t, v) ∈ obs.
Proof.
  unfold numbered. rewrite list_elem_of_fmap. split.
  - intros ([t w] & [= -> ->] & Hin). by exists t.
  - intros (t & <- & Hin). by exists (t, v).
Qed.

(** The maximum a window holds. *)
Definition window_max (len dur now : Z) (obs : list (Z * Z)) (max : Z) : Prop :=
  (forall t v, (t, v) ∈ obs -> number dur now - len < number dur t -> v <= max) /\
  (exists t, (t, max) ∈ obs /\ number dur now - len < number dur t).

Lemma inv_window_max len dur now v obs m :
  0 < len -> 0 <= v -> settings m = (len, dur) -> (now, v) ∈ obs ->
  window_inv (numbered dur obs) (number dur now) m ->
  mt_inflightMax m = max_bucket (mt_inflightBuckets m) -> window_max len dur now obs (Meter_MaxInflight m).
Proof.
  intros Hl Hv [= Hlen _] Hin [Hs _ Hp Hb] Hmax. unfold Meter_MaxInflight. rewrite Hmax.
  rewrite Hlen in *. destruct (max_bucket_spec (mt_inflightBuckets m)) as [Hup Hex].
  assert (forall t w, (t, w) ∈ obs -> number dur now - len < number dur t ->
            w <= max_bucket (mt_inflightBuckets m)) as Hle.
  { intros t w Ht Hrange. assert ((number dur t, w) ∈ numbered dur obs) as Hn
      by (apply elem_of_numbered; by exists t).
    rewrite Forall_forall in Hp. pose proof (Hp _ Hn) as Hnow. cbn in Hnow.
    etrans; [exact (proj1 (seen_spec _ _) w Hn)|]. rewrite <-Hb by lia. apply Hup, elem_of_bucket.
    exists (number dur t mod len). split; [rewrite Hs; by apply Z.mod_pos_bound|done]. }
  split; [exact Hle|].
  assert (max_bucket (mt_inflightBuckets m) = v \/ 0 < max_bucket (mt_inflightBuckets m)) as [->|Hpos].
  { specialize (Hle now v Hin). lia. }
  { exists now. split; [done|lia]. }
  destruct Hex as [Hex|Hex]; [lia|]. apply elem_of_bucket in Hex as (i & Hi & Hbi). rewrite Hs in Hi.
  set (b := number dur now - (number dur now - i) mod len).
  pose proof (Z.mod_pos_bound (number dur now - i) len Hl) as Hmod.
  assert (b mod len = i) as Hbm.
  { unfold b. rewrite Zminus_mod_idemp_r. replace (number dur now - (number dur now - i)) with i by lia.
    by apply Z.mod_small. }
  assert (max_bucket (mt_inflightBuckets m) = seen (numbered dur obs) b) as Heq
    by (rewrite <-Hbi, <-Hbm; apply Hb; unfold b; lia).
  destruct (proj2 (seen_spec (numbered dur obs) b)) as [H0|Hsn]; [lia|].
  rewrite <-Heq in Hsn. apply elem_of_numbered in Hsn as (t & Ht & Hin'). exists t. split; [done|].
  rewrite Ht. unfold b. lia.
Qed.

(** The in-flight maximum a meter reports is the maximum of a sliding
    window: whenever an observation opens a new bucket, it is the greatest
    count observed in the last [len] buckets, as long as observations are
    never a whole window apart. *)
Theorem MaxInflight_is_window_max start n len dur obs t0 v0 t1 v1 :
  let all := obs ++ [(t0, v0); (t1, v1)] in
  let first := number dur (default t0 (fst <$> head obs)) in
  0 < len -> paced len dur first all -> number dur t0 < number dur t1 ->
  window_max len dur t1 all (Meter_MaxInflight (observe_all (NewMeter start n len dur) all)).
Proof.
  intros all first Hl Hp Hlt. set (m0 := NewMeter start n len dur).
  assert (paced len dur (first - first mod len) all) as Hp0.
  { pose proof (Z.mod_pos_bound first len Hl). unfold all in *. destruct obs as [|[t v] obs];
      destruct Hp as (? & ? & ?); split; try done; split; try done.
    - assert (first = number dur t0) as Hf by done. clearbody first. lia.
    - assert (first = number dur t) as Hf by done. clearbody first. lia. }
  replace all with ((obs ++ [(t0, v0)]) ++ [(t1, v1)]) in * by (unfold all; by rewrite <-app_assoc).
  apply paced_app in Hp0 as [Hp1 Hp2]. rewrite foldl_app in Hp2. destruct Hp2 as (Hv1 & Hb1 & _).
  cbn [foldl fst] in Hb1.
  destruct (observe_all_inv len dur (obs ++ [(t0, v0)]) [] _ m0 Hl eq_refl (new_meter_inv _ _ _ _ _ Hl) Hp1)
    as [Hset Hinv].
  rewrite foldl_app in Hinv. cbn [foldl fst app] in Hinv. rewrite observe_all_app.
  set (m1 := observe_all m0 (obs ++ [(t0, v0)])) in *. pose proof Hset as Heq. injection Heq as Hlen Hdur.
  destruct (calInflight_next (numbered dur (obs ++ [(t0, v0)])) (number dur t0) m1 t1 v1 (number dur t1))
    as [Hinv' Hmax]; rewrite ?Hlen; try done.
  { by unfold bucket_number; rewrite Hdur. }
  { lia. }
  apply (inv_window_max len dur t1 v1); try done.
  - by rewrite <-Hset, <-(calInflight_settings t1 v1 m1).
  - apply elem_of_app. right. by apply list_elem_of_singleton.
  - unfold numbered. rewrite fmap_app. exact Hinv'.
Qed.

(** Two observations of the meter of a flow control: 5 requests in flight,
    and 3 in a later bucket; the maximum is still 5. *)
Lemma MaxInflight_is_window_max_witness :
  let dur := 200 * Millisecond in
  let obs := [(0, 5); (250 * Millisecond, 3)] in
  window_max 6 dur (250 * Millisecond) obs 5.
Proof.
  change 5 with (Meter_MaxInflight (observe_all (NewMeter 0 3 6 (200 * Millisecond))
    [(0, 5); (250 * Millisecond, 3)])) at 2.
  apply (MaxInflight_is_window_max 0 3 6 (200 * Millisecond) [] 0 5 (250 * Millisecond) 3).
  - reflexivity.
  - vm_compute. repeat split; discriminate.
  - reflexivity.
Defined.

(** Observations a whole window apart share an index, and the old count stays:
    the timer of the worker, of two buckets, rules this out. *)
Example stale_window :
  let m := observe_all (NewMeter 0 3 6 (200 * Millisecond)) [(0, 5); (1200 * Millisecond, 1)] in
  bucket (mt_inflightBuckets m) 0 = 5.
Proof. by vm_compute. Qed.
