(* ===== verification/LoadPressure.v ===== *)
(** Load on a proxy: the monitors of rate and throughput
    ([pkg/gateway/endpoints/monitor]), the readers and writers that feed them
    ([pkg/gateway/endpoints/filters/readerwriter.go]), and the filter that
    asks clients to reconnect elsewhere under load
    ([pkg/gateway/endpoints/filters/goaway.go]).

    The formats of numbers are parameters. *)
From stdpp Require Import base tactics list strings gmap.
From Stdlib Require Import ZArith SpecFloat Lia.
From S2P Require Import Prelude Float64 Meter.

Local Open Scope Z_scope.

(** * Monitors *)

Definition rateMeterBucketLen : nat := 3.
Definition throughputMeterBucketLen : nat := 3.

Record RateMonitor := MkRateMonitor { rm_rate : Meter }.

Definition NewRateMonitor (now : Z) : RateMonitor :=
  MkRateMonitor (Meter_Start (NewMeter now rateMeterBucketLen 0 0)).

Definition RequestAdd (m : RateMonitor) (n : Z) : RateMonitor := MkRateMonitor (AddN (rm_rate m) n).
Definition RequestStart (m : RateMonitor) : RateMonitor := MkRateMonitor (StartOne (rm_rate m)).
Definition RequestEnd (m : RateMonitor) : RateMonitor := MkRateMonitor (EndOne (rm_rate m)).
Definition RateMonitor_Rate (m : RateMonitor) : float64 := Meter_Rate (rm_rate m).
Definition Inflight (m : RateMonitor) : Z := CurrentInflight (rm_rate m).

Record ThroughputMonitor := MkThroughputMonitor {
  tm_request : Meter;
  tm_response : Meter
}.

Definition NewThroughputMonitor (now : Z) : ThroughputMonitor :=
  let m := Meter_Start (NewMeter now throughputMeterBucketLen 0 0) in MkThroughputMonitor m m.

Definition RecordRequest (m : ThroughputMonitor) (n : Z) : ThroughputMonitor :=
  MkThroughputMonitor (AddN (tm_request m) n) (tm_response m).
Definition RecordResponse (m : ThroughputMonitor) (n : Z) : ThroughputMonitor :=
  MkThroughputMonitor (tm_request m) (AddN (tm_response m) n).
Definition ThroughputMonitor_RequestSize (m : ThroughputMonitor) : Z := Meter_Count (tm_request m).
Definition ThroughputMonitor_ResponseSize (m : ThroughputMonitor) : Z := Meter_Count (tm_response m).
Definition Throughput (m : ThroughputMonitor) : float64 :=
  fadd (Meter_Rate (tm_request m)) (Meter_Rate (tm_response m)).

(** * Readers and writers *)

Record readerWriter := MkReaderWriter {
  rw_read : Z;
  rw_statusRecorded : bool;
  rw_status : Z;
  rw_captureErrorOutput : bool;
  rw_written : Z;
  rw_addedInfo : string
}.

Definition new_readerWriter : readerWriter := MkReaderWriter 0 false 0 false 0 "".

Definition captureErrorOutput (code : Z) : bool := 500 <=? code.

(** [n] bytes were read from the body of the request. *)
Definition requestReader_Read (m : ThroughputMonitor) (r : readerWriter) (n : Z) : ThroughputMonitor * readerWriter :=
  (RecordRequest m n,
   MkReaderWriter (rw_read r + n) (rw_statusRecorded r) (rw_status r) (rw_captureErrorOutput r) (rw_written r)
     (rw_addedInfo r)).

Definition recordStatus (r : readerWriter) (status : Z) : readerWriter :=
  MkReaderWriter (rw_read r) true status (captureErrorOutput status) (rw_written r) (rw_addedInfo r).

Definition responseWriter_WriteHeader (r : readerWriter) (status : Z) : readerWriter := recordStatus r status.

(** [b] is written, [n] bytes of it are accepted; [debug] is how errors are
    noted. *)
Definition responseWriter_Write (debug : string -> string) (m : ThroughputMonitor) (r : readerWriter) (b : string) (n : Z)
    : ThroughputMonitor * readerWriter :=
  let r := if rw_statusRecorded r then r else recordStatus r 200 in
  let info := if rw_captureErrorOutput r then rw_addedInfo r +:+ debug b else rw_addedInfo r in
  (RecordResponse m n,
   MkReaderWriter (rw_read r) (rw_statusRecorded r) (rw_status r) (rw_captureErrorOutput r) (rw_written r + n) info).

(** * The filter *)

Record goaway := MkGoaway {
  ga_inflightThreshold : Z;
  ga_qpsThreshold : Z;
  ga_throughputThresholdBytes : Z
}.

(** [None] when the filter is disabled; the shift is one of int32. *)
Definition WithLoadPressureGoaway (inflightThreshold qpsThreshold throughputThresholdMB : Z) (chance : float64)
    : option goaway :=
  if fleb chance (of_int 0) || ((inflightThreshold <=? 0) && (qpsThreshold <=? 0) && (throughputThresholdMB <=? 0))
  then None
  else Some (MkGoaway inflightThreshold qpsThreshold (wrap32 (Z.shiftl throughputThresholdMB 20))).

Section goaway.
Context (show_int : Z -> string) (show_rate show_bytes : float64 -> string).

Definition hasLoadPressure (h : goaway) (rate : RateMonitor) (throughput : ThroughputMonitor) : string :=
  let pressure := "" in
  let pressure :=
    if (0 <? ga_inflightThreshold h) && (ga_inflightThreshold h <? Inflight rate)
    then "inflight=" +:+ show_int (Inflight rate) else pressure in
  let pressure :=
    if (0 <? ga_qpsThreshold h) && fltb (of_int (ga_qpsThreshold h)) (RateMonitor_Rate rate)
    then "rate=" +:+ show_rate (RateMonitor_Rate rate) else pressure in
  if (0 <? ga_throughputThresholdBytes h) &&
     fltb (of_int (ga_throughputThresholdBytes h)) (Throughput throughput)
  then "throughput=" +:+ show_bytes (fdiv (fdiv (Throughput throughput) (of_int 1024)) (of_int 1024)) +:+ "MB"
  else pressure.

(** Whether a request is handed to the handler that may close its
    connection. *)
Definition goaway_ServeHTTP (h : goaway) (rate : RateMonitor) (throughput : ThroughputMonitor) (proto : string) : bool :=
  bool_decide (proto = "HTTP/2.0") && negb (bool_decide (hasLoadPressure h rate throughput = "")).

(** * Properties *)

Lemma hasLoadPressure_spec h rate throughput :
  hasLoadPressure h rate throughput <> "" <->
  (0 < ga_inflightThreshold h /\ ga_inflightThreshold h < Inflight rate) \/
  (0 < ga_qpsThreshold h /\ fltb (of_int (ga_qpsThreshold h)) (RateMonitor_Rate rate) = true) \/
  (0 < ga_throughputThresholdBytes h /\ fltb (of_int (ga_throughputThresholdBytes h)) (Throughput throughput) = true).
Proof.
  unfold hasLoadPressure. rewrite <- !Z.ltb_lt.
  destruct (0 <? ga_throughputThresholdBytes h), (fltb (of_int (ga_throughputThresholdBytes h)) _),
    (0 <? ga_qpsThreshold h), (fltb (of_int (ga_qpsThreshold h)) _),
    (0 <? ga_inflightThreshold h), (ga_inflightThreshold h <? Inflight rate); cbn [andb]; naive_solver.
Qed.

(** The bytes a number of megabytes stands for in 32 bits. *)
Lemma threshold_bytes mb :
  wrap32 (Z.shiftl mb 20) = (let k := mb mod 4096 in if k <? 2048 then k * 2 ^ 20 else (k - 4096) * 2 ^ 20).
Proof.
  rewrite Z.shiftl_mul_pow2 by lia. cbv zeta. unfold wrap32.
  pose proof (Z.div_mod mb 4096 ltac:(lia)) as Hd. pose proof (Z.mod_pos_bound mb 4096 ltac:(lia)) as Hk.
  set (k := mb mod 4096) in *. set (q := mb / 4096) in *. clearbody k q. subst mb.
  destruct (Z.ltb_spec k 2048).
  - rewrite <- (Z.mod_unique ((4096 * q + k) * 2 ^ 20 + 2 ^ 31) (2 ^ 32) q (k * 2 ^ 20 + 2 ^ 31)); lia.
  - rewrite <- (Z.mod_unique ((4096 * q + k) * 2 ^ 20 + 2 ^ 31) (2 ^ 32) (q + 1) ((k - 4096) * 2 ^ 20 + 2 ^ 31)); lia.
Qed.

End goaway.

(** ** Bytes are counted once *)

(** Many requests read and write through one monitor. *)
Inductive io :=
  | DidRead (request : nat) (n : Z)
  | DidWriteHeader (request : nat) (status : Z)
  | DidWrite (request : nat) (b : string) (n : Z).

Definition io_state : Type := ThroughputMonitor * (nat -> readerWriter).

Definition set_request (f : nat -> readerWriter) (i : nat) (r : readerWriter) : nat -> readerWriter :=
  fun j => if decide (j = i) then r else f j.

Definition do_io (debug : string -> string) (s : io_state) (op : io) : io_state :=
  let '(m, f) := s in
  match op with
  | DidRead i n => let '(m, r) := requestReader_Read m (f i) n in (m, set_request f i r)
  | DidWriteHeader i status => (m, set_request f i (responseWriter_WriteHeader (f i) status))
  | DidWrite i b n => let '(m, r) := responseWriter_Write debug m (f i) b n in (m, set_request f i r)
  end.

Definition read_by (which : nat -> bool) (op : io) : Z := match op with DidRead i n => if which i then n else 0 | _ => 0 end.
Definition written_by (which : nat -> bool) (op : io) : Z := match op with DidWrite i _ n => if which i then n else 0 | _ => 0 end.

(** The status a request is answered with: that of its last header, or 200
    once it wrote without one. *)
Definition status_after (i : nat) (status : option Z) (op : io) : option Z :=
  match op with
  | DidWriteHeader j s => if decide (i = j) then Some s else status
  | DidWrite j _ _ => if decide (i = j) then Some (default 200 status) else status
  | DidRead _ _ => status
  end.

Definition total (f : io -> Z) (ops : list io) : Z := foldl (fun z op => z + f op) 0 ops.

Lemma total_snoc f ops op : total f (ops ++ [op]) = total f ops + f op.
Proof. unfold total. by rewrite foldl_app. Qed.

Definition status_of (r : readerWriter) : option Z := if rw_statusRecorded r then Some (rw_status r) else None.

(** One operation. *)
Lemma do_io_sizes debug m f op :
  let m' := (do_io debug (m, f) op).1 in
  ThroughputMonitor_RequestSize m' = ThroughputMonitor_RequestSize m + read_by (fun _ => true) op /\
  ThroughputMonitor_ResponseSize m' = ThroughputMonitor_ResponseSize m + written_by (fun _ => true) op.
Proof. destruct op; cbn; unfold ThroughputMonitor_RequestSize, ThroughputMonitor_ResponseSize, Meter_Count; cbn; lia. Qed.

Lemma do_io_request debug m f op i :
  let r := (do_io debug (m, f) op).2 i in
  rw_read r = rw_read (f i) + read_by (Nat.eqb i) op /\ rw_written r = rw_written (f i) + written_by (Nat.eqb i) op /\
  status_of r = status_after i (status_of (f i)) op.
Proof.
  destruct op as [j n|j s|j b n]; cbn; unfold set_request; destruct (decide (i = j)) as [->|Hne];
    rewrite ?Nat.eqb_refl, ?(proj2 (Nat.eqb_neq i j)) by done; try (split_and!; cbn; done || lia).
  unfold status_of. destruct (rw_statusRecorded (f j)) eqn:E; cbn; rewrite ?E; split_and!; done || lia.
Qed.

(** However requests interleave, the size of each request and each
    response is the number of bytes read and written for it, its status that
    of its last header (200 by default), and the monitor has the sums over
    all requests. *)
Theorem bytes_counted debug m ops :
  let '(m', f) := foldl (do_io debug) (m, fun _ => new_readerWriter) ops in
  ThroughputMonitor_RequestSize m' = ThroughputMonitor_RequestSize m + total (read_by (fun _ => true)) ops /\
  ThroughputMonitor_ResponseSize m' = ThroughputMonitor_ResponseSize m + total (written_by (fun _ => true)) ops /\
  forall i, rw_read (f i) = total (read_by (Nat.eqb i)) ops /\ rw_written (f i) = total (written_by (Nat.eqb i)) ops /\
    status_of (f i) = foldl (status_after i) None ops.
Proof.
  destruct (foldl _ _ ops) as [m' f] eqn:E. revert m' f E.
  induction ops as [|op ops IH] using rev_ind; intros m' f E.
  - injection E as <- <-. split_and!; [cbn; lia..|done].
  - rewrite foldl_app in E. cbn [foldl] in E. destruct (foldl (do_io debug) _ ops) as [m1 f1] eqn:E1.
    destruct (IH m1 f1 eq_refl) as (Hreq & Hres & Hi). destruct (do_io_sizes debug m1 f1 op) as [Hreq1 Hres1].
    pose proof (do_io_request debug m1 f1 op) as Hop. rewrite E in Hreq1, Hres1, Hop. cbn [fst snd] in Hreq1, Hres1, Hop.
    rewrite !total_snoc. split_and!; [lia..|]. intros i. rewrite !total_snoc, foldl_app. cbn [foldl].
    destruct (Hi i) as (Hr & Hw & Hs), (Hop i) as (Hr1 & Hw1 & Hs1). rewrite <- Hs. split_and!; [lia|lia|done].
Qed.

(** * Examples *)

Module PressureExample.
Definition busy : RateMonitor := RequestStart (RequestStart (NewRateMonitor 0)).

End PressureExample.
