(* ===== verification/RemoteFlowControl.v ===== *)
(** Flow controls of the gateway that follow the rate limiter server
    ([pkg/flowcontrols/remote/global_flowcontrol.go],
    [flowcontrol_wrapper.go], [flowcontrols_map.go]): the wrappers that ask
    the server before they admit a request, and the cache that holds the
    local and the remote flow control of one schema.

    [TryAcquire] of a wrapper may wait for an answer of the server; it is cut
    in two at that point, [*_begin] and [*_end], between which anything else
    can happen.  What the code sends on the event channels of a counter is
    the flag the operations return. *)
From stdpp Require Import base tactics list strings gmap.
From Stdlib Require Import ZArith SpecFloat Lia.
From S2P Require Import Prelude ApiTypes Validation FlowControl Float64 Meter.

Local Open Scope Z_scope.
Local Open Scope go_scope.

(** [uint32(x)] of a float64: truncation when it fits. *)
Class FloatToUint := {
  uint32_undefined : float64 -> Z;
  uint32_undefined_range : forall x, 0 <= uint32_undefined x < 2 ^ 32
}.

Definition to_uint32 `{FloatToUint} (x : float64) : Z :=
  match x with
  | S754_zero _ => 0
  | S754_finite s m e =>
      let z := signed s (trunc_pos m e) in
      if (0 <=? z) && (z <? 2 ^ 32) then z else uint32_undefined x
  | _ => uint32_undefined x
  end.

(** The two percentages that can be set by the environment. *)
Class BurstPercents := {
  GlobalTokenBucketBurstPercent : Z;
  GlobalMaxInflightBurstPercent : Z
}.

Definition GlobalTokenBucketBurstMinTokens : Z := 1.
Definition GlobalTokenBucketBatchAcquiredPercent : Z := 10.
Definition GlobalTokenBucketBatchAcquireMin : Z := 1.
Definition GlobalMaxInflightBurstMinInflight : Z := 1.
Definition GlobalMaxInflightBatchAcquirePercent : Z := 20.
Definition GlobalMaxInflightBatchAcquireMin : Z := 1.
Definition batchAcquireMaxDuration : Z := 100 * Millisecond.

(** [x * percent / 100] in int32. *)
Definition percent_of (x percent : Z) : Z := Z.quot (wrap32 (x * percent)) 100.
Definition at_least (min x : Z) : Z := if x <? min then min else x.

(** [AcquireResult] *)
Record AcquireResult := MkAcquired {
  ar_request : option RateLimitAcquireRequest;
  ar_result : RateLimitAcquireResult;
  ar_requestTime : Z
}.

(** A request is decided, or waits for the server. *)
Inductive progress := Finished (acquired : bool) | Waiting (requestTime : Z).

Section wrappers.
Context `{InflightLock} `{TokenBucketLimiter} `{FloatToInt} `{FloatToUint} `{BurstPercents}.

(** * Flow controls that are metered *)

Definition meter_TryAcquire (now : Z) (mt : Meter) (fc : LocalFlowControl) : Meter * LocalFlowControl * bool :=
  let '(fc, acquire) := LocalFlowControl_TryAcquire now fc in
  (if acquire then StartOne mt else mt, fc, acquire).

Definition meter_Release (mt : Meter) (fc : LocalFlowControl) : Meter * LocalFlowControl :=
  (EndOne mt, LocalFlowControl_Release fc).

(** * Global in-flight limits *)

Record maxInflightWrapper := MkMaxWrapper {
  mw_FlowControl : LocalFlowControl;
  mw_counter : bool;
  mw_lastAcquireTime : Z;
  mw_serverUnavailable : bool;
  mw_max : Z;
  mw_reserve : Z;
  mw_acquiredMaxInflight : Z;
  mw_overLimited : Z;
  mw_waitInflight : Z
}.

Definition mw_with_fc (w : maxInflightWrapper) (fc : LocalFlowControl) : maxInflightWrapper :=
  MkMaxWrapper fc (mw_counter w) (mw_lastAcquireTime w) (mw_serverUnavailable w) (mw_max w) (mw_reserve w)
    (mw_acquiredMaxInflight w) (mw_overLimited w) (mw_waitInflight w).

Definition mw_with_wait (w : maxInflightWrapper) (n : Z) : maxInflightWrapper :=
  MkMaxWrapper (mw_FlowControl w) (mw_counter w) (mw_lastAcquireTime w) (mw_serverUnavailable w) (mw_max w)
    (mw_reserve w) (mw_acquiredMaxInflight w) (mw_overLimited w) n.

Definition maxInflight_ExpectToken (mt : Meter) (w : maxInflightWrapper) : Z :=
  let inflight := CurrentInflight mt in
  let wait := mw_waitInflight w in
  let acquire :=
    if (mw_overLimited w <? 1) && (0 <? wait) then
      let batch := at_least GlobalMaxInflightBatchAcquireMin
                     (percent_of (mw_max w) GlobalMaxInflightBatchAcquirePercent) in
      if wait <? batch then wait else batch
    else 0 in
  let acquire := wrap32 (acquire + inflight) in
  if mw_max w <? acquire then mw_max w else acquire.

Definition maxInflight_CurrentToken (w : maxInflightWrapper) : Z := mw_acquiredMaxInflight w.

(** [Resize]; [max] is a uint32. *)
Definition maxInflight_Resize (w : maxInflightWrapper) (max : Z) : maxInflightWrapper * bool :=
  let reserve := at_least GlobalMaxInflightBurstMinInflight
                   (percent_of (wrap32 max) GlobalMaxInflightBurstPercent) in
  let '(fc, r) :=
    if mw_serverUnavailable w then (mw_FlowControl w, true)
    else LocalFlowControl_Resize (mw_FlowControl w) (uwrap32 reserve) 0 in
  (MkMaxWrapper fc (mw_counter w) (mw_lastAcquireTime w) (mw_serverUnavailable w) (wrap32 max) reserve
     (mw_acquiredMaxInflight w) (mw_overLimited w) (mw_waitInflight w), r).

Definition RequestIDTooOld : string := "RequestIDTooOld".

(** [SetLimit] with the configuration of the local flow control; it always
    returns false. *)
Definition maxInflight_SetLimit (local : FlowControlSchema) (mt : Meter) (w : maxInflightWrapper)
    (a : AcquireResult) : result Empty_set maxInflightWrapper :=
  let r := ar_result a in
  if (0 <? ar_requestTime a) && (ar_requestTime a <=? mw_lastAcquireTime w) then Ok w
  else if negb (bool_decide (Error r = "")) then
    if decide (Error r = RequestIDTooOld) then Ok w
    else if mw_serverUnavailable w then Ok w
    else
      match fc_MaxRequestsInflight (fs_Config local) with
      | None => Panic
      | Some m =>
          let inflight := at_least (Max m) (Meter_MaxInflight mt) in
          Ok (MkMaxWrapper (fst (LocalFlowControl_Resize (mw_FlowControl w) (uwrap32 inflight) 0))
                (mw_counter w) (mw_lastAcquireTime w) true (mw_max w) (mw_reserve w)
                (mw_acquiredMaxInflight w) (mw_overLimited w) (mw_waitInflight w))
      end
  else
    let limit :=
      if Accept r then
        let limit := at_least (mw_reserve w) (Limit r) in
        if mw_max w <? limit then mw_max w else limit
      else Limit r in
    Ok (MkMaxWrapper (fst (LocalFlowControl_Resize (mw_FlowControl w) (uwrap32 limit) 0))
          (mw_counter w) (ar_requestTime a)
          (if Accept r then false else mw_serverUnavailable w)
          (mw_max w) (mw_reserve w) limit (if Accept r then 0 else 1) (mw_waitInflight w)).

(** The outcome of an operation on a request: the meter, the wrapper, whether
    the counter was called, and how far the request got. *)
Definition maxInflight_TryAcquire_begin (now : Z) (mt : Meter) (w : maxInflightWrapper)
    : Meter * maxInflightWrapper * bool * progress :=
  let waitInflight := wrap32 (mw_waitInflight w + 1) in
  let direct :=
    let '(mt, fc, ok) := meter_TryAcquire now mt (mw_FlowControl w) in
    (mt, mw_with_fc w fc, false, Finished ok) in
  if negb (mw_counter w) || mw_serverUnavailable w then direct
  else
    let expected := wrap32 (waitInflight + CurrentInflight mt) in
    if (0 <? mw_overLimited w) || (mw_max w <? expected) then direct
    else
      let '(mt, fc, ok) :=
        if expected <=? mw_acquiredMaxInflight w then meter_TryAcquire now mt (mw_FlowControl w)
        else (mt, mw_FlowControl w, false) in
      let w := mw_with_fc w fc in
      if ok then (mt, w, true, Finished true)
      else (mt, mw_with_wait w (wrap32 (mw_waitInflight w + 1)), true, Waiting now).

Definition maxInflight_TryAcquire_end (now : Z) (mt : Meter) (w : maxInflightWrapper)
    : Meter * maxInflightWrapper * bool * progress :=
  let '(mt, fc, ok) := meter_TryAcquire now mt (mw_FlowControl w) in
  (mt, mw_with_wait (mw_with_fc w fc) (wrap32 (mw_waitInflight w - 1)), true, Finished ok).

Definition maxInflight_Release (mt : Meter) (w : maxInflightWrapper) : Meter * maxInflightWrapper * bool :=
  let '(mt, fc) := meter_Release mt (mw_FlowControl w) in (mt, mw_with_fc w fc, mw_counter w).

(** * Global token buckets *)

Record tokenBucketWrapper := MkTokenWrapper {
  tw_FlowControl : LocalFlowControl;
  tw_counter : bool;
  tw_lastAcquireTime : Z;
  tw_serverUnavailable : bool;
  tw_tokens : Z;
  tw_reserve : Z;
  tw_tokenBatch : Z;
  tw_tokenInflight : Z;
  tw_qps : Z;
  tw_burst : Z
}.

Definition tw_with (w : tokenBucketWrapper) (fc : LocalFlowControl) (last : Z) (unavailable : bool)
    (tokens tokenInflight : Z) : tokenBucketWrapper :=
  MkTokenWrapper fc (tw_counter w) last unavailable tokens (tw_reserve w) (tw_tokenBatch w) tokenInflight
    (tw_qps w) (tw_burst w).

Definition tw_with_fc (w : tokenBucketWrapper) (fc : LocalFlowControl) : tokenBucketWrapper :=
  tw_with w fc (tw_lastAcquireTime w) (tw_serverUnavailable w) (tw_tokens w) (tw_tokenInflight w).

Definition tw_with_tokens (w : tokenBucketWrapper) (tokens : Z) : tokenBucketWrapper :=
  tw_with w (tw_FlowControl w) (tw_lastAcquireTime w) (tw_serverUnavailable w) tokens (tw_tokenInflight w).

Definition tokenBucket_ExpectToken (now : Z) (mt : Meter) (w : tokenBucketWrapper) : Z :=
  let expect := wrap32 (tw_reserve w - tw_tokens w) in
  let lastQPS := Meter_Rate mt in
  let batch :=
    if fltb (of_int (tw_reserve w)) lastQPS then
      at_least GlobalTokenBucketBatchAcquireMin
        (percent_of (to_int32 lastQPS) GlobalTokenBucketBatchAcquiredPercent)
    else tw_tokenBatch w in
  let expect := at_least 0 (wrap32 (expect - tw_tokenInflight w)) in
  if expect <? tw_tokenBatch w then
    if now - tw_lastAcquireTime w <? batchAcquireMaxDuration then 0 else expect
  else if batch <? expect then batch else expect.

Definition tokenBucket_AddAcquiring (w : tokenBucketWrapper) (n : Z) : tokenBucketWrapper :=
  tw_with w (tw_FlowControl w) (tw_lastAcquireTime w) (tw_serverUnavailable w) (tw_tokens w)
    (wrap32 (tw_tokenInflight w + n)).

Definition tokenBucket_expectMore (w : tokenBucketWrapper) : bool :=
  0 <? wrap32 (wrap32 (tw_reserve w - tw_tokens w) - tw_tokenInflight w).

Definition tokenBucket_CurrentToken (w : tokenBucketWrapper) : Z := tw_tokens w.

(** [SetLimit]: what was granted is added in full; the clipped [token] of the
    code is not used. *)
Definition tokenBucket_SetLimit (local : FlowControlSchema) (mt : Meter) (w : tokenBucketWrapper)
    (a : AcquireResult) : result Empty_set (tokenBucketWrapper * bool) :=
  let w := match ar_request a with Some q => tokenBucket_AddAcquiring w (- Tokens q) | None => w end in
  let r := ar_result a in
  if negb (bool_decide (Error r = "")) then
    if decide (Error r = RequestIDTooOld) then Ok (w, tokenBucket_expectMore w)
    else if tw_serverUnavailable w then Ok (w, tokenBucket_expectMore w)
    else
      match fc_TokenBucket (fs_Config local) with
      | None => Panic
      | Some tb =>
          let lastQPS := Meter_Rate mt in
          let lastQPS := if fltb lastQPS (of_int (QPS tb)) then of_int (QPS tb) else lastQPS in
          let fc := fst (LocalFlowControl_Resize (tw_FlowControl w) (to_uint32 lastQPS) (to_uint32 lastQPS)) in
          let w := tw_with w fc (tw_lastAcquireTime w) true (tw_tokens w) (tw_tokenInflight w) in
          Ok (w, tokenBucket_expectMore w)
      end
  else
    let '(fc, unavailable, tokens) :=
      if Accept r then
        (if tw_serverUnavailable w then fst (LocalFlowControl_Resize (tw_FlowControl w) (tw_qps w) (tw_burst w))
         else tw_FlowControl w, false, wrap32 (tw_tokens w + Limit r))
      else (tw_FlowControl w, tw_serverUnavailable w, tw_tokens w) in
    let w := tw_with w fc (ar_requestTime a) unavailable tokens (tw_tokenInflight w) in
    Ok (w, tokenBucket_expectMore w).

(** [Resize]; the burst to go back to after an outage is the rate. *)
Definition tokenBucket_Resize (w : tokenBucketWrapper) (qps burst : Z) : tokenBucketWrapper * bool :=
  let reserve := at_least GlobalTokenBucketBurstMinTokens
                   (percent_of (wrap32 qps) GlobalTokenBucketBurstPercent) in
  let overflow := wrap32 (tw_tokens w - reserve) in
  let tokens := if 0 <? overflow then wrap32 (tw_tokens w - overflow) else tw_tokens w in
  let tokenBatch := at_least GlobalTokenBucketBatchAcquireMin
                      (percent_of reserve GlobalTokenBucketBatchAcquiredPercent) in
  let '(fc, r) :=
    if tw_serverUnavailable w then (tw_FlowControl w, false)
    else LocalFlowControl_Resize (tw_FlowControl w) qps burst in
  (MkTokenWrapper fc (tw_counter w) (tw_lastAcquireTime w) (tw_serverUnavailable w) tokens reserve tokenBatch
     (tw_tokenInflight w) qps qps, r).

(** The closure of [TryAcquire]: take a token, put it back if there is none. *)
Definition take_token (w : tokenBucketWrapper) : tokenBucketWrapper * bool :=
  let token := wrap32 (tw_tokens w - 1) in
  if token <? 0 then (tw_with_tokens w (wrap32 (token + 1)), false) else (tw_with_tokens w token, true).

Definition tokenBucket_TryAcquire_begin (now : Z) (mt : Meter) (w : tokenBucketWrapper)
    : Meter * tokenBucketWrapper * bool * progress :=
  let '(mt, fc, acquire) := meter_TryAcquire now mt (tw_FlowControl w) in
  let w := tw_with_fc w fc in
  if negb acquire || tw_serverUnavailable w then (mt, w, false, Finished acquire)
  else
    let '(w, acquire) := take_token w in
    if negb (tw_counter w) then (mt, w, false, Finished acquire)
    else if acquire then (mt, w, true, Finished true) else (mt, w, true, Waiting now).

Definition tokenBucket_TryAcquire_end (mt : Meter) (w : tokenBucketWrapper)
    : Meter * tokenBucketWrapper * bool * progress :=
  let '(w, acquire) := take_token w in (mt, w, true, Finished acquire).

(** [Release] is that of the metered flow control. *)
Definition tokenBucket_Release (mt : Meter) (w : tokenBucketWrapper) : Meter * tokenBucketWrapper :=
  let '(mt, fc) := meter_Release mt (tw_FlowControl w) in (mt, tw_with_fc w fc).

(** * The interface [GlobalCounterFlowControl] *)

Inductive GlobalCounterFlowControl :=
  | EmptyGlobal (fc : LocalFlowControl)
  | MaxInflightGlobal (w : maxInflightWrapper)
  | TokenBucketGlobal (w : tokenBucketWrapper).

Definition inner_control (g : GlobalCounterFlowControl) : LocalFlowControl :=
  match g with
  | EmptyGlobal fc => fc
  | MaxInflightGlobal w => mw_FlowControl w
  | TokenBucketGlobal w => tw_FlowControl w
  end.

Definition Global_Type (g : GlobalCounterFlowControl) : FlowControlSchemaType :=
  LocalFlowControl_Type (inner_control g).

Definition Global_ExpectToken (now : Z) (mt : Meter) (g : GlobalCounterFlowControl) : Z :=
  match g with
  | EmptyGlobal _ => 0
  | MaxInflightGlobal w => maxInflight_ExpectToken mt w
  | TokenBucketGlobal w => tokenBucket_ExpectToken now mt w
  end.

Definition Global_CurrentToken (g : GlobalCounterFlowControl) : Z :=
  match g with
  | EmptyGlobal _ => 0
  | MaxInflightGlobal w => maxInflight_CurrentToken w
  | TokenBucketGlobal w => tokenBucket_CurrentToken w
  end.

Definition Global_AddAcquiring (g : GlobalCounterFlowControl) (n : Z) : GlobalCounterFlowControl :=
  match g with TokenBucketGlobal w => TokenBucketGlobal (tokenBucket_AddAcquiring w n) | _ => g end.

Definition Global_SetLimit (local : FlowControlSchema) (mt : Meter) (g : GlobalCounterFlowControl)
    (a : AcquireResult) : result Empty_set (GlobalCounterFlowControl * bool) :=
  match g with
  | EmptyGlobal _ => Ok (g, false)
  | MaxInflightGlobal w => let! w := maxInflight_SetLimit local mt w a in Ok (MaxInflightGlobal w, false)
  | TokenBucketGlobal w =>
      let! r := tokenBucket_SetLimit local mt w a in Ok (TokenBucketGlobal (fst r), snd r)
  end.

Definition Global_Resize (g : GlobalCounterFlowControl) (n burst : Z) : GlobalCounterFlowControl * bool :=
  match g with
  | EmptyGlobal fc => let '(fc, r) := LocalFlowControl_Resize fc n burst in (EmptyGlobal fc, r)
  | MaxInflightGlobal w => let '(w, r) := maxInflight_Resize w n in (MaxInflightGlobal w, r)
  | TokenBucketGlobal w => let '(w, r) := tokenBucket_Resize w n burst in (TokenBucketGlobal w, r)
  end.

Definition Global_TryAcquire_begin (now : Z) (mt : Meter) (g : GlobalCounterFlowControl)
    : Meter * GlobalCounterFlowControl * bool * progress :=
  match g with
  | EmptyGlobal fc =>
      let '(mt, fc, ok) := meter_TryAcquire now mt fc in (mt, EmptyGlobal fc, false, Finished ok)
  | MaxInflightGlobal w =>
      let '(mt, w, e, p) := maxInflight_TryAcquire_begin now mt w in (mt, MaxInflightGlobal w, e, p)
  | TokenBucketGlobal w =>
      let '(mt, w, e, p) := tokenBucket_TryAcquire_begin now mt w in (mt, TokenBucketGlobal w, e, p)
  end.

Definition Global_TryAcquire_end (now : Z) (mt : Meter) (g : GlobalCounterFlowControl)
    : Meter * GlobalCounterFlowControl * bool * progress :=
  match g with
  | EmptyGlobal fc =>
      let '(mt, fc, ok) := meter_TryAcquire now mt fc in (mt, EmptyGlobal fc, false, Finished ok)
  | MaxInflightGlobal w =>
      let '(mt, w, e, p) := maxInflight_TryAcquire_end now mt w in (mt, MaxInflightGlobal w, e, p)
  | TokenBucketGlobal w =>
      let '(mt, w, e, p) := tokenBucket_TryAcquire_end mt w in (mt, TokenBucketGlobal w, e, p)
  end.

Definition Global_Release (mt : Meter) (g : GlobalCounterFlowControl) : Meter * GlobalCounterFlowControl * bool :=
  match g with
  | EmptyGlobal fc => let '(mt, fc) := meter_Release mt fc in (mt, EmptyGlobal fc, false)
  | MaxInflightGlobal w => let '(mt, w, e) := maxInflight_Release mt w in (mt, MaxInflightGlobal w, e)
  | TokenBucketGlobal w => let '(mt, w) := tokenBucket_Release mt w in (mt, TokenBucketGlobal w, false)
  end.

(** [newFlowControlCounter]; whether a counter function is given.  A limit
    item of neither kind is dereferenced all the same. *)
Definition newFlowControlCounter (limitItem : RateLimitItemConfiguration) (fc : LocalFlowControl)
    (counter : bool) : result Empty_set GlobalCounterFlowControl :=
  let bucket :=
    match li_TokenBucket (ric_Detail limitItem) with
    | None => Panic
    | Some tb =>
        let w := MkTokenWrapper fc counter 0 false 0 0 0 0 0 0 in
        Ok (TokenBucketGlobal (fst (tokenBucket_Resize w (uwrap32 (QPS tb)) (uwrap32 (Burst tb)))))
    end in
  if negb (bool_decide (ric_Strategy limitItem = GlobalCountLimit)) then Ok (EmptyGlobal fc)
  else
    match LocalFlowControl_Type fc with
    | MaxRequestsInflight =>
        match li_MaxRequestsInflight (ric_Detail limitItem) with
        | None => Panic
        | Some m =>
            let w := MkMaxWrapper fc counter 0 false (Max m) 0 0 0 0 in
            Ok (MaxInflightGlobal (fst (maxInflight_Resize w (uwrap32 (Max m)))))
        end
    | _ => bucket
    end.
End wrappers.

Section bounds.
Context `{InflightLock} `{TokenBucketLimiter} `{FloatToInt} `{FloatToUint} `{BurstPercents}.

(** * What is asked of the server *)

Lemma at_least_spec min x : at_least min x = Z.max min x.
Proof. unfold at_least. destruct (Z.ltb_spec x min); lia. Qed.

Lemma maxInflight_Expect_bounds mt w :
  0 <= CurrentInflight mt -> 0 <= mw_waitInflight w -> in_int32 (mw_max w) ->
  CurrentInflight mt + mw_waitInflight w < 2 ^ 31 ->
  Z.min (CurrentInflight mt) (mw_max w) <= maxInflight_ExpectToken mt w <=
    Z.min (mw_max w) (CurrentInflight mt + mw_waitInflight w).
Proof.
  intros Hi Hw Hm Hs. unfold maxInflight_ExpectToken. set (acq := if _ : bool then _ else 0).
  assert (0 <= acq <= mw_waitInflight w) as Ha.
  { unfold acq. destruct (_ && _) eqn:E; [|lia]. bool_to_prop.
    rewrite at_least_spec. unfold GlobalMaxInflightBatchAcquireMin.
    generalize (percent_of (mw_max w) GlobalMaxInflightBatchAcquirePercent). intros p.
    destruct (Z.ltb_spec (mw_waitInflight w) (Z.max 1 p)); lia. }
  clearbody acq. rewrite wrap32_id by (unfold in_int32; lia).
  destruct (Z.ltb_spec (mw_max w) (acq + CurrentInflight mt)); lia.
Qed.

Lemma tokenBucket_Expect_bounds now mt w :
  let lacking := tw_reserve w - tw_tokens w - tw_tokenInflight w in
  in_int32 (tw_reserve w - tw_tokens w) -> in_int32 lacking -> 1 <= tw_tokenBatch w ->
  0 <= tokenBucket_ExpectToken now mt w <= Z.max 0 lacking.
Proof.
  intros lacking Hd Hl Hb. unfold tokenBucket_ExpectToken. set (batch := if fltb _ _ then _ else _).
  assert (1 <= batch) as Hbatch.
  { unfold batch. destruct (fltb _ _); [|done]. rewrite at_least_spec. unfold GlobalTokenBucketBatchAcquireMin. lia. }
  clearbody batch. rewrite (wrap32_id (tw_reserve w - tw_tokens w)), wrap32_id, at_least_spec by done.
  fold lacking. destruct (Z.ltb_spec (Z.max 0 lacking) (tw_tokenBatch w)).
  - destruct (_ <? batchAcquireMaxDuration); lia.
  - destruct (Z.ltb_spec batch (Z.max 0 lacking)); lia.
Qed.

(** What the gateway asks the server for lies within bounds.  For an
    in-flight limit it reports at least its requests in flight, at most these
    and the waiting ones, and never more than the limit; for a token bucket
    it asks for no more tokens than its reserve lacks.  No overflow of the
    percentages changes that. *)
Theorem ExpectToken_bounds now mt wm wt :
  (0 <= CurrentInflight mt -> 0 <= mw_waitInflight wm -> in_int32 (mw_max wm) ->
   CurrentInflight mt + mw_waitInflight wm < 2 ^ 31 ->
   Z.min (CurrentInflight mt) (mw_max wm) <= maxInflight_ExpectToken mt wm <=
     Z.min (mw_max wm) (CurrentInflight mt + mw_waitInflight wm)) /\
  (let lacking := tw_reserve wt - tw_tokens wt - tw_tokenInflight wt in
   in_int32 (tw_reserve wt - tw_tokens wt) -> in_int32 lacking -> 1 <= tw_tokenBatch wt ->
   0 <= tokenBucket_ExpectToken now mt wt <= Z.max 0 lacking).
Proof. split; [apply maxInflight_Expect_bounds|apply tokenBucket_Expect_bounds]. Qed.
End bounds.

(** * Concrete parameters *)

#[refine] Definition saturating_uint : FloatToUint := {| uint32_undefined _ := 0 |}.
Proof. done. Defined.

Definition default_percents : BurstPercents :=
  {| GlobalTokenBucketBurstPercent := 5; GlobalMaxInflightBurstPercent := 2 |}.

Lemma ExpectToken_bounds_witness :
  let lock := SimpleLock.lock in
  let limiter := SimpleLock.limiter in
  let conversion := amd64_conversion in
  let percents := default_percents in
  let idle := NewMeter 0 3 5 Second in
  (0 <= maxInflight_ExpectToken idle (MkMaxWrapper DefaultFlowControl true 0 false 10 1 0 0 4) <= 4) /\
  (0 <= tokenBucket_ExpectToken Second idle (MkTokenWrapper DefaultFlowControl true 0 false 20 50 5 7 1000 1000)
     <= 23).
Proof.
  intros lock limiter conversion percents idle.
  destruct (ExpectToken_bounds Second idle (MkMaxWrapper DefaultFlowControl true 0 false 10 1 0 0 4)
    (MkTokenWrapper DefaultFlowControl true 0 false 20 50 5 7 1000 1000)) as [Hm Ht]. split.
  - apply Hm; vm_compute; try split; (discriminate || reflexivity).
  - apply Ht; vm_compute; try split; (discriminate || reflexivity).
Defined.
