(* ===== verification/TokenSystem.v ===== *)
(** How many tokens the gateway holds and spends
    ([pkg/flowcontrols/remote/global_flowcontrol.go]): the tokens asked for,
    granted and taken of one global token bucket as a transition system, and
    the interleavings of the atomic steps of [TryAcquire] and [Resize]. *)
From stdpp Require Import base tactics list strings gmap.
From Stdlib Require Import ZArith SpecFloat Lia.
From S2P Require Import Prelude ApiTypes FlowControl Float64 Meter RemoteFlowControl.

Local Open Scope Z_scope.
Local Open Scope go_scope.

Section tokens.
Context `{InflightLock} `{TokenBucketLimiter} `{FloatToInt} `{FloatToUint} `{BurstPercents}.

(** * Tokens held *)

Lemma take_token_spec w :
  in_int32 (tw_tokens w - 1) ->
  snd (take_token w) = (0 <? tw_tokens w) /\
  tw_tokens (fst (take_token w)) = (if 0 <? tw_tokens w then tw_tokens w - 1 else tw_tokens w) /\
  tw_reserve (fst (take_token w)) = tw_reserve w /\ tw_tokenBatch (fst (take_token w)) = tw_tokenBatch w /\
  tw_tokenInflight (fst (take_token w)) = tw_tokenInflight w.
Proof.
  intros Hi. unfold take_token. rewrite (wrap32_id (tw_tokens w - 1)) by done.
  destruct (Z.ltb_spec (tw_tokens w - 1) 0), (Z.ltb_spec 0 (tw_tokens w)); try lia; split_and!; try done.
  cbn. rewrite wrap32_id; [lia|]. unfold in_int32 in *. lia.
Qed.

(** The answer to a request for [n] tokens: an error, a refusal, or at most
    what was asked. *)
Definition fair (n : Z) (r : RateLimitAcquireResult) : Prop :=
  Error r = "" -> Accept r = true -> 0 <= Limit r <= n.

(** One global token bucket and the requests to the server that are not
    answered yet. *)
Inductive bucket_step (local : FlowControlSchema)
    : tokenBucketWrapper * list Z -> tokenBucketWrapper * list Z -> Prop :=
  | step_ask now mt w out :
      let n := tokenBucket_ExpectToken now mt w in
      bucket_step local (w, out) (tokenBucket_AddAcquiring w n, out ++ [n])
  | step_answer mt w before n after name r t w' more :
      fair n r ->
      tokenBucket_SetLimit local mt w (MkAcquired (Some (MkAcquireRequest name n)) r t) = Ok (w', more) ->
      bucket_step local (w, before ++ n :: after) (w', before ++ after)
  | step_reset mt w out r w' more :
      Error r <> "" ->
      tokenBucket_SetLimit local mt w (MkAcquired None r 0) = Ok (w', more) ->
      bucket_step local (w, out) (w', out)
  | step_begin now mt w out mt' w' e p :
      tokenBucket_TryAcquire_begin now mt w = (mt', w', e, p) -> bucket_step local (w, out) (w', out)
  | step_end mt w out mt' w' e p :
      tokenBucket_TryAcquire_end mt w = (mt', w', e, p) -> bucket_step local (w, out) (w', out)
  | step_release mt w out mt' w' :
      tokenBucket_Release mt w = (mt', w') -> bucket_step local (w, out) (w', out).

(** Tokens are not negative, and with those asked for never more than the
    reserve. *)
Record bucket_inv (s : tokenBucketWrapper * list Z) : Prop := {
  bi_tokens : 0 <= tw_tokens (fst s);
  bi_out : Forall (fun n => 0 <= n) (snd s);
  bi_inflight : tw_tokenInflight (fst s) = zsum id (snd s);
  bi_reserve : tw_tokens (fst s) + zsum id (snd s) <= tw_reserve (fst s);
  bi_batch : 1 <= tw_tokenBatch (fst s);
  bi_int32 : in_int32 (tw_reserve (fst s))
}.

Lemma SetLimit_tokens local mt w a w' more :
  tokenBucket_SetLimit local mt w a = Ok (w', more) ->
  tw_reserve w' = tw_reserve w /\ tw_tokenBatch w' = tw_tokenBatch w /\
  tw_tokenInflight w' =
    match ar_request a with Some q => wrap32 (tw_tokenInflight w - Tokens q) | None => tw_tokenInflight w end /\
  tw_tokens w' =
    if bool_decide (Error (ar_result a) = "") && Accept (ar_result a)
    then wrap32 (tw_tokens w + Limit (ar_result a)) else tw_tokens w.
Proof.
  unfold tokenBucket_SetLimit. set (w1 := match ar_request a with Some _ => _ | None => _ end).
  assert (tw_reserve w1 = tw_reserve w /\ tw_tokenBatch w1 = tw_tokenBatch w /\ tw_tokens w1 = tw_tokens w /\
    tw_tokenInflight w1 =
      match ar_request a with Some q => wrap32 (tw_tokenInflight w - Tokens q) | None => tw_tokenInflight w end)
    as (E1 & E2 & E3 & <-) by (unfold w1; by destruct (ar_request a)).
  clearbody w1. rewrite <-E1, <-E2, <-E3. clear E1 E2 E3 w.
  destruct (bool_decide (Error (ar_result a) = "")); cbn [negb andb].
  - destruct (Accept (ar_result a)); [destruct (tw_serverUnavailable w1)|]; intros [= <- <-]; done.
  - case_decide; [by intros [= <- <-]|]. destruct (tw_serverUnavailable w1); [by intros [= <- <-]|].
    destruct (fc_TokenBucket (fs_Config local)); [|done]. by intros [= <- <-].
Qed.

Lemma take_token_inv w out : bucket_inv (w, out) -> bucket_inv (fst (take_token w), out).
Proof.
  intros [Ht Ho Hi Hr Hb H32]. cbn [fst snd] in *. pose proof (zsum_nonneg id out Ho) as Hz.
  destruct (take_token_spec w) as (_ & T1 & T2 & T3 & T4); [unfold in_int32 in *; lia|].
  split; cbn [fst snd]; rewrite ?T1, ?T2, ?T3, ?T4; try done; destruct (Z.ltb_spec 0 (tw_tokens w)); lia.
Qed.

Lemma with_fc_inv w fc out : bucket_inv (w, out) -> bucket_inv (tw_with_fc w fc, out).
Proof. intros [Ht Ho Hi Hr Hb H32]. by split. Qed.

Lemma bucket_inv_step local s s' : bucket_inv s -> bucket_step local s s' -> bucket_inv s'.
Proof.
  intros Hinv Hstep. destruct Hstep as [now mt w out n|mt w before n after name r t w' more Hf Hset|
    mt w out r w' more He Hset|now mt w out mt' w' e p Hb|mt w out mt' w' e p Hb|mt w out mt' w' Hb].
  - destruct Hinv as [Ht Ho Hi Hr Hb H32]. cbn [fst snd] in *. pose proof (zsum_nonneg id out Ho) as Hz.
    destruct (tokenBucket_Expect_bounds now mt w) as [Hlo Hhi]; [unfold in_int32 in *; lia|rewrite Hi; unfold in_int32 in *; lia|done|]. fold n in Hlo, Hhi.
    split; cbn [fst snd]; rewrite ?zsum_app; cbn [zsum foldr id]; try done.
    + apply Forall_app. split; [done|by apply Forall_singleton].
    + cbn. rewrite Hi. rewrite wrap32_id; [lia|unfold in_int32 in *; lia].
    + cbn. lia.
  - destruct (SetLimit_tokens _ _ _ _ _ _ Hset) as (S1 & S2 & S3 & S4). cbn [ar_request ar_result Tokens] in *.
    destruct Hinv as [Ht Ho Hi Hr Hb H32]. cbn [fst snd] in *.
    apply Forall_app in Ho as [Ho1 Ho2]. apply Forall_cons in Ho2 as [Hn Ho2].
    rewrite zsum_app in *. cbn [zsum foldr id] in *. change (foldr _ 0 after) with (zsum id after) in *.
    pose proof (zsum_nonneg id before Ho1). pose proof (zsum_nonneg id after Ho2).
    assert (tw_tokenInflight w' = zsum id before + zsum id after) as Hin
      by (rewrite S3, Hi, wrap32_id; [lia|unfold in_int32 in *; lia]).
    assert (0 <= tw_tokens w' <= tw_tokens w + n) as Htok.
    { rewrite S4. destruct (_ && _) eqn:E; [|lia]. apply andb_true_iff in E as [Ee Ea].
      apply bool_decide_eq_true_1 in Ee. destruct (Hf Ee Ea). rewrite wrap32_id; [lia|unfold in_int32 in *; lia]. }
    split; cbn [fst snd]; rewrite ?S1, ?S2, ?zsum_app; try done; try lia. by apply Forall_app.
  - destruct (SetLimit_tokens _ _ _ _ _ _ Hset) as (S1 & S2 & S3 & S4). cbn [ar_request ar_result] in *.
    rewrite bool_decide_eq_false_2 in S4 by done. destruct Hinv as [Ht Ho Hi Hr Hb H32]. cbn [fst snd andb] in *.
    split; cbn [fst snd]; rewrite ?S1, ?S2, ?S3, ?S4; done.
  - revert Hb. unfold tokenBucket_TryAcquire_begin.
    destruct (meter_TryAcquire now mt (tw_FlowControl w)) as [[mt1 fc] acq].
    apply (with_fc_inv w fc) in Hinv. set (w1 := tw_with_fc w fc) in *. clearbody w1.
    destruct (negb acq || _); [by intros [= _ <- _ _]|]. pose proof (take_token_inv w1 out Hinv) as Hi.
    destruct (take_token w1) as [w2 ok]. cbn [fst] in Hi.
    destruct (negb (tw_counter w2)); [by intros [= _ <- _ _]|]. destruct ok; by intros [= _ <- _ _].
  - revert Hb. unfold tokenBucket_TryAcquire_end. pose proof (take_token_inv w out Hinv) as Hi.
    destruct (take_token w) as [w2 ok]. by intros [= _ <- _ _].
  - revert Hb. unfold tokenBucket_Release, meter_Release. intros [= _ <-]. by apply with_fc_inv.
Qed.

(** A bucket as [newFlowControlCounter] makes it holds no token and asked for
    none. *)
(** The reserve of a token bucket, as [Resize] computes it. *)
Lemma reserve_bound qps :
  1 <= at_least GlobalTokenBucketBurstMinTokens (percent_of (wrap32 qps) GlobalTokenBucketBurstPercent) < 2 ^ 30.
Proof.
  rewrite at_least_spec. unfold GlobalTokenBucketBurstMinTokens, percent_of.
  pose proof (wrap32_in (wrap32 qps * GlobalTokenBucketBurstPercent)) as [Hlo Hhi]. revert Hlo Hhi.
  generalize (wrap32 (wrap32 qps * GlobalTokenBucketBurstPercent)). intros z Hlo Hhi.
  assert (Z.quot z 100 < 2 ^ 30); [|lia]. Z.to_euclidean_division_equations. lia.
Qed.

Lemma new_bucket_inv fc counter qps burst :
  bucket_inv (fst (tokenBucket_Resize (MkTokenWrapper fc counter 0 false 0 0 0 0 0 0) qps burst), []).
Proof.
  unfold tokenBucket_Resize. cbn [tw_serverUnavailable tw_tokens tw_FlowControl].
  destruct (LocalFlowControl_Resize fc qps burst) as [fc' r]. rewrite !at_least_spec.
  unfold GlobalTokenBucketBurstMinTokens, GlobalTokenBucketBatchAcquireMin.
  pose proof (reserve_bound qps) as Hres. unfold GlobalTokenBucketBurstMinTokens in Hres.
  rewrite at_least_spec in Hres. set (res := Z.max 1 _) in *.
  clearbody res.
  assert ((if 0 <? wrap32 (0 - res) then wrap32 (0 - wrap32 (0 - res)) else 0) = 0) as Htok.
  { rewrite wrap32_id by (unfold in_int32; lia). destruct (Z.ltb_spec 0 (0 - res)); lia. }
  split; cbn [fst snd tw_tokens tw_tokenInflight tw_reserve tw_tokenBatch zsum foldr]; rewrite ?Htok; try done; try lia.
  unfold in_int32. lia.
Qed.

End tokens.

(** * Interleavings

    [TryAcquire] takes a token by an atomic decrement and puts it back by an
    atomic increment if there was none; [Resize] reads the tokens and then
    subtracts what is too much.  Between these steps other goroutines run. *)

Inductive taker := Ready | PutBack | Refused | Served.

Record token_state := MkTokens {
  tk_tokens : Z;
  tk_takers : gmap nat taker;
  tk_overflow : option Z;
  tk_granted : Z;
  tk_dropped : Z
}.

(** [tk_granted] and [tk_dropped] are what was granted and cut off so far.
    A reserve is below [2 ^ 30], see [reserve_bound]. *)
Inductive token_step : token_state -> token_state -> Prop :=
  | tk_take i s :
      tk_takers s !! i = Some Ready ->
      let token := wrap32 (tk_tokens s - 1) in
      token_step s (MkTokens token (<[i := if token <? 0 then PutBack else Served]> (tk_takers s))
                      (tk_overflow s) (tk_granted s) (tk_dropped s))
  | tk_put_back i s :
      tk_takers s !! i = Some PutBack ->
      token_step s (MkTokens (wrap32 (tk_tokens s + 1)) (<[i := Refused]> (tk_takers s)) (tk_overflow s)
                      (tk_granted s) (tk_dropped s))
  | tk_retry i s :
      tk_takers s !! i = Some Refused ->
      token_step s (MkTokens (tk_tokens s) (<[i := Ready]> (tk_takers s)) (tk_overflow s) (tk_granted s)
                      (tk_dropped s))
  | tk_grant n s :
      0 <= n -> tk_granted s + n < 2 ^ 31 ->
      token_step s (MkTokens (wrap32 (tk_tokens s + n)) (tk_takers s) (tk_overflow s) (tk_granted s + n)
                      (tk_dropped s))
  | tk_read reserve s :
      tk_overflow s = None -> 1 <= reserve < 2 ^ 30 ->
      let overflow := wrap32 (tk_tokens s - reserve) in
      token_step s (MkTokens (tk_tokens s) (tk_takers s) (if 0 <? overflow then Some overflow else None)
                      (tk_granted s) (tk_dropped s))
  | tk_cut d s :
      tk_overflow s = Some d ->
      token_step s (MkTokens (wrap32 (tk_tokens s + - d)) (tk_takers s) None (tk_granted s) (tk_dropped s + d)).

Definition is_served (t : taker) : Z := match t with Served => 1 | _ => 0 end.
Definition is_putting_back (t : taker) : Z := match t with PutBack => 1 | _ => 0 end.
Definition served (s : token_state) : Z := msum is_served (tk_takers s).
Definition putting_back (s : token_state) : Z := msum is_putting_back (tk_takers s).

(** The state before anything happened. *)
Definition fresh_tokens (takers : gmap nat taker) : token_state := MkTokens 0 takers None 0 0.

Record race_ok (s : token_state) : Prop := {
  ro_tokens : tk_tokens s = tk_granted s - tk_dropped s - served s - putting_back s;
  ro_dropped : 0 <= tk_dropped s /\ tk_dropped s + default 0 (tk_overflow s) <= tk_granted s < 2 ^ 31;
  ro_overflow : 0 <= default 0 (tk_overflow s);
  ro_served : served s <= tk_granted s;
  ro_size : Z.of_nat (size (tk_takers s)) < 2 ^ 30
}.

Lemma holders_bound (m : gmap nat taker) :
  0 <= msum is_served m /\ 0 <= msum is_putting_back m /\
  msum is_served m + msum is_putting_back m <= Z.of_nat (size m).
Proof.
  split; [apply msum_nonneg; by intros ? []|split; [apply msum_nonneg; by intros ? []|]].
  rewrite <- msum_plus. apply msum_le_size. by intros [].
Qed.

(** One goroutine moves. *)
Lemma move_taker (m : gmap nat taker) i t t' :
  m !! i = Some t ->
  msum is_served (<[i := t']> m) = msum is_served m - is_served t + is_served t' /\
  msum is_putting_back (<[i := t']> m) = msum is_putting_back m - is_putting_back t + is_putting_back t' /\
  size (<[i := t']> m) = size m.
Proof.
  intros Hi. rewrite !msum_insert, !Hi, map_size_insert_Some by (by eexists). done.
Qed.

Lemma race_ok_step s s' : race_ok s -> token_step s s' -> race_ok s'.
Proof.
  intros [Ht [Hd Hg] Ho Hs Hn] Hstep. pose proof (holders_bound (tk_takers s)) as (Hb1 & Hb2 & Hb3).
  unfold served, putting_back in *.
  destruct Hstep as [i s Hi token|i s Hi|i s Hi|n s Hn0 Hmax|reserve s Hnone Hres overflow|d s Hcut].
  - assert (token = tk_tokens s - 1) as Htok by (unfold token; rewrite wrap32_id; [done|unfold in_int32; lia]).
    clearbody token. subst token.
    destruct (move_taker _ i Ready (if tk_tokens s - 1 <? 0 then PutBack else Served) Hi) as (H1 & H2 & H3).
    split; unfold served, putting_back; cbn -[msum]; rewrite ?H1, ?H2, ?H3; try done;
      destruct (Z.ltb_spec (tk_tokens s - 1) 0); cbn [is_served is_putting_back]; lia.
  - pose proof (holders_bound (<[i := Refused]> (tk_takers s))).
    destruct (move_taker _ i PutBack Refused Hi) as (H1 & H2 & H3). cbn [is_served is_putting_back] in *.
    split; unfold served, putting_back; cbn -[msum wrap32]; rewrite ?H1, ?H2, ?H3; try done; try lia.
    rewrite wrap32_id; [lia|unfold in_int32; lia].
  - destruct (move_taker _ i Refused Ready Hi) as (H1 & H2 & H3). cbn [is_served is_putting_back] in *.
    split; unfold served, putting_back; cbn -[msum]; rewrite ?H1, ?H2, ?H3; try done; lia.
  - split; unfold served, putting_back; cbn -[msum wrap32]; try done; try lia.
    rewrite wrap32_id; [lia|unfold in_int32; lia].
  - assert (overflow = tk_tokens s - reserve) as Hover
      by (unfold overflow; rewrite wrap32_id; [done|unfold in_int32; lia]).
    clearbody overflow. subst overflow.
    split; unfold served, putting_back; cbn -[msum]; try done;
      destruct (Z.ltb_spec 0 (tk_tokens s - reserve)); cbn; lia.
  - rewrite Hcut in Hg, Ho. cbn in Hg, Ho.
    split; unfold served, putting_back; cbn -[msum wrap32]; try done; try lia.
    rewrite wrap32_id; [lia|unfold in_int32; lia].
Qed.

(** However the goroutines that take tokens, the answers of the server and
    a resize interleave at their atomic steps, no more requests are served
    than tokens were granted; and once no request is putting its token back,
    the tokens left are those granted and neither cut off nor spent. *)
Theorem served_within_granted takers s :
  map_Forall (fun _ t => t = Ready) takers -> Z.of_nat (size takers) < 2 ^ 30 ->
  rtc token_step (fresh_tokens takers) s ->
  served s <= tk_granted s /\
  (putting_back s = 0 -> tk_tokens s = tk_granted s - tk_dropped s - served s).
Proof.
  intros Hready Hsize Hreach. assert (race_ok s) as [Ht _ _ Hs _]; [|split; [done|lia]].
  assert (race_ok (fresh_tokens takers)) as Hfresh.
  { split; unfold served, putting_back; cbn -[msum]; rewrite ?msum_zero; try done;
      intros k t Hk; by rewrite (Hready k t Hk). }
  revert Hreach Hfresh. generalize (fresh_tokens takers). intros s0 Hreach.
  induction Hreach as [|x y z Hstep _ IH]; [done|]. eauto using race_ok_step.
Qed.

(** Two requests race for one token, which is granted before the second puts
    back the one it did not get. *)
Lemma served_within_granted_witness :
  exists s, rtc token_step (fresh_tokens {[ 0%nat := Ready; 1%nat := Ready ]}) s /\
  served s = 1 /\ tk_tokens s = 0 /\ served s <= tk_granted s /\
  (putting_back s = 0 -> tk_tokens s = tk_granted s - tk_dropped s - served s).
Proof.
  assert (exists s, rtc token_step (fresh_tokens {[ 0%nat := Ready; 1%nat := Ready ]}) s /\
            served s = 1 /\ tk_tokens s = 0) as (s & Hreach & Hs & Ht).
  { eexists. split.
    - eapply rtc_l; [apply (tk_take 1); reflexivity|].
      eapply rtc_l; [apply (tk_grant 1); [lia|reflexivity]|].
      eapply rtc_l; [apply (tk_put_back 1); reflexivity|].
      eapply rtc_l; [apply (tk_take 0); reflexivity|]. apply rtc_refl.
    - split; reflexivity. }
  exists s. split; [exact Hreach|]. split; [exact Hs|]. split; [exact Ht|].
  apply (served_within_granted {[ 0%nat := Ready; 1%nat := Ready ]}); [|reflexivity|exact Hreach].
  intros k t. rewrite lookup_insert_Some, lookup_singleton_Some. by intros [[_ <-]|[_ [_ <-]]].
Defined.

Module TokenExample.
#[local] Existing Instance SimpleLock.lock.
#[local] Existing Instance SimpleLock.limiter.
#[local] Existing Instance amd64_conversion.
#[local] Existing Instance saturating_uint.
#[local] Existing Instance default_percents.

Definition idle : Meter := NewMeter 0 3 5 Second.

(** A bucket of 1000 requests per second keeps a reserve of 50 tokens. *)
Definition bucket0 : tokenBucketWrapper :=
  fst (tokenBucket_Resize (MkTokenWrapper DefaultFlowControl true 0 false 0 0 0 0 0 0) 1000 1000).

(** It asked for tokens. *)
Definition bucket1 : tokenBucketWrapper :=
  tokenBucket_AddAcquiring bucket0 (tokenBucket_ExpectToken Second idle bucket0).

End TokenExample.
