(* ===== verification/FlowControlCache.v ===== *)
(** The flow controls of one upstream cluster on the gateway
    ([pkg/flowcontrols/remote/flowcontrol_wrapper.go], [flowcontrols_map.go],
    and the counters of [remote_counter.go]): for every schema a local flow
    control, a meter, and a remote flow control once it is enabled.

    A flow control reaches its meter and its local configuration through
    pointers to the cache that holds it, and the caches share one manager of
    counters; both are fields of the records here.  The goroutine that waits
    for the stop channel of a remote flow control runs when it is closed. *)
From stdpp Require Import base tactics list strings gmap.
From Stdlib Require Import ZArith Lia Ascii.
From S2P Require Import Prelude ApiTypes Validation FlowControl Float64 Meter RemoteFlowControl.

Local Open Scope Z_scope.
Local Open Scope go_scope.

Definition QPSMeterBucketLen : nat := 3.
Definition InflightMeterBucketLen : Z := 6.
Definition InflightMeterBucketDuration : Z := 200 * Millisecond.

(** [strings.Split(s, sep)] for a separator of one byte, and the last part. *)
Fixpoint last_part (sep : ascii) (s acc : string) : string :=
  match s with
  | EmptyString => acc
  | String a s' => if decide (a = sep) then last_part sep s' "" else last_part sep s' (acc +:+ String a "")
  end.

(** * Counters *)

Record globalCounter := MkCounter {
  gc_typ : FlowControlSchemaType;
  gc_lastSyncTime : Z;
  gc_event : bool
}.

Record globalCounterManager := MkCounters {
  gm_counterMap : gmap string globalCounter;
  gm_event : bool;
  gm_worker : bool
}.

Definition NewGlobalCounterProvider : globalCounterManager := MkCounters ∅ false false.

Definition ensureWorker (g : globalCounterManager) : globalCounterManager :=
  let counterNum := size (gm_counterMap g) in
  if (0 <? Z.of_nat counterNum) && negb (gm_worker g) then MkCounters (gm_counterMap g) (gm_event g) true
  else if (Z.of_nat counterNum =? 0) && gm_worker g then MkCounters (gm_counterMap g) (gm_event g) false
  else g.

(** [Add]: nil when there is a counter of that name.  The times of counters
    are in seconds. *)
Definition counters_Add (now : Z) (g : globalCounterManager) (name : string) (typ : FlowControlSchemaType)
    : option globalCounterManager :=
  match gm_counterMap g !! name with
  | Some _ => None
  | None =>
      Some (ensureWorker (MkCounters (<[name := MkCounter typ now false]> (gm_counterMap g)) (gm_event g)
                            (gm_worker g)))
  end.

Definition counters_Stop (g : globalCounterManager) (name : string) : globalCounterManager :=
  ensureWorker (MkCounters (delete name (gm_counterMap g)) (gm_event g) (gm_worker g)).

(** [Count] of the counter of a name: both event channels hold one event. *)
Definition counters_Count (g : globalCounterManager) (name : string) : globalCounterManager :=
  MkCounters (alter (fun c => MkCounter (gc_typ c) (gc_lastSyncTime c) true) name (gm_counterMap g)) true
    (gm_worker g).

Section cache.
Context `{InflightLock} `{TokenBucketLimiter} `{FloatToInt} `{FloatToUint} `{BurstPercents}.

(** * Caches *)

Record remoteWrapper := MkRemote {
  rw_GlobalCounterFlowControl : option GlobalCounterFlowControl;
  rw_remoteConfig : RateLimitItemConfiguration
}.

Record flowControlCache := MkCache {
  fcc_cluster : string;
  fcc_name : string;
  fcc_clientID : string;
  fcc_meter : Meter;
  fcc_local : option LocalFlowControl;
  fcc_localConfig : FlowControlSchema;
  fcc_remote : option remoteWrapper
}.

Definition with_local (c : flowControlCache) (fc : option LocalFlowControl) (cfg : FlowControlSchema)
    : flowControlCache :=
  MkCache (fcc_cluster c) (fcc_name c) (fcc_clientID c) (fcc_meter c) fc cfg (fcc_remote c).

Definition with_remote (c : flowControlCache) (r : option remoteWrapper) : flowControlCache :=
  MkCache (fcc_cluster c) (fcc_name c) (fcc_clientID c) (fcc_meter c) (fcc_local c) (fcc_localConfig c) r.

Definition with_meter (c : flowControlCache) (m : Meter) : flowControlCache :=
  MkCache (fcc_cluster c) (fcc_name c) (fcc_clientID c) m (fcc_local c) (fcc_localConfig c) (fcc_remote c).

Definition empty_schema : FlowControlSchema := MkSchema "" empty_config "".

Definition NewFlowControlCache (now : Z) (cluster name clientID : string) : flowControlCache :=
  MkCache cluster name (last_part "-" clientID "")
    (Meter_Start (NewMeter now QPSMeterBucketLen InflightMeterBucketLen InflightMeterBucketDuration))
    None empty_schema None.

Definition cache_Strategy (c : flowControlCache) : LimitStrategy := fs_Strategy (fcc_localConfig c).

Definition EnableRemoteFlowControl (c : flowControlCache) : flowControlCache :=
  match fcc_remote c with
  | None => with_remote c (Some (MkRemote None empty_item_config))
  | Some _ => c
  end.

Definition EnableGlobalFlowControl (schema : FlowControlSchema) : bool :=
  if bool_decide (fs_Strategy schema = GlobalAllocateLimit) || bool_decide (fs_Strategy schema = GlobalCountLimit)
  then is_some (fc_GlobalTokenBucket (fs_Config schema)) || is_some (fc_GlobalMaxRequestsInflight (fs_Config schema))
  else false.

(** Closing the stop channel of the remote flow control, if there is one. *)
Definition stop_remote (g : globalCounterManager) (c : flowControlCache) : globalCounterManager :=
  match fcc_remote c with Some _ => counters_Stop g (fcc_name c) | None => g end.

Definition stopRemoteWrapper (g : globalCounterManager) (c : flowControlCache)
    : globalCounterManager * flowControlCache := (stop_remote g c, with_remote c None).

(** [Stop] of a cache. *)
Definition cache_Stop (g : globalCounterManager) (c : flowControlCache)
    : result Empty_set (globalCounterManager * flowControlCache) :=
  let! m := Meter_Stop (fcc_meter c) in Ok (stop_remote g c, with_meter c m).

(** The switch of [localWrapper.Sync] for a flow control of the same kind. *)
Definition resize_local (fc : LocalFlowControl) (schema : FlowControlSchema) : result Empty_set LocalFlowControl :=
  match GuessFlowControlSchemaType schema with
  | MaxRequestsInflight =>
      match fc_MaxRequestsInflight (fs_Config schema) with
      | None => Panic
      | Some m => Ok (fst (LocalFlowControl_Resize fc (uwrap32 (Max m)) 0))
      end
  | TokenBucket =>
      match fc_TokenBucket (fs_Config schema) with
      | None => Panic
      | Some tb => Ok (fst (LocalFlowControl_Resize fc (uwrap32 (QPS tb)) (uwrap32 (Burst tb))))
      end
  | _ => Ok fc
  end.

(** [localWrapper.Sync]: when the kind changes the remote flow control is
    left as it is. *)
Definition local_Sync (g : globalCounterManager) (c : flowControlCache) (schema : FlowControlSchema)
    : result Empty_set (globalCounterManager * flowControlCache) :=
  if decide (schema = fcc_localConfig c) then Ok (g, c)
  else
    let newType := GuessFlowControlSchemaType schema in
    let fresh := let! fc := NewFlowControl schema in Ok (g, with_local c (Some fc) schema) in
    match fcc_local c with
    | None => fresh
    | Some fc =>
        if negb (bool_decide (LocalFlowControl_Type fc = newType)) then fresh
        else
          let! fc := resize_local fc schema in
          let c := with_local c (Some fc) schema in
          if EnableGlobalFlowControl schema then Ok (g, c) else Ok (stopRemoteWrapper g c)
    end.

(** [toFlowControlSchema] *)
Definition toFlowControlSchema (i : RateLimitItemConfiguration) : FlowControlSchema :=
  MkSchema (ric_Name i)
    (match li_MaxRequestsInflight (ric_Detail i), li_TokenBucket (ric_Detail i) with
     | Some m, _ => MkSchemaConfig None (Some (MkMaxInflight (Max m))) None None None
     | None, Some tb => MkSchemaConfig None None (Some (MkTokenBucket (QPS tb) (Burst tb))) None None
     | None, None => empty_config
     end) (ric_Strategy i).

(** [remoteWrapper.newFlowControl] *)
Definition remote_newFlowControl (now : Z) (g : globalCounterManager) (limitItem : RateLimitItemConfiguration)
    (newType : FlowControlSchemaType) : result Empty_set (globalCounterManager * GlobalCounterFlowControl) :=
  let g := counters_Stop g (ric_Name limitItem) in
  let! fc := NewFlowControl (toFlowControlSchema limitItem) in
  if decide (ric_Strategy limitItem = GlobalCountLimit) then
    match counters_Add now g (ric_Name limitItem) newType with
    | None => Panic
    | Some g => let! w := newFlowControlCounter limitItem fc true in Ok (g, w)
    end
  else let! w := newFlowControlCounter limitItem fc false in Ok (g, w).

(** The limit a remote flow control is given: at most the global limit of the
    local configuration. *)
Definition at_most (max x : Z) : Z := if max <? x then max else x.

(** [remoteWrapper.Sync] of the remote flow control of a cache. *)
Definition remote_Sync (now : Z) (g : globalCounterManager) (c : flowControlCache)
    (limitItem : RateLimitItemConfiguration) : result Empty_set (globalCounterManager * flowControlCache) :=
  match fcc_remote c with
  | None => Panic
  | Some r =>
      if decide (limitItem = rw_remoteConfig r) then Ok (g, c)
      else
        let newType := GetFlowControlTypeFromLimitItem (ric_Detail limitItem) in
        let set w := with_remote c (Some (MkRemote (Some w) limitItem)) in
        let fresh :=
          let! gw := remote_newFlowControl now g limitItem newType in Ok (fst gw, set (snd gw)) in
        match rw_GlobalCounterFlowControl r with
        | None => fresh
        | Some w =>
            if negb (bool_decide (Global_Type w = newType)) ||
               negb (bool_decide (ric_Strategy (rw_remoteConfig r) = ric_Strategy limitItem)) then fresh
            else
              match li_MaxRequestsInflight (ric_Detail limitItem), li_TokenBucket (ric_Detail limitItem), newType with
              | Some m, _, MaxRequestsInflight =>
                  match fc_GlobalMaxRequestsInflight (fs_Config (fcc_localConfig c)) with
                  | None => Panic
                  | Some gm => Ok (g, set (fst (Global_Resize w (uwrap32 (at_most (Max gm) (Max m))) 0)))
                  end
              | _, Some tb, TokenBucket =>
                  match fc_GlobalTokenBucket (fs_Config (fcc_localConfig c)) with
                  | None => Panic
                  | Some gtb =>
                      Ok (g, set (fst (Global_Resize w (uwrap32 (at_most (QPS gtb) (QPS tb))) (uwrap32 (Burst tb)))))
                  end
              | _, _, _ => fresh
              end
        end
  end.
End cache.

(** * Lemmas *)

Section cache_lemmas.
Context `{InflightLock} `{TokenBucketLimiter} `{FloatToInt} `{FloatToUint} `{BurstPercents}.

(** A flow control that enforces the local limit of a schema. *)
Definition enforces (s : FlowControlSchema) (fc : LocalFlowControl) : Prop :=
  match fc with
  | InflightControl f =>
      match fc_MaxRequestsInflight (fs_Config s) with
      | Some m =>
          if_typ f = MaxRequestsInflight /\ if_max f = uwrap32 (Max m) /\
          lock_capacity (if_TokenBucket f) = Some (if_max f)
      | None =>
          if_typ f = Exempt /\ fc_TokenBucket (fs_Config s) = None /\ lock_capacity (if_TokenBucket f) = None
      end
  | BucketControl f =>
      exists tb, fc_MaxRequestsInflight (fs_Config s) = None /\ fc_TokenBucket (fs_Config s) = Some tb /\
      tb_typ f = TokenBucket /\ tb_qps f = uwrap32 (QPS tb) /\ tb_burst f = uwrap32 (Burst tb)
  end.

Lemma enforces_wanted s fc :
  int32_config (fs_Config s) -> enforces s fc ->
  option_map (fun '(n, b) => (wrap32 n, wrap32 b)) (enforced fc) = wanted (fs_Config s).
Proof.
  intros [Hm Ht]. unfold wanted. destruct fc as [f|f]; cbn [enforces enforced].
  - destruct (fc_MaxRequestsInflight (fs_Config s)) as [m|].
    + intros (_ & Hmax & ->). cbn. rewrite Hmax, wrap32_uwrap32; [done|by apply Hm].
    + by intros (_ & -> & ->).
  - intros (tb & -> & Htb & _ & -> & ->). rewrite Htb. cbn. destruct (Ht tb Htb). by rewrite !wrap32_uwrap32.
Qed.

(** A schema whose kind has a local limit: what creation and resizing use. *)
Definition has_limit (s : FlowControlSchema) : Prop :=
  match GuessFlowControlSchemaType s with
  | MaxRequestsInflight => is_Some (fc_MaxRequestsInflight (fs_Config s))
  | TokenBucket => fc_MaxRequestsInflight (fs_Config s) = None /\ is_Some (fc_TokenBucket (fs_Config s))
  | _ => fc_MaxRequestsInflight (fs_Config s) = None /\ fc_TokenBucket (fs_Config s) = None
  end.

Lemma config_ok_has_limit s : config_ok (fs_Config s) -> has_limit s.
Proof.
  intros Hok. unfold has_limit. rewrite (Guess_config_ok s Hok).
  destruct (fc_MaxRequestsInflight (fs_Config s)); [by eexists|].
  destruct (fc_TokenBucket (fs_Config s)); [|done]. split; [done|by eexists].
Qed.

Lemma NewFlowControl_ok s :
  has_limit s ->
  exists fc, NewFlowControl s = Ok fc /\ enforces s fc /\ LocalFlowControl_Type fc = GuessFlowControlSchemaType s.
Proof.
  intros Hh. unfold has_limit in Hh. unfold NewFlowControl.
  destruct (GuessFlowControlSchemaType s) eqn:Hg.
  - exfalso. revert Hg. unfold GuessFlowControlSchemaType. by repeat case_match.
  - destruct Hh as [Hm Ht]. eexists. split; [done|]. cbn. rewrite Hm, lock_Infinity_spec. done.
  - destruct Hh as [m Hm]. rewrite Hm. eexists. split; [done|]. cbn. rewrite Hm.
    by rewrite (proj1 (lock_New_spec _)).
  - destruct Hh as [Hm [tb Ht]]. rewrite Ht. eexists. split; [done|]. cbn. split; [|done]. by exists tb.
Qed.

Lemma enforces_type s fc : has_limit s -> enforces s fc -> LocalFlowControl_Type fc = GuessFlowControlSchemaType s.
Proof.
  unfold has_limit. intros Hh. destruct fc as [f|f]; cbn.
  - destruct (fc_MaxRequestsInflight (fs_Config s)) eqn:Em.
    + intros (-> & _ & _). revert Hh. destruct (GuessFlowControlSchemaType s); try done; by intros [? _].
    + intros (-> & Et & _). revert Hh. unfold GuessFlowControlSchemaType. rewrite Em, Et. cbn.
      repeat case_match; try done; try (by intros [? ?]); by intros [_ [? ?]].
  - intros (tb & Em & Et & -> & _). revert Hh. rewrite Em, Et.
    destruct (GuessFlowControlSchemaType s); try done; try (by intros [_ ?]); by intros [? ?].
Qed.

(** Resizing a flow control of the right kind. *)
Lemma resize_enforces s s' fc n burst :
  enforces s fc ->
  match fc_MaxRequestsInflight (fs_Config s'), fc_TokenBucket (fs_Config s') with
  | Some m, _ => LocalFlowControl_Type fc = MaxRequestsInflight /\ n = uwrap32 (Max m)
  | None, Some tb => LocalFlowControl_Type fc = TokenBucket /\ n = uwrap32 (QPS tb) /\ burst = uwrap32 (Burst tb)
  | None, None => False
  end ->
  enforces s' (fst (LocalFlowControl_Resize fc n burst)).
Proof.
  intros He Hs'. destruct fc as [f|f]; cbn [LocalFlowControl_Type LocalFlowControl_Resize] in *.
  - destruct (fc_MaxRequestsInflight (fs_Config s')) as [m'|] eqn:Em'.
    + destruct Hs' as [Ht ->]. cbn in He.
      destruct (fc_MaxRequestsInflight (fs_Config s)) as [m|]; [|destruct He; congruence].
      destruct He as (_ & Hmax & Hcap). unfold flowControl_Resize.
      destruct (Z.eqb_spec (if_max f) (uwrap32 (Max m'))) as [Heq|_]; cbn; rewrite Em'; [done|].
      by rewrite (proj1 (lock_Resize_spec _ _ _ Hcap)).
    + destruct (fc_TokenBucket (fs_Config s')) as [tb|]; [|done]. destruct Hs' as (Ht & _). cbn in He.
      destruct (fc_MaxRequestsInflight (fs_Config s)); destruct He; congruence.
  - destruct He as (tb0 & _ & _ & Ht0 & Hq & Hb).
    destruct (fc_MaxRequestsInflight (fs_Config s')) as [m'|] eqn:Em; [destruct Hs'; congruence|].
    destruct (fc_TokenBucket (fs_Config s')) as [tb|] eqn:Et; [|done]. destruct Hs' as (_ & -> & ->).
    unfold resizeableTokenBucket_Resize. destruct (_ && _) eqn:E; cbn; exists tb; [|done].
    bool_to_prop. by split_and!.
Qed.

(** A cache in use: its local flow control enforces its configuration, and
    its meter runs. *)
Record cache_ok (c : flowControlCache) : Prop := {
  co_local : match fcc_local c with
    | None => fcc_localConfig c = empty_schema
    | Some fc => has_limit (fcc_localConfig c) /\ enforces (fcc_localConfig c) fc
    end;
  co_meter : mt_stopped (fcc_meter c) = false
}.

Lemma new_cache_ok now cluster name clientID : cache_ok (NewFlowControlCache now cluster name clientID).
Proof. done. Qed.

Lemma exempt_enforces s s' fc :
  enforces s fc -> LocalFlowControl_Type fc = Exempt ->
  fc_MaxRequestsInflight (fs_Config s') = None -> fc_TokenBucket (fs_Config s') = None -> enforces s' fc.
Proof.
  intros He Ht Hm Htb. destruct fc as [f|f]; cbn in *.
  - rewrite Hm. destruct (fc_MaxRequestsInflight (fs_Config s)); destruct He as (? & ? & ?); [congruence|done].
  - destruct He as (tb & _ & _ & ? & _). congruence.
Qed.

(** Synchronising the local flow control with a schema cannot fail, and it
    enforces the schema afterwards; the meter goes on. *)
Lemma local_Sync_ok g c schema :
  cache_ok c -> has_limit schema -> schema <> empty_schema ->
  exists g' c', local_Sync g c schema = Ok (g', c') /\ cache_ok c' /\ fcc_localConfig c' = schema /\
    is_Some (fcc_local c') /\ fcc_meter c' = fcc_meter c /\ fcc_name c' = fcc_name c.
Proof.
  intros [Hl Hmt] Hs Hne. unfold local_Sync. destruct (decide (schema = fcc_localConfig c)) as [Heq|Hdiff].
  { exists g, c. split_and!; try done. destruct (fcc_local c); [by eexists|congruence]. }
  destruct (NewFlowControl_ok schema Hs) as (nfc & Hnew & Hen & _). rewrite Hnew. cbn [result_bind].
  destruct (fcc_local c) as [fc|].
  2: { eexists g, _. split_and!; [done| |done|by eexists|done|done]. split; [split; done|done]. }
  case_bool_decide as Ht; cbn [negb].
  2: { eexists g, _. split_and!; [done| |done|by eexists|done|done]. split; [split; done|done]. }
  destruct Hl as [_ He]. assert (exists fc', resize_local fc schema = Ok fc' /\ enforces schema fc') as (fc' & -> & He').
  { unfold resize_local. pose proof Hs as Hs'. unfold has_limit in Hs'.
    destruct (GuessFlowControlSchemaType schema) eqn:Hg.
    - exfalso. revert Hg. unfold GuessFlowControlSchemaType. by repeat case_match.
    - exists fc. split; [done|]. destruct Hs' as [? ?]. by apply (exempt_enforces (fcc_localConfig c)).
    - destruct Hs' as [m Hm]. rewrite Hm. eexists. split; [done|].
      apply (resize_enforces (fcc_localConfig c)); [done|]. by rewrite Hm.
    - destruct Hs' as [Hm [tb Htb]]. rewrite Htb. eexists. split; [done|].
      apply (resize_enforces (fcc_localConfig c)); [done|]. by rewrite Hm, Htb. }
  cbn [result_bind]. destruct (EnableGlobalFlowControl schema).
  - eexists g, _. split_and!; [done| |done|by eexists|done|done]. split; [split; done|done].
  - eexists _, _. split_and!; [reflexivity| |done|by eexists|done|done]. split; [split; done|done].
Qed.

(** ** Remote flow controls *)

Lemma item_has_limit i : has_limit (toFlowControlSchema i).
Proof.
  unfold has_limit, toFlowControlSchema, GuessFlowControlSchemaType. cbn.
  destruct (li_MaxRequestsInflight (ric_Detail i)); [by eexists|].
  destruct (li_TokenBucket (ric_Detail i)); [|done]. split; [done|by eexists].
Qed.

(** A remote flow control that is not counted enforces what it was last
    given. *)
Definition remote_ok (c : flowControlCache) : Prop :=
  forall r, fcc_remote c = Some r ->
  match rw_GlobalCounterFlowControl r with
  | None => rw_remoteConfig r = empty_item_config
  | Some (EmptyGlobal fc) => enforces (toFlowControlSchema (rw_remoteConfig r)) fc
  | Some _ => ric_Strategy (rw_remoteConfig r) = GlobalCountLimit
  end.

(** An allocated quota of some kind, within the global limit of the schema. *)
Definition quota_within (local : FlowControlSchema) (i : RateLimitItemConfiguration) : Prop :=
  ric_Strategy i = GlobalAllocateLimit /\
  match li_MaxRequestsInflight (ric_Detail i), li_TokenBucket (ric_Detail i) with
  | Some m, _ => exists gm, fc_GlobalMaxRequestsInflight (fs_Config local) = Some gm /\ Max m <= Max gm
  | None, Some tb => exists gtb, fc_GlobalTokenBucket (fs_Config local) = Some gtb /\ QPS tb <= QPS gtb
  | None, None => False
  end.

Lemma at_most_le max x : x <= max -> at_most max x = x.
Proof. unfold at_most. destruct (Z.ltb_spec max x); lia. Qed.

Lemma remote_newFlowControl_ok now g i typ :
  ric_Strategy i = GlobalAllocateLimit ->
  exists g' fc, remote_newFlowControl now g i typ = Ok (g', EmptyGlobal fc) /\ enforces (toFlowControlSchema i) fc.
Proof.
  intros Hs. unfold remote_newFlowControl.
  destruct (NewFlowControl_ok _ (item_has_limit i)) as (fc & -> & He & _). cbn [result_bind].
  rewrite decide_False by (by rewrite Hs). unfold newFlowControlCounter.
  rewrite bool_decide_eq_false_2 by (by rewrite Hs). cbn. by eexists _, fc.
Qed.

Lemma remote_Sync_ok now g c r i :
  fcc_remote c = Some r -> remote_ok c -> quota_within (fcc_localConfig c) i ->
  exists g' fc, remote_Sync now g c i = Ok (g', with_remote c (Some (MkRemote (Some (EmptyGlobal fc)) i))) /\
    enforces (toFlowControlSchema i) fc.
Proof.
  intros Hr Hok [Hs Hq]. specialize (Hok r Hr). unfold remote_Sync. rewrite Hr.
  destruct (remote_newFlowControl_ok now g i (GetFlowControlTypeFromLimitItem (ric_Detail i)) Hs)
    as (g1 & fc1 & Hnew & He1).
  assert (exists g' fc,
    (let! gw := remote_newFlowControl now g i (GetFlowControlTypeFromLimitItem (ric_Detail i)) in
     Ok (fst gw, with_remote c (Some (MkRemote (Some (snd gw)) i)))) =
      Ok (g', with_remote c (Some (MkRemote (Some (EmptyGlobal fc)) i))) /\
    enforces (toFlowControlSchema i) fc) as Hfresh by (rewrite Hnew; by eexists _, _).
  destruct r as [[[fc|w|w]|] cfg]; cbn [rw_GlobalCounterFlowControl rw_remoteConfig] in *;
    (destruct (decide (i = cfg)) as [->|Hne]; [|]); try exact Hfresh; try (by rewrite Hok in Hs).
  - exists g, fc. split; [|done]. f_equal. f_equal. rewrite <-Hr. by destruct c.
  - destruct (_ || _) eqn:Eb; [exact Hfresh|]. apply orb_false_iff in Eb as [Et _].
    apply negb_false_iff, bool_decide_eq_true_1 in Et. cbn in Et.
    destruct (li_MaxRequestsInflight (ric_Detail i)) as [m|] eqn:Em.
    + destruct Hq as (gm & -> & Hle). unfold GetFlowControlTypeFromLimitItem in *. rewrite Em in *. cbn [is_some] in *.
      rewrite at_most_le by done. exists g, (fst (LocalFlowControl_Resize fc (uwrap32 (Max m)) 0)). split.
      { cbn [Global_Resize]. by destruct (li_TokenBucket _), (LocalFlowControl_Resize fc _ 0). }
      apply (resize_enforces (toFlowControlSchema cfg)); [done|].
      unfold toFlowControlSchema. rewrite Em. cbn. done.
    + destruct (li_TokenBucket (ric_Detail i)) as [tb|] eqn:Et'; [|done]. destruct Hq as (gtb & -> & Hle).
      unfold GetFlowControlTypeFromLimitItem in *. rewrite Em, Et' in *. cbn [is_some] in *.
      rewrite at_most_le by done.
      exists g, (fst (LocalFlowControl_Resize fc (uwrap32 (QPS tb)) (uwrap32 (Burst tb)))). split.
      { cbn [Global_Resize]. by destruct (LocalFlowControl_Resize fc _ _). }
      apply (resize_enforces (toFlowControlSchema cfg)); [done|].
      unfold toFlowControlSchema. rewrite Em, Et'. cbn. done.
  - destruct (_ || _) eqn:Eb; [exact Hfresh|]. apply orb_false_iff in Eb as [_ Es].
    apply negb_false_iff, bool_decide_eq_true_1 in Es. by rewrite Hok, Hs in Es.
  - destruct (_ || _) eqn:Eb; [exact Hfresh|]. apply orb_false_iff in Eb as [_ Es].
    apply negb_false_iff, bool_decide_eq_true_1 in Es. by rewrite Hok, Hs in Es.
Qed.
End cache_lemmas.
