(* ===== verification/GatewayLimiter.v ===== *)
(** The limiter of an upstream cluster on the gateway
    ([pkg/flowcontrols/limiter.go]) and its exchange with the rate limiter
    server ([pkg/flowcontrols/remote/remote_allocation.go],
    [remote_counter.go]).

    The clients of the server are parameters: whether one is ready, and what
    it answers.  Goroutines are represented by flags that say whether they
    run, their turns are operations. *)
From stdpp Require Import base tactics list strings gmap sets.
From Stdlib Require Import ZArith SpecFloat Lia Ascii.
From S2P Require Import Prelude ApiTypes Validation FlowControl Float64 Meter RemoteFlowControl FlowControlCache LimitStore.

Local Open Scope Z_scope.
Local Open Scope go_scope.

Section limiter.
Context `{InflightLock} `{TokenBucketLimiter} `{FloatToInt} `{FloatToUint} `{BurstPercents} `{MapRange}.

Record upstreamLimiter := MkLimiter {
  gl_cluster : string;
  gl_rateLimiter : string;
  gl_clientSets : bool;
  gl_clientID : string;
  gl_currentFlowControlSpec : option FlowControl;
  gl_flowControls : gmap string flowControlCache;
  gl_counters : globalCounterManager;
  gl_reconciling : bool;
  gl_switchToLocalReason : gmap string string
}.

Definition LocalLimiter : string := "local".
Definition RemoteLimiter : string := "remote".

(** [NewUpstreamLimiter]; whether clients of the server are configured. *)
Definition NewUpstreamLimiter (cluster rateLimiter : string) (clientSets : option string) : upstreamLimiter :=
  MkLimiter cluster (if decide (rateLimiter = "") then LocalLimiter else rateLimiter) (is_some clientSets)
    (default "" clientSets) None ∅ NewGlobalCounterProvider false ∅.

Definition with_caches (l : upstreamLimiter) (g : globalCounterManager) (m : gmap string flowControlCache)
    : upstreamLimiter :=
  MkLimiter (gl_cluster l) (gl_rateLimiter l) (gl_clientSets l) (gl_clientID l) (gl_currentFlowControlSpec l) m g
    (gl_reconciling l) (gl_switchToLocalReason l).

Definition with_spec (l : upstreamLimiter) (s : FlowControl) : upstreamLimiter :=
  MkLimiter (gl_cluster l) (gl_rateLimiter l) (gl_clientSets l) (gl_clientID l) (Some s) (gl_flowControls l)
    (gl_counters l) (gl_reconciling l) (gl_switchToLocalReason l).

Definition with_reason (l : upstreamLimiter) (name reason : string) : upstreamLimiter :=
  MkLimiter (gl_cluster l) (gl_rateLimiter l) (gl_clientSets l) (gl_clientID l) (gl_currentFlowControlSpec l)
    (gl_flowControls l) (gl_counters l) (gl_reconciling l) (<[name := reason]> (gl_switchToLocalReason l)).

(** [EnsureReconcile] *)
Definition EnsureReconcile (clientSets running : bool) (rateLimiter : string) : bool :=
  if bool_decide (rateLimiter = RemoteLimiter) && negb running then clientSets
  else if bool_decide (rateLimiter = LocalLimiter) && running then false
  else running.

Definition ResetLimiter (l : upstreamLimiter) (rateLimiter : string) : upstreamLimiter :=
  if decide (rateLimiter = gl_rateLimiter l) then l
  else
    MkLimiter (gl_cluster l) rateLimiter (gl_clientSets l) (gl_clientID l) (gl_currentFlowControlSpec l)
      (gl_flowControls l) (gl_counters l) (EnsureReconcile (gl_clientSets l) (gl_reconciling l) rateLimiter)
      (gl_switchToLocalReason l).

(** Which flow control of a cache a request uses. *)
Inductive chosen := UseRemote (name : string) | UseLocal (name : string) | UseDefault.

(** Why the local flow control is used although the limiter is remote. *)
Definition local_reason (ready : bool) (l : upstreamLimiter) (c : flowControlCache) : option string :=
  if decide (gl_rateLimiter l = RemoteLimiter) then
    if decide (cache_Strategy c = "") then Some "strategy is empty"
    else if decide (cache_Strategy c = LocalLimit) then Some ("strategy is " +:+ cache_Strategy c)
    else if negb (gl_clientSets l) then Some "clientSets is nil"
    else if negb ready then Some "clientSets is not ready"
    else match fcc_remote c with Some _ => None | None => Some "remote flowcontrol is not synced" end
  else Some ("unkonwn rateLimiter type " +:+ gl_rateLimiter l).

Definition limiter_Load (ready : bool) (l : upstreamLimiter) (name : string) : upstreamLimiter * option chosen :=
  match gl_flowControls l !! name with
  | None => (l, None)
  | Some c =>
      if decide (gl_rateLimiter l = LocalLimiter) then (l, Some (UseLocal name))
      else
        match local_reason ready l c with
        | None => (l, Some (UseRemote name))
        | Some reason =>
            (if decide (gl_switchToLocalReason l !! name = Some reason) then l else with_reason l name reason,
             Some (UseLocal name))
        end
  end.

Definition GetOrDefault (ready : bool) (l : upstreamLimiter) (name : string) : upstreamLimiter * chosen :=
  if decide (name = "") then (l, UseDefault)
  else match limiter_Load ready l name with (l, None) => (l, UseDefault) | (l, Some c) => (l, c) end.

(** ** Following the specification *)

Definition sync_one_schema (now : Z) (l : upstreamLimiter) (schema : FlowControlSchema)
    : result Empty_set upstreamLimiter :=
  let name := fs_Name schema in
  let c :=
    match gl_flowControls l !! name with
    | Some c => c
    | None => NewFlowControlCache now (gl_cluster l) name (gl_clientID l)
    end in
  let! gc := local_Sync (gl_counters l) c schema in
  Ok (with_caches l (fst gc) (<[name := snd gc]> (gl_flowControls l))).

Fixpoint sync_schema_list (now : Z) (l : upstreamLimiter) (schemas : list FlowControlSchema)
    : result Empty_set upstreamLimiter :=
  match schemas with
  | [] => Ok l
  | s :: schemas' => let! l := sync_one_schema now l s in sync_schema_list now l schemas'
  end.

(** [Delete] of the map of flow controls. *)
Definition delete_flow_control (l : upstreamLimiter) (name : string) : result Empty_set upstreamLimiter :=
  match gl_flowControls l !! name with
  | None => Ok l
  | Some c =>
      let! gc := cache_Stop (gl_counters l) c in
      Ok (with_caches l (fst gc) (delete name (gl_flowControls l)))
  end.

Fixpoint delete_flow_controls (l : upstreamLimiter) (names : list string) : result Empty_set upstreamLimiter :=
  match names with
  | [] => Ok l
  | n :: names' => let! l := delete_flow_control l n in delete_flow_controls l names'
  end.

Definition loadFlowControlSpec (l : upstreamLimiter) : FlowControl :=
  default (MkFlowControl []) (gl_currentFlowControlSpec l).

Definition spec_names (s : FlowControl) : gset string := list_to_set (fs_Name <$> Schemas s).

(** [Sync] and [syncLocalFlowControls] *)
Definition limiter_Sync (now : Z) (l : upstreamLimiter) (flowControls : FlowControl)
    : result Empty_set upstreamLimiter :=
  let oldObj := loadFlowControlSpec l in
  if decide (oldObj = flowControls) then Ok l
  else
    let! l := sync_schema_list now l (Schemas flowControls) in
    let deleted := spec_names oldObj ∖ spec_names flowControls in
    let! l := delete_flow_controls l (fst <$> Range (gset_to_gmap () deleted)) in
    Ok (with_spec l flowControls).

(** ** Reconciliation with the server *)

(** The remote flow control of a cache is enabled and given a limit item. *)
Definition sync_remote (now : Z) (l : upstreamLimiter) (name : string) (c : flowControlCache)
    (item : RateLimitItemConfiguration) : result Empty_set upstreamLimiter :=
  let! gc := remote_Sync now (gl_counters l) (EnableRemoteFlowControl c) item in
  Ok (with_caches l (fst gc) (<[name := snd gc]> (gl_flowControls l))).

(** What a count strategy asks for: the global limits of the schema. *)
Definition count_item (name : string) (c : flowControlCache) : RateLimitItemConfiguration :=
  MkItemConfig name
    (MkDetail (fc_GlobalMaxRequestsInflight (fs_Config (fcc_localConfig c)))
       (fc_GlobalTokenBucket (fs_Config (fcc_localConfig c)))) (cache_Strategy c).

Fixpoint update_count_controls (now : Z) (l : upstreamLimiter) (caches : list (string * flowControlCache))
    : result Empty_set upstreamLimiter :=
  match caches with
  | [] => Ok l
  | (name, c) :: caches' =>
      if decide (cache_Strategy c = GlobalCountLimit) then
        let! l := sync_remote now l name c (count_item name c) in update_count_controls now l caches'
      else update_count_controls now l caches'
  end.

Definition updateGlobalCuntFlowControls (now : Z) (l : upstreamLimiter) : result Empty_set upstreamLimiter :=
  update_count_controls now l (Range (gl_flowControls l)).

Definition getRateLimitItemConfiguration (name : string) (c : flowControlCache) : RateLimitItemConfiguration :=
  MkItemConfig name
    (match fcc_remote c with
     | None => empty_detail
     | Some r =>
         MkDetail (li_MaxRequestsInflight (ric_Detail (rw_remoteConfig r)))
           (li_TokenBucket (ric_Detail (rw_remoteConfig r)))
     end) (cache_Strategy c).

(** [getRateLimitItemStatus]; a flow control that is nil has no type. *)
Definition getRateLimitItemStatus (name : string) (c : flowControlCache) : result Empty_set RateLimitItemStatus :=
  let! localType := match fcc_local c with None => Panic | Some fc => Ok (LocalFlowControl_Type fc) end in
  let! typ :=
    match fcc_remote c with
    | None => Ok localType
    | Some r => match rw_GlobalCounterFlowControl r with None => Panic | Some w => Ok (Global_Type w) end
    end in
  match typ with
  | MaxRequestsInflight =>
      let inflight := Meter_AvgInflight (fcc_meter c) in
      let detail := MkDetail (Some (MkMaxInflight (to_int32 (fround inflight)))) None in
      let! level :=
        match fcc_remote c with
        | None => Ok 0
        | Some r =>
            match li_MaxRequestsInflight (ric_Detail (rw_remoteConfig r)) with
            | None => Panic
            | Some m => Ok (to_int32 (fmul (fdiv inflight (of_int (Max m))) (of_int 100)))
            end
        end in
      Ok (MkItemStatus name detail level)
  | TokenBucket =>
      let rate := Meter_Rate (fcc_meter c) in
      let q := to_int32 (fround rate) in
      let detail := MkDetail None (Some (MkTokenBucket q q)) in
      let! level :=
        match fcc_remote c with
        | None => Ok 0
        | Some r =>
            match li_TokenBucket (ric_Detail (rw_remoteConfig r)) with
            | None => Panic
            | Some tb => Ok (to_int32 (fdiv (fmul (of_int 100) rate) (of_int (QPS tb))))
            end
        end in
      Ok (MkItemStatus name detail level)
  | _ => Ok (MkItemStatus name empty_detail 0)
  end.

(** Whether the server allocates a quota for a flow control. *)
Definition allocated (c : flowControlCache) : bool :=
  bool_decide (cache_Strategy c = GlobalAllocateLimit) && EnableGlobalFlowControl (fcc_localConfig c).

Fixpoint build_items (caches : list (string * flowControlCache))
    : result Empty_set (list RateLimitItemConfiguration * list RateLimitItemStatus) :=
  match caches with
  | [] => Ok ([], [])
  | (name, c) :: caches' =>
      if allocated c then
        let! status := getRateLimitItemStatus name c in
        let! rest := build_items caches' in
        Ok (getRateLimitItemConfiguration name c :: fst rest, status :: snd rest)
      else build_items caches'
  end.

Definition buildLimitConditions (l : upstreamLimiter) : result Empty_set RateLimitCondition :=
  let instance := gl_clientID l in
  let! items := build_items (Range (gl_flowControls l)) in
  Ok (MkCondition (GenerateRateLimitConditionName (gl_cluster l) instance) "" None
        (MkRateLimitSpec (gl_cluster l) instance (fst items)) (MkRateLimitStatus (snd items))).

Fixpoint apply_configs (now : Z) (l : upstreamLimiter) (configs : list RateLimitItemConfiguration)
    : result Empty_set upstreamLimiter :=
  match configs with
  | [] => Ok l
  | config :: configs' =>
      match gl_flowControls l !! ric_Name config with
      | None => apply_configs now l configs'
      | Some c =>
          if EnableGlobalFlowControl (fcc_localConfig c) then
            let! l := sync_remote now l (ric_Name config) c config in apply_configs now l configs'
          else apply_configs now l configs'
      end
  end.

Definition updateFlowControls (now : Z) (l : upstreamLimiter) (condition : RateLimitCondition)
    : result Empty_set upstreamLimiter :=
  apply_configs now l (LimitItemConfigurations (rlc_Spec condition)).

(** [reconcile] with a client, if there is one, and its answer to the status
    that is sent. *)
Definition reconcile (now : Z) (client : option (RateLimitCondition -> string + RateLimitCondition))
    (l : upstreamLimiter) : result Empty_set upstreamLimiter :=
  let! l := updateGlobalCuntFlowControls now l in
  match client with
  | None => Ok l
  | Some send =>
      let! condition := buildLimitConditions l in
      match send condition with
      | inl _ => Ok l
      | inr ret => updateFlowControls now l ret
      end
  end.
End limiter.

(** * Lemmas *)

Section limiter_lemmas.
Context `{InflightLock} `{TokenBucketLimiter} `{FloatToInt} `{FloatToUint} `{BurstPercents} `{MapRange}.
Implicit Types l : upstreamLimiter.

(** What only [ResetLimiter] changes. *)
Definition frame l : string * string * bool * bool :=
  (gl_cluster l, gl_rateLimiter l, gl_clientSets l, gl_reconciling l).

Definition all_ok l : Prop := forall n c, gl_flowControls l !! n = Some c -> cache_ok c.

(** The cache of a schema: its local flow control enforces the schema. *)
Definition installed l (s : FlowControlSchema) : Prop :=
  exists c, gl_flowControls l !! fs_Name s = Some c /\ cache_ok c /\ fcc_localConfig c = s /\ is_Some (fcc_local c).

Lemma valid_schema s : config_ok (fs_Config s) -> has_limit s /\ s <> empty_schema.
Proof.
  intros Hok. split; [by apply config_ok_has_limit|]. intros ->. by apply (ok_one _ Hok).
Qed.

Lemma sync_one_schema_ok now l s :
  all_ok l -> config_ok (fs_Config s) ->
  exists l', sync_one_schema now l s = Ok l' /\ frame l' = frame l /\ all_ok l' /\ installed l' s /\
    forall n, n <> fs_Name s -> gl_flowControls l' !! n = gl_flowControls l !! n.
Proof.
  intros Hall Hs. destruct (valid_schema s Hs) as [Hl Hne]. unfold sync_one_schema.
  set (c := match gl_flowControls l !! fs_Name s with Some _ => _ | None => _ end).
  assert (cache_ok c) as Hc.
  { unfold c. destruct (gl_flowControls l !! fs_Name s) as [c0|] eqn:E; [by eapply Hall|apply new_cache_ok]. }
  destruct (local_Sync_ok (gl_counters l) c s Hc Hl Hne) as (g' & c' & -> & Hc' & Hcfg & Hloc & _).
  cbn [result_bind fst snd]. eexists. split_and!; [done|done|..].
  - intros n c1. cbn. intros [[<- <-]|[_ Hn]]%lookup_insert_Some; [done|by eapply Hall].
  - exists c'. split_and!; [cbn; apply lookup_insert_eq|done..].
  - intros n Hn. cbn. by rewrite lookup_insert_ne.
Qed.

Lemma sync_schema_list_ok now schemas l :
  all_ok l -> Forall (fun s => config_ok (fs_Config s)) schemas -> NoDup (fs_Name <$> schemas) ->
  exists l', sync_schema_list now l schemas = Ok l' /\ frame l' = frame l /\ all_ok l' /\
    (forall s, s ∈ schemas -> installed l' s) /\
    (forall n, n ∉ fs_Name <$> schemas -> gl_flowControls l' !! n = gl_flowControls l !! n).
Proof.
  revert l. induction schemas as [|s schemas IH]; intros l Hall Hok Hnd; cbn [sync_schema_list].
  { exists l. split_and!; try done. by intros s Hs%elem_of_nil. }
  apply Forall_cons in Hok as [Hs Hok]. rewrite fmap_cons in Hnd. apply list.NoDup_cons in Hnd as [Hnin Hnd].
  destruct (sync_one_schema_ok now l s Hall Hs) as (l1 & -> & Hf1 & Hall1 & Hin1 & Hk1). cbn [result_bind].
  destruct (IH l1 Hall1 Hok Hnd) as (l' & -> & Hf & Hall' & Hin & Hk).
  exists l'. split_and!; [done|congruence|done|..].
  - intros s' [->|Hs']%elem_of_cons; [|by apply Hin]. destruct Hin1 as (c & Hc & ?).
    exists c. split; [|done]. by rewrite Hk.
  - intros n Hn. rewrite Hk, Hk1; [done| |]; set_solver.
Qed.

Lemma delete_flow_controls_ok names l :
  all_ok l ->
  exists l', delete_flow_controls l names = Ok l' /\ frame l' = frame l /\
    forall n, gl_flowControls l' !! n = if decide (n ∈ names) then None else gl_flowControls l !! n.
Proof.
  revert l. induction names as [|x names IH]; intros l Hall; cbn [delete_flow_controls].
  { exists l. by split_and!. }
  assert (exists l1, delete_flow_control l x = Ok l1 /\ frame l1 = frame l /\
    gl_flowControls l1 = delete x (gl_flowControls l)) as (l1 & -> & Hf1 & Hd1).
  { unfold delete_flow_control. destruct (gl_flowControls l !! x) as [c|] eqn:E.
    - unfold cache_Stop, Meter_Stop. rewrite (co_meter c (Hall x c E)). cbn [result_bind].
      eexists. split_and!; [done..|]. done.
    - exists l. split_and!; try done. by rewrite delete_id. }
  cbn [result_bind]. destruct (IH l1) as (l' & -> & Hf & Hk).
  { intros n c. rewrite Hd1, lookup_delete_Some. intros [_ Hn]. by eapply Hall. }
  exists l'. split_and!; [done|congruence|]. intros n. rewrite Hk, Hd1.
  destruct (decide (x = n)) as [->|Hne].
  - rewrite lookup_delete_eq, (decide_True (P := n ∈ n :: names)) by left. by case_decide.
  - rewrite lookup_delete_ne by done. repeat case_decide; try done; set_solver.
Qed.

(** The flow controls are those of the specification, and enforce it. *)
Record limiter_ok l : Prop := {
  lo_names : forall n, is_Some (gl_flowControls l !! n) <-> n ∈ fs_Name <$> Schemas (loadFlowControlSpec l);
  lo_installed : forall s, s ∈ Schemas (loadFlowControlSpec l) -> installed l s
}.

Lemma limiter_all_ok l : limiter_ok l -> all_ok l.
Proof.
  intros [Hn Hi] n c Hc. pose proof (proj1 (Hn n) (mk_is_Some _ _ Hc)) as Hin.
  apply list_elem_of_fmap in Hin as (s & -> & Hs). destruct (Hi s Hs) as (c' & Hc' & Hok & _). congruence.
Qed.

Lemma elem_of_set_list (s : gset string) x : x ∈ fst <$> Range (gset_to_gmap () s) <-> x ∈ s.
Proof.
  rewrite list_elem_of_fmap. split.
  - intros ([y []] & -> & Hin). rewrite elem_of_Range, lookup_gset_to_gmap_Some in Hin. by destruct Hin.
  - intros Hx. exists (x, ()). split; [done|]. by rewrite elem_of_Range, lookup_gset_to_gmap_Some.
Qed.

Lemma limiter_Sync_ok now l spec :
  limiter_ok l -> schemas_ok (Schemas spec) ->
  exists l', limiter_Sync now l spec = Ok l' /\ limiter_ok l' /\ loadFlowControlSpec l' = spec /\ frame l' = frame l.
Proof.
  intros Hok [Hnd Hs]. unfold limiter_Sync. case_decide as Heq; [by exists l|].
  assert (Forall (fun s => config_ok (fs_Config s)) (Schemas spec)) as Hcfg.
  { eapply Forall_impl; [exact Hs|]. by intros s (_ & _ & ?). }
  destruct (sync_schema_list_ok now (Schemas spec) l (limiter_all_ok l Hok) Hcfg Hnd)
    as (l1 & -> & Hf1 & Hall1 & Hin1 & Hk1). cbn [result_bind].
  set (deleted := spec_names (loadFlowControlSpec l) ∖ spec_names spec).
  destruct (delete_flow_controls_ok (fst <$> Range (gset_to_gmap () deleted)) l1 Hall1) as (l2 & -> & Hf2 & Hk2).
  cbn [result_bind]. exists (with_spec l2 spec).
  assert (forall n, gl_flowControls l2 !! n = if decide (n ∈ deleted) then None else gl_flowControls l1 !! n) as Hk.
  { intros n. rewrite Hk2. repeat case_decide; try done; rewrite elem_of_set_list in *; done. }
  assert (forall s n, n ∈ fs_Name <$> Schemas s <-> n ∈ spec_names s) as Hsn
    by (intros s n; unfold spec_names; by rewrite elem_of_list_to_set).
  split_and!; [done| |done|by unfold frame in *; cbn in *; congruence]. split; cbn.
  - intros n. rewrite Hk. destruct (decide (n ∈ fs_Name <$> Schemas spec)) as [Hn|Hn].
    + rewrite decide_False by (unfold deleted; rewrite elem_of_difference, <-!Hsn; tauto).
      apply list_elem_of_fmap in Hn as Hn'. destruct Hn' as (s & -> & Hs'). destruct (Hin1 s Hs') as (c & -> & _).
      by rewrite is_Some_alt.
    + rewrite Hk1 by done. case_decide as Hd; [by rewrite is_Some_alt|].
      rewrite (lo_names l Hok). unfold deleted in Hd. rewrite elem_of_difference, <-!Hsn in Hd. tauto.
  - intros s Hs'. destruct (Hin1 s Hs') as (c & Hc & Hrest). exists c. split; [|done]. cbn. rewrite Hk.
    rewrite decide_False; [done|]. unfold deleted. rewrite elem_of_difference, <-!Hsn.
    intros [_ Hno]. apply Hno. apply list_elem_of_fmap. by exists s.
Qed.


(** ** Quotas *)

(** A limit item of an answer is for no flow control of the limiter, for one
    that is not limited globally, or an allocated quota within its limit. *)
Definition acceptable l (i : RateLimitItemConfiguration) : Prop :=
  forall c, gl_flowControls l !! ric_Name i = Some c -> EnableGlobalFlowControl (fcc_localConfig c) = true ->
  quota_within (fcc_localConfig c) i.

Definition remotes_ok l : Prop := forall n c, gl_flowControls l !! n = Some c -> remote_ok c.

(** The quota of an item is enforced by the remote flow control of its name. *)
Definition takes_quota l (i : RateLimitItemConfiguration) (local : FlowControlSchema) : Prop :=
  exists c fc, gl_flowControls l !! ric_Name i = Some c /\ fcc_localConfig c = local /\
    fcc_remote c = Some (MkRemote (Some (EmptyGlobal fc)) i) /\ enforces (toFlowControlSchema i) fc.

Lemma Enable_remote c :
  exists r, fcc_remote (EnableRemoteFlowControl c) = Some r /\
    fcc_localConfig (EnableRemoteFlowControl c) = fcc_localConfig c.
Proof. unfold EnableRemoteFlowControl. destruct (fcc_remote c) eqn:E; [by eexists|by eexists]. Qed.

Lemma Enable_remote_ok c : remote_ok c -> remote_ok (EnableRemoteFlowControl c).
Proof. unfold EnableRemoteFlowControl. destruct (fcc_remote c); [done|]. intros _ r. cbn. by intros [= <-]. Qed.

Lemma sync_remote_ok now l c i :
  gl_flowControls l !! ric_Name i = Some c -> remotes_ok l -> quota_within (fcc_localConfig c) i ->
  exists l' c', sync_remote now l (ric_Name i) c i = Ok l' /\ frame l' = frame l /\ remotes_ok l' /\
    takes_quota l' i (fcc_localConfig c) /\
    gl_flowControls l' = <[ric_Name i := c']> (gl_flowControls l).
Proof.
  intros Hc Hok Hq. unfold sync_remote. destruct (Enable_remote c) as (r & Hr & Hcfg).
  rewrite <-Hcfg in Hq.
  destruct (remote_Sync_ok now (gl_counters l) _ r i Hr (Enable_remote_ok c (Hok _ c Hc)) Hq) as (g' & fc & -> & He).
  cbn [result_bind fst snd]. set (c' := with_remote _ _).
  exists (with_caches l g' (<[ric_Name i := c']> (gl_flowControls l))), c'. split_and!; [done|done| | |done].
  - intros n d. cbn. intros [[<- <-]|[_ Hd]]%lookup_insert_Some; [|by eapply Hok]. intros r'. cbn. by intros [= <-].
  - exists c', fc. cbn. rewrite lookup_insert_eq. by split_and!.
Qed.

(** One limit item of an answer. *)
Lemma apply_config_ok now i l :
  remotes_ok l -> acceptable l i ->
  exists l1, (forall configs, apply_configs now l (i :: configs) = apply_configs now l1 configs) /\
    frame l1 = frame l /\ remotes_ok l1 /\
    (forall n, n <> ric_Name i -> gl_flowControls l1 !! n = gl_flowControls l !! n) /\
    (forall c, gl_flowControls l !! ric_Name i = Some c ->
       EnableGlobalFlowControl (fcc_localConfig c) = true -> takes_quota l1 i (fcc_localConfig c)).
Proof.
  intros Hok Hi. cbn [apply_configs]. destruct (gl_flowControls l !! ric_Name i) as [c|] eqn:Hc; [|by exists l].
  destruct (EnableGlobalFlowControl (fcc_localConfig c)) eqn:He.
  - destruct (sync_remote_ok now l c i Hc Hok (Hi c Hc He)) as (l1 & c' & -> & Hf & Hok1 & Ht & Hm).
    exists l1. split_and!; try done.
    + intros n Hn. by rewrite Hm, lookup_insert_ne.
    + by intros c0 [= <-] _.
  - exists l. split_and!; try done. intros c0 [= <-]. congruence.
Qed.

Lemma apply_configs_ok now configs l :
  remotes_ok l -> NoDup (ric_Name <$> configs) -> Forall (acceptable l) configs ->
  exists l', apply_configs now l configs = Ok l' /\ frame l' = frame l /\ remotes_ok l' /\
    (forall n, n ∉ ric_Name <$> configs -> gl_flowControls l' !! n = gl_flowControls l !! n) /\
    (forall i c, i ∈ configs -> gl_flowControls l !! ric_Name i = Some c ->
       EnableGlobalFlowControl (fcc_localConfig c) = true -> takes_quota l' i (fcc_localConfig c)).
Proof.
  revert l. induction configs as [|i configs IH]; intros l Hok Hnd Hacc.
  { exists l. split_and!; try done. by intros i c Hi%elem_of_nil. }
  apply Forall_cons in Hacc as [Hi Hacc]. rewrite fmap_cons in Hnd. apply list.NoDup_cons in Hnd as [Hnin Hnd].
  destruct (apply_config_ok now i l Hok Hi) as (l1 & -> & Hf1 & Hok1 & Hk1 & Ht1).
  assert (forall j, j ∈ configs -> ric_Name j <> ric_Name i) as Hother.
  { intros j Hj Heq. apply Hnin. rewrite <-Heq. by apply list_elem_of_fmap_2. }
  destruct (IH l1 Hok1 Hnd) as (l' & -> & Hf & Hok' & Hk & Ht).
  { rewrite Forall_forall in *. intros j Hj c. rewrite Hk1; [by apply Hacc|by apply Hother]. }
  exists l'. split_and!; [done|congruence|done|..].
  - intros n Hn. rewrite Hk, Hk1; [done| |]; set_solver.
  - intros j c [->|Hj]%elem_of_cons Hc He.
    + destruct (Ht1 c Hc He) as (c' & fc & Hc' & Hrest). exists c', fc. by rewrite Hk.
    + apply (Ht j c Hj); [|done]. rewrite Hk1; [done|by apply Hother].
Qed.

Lemma item_int32 i :
  (forall m, li_MaxRequestsInflight (ric_Detail i) = Some m -> in_int32 (Max m)) ->
  (forall tb, li_TokenBucket (ric_Detail i) = Some tb -> in_int32 (QPS tb) /\ in_int32 (Burst tb)) ->
  int32_config (fs_Config (toFlowControlSchema i)).
Proof.
  intros Hm Ht. unfold toFlowControlSchema. split; cbn.
  - intros m. destruct (li_MaxRequestsInflight (ric_Detail i)) as [m0|]; [intros [= <-]; by apply (Hm m0)|].
    by destruct (li_TokenBucket (ric_Detail i)).
  - intros tb. destruct (li_MaxRequestsInflight (ric_Detail i)); [done|].
    destruct (li_TokenBucket (ric_Detail i)) as [tb0|]; [|done]. intros [= <-]. by apply (Ht tb0).
Qed.

(** A remote limiter with a ready client uses the remote flow control. *)
Lemma enabled_remote l c :
  gl_rateLimiter l = RemoteLimiter -> gl_clientSets l = true ->
  EnableGlobalFlowControl (fcc_localConfig c) = true -> is_Some (fcc_remote c) -> local_reason true l c = None.
Proof.
  unfold local_reason, EnableGlobalFlowControl, cache_Strategy. intros Hrl Hcs He [r ->]. rewrite decide_True by done.
  destruct (bool_decide (_ = GlobalAllocateLimit)) eqn:E1; [|destruct (bool_decide (_ = GlobalCountLimit)) eqn:E2];
    try apply bool_decide_eq_true_1 in E1; try apply bool_decide_eq_true_1 in E2; [| |done].
  - by rewrite E1, Hcs.
  - by rewrite E2, Hcs.
Qed.

(** The limit of a limit item. *)
Definition item_limit (i : RateLimitItemConfiguration) : option (Z * Z) :=
  wanted (fs_Config (toFlowControlSchema i)).

(** Quotas reach the requests: after an answer of the server, with a quota
    of each name within the global limits, taking it over cannot fail, and
    for every flow control that is limited globally the requests of a remote
    limiter with a ready client meet a flow control that enforces exactly the
    quota of the answer; other flow controls are untouched. *)
Theorem quotas_enforced now l condition :
  let configs := LimitItemConfigurations (rlc_Spec condition) in
  remotes_ok l -> NoDup (ric_Name <$> configs) -> Forall (acceptable l) configs ->
  exists l', updateFlowControls now l condition = Ok l' /\ remotes_ok l' /\
    (forall n, n ∉ ric_Name <$> configs -> gl_flowControls l' !! n = gl_flowControls l !! n) /\
    (forall i c, i ∈ configs -> gl_flowControls l !! ric_Name i = Some c ->
       EnableGlobalFlowControl (fcc_localConfig c) = true -> int32_config (fs_Config (toFlowControlSchema i)) ->
       exists c' fc, gl_flowControls l' !! ric_Name i = Some c' /\
         fcc_remote c' = Some (MkRemote (Some (EmptyGlobal fc)) i) /\
         option_map (fun '(n, b) => (wrap32 n, wrap32 b)) (enforced fc) = item_limit i /\
         (gl_rateLimiter l = RemoteLimiter -> gl_clientSets l = true -> ric_Name i <> "" ->
          snd (GetOrDefault true l' (ric_Name i)) = UseRemote (ric_Name i))).
Proof.
  intros configs Hok Hnd Hacc. destruct (apply_configs_ok now configs l Hok Hnd Hacc) as (l' & Heq & Hf & Hok' & Hk & Ht).
  exists l'. split_and!; try done. intros i c Hi Hc He Hint.
  destruct (Ht i c Hi Hc He) as (c' & fc & Hc' & Hcfg & Hr & Hen). exists c', fc. split_and!; try done.
  - by apply enforces_wanted.
  - intros Hrl Hcs Hne. injection Hf as _ Hf1 Hf2 _. unfold GetOrDefault, limiter_Load.
    rewrite decide_False, Hc' by done. rewrite decide_False by (by rewrite Hf1, Hrl).
    by rewrite (enabled_remote l' c') by (rewrite ?Hf1, ?Hf2, ?Hcfg, ?Hr; done).
Qed.

(** ** Counting without a limit *)

Lemma counters_Add_after_Stop now g name typ : is_Some (counters_Add now (counters_Stop g name) name typ).
Proof.
  unfold counters_Add. assert (gm_counterMap (counters_Stop g name) = delete name (gm_counterMap g)) as ->.
  { unfold counters_Stop, ensureWorker. cbn. by repeat case_match. }
  rewrite lookup_delete_eq. by eexists.
Qed.

Lemma count_item_panics now g name c :
  cache_Strategy c = GlobalCountLimit -> EnableGlobalFlowControl (fcc_localConfig c) = false -> fcc_remote c = None ->
  remote_Sync now g (EnableRemoteFlowControl c) (count_item name c) = Panic.
Proof.
  intros Hs He Hr. unfold EnableGlobalFlowControl in He. unfold cache_Strategy in Hs.
  rewrite (bool_decide_eq_true_2 (_ = GlobalCountLimit)), orb_true_r in He by done.
  apply orb_false_iff in He as [Ht Hm].
  unfold EnableRemoteFlowControl. rewrite Hr. unfold remote_Sync. cbn [fcc_remote with_remote].
  rewrite decide_False.
  2: { intros Heq. apply (f_equal ric_Strategy) in Heq. cbn in Heq. unfold cache_Strategy in Heq. by rewrite Hs in Heq. }
  cbn [rw_GlobalCounterFlowControl]. unfold remote_newFlowControl, count_item, cache_Strategy.
  destruct (fc_GlobalMaxRequestsInflight (fs_Config (fcc_localConfig c))); [done|].
  destruct (fc_GlobalTokenBucket (fs_Config (fcc_localConfig c))); [done|].
  cbn -[counters_Add counters_Stop NewFlowControl]. rewrite Hs. cbn -[counters_Add counters_Stop].
  by destruct (counters_Add_after_Stop now g name Unknown) as [g' ->].
Qed.

Lemma update_count_panics now caches l name c :
  (name, c) ∈ caches -> cache_Strategy c = GlobalCountLimit ->
  EnableGlobalFlowControl (fcc_localConfig c) = false -> fcc_remote c = None ->
  update_count_controls now l caches = Panic.
Proof.
  intros Hin Hs He Hr. revert l. induction caches as [|[n d] caches IH]; intros l; [by apply elem_of_nil in Hin|].
  cbn [update_count_controls]. apply elem_of_cons in Hin as [[= <- <-]|Hin].
  - rewrite decide_True by done. unfold sync_remote. by rewrite count_item_panics.
  - case_decide; [|by apply IH]. destruct (sync_remote now l n d _) as [l1|[]|]; [by apply IH|done].
Qed.

(** A schema that counts globally but has no global limit brings the
    gateway down: although validation accepts such a schema, the next
    reconciliation of the limiter panics, whatever the server answers. *)
Theorem count_without_limit_panics now client l name c :
  gl_flowControls l !! name = Some c -> cache_Strategy c = GlobalCountLimit ->
  EnableGlobalFlowControl (fcc_localConfig c) = false -> fcc_remote c = None ->
  reconcile now client l = Panic.
Proof.
  intros Hc Hs He Hr. unfold reconcile, updateGlobalCuntFlowControls.
  by rewrite (update_count_panics now _ l name c) by (done || by apply elem_of_Range).
Qed.
End limiter_lemmas.

(** * A concrete limiter *)

Module GatewayExample.
#[local] Existing Instance SimpleLock.lock.
#[local] Existing Instance SimpleLock.limiter.
#[local] Existing Instance amd64_conversion.
#[local] Existing Instance saturating_uint.
#[local] Existing Instance default_percents.
#[local] Existing Instance sorted_range.

(** Local in-flight limits of 10 with a global one of 100, and a rate that is
    to be counted globally but has no global limit. *)
Definition shared_schema : FlowControlSchema :=
  MkSchema "shared" (MkSchemaConfig None (Some (MkMaxInflight 10)) None (Some (MkMaxInflight 100)) None)
    GlobalAllocateLimit.
Definition counted : FlowControlSchema :=
  MkSchema "counted" (MkSchemaConfig None None (Some (MkTokenBucket 5 10)) None None) GlobalCountLimit.

Definition spec : FlowControl := MkFlowControl [shared_schema; counted].

Definition new_limiter : upstreamLimiter := NewUpstreamLimiter "c1" RemoteLimiter (Some "gw-1").

Definition ok_or {A} (d : A) (r : result Empty_set A) : A := match r with Ok a => a | _ => d end.

Definition limiter : upstreamLimiter := ok_or new_limiter (limiter_Sync 0 new_limiter spec).

(** The answer of a server that allocates 40 of the 100. *)
Definition granted : RateLimitItemConfiguration :=
  MkItemConfig "shared" (MkDetail (Some (MkMaxInflight 40)) None) GlobalAllocateLimit.
Definition answer : RateLimitCondition :=
  MkCondition "c1.gw-1" "" None (MkRateLimitSpec "c1" "gw-1" [granted]) (MkRateLimitStatus []).

Lemma spec_valid : schemas_ok (Schemas spec).
Proof.
  split; [refine (bool_decide_unpack _ _); vm_compute; exact I|].
  apply Forall_cons_2; [|apply Forall_singleton]; (split_and!; [done|reflexivity|]);
    apply (ValidateFlowControlConfiguration_nil _ []); vm_compute; reflexivity.
Qed.

Lemma spec_int32 : Forall (fun s => int32_config (fs_Config s)) (Schemas spec).
Proof.
  apply Forall_cons_2; [|apply Forall_singleton]; (split; cbn; intros x Hx; [|]); try discriminate Hx;
    injection Hx as <-; repeat split; vm_compute; (discriminate || reflexivity).
Qed.

Lemma new_limiter_ok : limiter_ok new_limiter.
Proof.
  split; [|by intros s Hs%elem_of_nil]. intros n. split; [by intros [? ?]|by intros Hn%elem_of_nil].
Qed.

Lemma limiter_caches n c :
  gl_flowControls limiter !! n = Some c -> fcc_remote c = None /\ (n = "shared" -> fcc_localConfig c = shared_schema).
Proof.
  assert (map_Forall (fun n c => is_some (fcc_remote c) = false /\ (n = "shared" -> fcc_localConfig c = shared_schema))
    (gl_flowControls limiter)) as Hall.
  { apply map_Forall_to_list. vm_compute. repeat constructor; done. }
  intros Hc. destruct (Hall n c Hc) as [Hr Hs]. split; [|done]. by destruct (fcc_remote c).
Qed.
End GatewayExample.

Section limiter_witnesses.
Import GatewayExample.
#[local] Existing Instance SimpleLock.lock.
#[local] Existing Instance SimpleLock.limiter.
#[local] Existing Instance amd64_conversion.
#[local] Existing Instance saturating_uint.
#[local] Existing Instance default_percents.
#[local] Existing Instance sorted_range.


Lemma quotas_enforced_witness :
  exists l' c fc, updateFlowControls 0 limiter answer = Ok l' /\ gl_flowControls l' !! "shared" = Some c /\
    fcc_remote c = Some (MkRemote (Some (EmptyGlobal fc)) granted) /\
    option_map (fun '(n, b) => (wrap32 n, wrap32 b)) (enforced fc) = Some (40, 0).
Proof.
  destruct (quotas_enforced 0 limiter answer) as (l' & Hu & _ & _ & Hq).
  - intros n c Hc r Hr. destruct (limiter_caches n c Hc) as [Hn _]. rewrite Hn in Hr. discriminate Hr.
  - refine (bool_decide_unpack _ _). vm_compute. exact I.
  - constructor; [|constructor]. intros c Hc _. destruct (limiter_caches _ c Hc) as [_ Hcfg].
    rewrite (Hcfg eq_refl). split; [reflexivity|]. exists (MkMaxInflight 100). split; [reflexivity|vm_compute; discriminate].
  - destruct (gl_flowControls limiter !! "shared") as [c|] eqn:Hc; [|vm_compute in Hc; discriminate Hc].
    destruct (Hq granted c) as (c' & fc & Hc' & Hr & Hw & _).
    + left.
    + exact Hc.
    + destruct (limiter_caches _ c Hc) as [_ Hcfg]. rewrite (Hcfg eq_refl). reflexivity.
    + apply item_int32; [intros m [= <-]|done]. split; vm_compute; (discriminate || reflexivity).
    + exists l', c', fc. split; [exact Hu|]. split; [exact Hc'|]. split; [exact Hr|exact Hw].
Defined.

Lemma count_without_limit_panics_witness : reconcile 0 None limiter = Panic.
Proof.
  destruct (gl_flowControls limiter !! "counted") as [c|] eqn:Hc; [|vm_compute in Hc; discriminate Hc].
  assert (fcc_localConfig c = counted) as Hcfg.
  { assert (fcc_localConfig <$> gl_flowControls limiter !! "counted" = Some counted) as Hx by (vm_compute; reflexivity).
    rewrite Hc in Hx. injection Hx as Hx. exact Hx. }
  apply (count_without_limit_panics 0 None limiter "counted" c Hc).
  - unfold cache_Strategy. rewrite Hcfg. reflexivity.
  - rewrite Hcfg. reflexivity.
  - exact (proj1 (limiter_caches _ c Hc)).
Defined.
End limiter_witnesses.
