(* ===== verification/RemoteCounter.v ===== *)
(** Counting requests with the rate limiter server
    ([pkg/flowcontrols/remote/remote_counter.go]) and the requests that pass
    the flow controls of a limiter: asking the server for tokens, taking its
    answers over, and the reset when it does not answer.

    A counter holds a pointer to the remote flow control of the cache of its
    name.  The call to the server runs in a goroutine: [acquireRequest] is
    what is sent, [take_answer] what is done with the answer, whenever it
    arrives. *)
From stdpp Require Import base tactics list strings gmap sets.
From Stdlib Require Import ZArith Lia.
From S2P Require Import Prelude ApiTypes FlowControl Float64 Meter RemoteFlowControl FlowControlCache GatewayLimiter.

Local Open Scope Z_scope.
Local Open Scope go_scope.

Section counter.
Context `{InflightLock} `{TokenBucketLimiter} `{FloatToInt} `{FloatToUint} `{BurstPercents} `{MapRange}.

Definition with_counters (l : upstreamLimiter) (g : globalCounterManager) : upstreamLimiter :=
  with_caches l g (gl_flowControls l).

(** The remote flow control of a name, with its cache. *)
Definition remote_of (l : upstreamLimiter) (name : string) : option (flowControlCache * remoteWrapper) :=
  c ← gl_flowControls l !! name; r ← fcc_remote c; Some (c, r).

Definition set_remote (l : upstreamLimiter) (name : string) (mt : Meter) (w : GlobalCounterFlowControl)
    : upstreamLimiter :=
  with_caches l (gl_counters l)
    (alter (fun c =>
       with_meter (with_remote c
         (option_map (fun r => MkRemote (Some w) (rw_remoteConfig r)) (fcc_remote c))) mt) name
       (gl_flowControls l)).

(** ** Asking for tokens *)

(** The counters a request is made for, with whether it is to synchronise
    again; their events are taken.  [unixNow] is in seconds. *)
Definition due (unixNow : Z) (c : globalCounter) : option bool :=
  if gc_event c then Some false
  else if 2 <? unixNow - gc_lastSyncTime c then Some true
  else None.

Definition take_events (g : globalCounterManager) : globalCounterManager :=
  MkCounters ((fun c => MkCounter (gc_typ c) (gc_lastSyncTime c) false) <$> gm_counterMap g) (gm_event g)
    (gm_worker g).

(** What is asked for one counter: none, or that many tokens. *)
Definition ask (now : Z) (l : upstreamLimiter) (name : string) (typ : FlowControlSchemaType) (resync : bool)
    : result Empty_set (upstreamLimiter * option RateLimitAcquireRequest) :=
  match remote_of l name with
  | None => Ok (l, None)
  | Some (c, r) =>
      let expect :=
        match rw_GlobalCounterFlowControl r with
        | Some w => Global_ExpectToken now (fcc_meter c) w
        | None => -1
        end in
      match typ with
      | TokenBucket =>
          if (expect <=? 0) && negb resync then Ok (l, None)
          else
            match rw_GlobalCounterFlowControl r with
            | None => Panic
            | Some w =>
                Ok (set_remote l name (fcc_meter c) (Global_AddAcquiring w expect),
                    Some (MkAcquireRequest name expect))
            end
      | MaxRequestsInflight => Ok (l, Some (MkAcquireRequest name expect))
      | _ => Ok (l, None)
      end
  end.

Fixpoint ask_all (now unixNow : Z) (l : upstreamLimiter) (counters : list (string * globalCounter))
    : result Empty_set (upstreamLimiter * list RateLimitAcquireRequest) :=
  match counters with
  | [] => Ok (l, [])
  | (name, c) :: counters' =>
      match due unixNow c with
      | None => ask_all now unixNow l counters'
      | Some resync =>
          let! lq := ask now l name (gc_typ c) resync in
          let! rest := ask_all now unixNow (fst lq) counters' in
          Ok (fst rest, option_list (snd lq) ++ snd rest)
      end
  end.

(** [acquireRequest]: nothing when no counter has an event or no limit is
    asked for. *)
Definition acquireRequest (now unixNow : Z) (l : upstreamLimiter)
    : result Empty_set (upstreamLimiter * option RateLimitAcquire) :=
  let counters := Range (gm_counterMap (gl_counters l)) in
  let! lr := ask_all now unixNow (with_counters l (take_events (gl_counters l))) counters in
  Ok (fst lr,
      match snd lr with
      | [] => None
      | requests =>
          Some (MkAcquire (gl_cluster l) (MkAcquireSpec (gl_clientID l) requests now) (MkAcquireStatus []))
      end).

(** ** Answers *)

(** [send] to the counter of a name; whether it is to count again later. *)
Definition send (unixNow : Z) (l : upstreamLimiter) (name : string) (a : AcquireResult)
    : result Empty_set (upstreamLimiter * bool) :=
  let! lb :=
    match remote_of l name with
    | Some (c, MkRemote (Some w) _) =>
        let! wb := Global_SetLimit (fcc_localConfig c) (fcc_meter c) w a in
        Ok (set_remote l name (fcc_meter c) (fst wb), snd wb)
    | _ => Ok (l, false)
    end in
  let g := gl_counters (fst lb) in
  Ok (with_counters (fst lb)
        (MkCounters (alter (fun c => MkCounter (gc_typ c) unixNow (gc_event c)) name (gm_counterMap g))
           (gm_event g) (gm_worker g)), snd lb).

(** The request that was made for a name. *)
Definition request_for (requests : list RateLimitAcquireRequest) (name : string) : option RateLimitAcquireRequest :=
  last (filter (fun q => arq_FlowControl q = name) requests).

Fixpoint take_results (unixNow requestTime : Z) (requests : list RateLimitAcquireRequest) (l : upstreamLimiter)
    (results : list RateLimitAcquireResult) : result Empty_set (upstreamLimiter * list string) :=
  match results with
  | [] => Ok (l, [])
  | r :: results' =>
      let name := arr_FlowControl r in
      match gm_counterMap (gl_counters l) !! name with
      | None => take_results unixNow requestTime requests l results'
      | Some _ =>
          let! lb := send unixNow l name (MkAcquired (request_for requests name) r requestTime) in
          let! rest := take_results unixNow requestTime requests (fst lb) results' in
          Ok (fst rest, (if snd lb : bool then [name] else []) ++ snd rest)
      end
  end.

(** What is made of an error of the call. *)
Definition error_results (message : string) (requests : list RateLimitAcquireRequest) : list RateLimitAcquireResult :=
  (fun q => MkAcquireResult (arq_FlowControl q) false 0 message) <$> requests.

Definition take_answer (unixNow : Z) (req : RateLimitAcquire) (answer : string + RateLimitAcquire)
    (l : upstreamLimiter) : result Empty_set (upstreamLimiter * list string) :=
  let requests := Requests (ra_Spec req) in
  take_results unixNow (RequestID (ra_Spec req)) requests l
    (match answer with inl e => error_results e requests | inr a => Results (ra_Status a) end).

(** A turn of [resetCheck] of the counter of a name. *)
Definition resetCheck (unixNow : Z) (l : upstreamLimiter) (name : string) : result Empty_set upstreamLimiter :=
  match gm_counterMap (gl_counters l) !! name with
  | None => Ok l
  | Some gc =>
      if 4 <? unixNow - gc_lastSyncTime gc then
        match remote_of l name with
        | Some (c, MkRemote (Some w) _) =>
            let! wb := Global_SetLimit (fcc_localConfig c) (fcc_meter c) w
                         (MkAcquired None (MkAcquireResult "" false 0 "timeout") 0) in
            Ok (set_remote l name (fcc_meter c) (fst wb))
        | _ => Ok l
        end
      else Ok l
  end.

(** ** Requests *)

Definition count_if (b : bool) (l : upstreamLimiter) (name : string) : upstreamLimiter :=
  if b then with_counters l (counters_Count (gl_counters l) name) else l.

(** [TryAcquire] of the remote flow control of a name, up to its decision or
    the point where it waits, and from there on. *)
Definition remote_request (step : Meter -> GlobalCounterFlowControl -> Meter * GlobalCounterFlowControl * bool * progress)
    (l : upstreamLimiter) (name : string) : result Empty_set (upstreamLimiter * progress) :=
  match remote_of l name with
  | Some (c, MkRemote (Some w) _) =>
      let '(mt, w, event, p) := step (fcc_meter c) w in
      Ok (count_if event (set_remote l name mt w) name, p)
  | _ => Panic
  end.

Definition remote_TryAcquire_begin (now : Z) := remote_request (Global_TryAcquire_begin now).
Definition remote_TryAcquire_end (now : Z) := remote_request (Global_TryAcquire_end now).

Definition set_local (l : upstreamLimiter) (name : string) (mt : Meter) (fc : LocalFlowControl) : upstreamLimiter :=
  with_caches l (gl_counters l)
    (alter (fun c => with_meter (with_local c (Some fc) (fcc_localConfig c)) mt) name (gl_flowControls l)).

(** [TryAcquire] of the local flow control. *)
Definition local_TryAcquire (now : Z) (l : upstreamLimiter) (name : string)
    : result Empty_set (upstreamLimiter * bool) :=
  match c ← gl_flowControls l !! name; fc ← fcc_local c; Some (c, fc) with
  | None => Panic
  | Some (c, fc) =>
      let '(mt, fc, ok) := meter_TryAcquire now (fcc_meter c) fc in Ok (set_local l name mt fc, ok)
  end.

(** [Release] of either; a cache that is gone takes nothing back. *)
Definition remote_Release (l : upstreamLimiter) (name : string) : upstreamLimiter :=
  match remote_of l name with
  | Some (c, MkRemote (Some w) _) =>
      let '(mt, w, event) := Global_Release (fcc_meter c) w in count_if event (set_remote l name mt w) name
  | _ => l
  end.

Definition local_Release (l : upstreamLimiter) (name : string) : upstreamLimiter :=
  match c ← gl_flowControls l !! name; fc ← fcc_local c; Some (c, fc) with
  | None => l
  | Some (c, fc) => let '(mt, fc) := meter_Release (fcc_meter c) fc in set_local l name mt fc
  end.
End counter.
