(* ===== verification/Allocation.v ===== *)
(** The allocation of quota to the clients of the rate limit server
    ([pkg/ratelimiter/limiter/allocation.go]). *)
From stdpp Require Import base list strings.
From Stdlib Require Import ZArith SpecFloat Lia.
From S2P Require Import Prelude ApiTypes FlowControl Float64.

Local Open Scope Z_scope.
Local Open Scope go_scope.

Definition ExpectUtilizationPercent : float64 := of_ratio 70 100.
Definition ReducePercent : float64 := of_ratio 2 10.
Definition IncreasePercent : float64 := of_ratio 3 10.
Definition MinimumQuotaPercent : float64 := of_ratio 2 1000.
Definition InitialQuotaPercent : float64 := of_ratio 5 100.

Definition getLimitQuota (limit : LimitItemDetail) (typ : FlowControlSchemaType) : Z :=
  match typ with
  | MaxRequestsInflight =>
      match li_MaxRequestsInflight limit with None => 0 | Some m => Max m end
  | TokenBucket =>
      match li_TokenBucket limit with None => 0 | Some tb => QPS tb end
  | _ => -1
  end.

(** [a / b] on int32: division by zero panics. *)
Definition div32 (a b : Z) : result Empty_set Z :=
  if b =? 0 then Panic else Ok (wrap32 (Z.quot a b)).

Section allocation.
Context `{FloatToInt}.

Definition setFlowControlLimit (limit : LimitItemDetail) (typ : FlowControlSchemaType)
    (qps burst : float64) : LimitItemDetail :=
  match typ with
  | MaxRequestsInflight =>
      MkDetail (Some (MkMaxInflight (to_int32 qps))) (li_TokenBucket limit)
  | TokenBucket =>
      MkDetail (li_MaxRequestsInflight limit)
        (Some (MkTokenBucket (to_int32 qps) (to_int32 burst)))
  | _ => limit
  end.

(** The thresholds of lines 54 to 87, from the request level of the upstream:
    reducing, increasing and the expected allocation percent. *)
Definition thresholds (upstreamLevel : Z) (used total : float64) : result Empty_set (Z * Z * Z) :=
  let expectTotalLevel := wrap32 (Z.quot (wrap32 (upstreamLevel * 95)) 100 + 5) in
  let minPercent := to_int32 (fsub (of_int 70) (fdiv total (of_int 100))) in
  let minPercent := if minPercent <? 60 then 60 else minPercent in
  let expectedAllocatePercent :=
    wrap32 (Z.quot (wrap32 (upstreamLevel * wrap32 (100 - minPercent))) 100 + minPercent) in
  let! targetLevel := div32 (wrap32 (expectTotalLevel * 100)) expectedAllocatePercent in
  let targetLevel :=
    wrap32 (targetLevel + to_int32 (fsqrt (fdiv (fmul used (of_int 100)) total))) in
  let targetLevel := if 100 <? targetLevel then 100 else targetLevel in
  Ok (if 50 <? targetLevel then (wrap32 (targetLevel - 5), targetLevel, expectedAllocatePercent)
      else (targetLevel, wrap32 (targetLevel + 5), expectedAllocatePercent)).

(** A reduction of less than one request is one request. *)
Definition at_least_one (reduce : float64) : float64 :=
  if fltb (of_int 0) reduce && fltb reduce (of_int 1) then of_int 1 else reduce.

(** The switch of lines 91 to 145: the quota wanted next. *)
Definition wanted_quota (level reducingThreshold increasingThreshold expectedAllocatePercent : Z)
    (current used total allocated remaining : float64) (clientCount : Z) : float64 :=
  let allocatedPercent := fmul (fdiv allocated total) (of_int 100) in
  if feqb current (of_int 0) then
    if clientCount <=? 10 then fmul remaining InitialQuotaPercent
    else fdiv remaining (of_int clientCount)
  else if level =? 0 then
    let upper := fround (fdiv (fmul total ExpectUtilizationPercent) (of_int clientCount)) in
    if fltb allocatedPercent (fsub (of_int expectedAllocatePercent) (of_int 5)) then
      let next := fadd current (fmul remaining IncreasePercent) in
      if fltb upper next then upper else next
    else if fleb (of_int expectedAllocatePercent) allocatedPercent || fltb upper current then
      let reduce := fmul current ReducePercent in
      let minReduce := fdiv total (of_int 50) in
      let reduce := if fltb (of_int 0) reduce && fltb reduce minReduce then minReduce else reduce in
      fsub current (at_least_one reduce)
    else current
  else if level <? reducingThreshold then
    let reduce := fmul current ReducePercent in
    let maxReduce := fsub current used in
    let reduce := if fltb maxReduce reduce then maxReduce else reduce in
    fsub current (at_least_one reduce)
  else if increasingThreshold <=? level then
    let delta := fmul current IncreasePercent in
    let delta := if 100 <? level then fmul delta (of_int 2) else delta in
    if fltb delta remaining then fadd current delta else fadd current remaining
  else current.

(** Lines 147 to 159: the bounds on the quota, and its rounding. *)
Definition bounded_quota (next current total remaining : float64) : float64 :=
  let next := if fltb next (of_int 1) then of_int 1 else next in
  let next := if fltb next (fmul total MinimumQuotaPercent) then fmul total MinimumQuotaPercent
              else next in
  let next := if fltb remaining (fsub next current) then fadd current remaining else next in
  fceil next.

Definition calculateNextQuota (upstreamTotal : RateLimitItemConfiguration)
    (upstreamUsed : RateLimitItemStatus) (flowControlConfig : RateLimitItemConfiguration)
    (flowControlStatus : RateLimitItemStatus) (clientCount : Z)
    : result Empty_set RateLimitItemConfiguration :=
  if decide (ric_Strategy flowControlConfig = GlobalCountLimit) then
    Ok (MkItemConfig (ric_Name flowControlConfig)
          (MkDetail (li_MaxRequestsInflight (ric_Detail upstreamTotal))
             (li_TokenBucket (ric_Detail upstreamTotal)))
          (ric_Strategy flowControlConfig))
  else
    let typ := GetFlowControlTypeFromLimitItem (ric_Detail upstreamTotal) in
    let current := of_int (getLimitQuota (ric_Detail flowControlConfig) typ) in
    let used := of_int (getLimitQuota (ris_Detail flowControlStatus) typ) in
    let total := of_int (getLimitQuota (ric_Detail upstreamTotal) typ) in
    let allocated := of_int (getLimitQuota (ris_Detail upstreamUsed) typ) in
    let remaining := fsub total allocated in
    let level :=
      if fleb used current && (100 <? RequestLevel flowControlStatus) then
        to_int32 (fdiv (fmul used (of_int 100)) current)
      else RequestLevel flowControlStatus in
    let! (reducingThreshold, increasingThreshold, expectedAllocatePercent) :=
      thresholds (RequestLevel upstreamUsed) used total in
    let next := wanted_quota level reducingThreshold increasingThreshold expectedAllocatePercent
                  current used total allocated remaining clientCount in
    let next := bounded_quota next current total remaining in
    let! burst :=
      match typ with
      | TokenBucket =>
          match li_TokenBucket (ric_Detail upstreamTotal) with
          | None => Panic
          | Some tb => Ok (fmul (fdiv next total) (of_int (Burst tb)))
          end
      | _ => Ok (of_int 0)
      end in
    let burst := fceil burst in
    Ok (MkItemConfig (ric_Name flowControlConfig)
          (setFlowControlLimit (ric_Detail flowControlConfig) typ next burst)
          (ric_Strategy flowControlConfig)).
End allocation.
