(* ===== verification/RateLimiter.v ===== *)
(** The rate limit server ([pkg/ratelimiter/limiter/ratelimter.go],
    [clientcache.go] and [elector/leader_elector.go]): the handlers of
    acquire and status requests, the upstream handler, leadership of shards
    and the periodic clean-up.

    The state is that of the [rateLimiter] with its client cache and leader
    map; stores are any implementation of [LimitStore].  A handler is one
    step: the state before, its request, and the state and answer after.
    Locks are not modelled here, logs and metrics are left out. *)
From stdpp Require Import base list strings gmap sets sorting.
From Stdlib Require Import ZArith SpecFloat Lia.
From S2P Require Import Prelude ApiTypes FlowControl GlobalFlowControl LimitStore Float64 Allocation.

Local Open Scope Z_scope.
Local Open Scope go_scope.

(** * Errors *)

Inductive limiter_error :=
  | StoreError (e : api_error)
  | NotLeader (upstream : string) (shard : Z) (leader : string)
  | StoreNotFound (upstream : string) (shard : Z)
  | LockMissing
  | TypeMismatch (upstreamType itemType : FlowControlSchemaType)
  | SaveUpstreamError (e : api_error)
  | ListError (e : api_error).

(** * Leader election *)

Definition EndpointInfo_zero : EndpointInfo := MkEndpointInfo "" 0.

(** [leaderInfo] of the elector; the time of the last change is not kept. *)
Abbreviation leader_map := (gmap Z EndpointInfo) (only parsing).

Definition IsLeader (identity : string) (leaderInfo : leader_map) (shardId : Z) : bool :=
  bool_decide (Leader (default EndpointInfo_zero (leaderInfo !! shardId)) = identity).

Definition setLeader (leaderInfo : leader_map) (shardId : Z) (identity : string) : leader_map :=
  let info := default (MkEndpointInfo "" (wrap32 shardId)) (leaderInfo !! shardId) in
  <[shardId := MkEndpointInfo identity (ShardID info)]> leaderInfo.

(** What [stopLeading] of the elector does before its callback. *)
Definition unsetLeader (identity : string) (leaderInfo : leader_map) (shardId : Z) : leader_map :=
  if IsLeader identity leaderInfo shardId then delete shardId leaderInfo else leaderInfo.

(** * Small functions *)

Definition upstreamStateConditionName (cluster : string) : string := cluster +:+ ".state".

Definition toFlowControlLimit (schema : FlowControlSchema) : LimitItemDetail :=
  match fc_GlobalMaxRequestsInflight (fs_Config schema), fc_GlobalTokenBucket (fs_Config schema) with
  | Some g, _ => MkDetail (Some (MkMaxInflight (Max g))) None
  | None, Some g => MkDetail None (Some (MkTokenBucket (QPS g) (Burst g)))
  | None, None => empty_detail
  end.

(** The status of a schema in the upstream's condition: the old one, or an
    empty one, with the kind of the schema present. *)
Definition next_status (old : option RateLimitItemStatus) (name : string) (d : LimitItemDetail)
    : RateLimitItemStatus :=
  let st := default (MkItemStatus name empty_detail 0) old in
  let tb := if is_some (li_TokenBucket d) && negb (is_some (li_TokenBucket (ris_Detail st)))
            then Some (MkTokenBucket 0 0) else li_TokenBucket (ris_Detail st) in
  let m := if is_some (li_MaxRequestsInflight d)
              && negb (is_some (li_MaxRequestsInflight (ris_Detail st)))
           then Some (MkMaxInflight 0) else li_MaxRequestsInflight (ris_Detail st) in
  MkItemStatus (ris_Name st) (MkDetail m tb) (RequestLevel st).

Definition updateUpstreamStateCondition (upstreamCondition : option RateLimitCondition)
    (cluster : UpstreamCluster) : RateLimitCondition :=
  let c := default
    (MkCondition (upstreamStateConditionName (uc_Name cluster)) "" None
       (MkRateLimitSpec (uc_Name cluster) "" []) (MkRateLimitStatus [])) upstreamCondition in
  let statuses := FlowControlStatusToMap (LimitItemStatuses (rlc_Status c)) in
  let schemas := Schemas (spec_FlowControl (uc_Spec cluster)) in
  let newFlowControls :=
    (fun s => MkItemConfig (fs_Name s) (toFlowControlLimit s) "") <$> schemas in
  let newFlowControlStatus :=
    (fun s => next_status (statuses !! fs_Name s) (fs_Name s) (toFlowControlLimit s)) <$> schemas in
  MkCondition (rlc_Name c) (rlc_ResourceVersion c) (rlc_Labels c)
    (MkRateLimitSpec (rls_UpstreamCluster (rlc_Spec c)) (rls_Instance (rlc_Spec c)) newFlowControls)
    (MkRateLimitStatus newFlowControlStatus).

Definition RateLimitConditionInstanceLabel : string :=
  "proxy.kubegateway.io/ratelimitcondition.instance".

Definition shard_le (a b : EndpointInfo) : Prop := ShardID a <= ShardID b.
#[export] Instance shard_le_dec a b : Decision (shard_le a b).
Proof. unfold shard_le. apply _. Defined.

(** [ClientHeartBeatTimeout], in nanoseconds. *)
Definition ClientHeartBeatTimeout : Z := 3 * 10 ^ 9.

Section rate_limiter.
Context `{RateLimiter} `{MapRange} `{FloatToInt} {W S : Type} `{!LimitStore W S}.

(** [err.Error()] of a store error. *)
Context (error_text : api_error -> string).

(** * The upstream's totals *)

(** Adding one granted item to the totals (lines 699 to 722). *)
Definition add_item (totals : gmap string RateLimitItemStatus) (item : RateLimitItemConfiguration)
    : gmap string RateLimitItemStatus :=
  let total := default (MkItemStatus (ric_Name item) empty_detail 0) (totals !! ric_Name item) in
  let d := ris_Detail total in
  let d' :=
    match li_MaxRequestsInflight (ric_Detail item), li_TokenBucket (ric_Detail item) with
    | Some m, _ =>
        MkDetail (Some (MkMaxInflight
          (wrap32 (from_option Max 0 (li_MaxRequestsInflight d) + Max m)))) (li_TokenBucket d)
    | None, Some tb =>
        MkDetail (li_MaxRequestsInflight d)
          (Some (MkTokenBucket (wrap32 (from_option QPS 0 (li_TokenBucket d) + QPS tb))
                   (wrap32 (from_option Burst 0 (li_TokenBucket d) + Burst tb))))
    | None, None => d
    end in
  <[ric_Name item := MkItemStatus (ris_Name total) d' (RequestLevel total)]> totals.

(** Adding one reported status to the request levels (lines 724 to 738); the
    limit of the upstream is dereferenced. *)
Definition add_level (configs : gmap string RateLimitItemConfiguration)
    (levels : gmap string float64) (st : RateLimitItemStatus)
    : result Empty_set (gmap string float64) :=
  let level := default (of_int 0) (levels !! ris_Name st) in
  match configs !! ris_Name st with
  | None => Ok levels
  | Some config =>
      let! level :=
        match li_MaxRequestsInflight (ris_Detail st), li_TokenBucket (ris_Detail st) with
        | Some m, _ =>
            match li_MaxRequestsInflight (ric_Detail config) with
            | None => Panic
            | Some total => Ok (fadd level (fdiv (of_int (Max m)) (of_int (Max total))))
            end
        | None, Some tb =>
            match li_TokenBucket (ric_Detail config) with
            | None => Panic
            | Some total => Ok (fadd level (fdiv (of_int (QPS tb)) (of_int (QPS total))))
            end
        | None, None => Ok level
        end in
      Ok (<[ris_Name st := level]> levels)
  end.

Fixpoint add_levels (configs : gmap string RateLimitItemConfiguration)
    (levels : gmap string float64) (sts : list RateLimitItemStatus)
    : result Empty_set (gmap string float64) :=
  match sts with
  | [] => Ok levels
  | st :: sts' => let! levels := add_level configs levels st in add_levels configs levels sts'
  end.

(** The loop over the conditions of the upstream, its own state excluded. *)
Fixpoint sum_conditions (stateName : string) (configs : gmap string RateLimitItemConfiguration)
    (totals : gmap string RateLimitItemStatus) (levels : gmap string float64)
    (conditions : list RateLimitCondition)
    : result Empty_set (gmap string RateLimitItemStatus * gmap string float64) :=
  match conditions with
  | [] => Ok (totals, levels)
  | c :: conditions' =>
      if decide (rlc_Name c = stateName) then
        sum_conditions stateName configs totals levels conditions'
      else
        let totals := foldl add_item totals (LimitItemConfigurations (rlc_Spec c)) in
        let! levels := add_levels configs levels (LimitItemStatuses (rlc_Status c)) in
        sum_conditions stateName configs totals levels conditions'
  end.

Definition calculateUpstreamCondition (store : S) (c : RateLimitCondition)
    : result Empty_set RateLimitCondition :=
  let upstream := rls_UpstreamCluster (rlc_Spec c) in
  let! (totals, levels) :=
    sum_conditions (upstreamStateConditionName upstream)
      (FlowControlConfigToMap (LimitItemConfigurations (rlc_Spec c))) ∅ ∅
      (ls_ListUpstream store upstream) in
  let statuses :=
    (fun '(_, st) => MkItemStatus (ris_Name st) (ris_Detail st)
       (to_int32 (fmul (default (of_int 0) (levels !! ris_Name st)) (of_int 100))))
    <$> Range totals in
  Ok (MkCondition (rlc_Name c) (rlc_ResourceVersion c) (rlc_Labels c) (rlc_Spec c)
        (MkRateLimitStatus statuses)).

(** * The server *)

Record rateLimiter := MkRateLimiter {
  rl_runId : string;
  rl_identity : string;
  rl_shardCount : Z;
  rl_leaderInfo : leader_map;
  rl_clientCache : gmap string Z;
  rl_limitStoreMap : gmap Z S;
  rl_upstreamLock : gset string;
  rl_world : W
}.

Definition with_stores (r : rateLimiter) (m : gmap Z S) (w : W) : rateLimiter :=
  MkRateLimiter (rl_runId r) (rl_identity r) (rl_shardCount r) (rl_leaderInfo r)
    (rl_clientCache r) m (rl_upstreamLock r) w.

(** The store of a shard after an operation on it. *)
Definition put_store (r : rateLimiter) (shard : Z) (store : S) : rateLimiter :=
  with_stores r (<[shard := store]> (rl_limitStoreMap r)) (rl_world r).

Definition put_store_world (r : rateLimiter) (shard : Z) (ws : W * S) : rateLimiter :=
  with_stores r (<[shard := snd ws]> (rl_limitStoreMap r)) (fst ws).

Definition rl_IsLeader (r : rateLimiter) (shard : Z) : bool :=
  IsLeader (rl_identity r) (rl_leaderInfo r) shard.

Definition leader_of (r : rateLimiter) (shard : Z) : string :=
  Leader (default EndpointInfo_zero (rl_leaderInfo r !! shard)).

Definition getLimitStoreForShard (r : rateLimiter) (shard : Z) : option S :=
  rl_limitStoreMap r !! shard.

(** ** Acquire *)

(** At most four tries, each with half the tokens of the one before.
    [clock i] is the time of the try [i]. *)
Fixpoint try_tokens (tries : nat) (clock : nat -> Z) (fc : GlobalFlowControl) (instance : string)
    (token : Z) : GlobalFlowControl * bool * Z :=
  match tries with
  | O => (fc, false, 0)
  | Datatypes.S tries' =>
      let '(fc, accept) := GlobalFlowControl_TryAcquireN (clock (4 - tries)%nat) fc instance token in
      if accept then (fc, true, token)
      else
        let token := Z.quot token 2 in
        if token <=? 0 then (fc, false, 0) else try_tokens tries' clock fc instance token
  end.

(** The closure of [DoAcquire] for one requested limit, with the errors it
    returns put in the result. *)
Definition acquire_one (clock : nat -> Z) (store : S) (upstream instance : string)
    (requestId : Z) (limit : RateLimitAcquireRequest)
    : S * result Empty_set RateLimitAcquireResult :=
  let name := arq_FlowControl limit in
  match ls_GetFlowControl store upstream name with
  | Panic => (store, Panic)
  | Err e => (store, Ok (MkAcquireResult name false 0 (error_text e)))
  | Ok fc =>
      if Tokens limit <? 0 then
        (store, Ok (MkAcquireResult name false 0 "tokens cannot be negative"))
      else
        match GlobalFlowControl_Type fc with
        | TokenBucket =>
            let '(fc', accept, granted) := try_tokens 4 clock fc instance (Tokens limit) in
            (ls_UpdateFlowControl store upstream name (fun _ => fc'),
             Ok (MkAcquireResult name accept granted ""))
        | MaxRequestsInflight =>
            let '(fc', (accept, threshold, err)) :=
              GlobalFlowControl_SetState fc instance requestId (Tokens limit) in
            (ls_UpdateFlowControl store upstream name (fun _ => fc'),
             Ok (match err with
                 | Some RequestIDTooOld => MkAcquireResult name false 0 "RequestIDTooOld"
                 | None => if accept then MkAcquireResult name true (Tokens limit) ""
                           else MkAcquireResult name false threshold ""
                 end))
        | _ => (store, Ok (MkAcquireResult name false 0 ""))
        end
  end.

Fixpoint acquire_all (clock : nat -> nat -> Z) (store : S) (upstream instance : string)
    (requestId : Z) (limits : list RateLimitAcquireRequest)
    : S * result Empty_set (list RateLimitAcquireResult) :=
  match limits with
  | [] => (store, Ok [])
  | limit :: limits' =>
      match acquire_one (clock (length limits)) store upstream instance requestId limit with
      | (store, Ok rs) =>
          let '(store, rest) := acquire_all clock store upstream instance requestId limits' in
          (store, result_bind rest (fun l => Ok (rs :: l)))
      | (store, Err e) => (store, Err e)
      | (store, Panic) => (store, Panic)
      end
  end.

Definition lift {A} (c : result Empty_set A) : result limiter_error A :=
  match c with Ok a => Ok a | Err e => match e with end | Panic => Panic end.

Definition DoAcquire (clock : nat -> nat -> Z) (r : rateLimiter) (upstream : string)
    (req : RateLimitAcquire) : rateLimiter * result limiter_error RateLimitAcquire :=
  match GetShardID upstream (rl_shardCount r) with
  | Panic => (r, Panic)
  | Err e => match e with end
  | Ok shard =>
      if rl_IsLeader r shard then
        match getLimitStoreForShard r shard with
        | None => (r, Err (StoreNotFound upstream shard))
        | Some store =>
            let spec := ra_Spec req in
            let '(store, results) :=
              acquire_all clock store upstream (as_Instance spec) (RequestID spec) (Requests spec) in
            (put_store r shard store,
             let! results := lift results in
             Ok (MkAcquire (ra_Name req) spec
                   (MkAcquireStatus (Results (ra_Status req) ++ results))))
        end
      else (r, Err (NotLeader upstream shard (leader_of r shard)))
  end.

(** ** Status reports of the clients *)

(** The loop of [UpdateRateLimitConditionStatus] over the items of the
    reported condition; the limit it reads for its metric is dereferenced. *)
Fixpoint next_configs (statuses upstreamStatuses : gmap string RateLimitItemStatus)
    (upstreamConfigs : gmap string RateLimitItemConfiguration) (clientCount : Z)
    (items : list RateLimitItemConfiguration)
    : result limiter_error (list RateLimitItemConfiguration) :=
  match items with
  | [] => Ok []
  | item :: items' =>
      match upstreamConfigs !! ric_Name item with
      | None => next_configs statuses upstreamStatuses upstreamConfigs clientCount items'
      | Some upstreamTotal =>
          let status := default empty_item_status (statuses !! ric_Name item) in
          let upstreamUsed := default empty_item_status (upstreamStatuses !! ric_Name item) in
          let itemType := GetFlowControlTypeFromLimitItem (ric_Detail item) in
          let upstreamItemType := GetFlowControlTypeFromLimitItem (ric_Detail upstreamTotal) in
          if bool_decide (itemType <> Unknown) && bool_decide (itemType <> upstreamItemType) then
            Err (TypeMismatch upstreamItemType itemType)
          else
            let! newConfig :=
              lift (calculateNextQuota upstreamTotal upstreamUsed item status clientCount) in
            let missing :=
              match itemType with
              | MaxRequestsInflight => negb (is_some (li_MaxRequestsInflight (ric_Detail newConfig)))
              | TokenBucket => negb (is_some (li_TokenBucket (ric_Detail newConfig)))
              | _ => false
              end in
            if missing then Panic
            else
              let! rest :=
                next_configs statuses upstreamStatuses upstreamConfigs clientCount items' in
              Ok (newConfig :: rest)
      end
  end.

(** The condition a report is compared with when the store has none. *)
Definition initial_condition (upstreamCondition condition : RateLimitCondition)
    : RateLimitCondition :=
  MkCondition (rlc_Name condition) "" None
    (MkRateLimitSpec (rls_UpstreamCluster (rlc_Spec upstreamCondition)) ""
       (LimitItemConfigurations (rlc_Spec condition))) (MkRateLimitStatus []).

(** The report with the instance label and the new quotas. *)
Definition granted (condition oldCondition : RateLimitCondition)
    (items : list RateLimitItemConfiguration) : RateLimitCondition :=
  MkCondition (rlc_Name condition) (rlc_ResourceVersion condition)
    (Some (<[RateLimitConditionInstanceLabel := rls_Instance (rlc_Spec oldCondition)]>
             (default ∅ (rlc_Labels condition))))
    (MkRateLimitSpec (rls_UpstreamCluster (rlc_Spec condition)) (rls_Instance (rlc_Spec condition))
       items) (rlc_Status condition).

(** The two saves at the end: the report, and the recomputed totals, which
    are first written through the pointer the store returned. *)
Definition save_report (w : W) (store : S) (upstreamCondition condition : RateLimitCondition)
    : W * S * result limiter_error RateLimitCondition :=
  let cluster := rls_UpstreamCluster (rlc_Spec condition) in
  match ls_Save w store cluster condition with
  | (w, store, Err e) => (w, store, Err (StoreError e))
  | (w, store, Panic) => (w, store, Panic)
  | (w, store, Ok _) =>
      match calculateUpstreamCondition store upstreamCondition with
      | Panic => (w, store, Panic)
      | Err e => match e with end
      | Ok totals =>
          let store := ls_UpdateCondition store cluster (rlc_Name upstreamCondition)
                         (fun _ => totals) in
          match ls_Save w store cluster totals with
          | (w, store, Err e) => (w, store, Err (SaveUpstreamError e))
          | (w, store, Panic) => (w, store, Panic)
          | (w, store, Ok _) => (w, store, Ok condition)
          end
      end
  end.

Definition UpdateRateLimitConditionStatus (r : rateLimiter) (upstream : string)
    (condition : RateLimitCondition) : rateLimiter * result limiter_error RateLimitCondition :=
  match GetShardID upstream (rl_shardCount r) with
  | Panic => (r, Panic)
  | Err e => match e with end
  | Ok shard =>
      if rl_IsLeader r shard then
        match getLimitStoreForShard r shard with
        | None => (r, Err (StoreNotFound upstream shard))
        | Some store =>
            let cluster := rls_UpstreamCluster (rlc_Spec condition) in
            match ls_Get store cluster (upstreamStateConditionName cluster) with
            | Panic => (r, Panic)
            | Err e => (r, Err (StoreError e))
            | Ok upstreamCondition =>
                if decide (cluster ∈ rl_upstreamLock r) then
                  let old :=
                    match ls_Get store cluster (rlc_Name condition) with
                    | Err e => if IsNotFound e then Ok (initial_condition upstreamCondition condition)
                               else Err (StoreError e)
                    | Ok c => Ok c
                    | Panic => Panic
                    end in
                  let items :=
                    let! oldCondition := old in
                    let! items :=
                      next_configs
                        (FlowControlStatusToMap (LimitItemStatuses (rlc_Status condition)))
                        (FlowControlStatusToMap (LimitItemStatuses (rlc_Status upstreamCondition)))
                        (FlowControlConfigToMap (LimitItemConfigurations (rlc_Spec upstreamCondition)))
                        (Z.of_nat (size (rl_clientCache r)))
                        (LimitItemConfigurations (rlc_Spec condition)) in
                    Ok (granted condition oldCondition items) in
                  match items with
                  | Panic => (r, Panic)
                  | Err e => (r, Err e)
                  | Ok condition =>
                      let '(w, store, res) :=
                        save_report (rl_world r) store upstreamCondition condition in
                      (put_store_world r shard (w, store), res)
                  end
                else (r, Err LockMissing)
            end
        end
      else (r, Err (NotLeader upstream shard (leader_of r shard)))
  end.

(** ** Queries *)

Definition lookup_condition (r : rateLimiter) (upstream name : string)
    : result limiter_error RateLimitCondition :=
  match GetShardID upstream (rl_shardCount r) with
  | Panic => Panic
  | Err e => match e with end
  | Ok shard =>
      match getLimitStoreForShard r shard with
      | None => Err (StoreNotFound upstream shard)
      | Some store =>
          match ls_Get store upstream name with
          | Ok c => Ok c
          | Err e => Err (StoreError e)
          | Panic => Panic
          end
      end
  end.

Definition GetUpstreamStatus (r : rateLimiter) (upstream : string)
    : result limiter_error RateLimitCondition :=
  lookup_condition r upstream (upstreamStateConditionName upstream).

(** What the cache of UpstreamClusters answers. *)
Record cluster_lister := MkLister {
  lister_clusters : api_error + list UpstreamCluster;
  lister_Get : string -> api_error + UpstreamCluster
}.

(** The last cluster whose name is a prefix of the condition's. *)
Definition upstream_of_condition (clusters : list UpstreamCluster) (condition : string) : string :=
  foldl (fun upstream c => if HasPrefix condition (uc_Name c) then uc_Name c else upstream) ""
    clusters.

Definition GetRateLimitCondition (lister : cluster_lister) (r : rateLimiter)
    (upstream condition : string) : result limiter_error RateLimitCondition :=
  if decide (upstream = "") then
    match lister_clusters lister with
    | inl e => Err (ListError e)
    | inr clusters => lookup_condition r (upstream_of_condition clusters condition) condition
    end
  else lookup_condition r upstream condition.

Definition Heartbeat (now : Z) (r : rateLimiter) (instance : string) : rateLimiter :=
  MkRateLimiter (rl_runId r) (rl_identity r) (rl_shardCount r) (rl_leaderInfo r)
    (<[instance := now]> (rl_clientCache r)) (rl_limitStoreMap r) (rl_upstreamLock r) (rl_world r).

(** [sort.Slice] on the shards and on the endpoints by shard. *)
Definition ServerInfo (r : rateLimiter) : RateLimitServerInfo :=
  let leaders := Range (rl_leaderInfo r) in
  let endpoints := snd <$> leaders in
  let managed :=
    (fun '(shard, _) => wrap32 shard)
    <$> filter (fun '(_, info) => Leader info = rl_identity r) leaders in
  MkServerInfo (rl_identity r) (rl_runId r) (wrap32 (rl_shardCount r))
    (merge_sort Z.le managed)
    (merge_sort shard_le endpoints).

(** ** Upstream clusters *)

Definition with_lock (r : rateLimiter) (cluster : string) : rateLimiter :=
  MkRateLimiter (rl_runId r) (rl_identity r) (rl_shardCount r) (rl_leaderInfo r)
    (rl_clientCache r) (rl_limitStoreMap r) ({[cluster]} ∪ rl_upstreamLock r) (rl_world r).

(** Saving the state of a cluster that exists and synchronising its flow
    controls; an existing state is first written through its pointer. *)
Definition save_upstream (w : W) (store : S) (cluster : UpstreamCluster)
    : W * S * result limiter_error unit :=
  let name := uc_Name cluster in
  let stateName := upstreamStateConditionName name in
  let save (store : S) (c : RateLimitCondition) :=
    match ls_Save w store name c with
    | (w, store, Err e) => (w, store, Err (StoreError e))
    | (w, store, Panic) => (w, store, Panic)
    | (w, store, Ok _) => (w, ls_SyncFlowControl store name (spec_FlowControl (uc_Spec cluster)), Ok tt)
    end in
  match ls_Get store name stateName with
  | Panic => (w, store, Panic)
  | Err e =>
      if IsNotFound e then save store (updateUpstreamStateCondition None cluster)
      else (w, store, Err (StoreError e))
  | Ok c =>
      let c' := updateUpstreamStateCondition (Some c) cluster in
      save (ls_UpdateCondition store name stateName (fun _ => c')) c'
  end.

Definition UpstreamConditionHandler (lister : cluster_lister) (r : rateLimiter)
    (cluster : UpstreamCluster) : rateLimiter * result limiter_error unit :=
  let name := uc_Name cluster in
  match GetShardID name (rl_shardCount r) with
  | Panic => (r, Panic)
  | Err e => match e with end
  | Ok shard =>
      if rl_IsLeader r shard then
        match getLimitStoreForShard r shard with
        | None => (r, Err (StoreNotFound name shard))
        | Some store =>
            match lister_Get lister name with
            | inl e =>
                if IsNotFound e then
                  match ls_DeleteUpstream (rl_world r) store name with
                  | (w, store, Ok _) => (put_store_world r shard (w, store), Ok tt)
                  | (w, store, Err e) => (put_store_world r shard (w, store), Err (StoreError e))
                  | (w, store, Panic) => (put_store_world r shard (w, store), Panic)
                  end
                else (r, Err (StoreError e))
            | inr _ =>
                let r := with_lock r name in
                let '(w, store, res) := save_upstream (rl_world r) store cluster in
                (put_store_world r shard (w, store), res)
            end
        end
      else (r, Ok tt)
  end.

Fixpoint handle_clusters (lister : cluster_lister) (r : rateLimiter) (shard : Z)
    (clusters : list UpstreamCluster) : rateLimiter * result limiter_error unit :=
  match clusters with
  | [] => (r, Ok tt)
  | c :: clusters' =>
      match GetShardID (uc_Name c) (rl_shardCount r) with
      | Panic => (r, Panic)
      | Err e => match e with end
      | Ok id =>
          if id =? shard then
            match UpstreamConditionHandler lister r c with
            | (r, Ok _) => handle_clusters lister r shard clusters'
            | (r, e) => (r, e)
            end
          else handle_clusters lister r shard clusters'
      end
  end.

Definition syncUpstreamClustersForShard (lister : cluster_lister) (r : rateLimiter) (shard : Z)
    : rateLimiter * result limiter_error unit :=
  match lister_clusters lister with
  | inl e => (r, Err (ListError e))
  | inr clusters => handle_clusters lister r shard clusters
  end.

(** ** Leading a shard *)

(** [store.NewLimitStore] for a shard; nil for an unknown kind. *)
Context (newStore : Z -> option S).

(** [stopLimitStoreWithRetry]: at most ten tries; the store is dropped. *)
Fixpoint stop_store (tries : nat) (w : W) (store : S) : W :=
  match tries with
  | O => w
  | Datatypes.S tries' =>
      match ls_Stop w store with
      | (w, _, Ok _) => w
      | (w, store, _) => stop_store tries' w store
      end
  end.

Definition drop_store (r : rateLimiter) (shard : Z) (store : S) : rateLimiter :=
  with_stores r (delete shard (rl_limitStoreMap r)) (stop_store 10 (rl_world r) store).

(** A panic ends the process, whatever the state. *)
Definition startLeading (lister : cluster_lister) (r : rateLimiter) (shard : Z) : rateLimiter :=
  match getLimitStoreForShard r shard with
  | Some _ => r
  | None =>
      match newStore shard with
      | None => r
      | Some store =>
          let '(w, store, res) := ls_Load (rl_world r) store in
          let r := put_store_world r shard (w, store) in
          match res with
          | Ok _ =>
              let '(r, res) := syncUpstreamClustersForShard lister r shard in
              match res with
              | Ok _ => r
              | Err _ =>
                  match getLimitStoreForShard r shard with
                  | Some store => drop_store r shard store
                  | None => r
                  end
              | Panic => r
              end
          | Err _ => drop_store r shard store
          | Panic => r
          end
      end
  end.

Definition stopLeading (r : rateLimiter) (shard : Z) : rateLimiter :=
  match getLimitStoreForShard r shard with
  | None => r
  | Some store => drop_store r shard store
  end.

(** The elector starts leading: it is recorded as leader, then the callback
    runs; and the reverse when it stops. *)
Definition with_leaders (r : rateLimiter) (m : leader_map) : rateLimiter :=
  MkRateLimiter (rl_runId r) (rl_identity r) (rl_shardCount r) m (rl_clientCache r)
    (rl_limitStoreMap r) (rl_upstreamLock r) (rl_world r).

Definition onStartedLeading (lister : cluster_lister) (r : rateLimiter) (shard : Z) : rateLimiter :=
  startLeading lister (with_leaders r (setLeader (rl_leaderInfo r) shard (rl_identity r))) shard.

Definition onStoppedLeading (r : rateLimiter) (shard : Z) : rateLimiter :=
  stopLeading (with_leaders r (unsetLeader (rl_identity r) (rl_leaderInfo r) shard)) shard.

Definition onNewLeader (r : rateLimiter) (shard : Z) (identity : string) : rateLimiter :=
  with_leaders r (setLeader (rl_leaderInfo r) shard identity).

Definition check_shard (lister : cluster_lister) (r : rateLimiter) (leader : Z * EndpointInfo)
    : rateLimiter :=
  let '(shard, info) := leader in
  if decide (Leader info = rl_identity r) then
    match getLimitStoreForShard r shard with
    | None => startLeading lister r shard
    | Some _ => r
    end
  else r.

(** [leaderCheck]: start the shards that are led without a store, stop the
    stores whose shard is not led. *)
Definition leaderCheck (lister : cluster_lister) (r : rateLimiter) : rateLimiter :=
  let leaders := rl_leaderInfo r in
  let r := foldl (check_shard lister) r (Range leaders) in
  let isLeader (shard : Z) : bool :=
    match leaders !! shard with
    | Some info => bool_decide (Leader info = rl_identity r)
    | None => false
    end in
  let leaderToStop :=
    filter (fun shard => isLeader shard = false) (fst <$> Range (rl_limitStoreMap r)) in
  foldl stopLeading r leaderToStop.

(** ** Clean-up *)

(** [labels.Set{...}.AsSelector()] on the instance label. *)
Context (instance_selector : string -> gmap string string -> bool).

Definition remove_client (r : rateLimiter) (instance : string) : rateLimiter :=
  MkRateLimiter (rl_runId r) (rl_identity r) (rl_shardCount r) (rl_leaderInfo r)
    (delete instance (rl_clientCache r)) (rl_limitStoreMap r) (rl_upstreamLock r) (rl_world r).

Definition deleteCondition_of (r : rateLimiter) (shard : Z) (condition : RateLimitCondition)
    : rateLimiter :=
  match GetShardID (rls_UpstreamCluster (rlc_Spec condition)) (rl_shardCount r),
        getLimitStoreForShard r shard with
  | Ok id, Some store =>
      if rl_IsLeader r id && negb (bool_decide (rls_Instance (rlc_Spec condition) = "")) then
        let '(w, store, _) := ls_Delete (rl_world r) store
          (rls_UpstreamCluster (rlc_Spec condition)) (rlc_Name condition) in
        put_store_world r shard (w, store)
      else r
  | _, _ => r
  end.

Definition deleteGlobalFlowControl (r : rateLimiter) (shard : Z) (instance : string) : rateLimiter :=
  match getLimitStoreForShard r shard with
  | Some store => put_store r shard (ls_DeleteInstanceState store instance)
  | None => r
  end.

(** The goroutine [cleanupTimeoutClient] starts for a client: for each store,
    the conditions of the client and its in-flight counts. *)
Definition cleanup_shard (instance : string) (r : rateLimiter) (entry : Z * S) : rateLimiter :=
  let '(shard, store) := entry in
  let conditions := ls_List store (instance_selector instance) in
  let r := foldl (fun r c => deleteCondition_of r shard c) r conditions in
  deleteGlobalFlowControl r shard instance.

Definition cleanup_instance (r : rateLimiter) (instance : string) : rateLimiter :=
  foldl (cleanup_shard instance) r (Range (rl_limitStoreMap r)).

(** The clients that timed out are forgotten; each gets a clean-up task. *)
Definition cleanupTimeoutClient (now : Z) (r : rateLimiter) : rateLimiter * list string :=
  let expired :=
    fst <$> filter (fun '(_, lastHeartbeat) => lastHeartbeat + ClientHeartBeatTimeout < now)
              (Range (rl_clientCache r)) in
  (foldl remove_client r expired, expired).

(** [cleanupUnknownCondition]: the conditions of clients that are not known
    any more are deleted, with the in-flight counts of those clients and the
    upstreams that do not exist.  For each shard: the clients and upstreams
    found. *)
Definition unknown_in_shard (r : rateLimiter) (known_upstreams : gset string) (shard : Z) (store : S)
    : rateLimiter * gset string * gset string :=
  foldl (fun '(r, cs, us) c =>
    let instance := rls_Instance (rlc_Spec c) in
    let upstream := rls_UpstreamCluster (rlc_Spec c) in
    if decide (is_Some (rl_clientCache r !! instance)) then (r, cs, us)
    else
      let '(r, cs) :=
        if decide (instance = "") then (r, cs)
        else (deleteCondition_of r shard c, {[instance]} ∪ cs) in
      let us := if decide (upstream ∈ known_upstreams) then us else {[upstream]} ∪ us in
      (r, cs, us)) (r, ∅, ∅) (ls_List store (fun _ => true)).

Definition cleanupUnknownCondition (lister : cluster_lister) (r : rateLimiter) : rateLimiter :=
  match lister_clusters lister with
  | inl _ => r
  | inr clusters =>
      let known_upstreams : gset string := list_to_set (uc_Name <$> clusters) in
      let '(r, clients, upstreams) :=
        foldl (fun '(r, cs, us) '(shard, store) =>
          let '(r, cs', us') := unknown_in_shard r known_upstreams shard store in
          (r, cs ∪ cs', us ∪ us')) (r, (∅ : gset string), (∅ : gset string))
          (Range (rl_limitStoreMap r)) in
      let r :=
        foldl (fun r instance =>
          foldl (fun r '(shard, _) => deleteGlobalFlowControl r shard instance) r
            (Range (rl_limitStoreMap r))) r (elements clients) in
      foldl (fun r upstream =>
        foldl (fun r '(shard, store) =>
          let '(w, store, _) := ls_DeleteUpstream (rl_world r) store upstream in
          put_store_world r shard (w, store)) r
          (Range (rl_limitStoreMap r))) r (elements upstreams)
  end.
End rate_limiter.
