(* ===== verification/RateLimiterSpec.v ===== *)
(** Properties of the rate limit server: the totals it keeps for an upstream,
    its answers to acquire requests, the shards it serves and the clients it
    forgets. *)
From stdpp Require Import base tactics list strings gmap sets sorting.
From Stdlib Require Import ZArith SpecFloat Lia.
From S2P Require Import Prelude ApiTypes Validation FlowControl GlobalFlowControl LimitStore Float64 Allocation RateLimiter.

Local Open Scope Z_scope.
Local Open Scope go_scope.

(** * The totals of an upstream *)

(** What an item grants under a name, of each kind. *)
Definition item_inflight (n : string) (i : RateLimitItemConfiguration) : Z :=
  if decide (ric_Name i = n) then from_option Max 0 (li_MaxRequestsInflight (ric_Detail i)) else 0.

Definition item_bucket (field : TokenBucketFlowControlSchema -> Z) (n : string)
    (i : RateLimitItemConfiguration) : Z :=
  if decide (ric_Name i = n) then
    match li_MaxRequestsInflight (ric_Detail i) with
    | Some _ => 0
    | None => from_option field 0 (li_TokenBucket (ric_Detail i))
    end
  else 0.

(** The items granted to the clients of an upstream. *)
Definition client_items (stateName : string) (conditions : list RateLimitCondition)
    : list RateLimitItemConfiguration :=
  conditions ≫= fun c =>
    if decide (rlc_Name c = stateName) then [] else LimitItemConfigurations (rlc_Spec c).

(** A status holds the sums of the items with its name, in 32 bits. *)
Definition accounts (items : list RateLimitItemConfiguration) (st : RateLimitItemStatus) : Prop :=
  let n := ris_Name st in
  from_option Max 0 (li_MaxRequestsInflight (ris_Detail st)) = wrap32 (zsum (item_inflight n) items) /\
  from_option QPS 0 (li_TokenBucket (ris_Detail st)) = wrap32 (zsum (item_bucket QPS n) items) /\
  from_option Burst 0 (li_TokenBucket (ris_Detail st)) = wrap32 (zsum (item_bucket Burst n) items).

Definition totals_ok (totals : gmap string RateLimitItemStatus)
    (items : list RateLimitItemConfiguration) : Prop :=
  forall n, match totals !! n with
            | None => Forall (fun i => ric_Name i <> n) items
            | Some st => ris_Name st = n /\ n ∈ ric_Name <$> items /\ accounts items st
            end.

Lemma zsum_absent (g : string -> RateLimitItemConfiguration -> Z) n items :
  (forall i, ric_Name i <> n -> g n i = 0) ->
  Forall (fun i => ric_Name i <> n) items -> zsum (g n) items = 0.
Proof. intros Hg. induction 1 as [|i l Hi _ IH]; simpl; [done|]. rewrite Hg, IH by done. done. Qed.

Lemma item_inflight_ne n i : ric_Name i <> n -> item_inflight n i = 0.
Proof. intros. unfold item_inflight. by rewrite decide_False. Qed.
Lemma item_bucket_ne f n i : ric_Name i <> n -> item_bucket f n i = 0.
Proof. intros. unfold item_bucket. by rewrite decide_False. Qed.

Lemma accounts_absent n items :
  Forall (fun i => ric_Name i <> n) items -> accounts items (MkItemStatus n empty_detail 0).
Proof.
  intros Hn. unfold accounts. simpl.
  rewrite (zsum_absent item_inflight), !(zsum_absent (item_bucket _)); try done;
    intros; by (apply item_inflight_ne || apply item_bucket_ne).
Qed.

Lemma add_item_ok totals items i :
  totals_ok totals items -> totals_ok (add_item totals i) (items ++ [i]).
Proof.
  intros Ht n. unfold add_item. set (nm := ric_Name i).
  assert (ris_Name (default (MkItemStatus nm empty_detail 0) (totals !! nm)) = nm /\
          accounts items (default (MkItemStatus nm empty_detail 0) (totals !! nm))) as [Hname Hacc].
  { specialize (Ht nm). destruct (totals !! nm) as [st|]; simpl; [naive_solver|].
    split; [done|]. by apply accounts_absent. }
  destruct (decide (n = nm)) as [->|Hne].
  - rewrite lookup_insert_eq. simpl. split_and!; [done|rewrite fmap_app; set_solver|].
    destruct (default _ _) as [nm' d lvl]. simpl in *. subst nm'.
    unfold accounts in *. simpl in *. rewrite !zsum_app. simpl. rewrite !Z.add_0_r.
    unfold item_inflight at 2, item_bucket at 2 4. fold nm. rewrite !decide_True by done.
    destruct Hacc as (H1 & H2 & H3).
    destruct (li_MaxRequestsInflight (ric_Detail i)) as [m|]; simpl.
    + rewrite !Z.add_0_r. split_and!; [|done..]. rewrite H1. apply wrap32_add_l.
    + rewrite Z.add_0_r. destruct (li_TokenBucket (ric_Detail i)) as [tb|]; simpl.
      * rewrite H2, H3. split_and!; [done|apply wrap32_add_l..].
      * by rewrite !Z.add_0_r.
  - rewrite lookup_insert_ne by done. specialize (Ht n). destruct (totals !! n) as [st|].
    + destruct Ht as (Hn & Hin & Hs). split_and!; [done|rewrite fmap_app; set_solver|].
      unfold accounts in *. rewrite !zsum_app. simpl.
      rewrite item_inflight_ne, !item_bucket_ne, !Z.add_0_r by (subst; done). done.
    + apply Forall_app. split; [done|]. apply Forall_singleton. done.
Qed.

Lemma add_items_ok l totals items :
  totals_ok totals items -> totals_ok (foldl add_item totals l) (items ++ l).
Proof.
  revert totals items. induction l as [|i l IH]; intros totals items Ht; simpl.
  - by rewrite app_nil_r.
  - replace (items ++ i :: l) with ((items ++ [i]) ++ l) by by rewrite <- app_assoc.
    by apply IH, add_item_ok.
Qed.

Lemma sum_conditions_ok stateName configs conditions totals levels totals' levels' items :
  sum_conditions stateName configs totals levels conditions = Ok (totals', levels') ->
  totals_ok totals items -> totals_ok totals' (items ++ client_items stateName conditions).
Proof.
  revert totals levels items. induction conditions as [|c conditions IH]; intros totals levels items.
  - intros [= <- _] Ht. unfold client_items. simpl. by rewrite app_nil_r.
  - cbn [sum_conditions]. unfold client_items. cbn [mbind list_bind]. case_decide.
    + intros Heq Ht. by apply (IH totals levels).
    + destruct (add_levels _ _ _) as [levels1|[]|]; [|done]. cbn [result_bind]. intros Heq Ht.
      rewrite app_assoc. by eapply IH, add_items_ok.
Qed.

Section totals.
Context `{RateLimiter} `{MapRange} `{FloatToInt} {W S : Type} `{!LimitStore W S} `{!LimitStoreLaws W S}.

(** Stores meet their contract and a state condition is for its cluster. *)
Definition limiter_inv (r : rateLimiter (W := W) (S := S)) : Prop :=
  map_Forall (fun _ store => ls_inv store /\
    forall cluster c, ls_Get store cluster (upstreamStateConditionName cluster) = Ok c ->
      rls_UpstreamCluster (rlc_Spec c) = cluster) (rl_limitStoreMap r).

(** The statuses of a condition account for the granted items: one status per
    name that was granted. *)
Definition statuses_account (items : list RateLimitItemConfiguration) (c : RateLimitCondition) : Prop :=
  let sts := LimitItemStatuses (rlc_Status c) in
  NoDup (ris_Name <$> sts) /\
  (forall n, n ∈ ris_Name <$> sts <-> n ∈ ric_Name <$> items) /\
  Forall (accounts items) sts.

#[export] Instance statuses_account_perm :
  Proper (Permutation ==> eq ==> iff) statuses_account.
Proof.
  assert (forall i k c, i ≡ₚ k -> statuses_account i c -> statuses_account k c) as Himp.
  { intros i k c Hp (Hnd & Hin & Hacc). split_and!; [done| |].
    - intros n. by rewrite Hin, Hp.
    - eapply Forall_impl; [exact Hacc|]. unfold accounts. intros st Hst.
      by rewrite <- Hp. }
  intros i k Hp c ? <-. split; apply Himp; [done|by symmetry].
Qed.

Lemma calculateUpstreamCondition_ok store c c' :
  calculateUpstreamCondition store c = Ok c' ->
  let upstream := rls_UpstreamCluster (rlc_Spec c) in
  rlc_Name c' = rlc_Name c /\ rlc_Spec c' = rlc_Spec c /\
  statuses_account
    (client_items (upstreamStateConditionName upstream) (ls_ListUpstream store upstream)) c'.
Proof.
  unfold calculateUpstreamCondition. cbv zeta.
  destruct (sum_conditions _ _ _ _ _) as [[totals levels]|[]|] eqn:E; [|done].
  cbn [result_bind]. intros [= <-]. split_and!; [done..|].
  eapply (sum_conditions_ok _ _ _ _ _ _ _ []) in E; [|intros n; by rewrite lookup_empty].
  simpl in E. set (items := client_items _ _) in *. clearbody items.
  unfold statuses_account. simpl. set (sts := _ <$> Range totals).
  assert (ris_Name <$> sts = fst <$> Range totals) as Hnames.
  { unfold sts. rewrite <- list_fmap_compose. apply list_fmap_ext. intros k [n st] Hk. simpl.
    apply list_elem_of_lookup_2 in Hk. rewrite elem_of_Range in Hk.
    specialize (E n). rewrite Hk in E. by destruct E. }
  rewrite Hnames. split_and!.
  - rewrite Range_perm. apply NoDup_fst_map_to_list.
  - intros n. rewrite list_elem_of_fmap. specialize (E n). split.
    + intros ([n' st] & -> & Hin). rewrite elem_of_Range in Hin. simpl in *. rewrite Hin in E.
      by destruct E as (_ & ? & _).
    + intros Hin. destruct (totals !! n) as [st|] eqn:Ht.
      * exists (n, st). by rewrite elem_of_Range.
      * apply list_elem_of_fmap in Hin as (i & -> & Hi). rewrite Forall_forall in E. by destruct (E i Hi).
  - apply Forall_forall. intros st Hst. apply list_elem_of_fmap in Hst as ([n st0] & -> & Hin).
    rewrite elem_of_Range in Hin. specialize (E n). rewrite Hin in E. by destruct E as (_ & _ & ?).
Qed.

(** Changing only the state condition of an upstream does not change what its
    clients were granted. *)
Lemma client_items_stable (s s' : S) cluster :
  ls_inv s -> ls_inv s' ->
  (forall n, n <> upstreamStateConditionName cluster -> ls_Get s' cluster n = ls_Get s cluster n) ->
  client_items (upstreamStateConditionName cluster) (ls_ListUpstream s' cluster) ≡ₚ
  client_items (upstreamStateConditionName cluster) (ls_ListUpstream s cluster).
Proof.
  intros Hs Hs' Hget. set (st := upstreamStateConditionName cluster) in *.
  assert (forall l, client_items st l =
            filter (fun c => rlc_Name c <> st) l ≫= (LimitItemConfigurations ∘ rlc_Spec)) as Hfilter.
  { induction l as [|c l IH]; [done|]. unfold client_items in *. rewrite filter_cons. cbn.
    destruct (decide (rlc_Name c = st)).
    - rewrite decide_False by tauto. exact IH.
    - rewrite decide_True by done. cbn. by rewrite IH. }
  rewrite !Hfilter. apply bind_Permutation,  NoDup_Permutation.
  - apply NoDup_filter, (NoDup_fmap_1 rlc_Name), law_list_nodup, Hs'.
  - apply NoDup_filter, (NoDup_fmap_1 rlc_Name), law_list_nodup, Hs.
  - intros c. rewrite !list_elem_of_filter, !law_list by done. split; intros [Hn Hg]; split; try done.
    + by rewrite <- Hget.
    + by rewrite Hget.
Qed.

Lemma save_report_ok w (store : S) uc condition w' store' ans :
  let cluster := rls_UpstreamCluster (rlc_Spec condition) in
  let stateName := upstreamStateConditionName cluster in
  ls_inv store -> ls_Get store cluster stateName = Ok uc ->
  rls_UpstreamCluster (rlc_Spec uc) = cluster -> rlc_Name condition <> stateName ->
  save_report w store uc condition = (w', store', Ok ans) ->
  ans = condition /\ ls_inv store' /\
  (exists c, ls_Get store' cluster (rlc_Name condition) = Ok c /\ same_content c condition) /\
  (exists st, ls_Get store' cluster stateName = Ok st /\ rls_UpstreamCluster (rlc_Spec st) = cluster /\
     statuses_account (client_items stateName (ls_ListUpstream store' cluster)) st) /\
  (forall c n, (c, n) <> (cluster, rlc_Name condition) -> (c, n) <> (cluster, stateName) ->
     ls_Get store' c n = ls_Get store c n).
Proof.
  intros cluster stateName Hinv Hget Hspec Hne. unfold save_report. fold cluster.
  destruct (ls_Save w store cluster condition) as [[w1 s1] [[]| |]] eqn:E1; [|done..].
  destruct (law_save _ _ _ _ _ _ Hinv E1) as (Hinv1 & Hc1 & Hframe1 & _).
  destruct (calculateUpstreamCondition s1 uc) as [totals|[]|] eqn:E2; [|done].
  apply calculateUpstreamCondition_ok in E2 as (Hname & Hspec2 & Hacc).
  assert (rlc_Name uc = stateName) as Huc by by apply (law_name store cluster).
  rewrite Hspec in Hacc. fold stateName in Hacc. rewrite Huc in *.
  assert (ls_Get s1 cluster stateName = Ok uc) as Hget1 by (rewrite Hframe1; congruence).
  set (s2 := ls_UpdateCondition s1 cluster stateName (fun _ => totals)).
  destruct (law_update_condition s1 cluster stateName (fun _ => totals) Hinv1) as (Hinv2 & Hget2 & _).
  { intros x Hx. rewrite Hname. symmetry. by apply (law_name s1 cluster). }
  fold s2 in Hinv2, Hget2.
  destruct (ls_Save w1 s2 cluster totals) as [[w2 s3] [[]| |]] eqn:E3; [|done..].
  intros [= <- <- <-].
  destruct (law_save _ _ _ _ _ _ Hinv2 E3) as (Hinv3 & (st & Hst & (_ & Hst1 & Hst2)) & Hframe3 & _).
  rewrite Hname in Hst, Hframe3.
  assert (forall c n, (c, n) <> (cluster, stateName) -> ls_Get s3 c n = ls_Get s1 c n) as Hframe.
  { intros c n Hcn. rewrite Hframe3, Hget2 by done. destruct (ls_Get s1 c n); [|done..].
    by rewrite decide_False. }
  split_and!; [done|done| | |].
  - rewrite Hframe by congruence. exact Hc1.
  - exists st. rewrite Hst1, Hspec2. split_and!; [done|done|].
    unfold statuses_account in *. rewrite Hst2.
    change (statuses_account (client_items stateName (ls_ListUpstream s3 cluster)) totals).
    unfold stateName. rewrite (client_items_stable s1 s3 cluster Hinv1 Hinv3); [exact Hacc|].
    intros n Hn. apply Hframe. by intros [= ->].
  - intros c n Hc Hn. by rewrite Hframe, Hframe1.
Qed.

(** C18: Accounting of the granted quotas: when a status report succeeds, the
    server has stored the report with its new quotas, and the state of the
    upstream has, for every flow control name granted to some client, one
    status with the sum over all its clients of what they were granted (in
    32 bits), and none for other names. *)
Theorem report_totals r upstream condition r' answer :
  limiter_inv r ->
  let cluster := rls_UpstreamCluster (rlc_Spec condition) in
  let stateName := upstreamStateConditionName cluster in
  rlc_Name condition <> stateName ->
  UpdateRateLimitConditionStatus r upstream condition = (r', Ok answer) ->
  limiter_inv r' /\
  exists shard store, GetShardID upstream (rl_shardCount r) = Ok shard /\
    rl_limitStoreMap r' !! shard = Some store /\
    (exists c, ls_Get store cluster (rlc_Name condition) = Ok c /\ same_content c answer) /\
    (exists st, ls_Get store cluster stateName = Ok st /\
       statuses_account (client_items stateName (ls_ListUpstream store cluster)) st).
Proof.
  intros Hinv cluster stateName Hne. unfold UpdateRateLimitConditionStatus. fold cluster.
  destruct (GetShardID upstream _) as [shard|[]|] eqn:Hshard; [|done].
  destruct (rl_IsLeader r shard); [|done]. unfold getLimitStoreForShard.
  destruct (rl_limitStoreMap r !! shard) as [store|] eqn:Hstore; [|done].
  destruct (Hinv shard store Hstore) as [Hs Hstate]. fold stateName.
  destruct (ls_Get store cluster stateName) as [uc| |] eqn:Huc; [|done..].
  case_decide; [|done].
  destruct (match ls_Get store cluster (rlc_Name condition) with Ok _ => _ | _ => _ end)
    as [old| |]; [|done..]. cbn [result_bind].
  destruct (next_configs _ _ _ _ _) as [items| |]; [|done..]. cbn [result_bind].
  set (c' := granted condition old items).
  destruct (save_report (rl_world r) store uc c') as [[w' store'] res] eqn:Esave.
  intros [= <- ->].
  destruct (save_report_ok _ _ _ c' _ _ _ Hs Huc (Hstate cluster uc Huc) Hne Esave)
    as (-> & Hs' & Hc & (st & Hst & Hspec & Hacc) & Hframe).
  split.
  - intros k s Hk. unfold put_store_world in Hk. simpl in Hk.
    destruct (decide (k = shard)) as [->|Hk'].
    + rewrite lookup_insert_eq in Hk. injection Hk as <-. split; [done|]. intros cl x Hx.
      destruct (decide (cl = cluster)) as [->|Hcl].
      * assert (Ok (E := api_error) x = Ok st) as [= ->] by (etrans; [symmetry; exact Hx|exact Hst]).
        exact Hspec.
      * apply Hstate. rewrite <- Hframe; [done|by intros [= ? ?]..].
    + rewrite lookup_insert_ne in Hk by done. by apply Hinv in Hk.
  - exists shard, store'. split_and!; [done|simpl; by rewrite lookup_insert_eq|done|by exists st].
Qed.
End totals.

(** * Acquire requests *)

Section acquire.
Context `{RateLimiter} `{MapRange} `{FloatToInt} {W S : Type} `{!LimitStore W S}.
Context (error_text : api_error -> string).

(** An answer is for its request, and grants nothing but the tokens asked
    for, halved at most three times. *)
Definition answer_ok (limit : RateLimitAcquireRequest) (rs : RateLimitAcquireResult) : Prop :=
  arr_FlowControl rs = arq_FlowControl limit /\
  (Accept rs = true -> 0 <= Tokens limit /\ Error rs = "" /\
     exists k, 0 <= k < 4 /\ Limit rs = Tokens limit / 2 ^ k).

Lemma try_tokens_spec tries clock fc instance token fc' ok g :
  0 <= token -> try_tokens tries clock fc instance token = (fc', ok, g) ->
  if ok then
    (exists k, 0 <= k < Z.of_nat tries /\ g = token / 2 ^ k) /\
    exists t fc0, GlobalFlowControl_TryAcquireN t fc0 instance g = (fc', true)
  else g = 0.
Proof.
  revert clock fc token. induction tries as [|tries IH]; intros clock fc token Ht.
  - by intros [= <- <- <-].
  - cbn [try_tokens]. destruct (GlobalFlowControl_TryAcquireN _ fc instance token) as [fc1 a] eqn:E.
    destruct a.
    + intros [= <- <- <-]. split; [|eauto]. exists 0. rewrite Z.div_1_r. lia.
    + destruct (Z.leb_spec (Z.quot token 2) 0) as [Hle|Hgt]; [by intros [= <- <- <-]|].
      intros Htry. apply IH in Htry; [|lia]. destruct ok; [|done].
      destruct Htry as [(k & Hk & ->) Hacc]. split; [|done]. exists (k + 1). split; [lia|].
      rewrite Z.quot_div_nonneg, Z.div_div, Z.pow_add_r, (Z.mul_comm (2 ^ k)) by lia. done.
Qed.

Lemma acquire_one_answer clock (store : S) upstream instance rid limit store' rs :
  acquire_one error_text clock store upstream instance rid limit = (store', Ok rs) ->
  answer_ok limit rs.
Proof.
  unfold acquire_one, answer_ok.
  destruct (ls_GetFlowControl _ _ _) as [fc| |]; [|by intros [= <- <-]|done].
  destruct (Z.ltb_spec (Tokens limit) 0); [by intros [= <- <-]|].
  destruct (GlobalFlowControl_Type fc); try by intros [= <- <-].
  - destruct (GlobalFlowControl_SetState _ _ _ _) as [fc' [[a t] [[]|]]]; intros [= <- <-]; [done|].
    destruct a; simpl; [|done]. split; [done|]. intros _. split_and!; [done..|].
    exists 0. rewrite Z.div_1_r. lia.
  - destruct (try_tokens _ _ _ _ _) as [[fc' a] g] eqn:E. intros [= <- <-]. simpl.
    split; [done|]. intros ->. apply try_tokens_spec in E as [Hk _]; [|done]. done.
Qed.

Lemma acquire_all_answers clock (store : S) upstream instance rid limits store' results :
  acquire_all error_text clock store upstream instance rid limits = (store', Ok results) ->
  Forall2 answer_ok limits results.
Proof.
  revert store results. induction limits as [|limit limits IH]; intros store results.
  - intros [= <- <-]. constructor.
  - cbn [acquire_all].
    destruct (acquire_one _ _ _ _ _ _ _) as [s1 [rs|[]|]] eqn:E1; [|done].
    destruct (acquire_all _ _ s1 _ _ _ _) as [s2 [rest|[]|]] eqn:E2; [|done].
    intros [= <- <-]. constructor; [by eapply acquire_one_answer|by eapply IH].
Qed.

(** C20: An acquire request is answered one result per requested limit, in
    order; what a result grants is what was asked for, halved at most three
    times; only the store of the upstream's shard can change, and only a
    server that leads the shard answers. *)
Theorem DoAcquire_answers clock r upstream req r' res :
  DoAcquire error_text clock r upstream req = (r', Ok res) ->
  (exists results, Results (ra_Status res) = Results (ra_Status req) ++ results /\
     Forall2 answer_ok (Requests (ra_Spec req)) results) /\
  exists shard, GetShardID upstream (rl_shardCount r) = Ok shard /\
    leader_of r shard = rl_identity r /\
    forall other, other <> shard -> rl_limitStoreMap r' !! other = rl_limitStoreMap r !! other.
Proof.
  unfold DoAcquire. destruct (GetShardID _ _) as [shard|[]|]; [|done].
  destruct (rl_IsLeader r shard) eqn:Hl; [|done]. apply bool_decide_eq_true in Hl.
  destruct (getLimitStoreForShard r shard) as [store|]; [|done].
  destruct (acquire_all _ _ _ _ _ _ _) as [s1 [results|[]|]] eqn:E; [|done].
  intros [= <- <-]. split.
  - exists results. split; [done|]. by eapply acquire_all_answers.
  - exists shard. split_and!; [done..|]. intros other Ho. simpl. by rewrite lookup_insert_ne.
Qed.

Context `{!LimitStoreLaws W S}.

(** The result of an in-flight report, from the answer of the ledger. *)
Definition inflight_result (name : string) (tokens : Z) (a : answer) : RateLimitAcquireResult :=
  match a with
  | Accepted => MkAcquireResult name true tokens ""
  | Full => MkAcquireResult name false tokens ""
  | Rejected old => MkAcquireResult name false old ""
  | TooOld => MkAcquireResult name false 0 "RequestIDTooOld"
  | Removed => MkAcquireResult name false (-1) ""
  end.

(** A client that reports its requests in flight to the leader of the
    shard gets the answer of the ledger of the flow control, and the flow
    control holds the ledger after the report; no other flow control of any
    upstream is touched. *)
Theorem DoAcquire_inflight clock r upstream req name tokens shard store f :
  GetShardID upstream (rl_shardCount r) = Ok shard -> leader_of r shard = rl_identity r ->
  rl_limitStoreMap r !! shard = Some store -> ls_inv store ->
  Requests (ra_Spec req) = [MkAcquireRequest name tokens] -> 0 <= tokens < 2 ^ 31 ->
  ls_GetFlowControl store upstream name = Ok (GlobalMaxInflight f) ->
  gm_typ f = MaxRequestsInflight -> inflight_inv f ->
  total f - recorded f (as_Instance (ra_Spec req)) + tokens - gm_max f < 2 ^ 31 ->
  let '(l', a) := report (to_ledger f) (as_Instance (ra_Spec req)) (RequestID (ra_Spec req)) tokens in
  exists store' f',
    DoAcquire error_text clock r upstream req =
      (put_store r shard store',
       Ok (MkAcquire (ra_Name req) (ra_Spec req)
             (MkAcquireStatus (Results (ra_Status req) ++ [inflight_result name tokens a])))) /\
    ls_inv store' /\ inflight_inv f' /\ to_ledger f' = l' /\
    forall u n, ls_GetFlowControl store' u n =
      if decide ((u, n) = (upstream, name)) then Ok (GlobalMaxInflight f')
      else ls_GetFlowControl store u n.
Proof.
  intros Hshard Hleader Hstore Hs Hreq Htok Hfc Htyp Hinv Hfit.
  set (i := as_Instance (ra_Spec req)) in *. set (rid := RequestID (ra_Spec req)).
  pose proof (SetState_refines f i rid tokens Hinv (proj2 Htok) Hfit) as Href.
  destruct (globalMaxInflight_SetState f i rid tokens) as [f' v] eqn:Eset.
  destruct (report (to_ledger f) i rid tokens) as [l' a] eqn:Erep.
  destruct Href as (Hl & -> & Hinv').
  exists (ls_UpdateFlowControl store upstream name (fun _ => GlobalMaxInflight f')), f'.
  assert (acquire_one error_text (clock 1%nat) store upstream i rid (MkAcquireRequest name tokens) =
    (ls_UpdateFlowControl store upstream name (fun _ => GlobalMaxInflight f'),
     Ok (inflight_result name tokens a))) as Hone.
  { unfold acquire_one. simpl. rewrite Hfc. destruct (Z.ltb_spec tokens 0); [lia|]. simpl.
    rewrite Htyp, Eset. by destruct a. }
  split_and!; [| |done|done|].
  - unfold DoAcquire. rewrite Hshard. unfold rl_IsLeader, IsLeader.
    rewrite bool_decide_eq_true_2 by exact Hleader. unfold getLimitStoreForShard. rewrite Hstore, Hreq.
    cbn [acquire_all length]. fold i rid. rewrite Hone. done.
  - by apply law_update.
  - intros u n. destruct (law_update store upstream name (fun _ => GlobalMaxInflight f') u n Hs)
      as [_ ->]. case_decide as Hd.
    + injection Hd as -> ->. by rewrite Hfc.
    + by destruct (ls_GetFlowControl store u n).
Qed.
End acquire.

(** * Leadership *)

Section leading.
Context `{RateLimiter} `{MapRange} `{FloatToInt} {W S : Type} `{!LimitStore W S}.
Context (newStore : Z -> option S).
Implicit Types r : rateLimiter (W := W) (S := S).

(** The identity of the server and the leaders it knows. *)
Definition server_view r : string * Z * gmap Z EndpointInfo :=
  (rl_identity r, rl_shardCount r, rl_leaderInfo r).

(** A step that keeps the view and every store but the one of a shard. *)
Definition touches_only (shard : Z) r r' : Prop :=
  server_view r' = server_view r /\
  forall k, k <> shard -> rl_limitStoreMap r' !! k = rl_limitStoreMap r !! k.

Lemma touches_refl shard r : touches_only shard r r.
Proof. by split. Qed.

Lemma touches_trans shard r1 r2 r3 :
  touches_only shard r1 r2 -> touches_only shard r2 r3 -> touches_only shard r1 r3.
Proof. intros [Hv1 Hk1] [Hv2 Hk2]. split; [congruence|]. intros k Hk. by rewrite Hk2, Hk1. Qed.

Lemma touches_stores shard r m w :
  (forall k, k <> shard -> m !! k = rl_limitStoreMap r !! k) -> touches_only shard r (with_stores r m w).
Proof. by split. Qed.

Lemma touches_put shard r ws : touches_only shard r (put_store_world r shard ws).
Proof. apply touches_stores. intros k Hk. by rewrite lookup_insert_ne. Qed.

Lemma touches_drop shard r s : touches_only shard r (drop_store r shard s).
Proof. apply touches_stores. intros k Hk. by rewrite lookup_delete_ne. Qed.

Hint Resolve touches_refl touches_put touches_drop : core.

Lemma handler_touches lister r c shard :
  GetShardID (uc_Name c) (rl_shardCount r) = Ok shard ->
  touches_only shard r (fst (UpstreamConditionHandler lister r c)) /\
  (is_Some (rl_limitStoreMap r !! shard) ->
   is_Some (rl_limitStoreMap (fst (UpstreamConditionHandler lister r c)) !! shard)).
Proof.
  intros Hs. unfold UpstreamConditionHandler. rewrite Hs.
  assert (forall r ws, is_Some (rl_limitStoreMap (put_store_world r shard ws) !! shard)) as Hput.
  { intros r0 ws. simpl. rewrite lookup_insert_eq. eauto. }
  destruct (rl_IsLeader r shard); [|by split].
  destruct (getLimitStoreForShard r shard) as [store|]; [|by split].
  destruct (lister_Get lister (uc_Name c)) as [e|?].
  - destruct (IsNotFound e); [|by split].
    destruct (ls_DeleteUpstream _ _ _) as [[w s] [ | | ]];
      (split; [apply touches_put|intros _; apply Hput]).
  - destruct (save_upstream _ _ _) as [[w s] res]. split; [|intros _; apply Hput].
    eapply touches_trans; [|apply touches_put]. by split.
Qed.

Lemma handle_clusters_touches lister r shard clusters :
  touches_only shard r (fst (handle_clusters lister r shard clusters)) /\
  (is_Some (rl_limitStoreMap r !! shard) ->
   is_Some (rl_limitStoreMap (fst (handle_clusters lister r shard clusters)) !! shard)).
Proof.
  revert r. induction clusters as [|c clusters IH]; intros r; [by split|]. cbn [handle_clusters].
  destruct (GetShardID (uc_Name c) _) as [id|[]|] eqn:Hs; [|by split].
  destruct (Z.eqb_spec id shard) as [->|]; [|apply IH].
  destruct (handler_touches lister r c shard Hs) as [Ht Hstore].
  destruct (UpstreamConditionHandler lister r c) as [r1 [u| |]]; simpl in *; [|by split..].
  destruct (IH r1) as [Ht' Hstore']. split; [by eapply touches_trans|auto].
Qed.

Lemma startLeading_touches lister r shard :
  touches_only shard r (startLeading newStore lister r shard) /\
  (is_Some (rl_limitStoreMap r !! shard) ->
   is_Some (rl_limitStoreMap (startLeading newStore lister r shard) !! shard)).
Proof.
  unfold startLeading. destruct (getLimitStoreForShard r shard) eqn:Hr; [by split|].
  unfold getLimitStoreForShard in Hr. rewrite Hr. split; [|by intros []].
  destruct (newStore shard) as [s|]; [|done].
  destruct (ls_Load _ _) as [[w s1] res]. pose proof (touches_put shard r (w, s1)) as Hp.
  destruct res; [| eapply touches_trans; eauto | done].
  unfold syncUpstreamClustersForShard. destruct (lister_clusters lister) as [e|cs].
  - destruct (getLimitStoreForShard _ shard); [|done]. eapply touches_trans; eauto.
  - destruct (handle_clusters_touches lister (put_store_world r shard (w, s1)) shard cs) as [Ht _].
    destruct (handle_clusters _ _ _ _) as [r1 res]. simpl in Ht.
    assert (touches_only shard r r1) by by eapply touches_trans.
    destruct res; [done| |done]. destruct (getLimitStoreForShard r1 shard); [|done].
    eapply touches_trans; eauto.
Qed.

Lemma stopLeading_stores r shard :
  server_view (stopLeading r shard) = server_view r /\
  rl_limitStoreMap (stopLeading r shard) = delete shard (rl_limitStoreMap r).
Proof.
  unfold stopLeading, getLimitStoreForShard. destruct (rl_limitStoreMap r !! shard) eqn:E; [done|].
  by rewrite delete_id.
Qed.

Lemma stop_all_stores shards r :
  server_view (foldl stopLeading r shards) = server_view r /\
  forall k, rl_limitStoreMap (foldl stopLeading r shards) !! k =
    if decide (k ∈ shards) then None else rl_limitStoreMap r !! k.
Proof.
  revert r. induction shards as [|s shards IH]; intros r; [by split|]. cbn [foldl].
  destruct (IH (stopLeading r s)) as [Hv Hk]. destruct (stopLeading_stores r s) as [Hv' Hk'].
  split; [congruence|]. intros k. rewrite Hk, Hk'. destruct (decide (k = s)) as [->|].
  - rewrite lookup_delete_eq. rewrite (decide_True (P := s ∈ s :: shards)) by left. by case_decide.
  - rewrite lookup_delete_ne by done. do 2 case_decide; set_solver.
Qed.

(** The shards the server leads. *)
Definition led r (shard : Z) : Prop :=
  exists info, rl_leaderInfo r !! shard = Some info /\ Leader info = rl_identity r.

(** Stores and lister whose operations do not fail. *)
Record reliable (lister : cluster_lister) : Prop := {
  rel_new : forall shard, is_Some (newStore shard);
  rel_load : forall w s, snd (ls_Load w s) = Ok tt;
  rel_save : forall w s c x, snd (ls_Save w s c x) = Ok tt;
  rel_delete : forall w s c, snd (ls_DeleteUpstream w s c) = Ok tt;
  rel_get : forall s c n, ls_Get s c n <> Panic /\ forall e, ls_Get s c n = Err e -> IsNotFound e = true;
  rel_clusters : exists cs, lister_clusters lister = inr cs;
  rel_lister : forall n e, lister_Get lister n = inl e -> IsNotFound e = true
}.

Lemma handler_succeeds lister r c shard :
  reliable lister -> GetShardID (uc_Name c) (rl_shardCount r) = Ok shard ->
  is_Some (rl_limitStoreMap r !! shard) -> snd (UpstreamConditionHandler lister r c) = Ok tt.
Proof.
  intros Hr Hs [store Hst]. unfold UpstreamConditionHandler, getLimitStoreForShard. rewrite Hs, Hst.
  destruct (rl_IsLeader r shard); [|done].
  destruct (lister_Get lister (uc_Name c)) as [e|c'] eqn:Hg.
  - rewrite (rel_lister _ Hr _ _ Hg). pose proof (rel_delete _ Hr (rl_world r) store (uc_Name c)) as Hd.
    destruct (ls_DeleteUpstream _ _ _) as [[w s] res]. simpl in Hd. by subst.
  - enough (snd (save_upstream (rl_world (with_lock r (uc_Name c))) store c) = Ok tt) as He
      by by destruct (save_upstream _ _ _) as [[w s] res].
    unfold save_upstream. destruct (rel_get _ Hr store (uc_Name c)
      (upstreamStateConditionName (uc_Name c))) as [Hp Hn].
    assert (forall w s x, snd (match ls_Save w s (uc_Name c) x with
      | (w, store, Ok _) => (w, ls_SyncFlowControl store (uc_Name c) (spec_FlowControl (uc_Spec c)), Ok tt)
      | (w, store, Err e) => (w, store, Err (StoreError e))
      | (w, store, Panic) => (w, store, Panic) end) = Ok tt) as Hsave.
    { intros w s x. pose proof (rel_save _ Hr w s (uc_Name c) x) as Hsv.
      destruct (ls_Save w s (uc_Name c) x) as [[w' s'] res]. simpl in Hsv. by subst. }
    destruct (ls_Get _ _ _) as [x|e|]; [apply Hsave| |done].
    rewrite (Hn e eq_refl). apply Hsave.
Qed.

Lemma handle_clusters_succeeds lister r shard clusters :
  reliable lister -> uwrap32 (rl_shardCount r) <> 0 -> is_Some (rl_limitStoreMap r !! shard) ->
  snd (handle_clusters lister r shard clusters) = Ok tt.
Proof.
  intros Hr. revert r. induction clusters as [|c clusters IH]; intros r Hn Hs; [done|].
  cbn [handle_clusters]. destruct (GetShardID (uc_Name c) (rl_shardCount r)) as [id|[]|] eqn:Hid.
  - destruct (Z.eqb_spec id shard) as [->|]; [|by apply IH].
    pose proof (handler_succeeds lister r c shard Hr Hid Hs) as Hok.
    destruct (handler_touches lister r c shard Hid) as [[Hv _] Hstore].
    destruct (UpstreamConditionHandler lister r c) as [r1 res]. simpl in *. subst.
    apply IH; [|auto]. unfold server_view in Hv. congruence.
  - unfold GetShardID in Hid. destruct (Z.eqb_spec (uwrap32 (rl_shardCount r)) 0); done.
Qed.

Lemma startLeading_starts lister r shard :
  reliable lister -> uwrap32 (rl_shardCount r) <> 0 ->
  is_Some (rl_limitStoreMap (startLeading newStore lister r shard) !! shard).
Proof.
  intros Hr Hn. unfold startLeading. destruct (getLimitStoreForShard r shard) eqn:E; [by eexists|].
  destruct (rel_new _ Hr shard) as [s ->]. pose proof (rel_load _ Hr (rl_world r) s) as Hl.
  destruct (ls_Load _ _) as [[w s1] res]. simpl in Hl. subst res.
  unfold syncUpstreamClustersForShard. destruct (rel_clusters _ Hr) as [cs ->].
  set (r1 := put_store_world r shard (w, s1)).
  assert (is_Some (rl_limitStoreMap r1 !! shard)) as Hs by (simpl; rewrite lookup_insert_eq; eauto).
  pose proof (handle_clusters_succeeds lister r1 shard cs Hr Hn Hs) as Hok.
  destruct (handle_clusters_touches lister r1 shard cs) as [_ Hkeep].
  destruct (handle_clusters _ _ _ _) as [r2 res]. simpl in *. subst. auto.
Qed.

Lemma check_shard_spec lister r leader :
  server_view (check_shard newStore lister r leader) = server_view r /\
  (forall k, is_Some (rl_limitStoreMap r !! k) ->
     is_Some (rl_limitStoreMap (check_shard newStore lister r leader) !! k)) /\
  (reliable lister -> uwrap32 (rl_shardCount r) <> 0 -> Leader (snd leader) = rl_identity r ->
     is_Some (rl_limitStoreMap (check_shard newStore lister r leader) !! fst leader)).
Proof.
  destruct leader as [shard info]. cbn [check_shard fst snd]. case_decide; [|by split_and!].
  destruct (getLimitStoreForShard r shard) eqn:E; [by split_and!|].
  destruct (startLeading_touches lister r shard) as [[Hv Hk] Hs]. split_and!; [done| |].
  - intros k. destruct (decide (k = shard)) as [->|]; [done|]. by rewrite Hk.
  - intros. by apply startLeading_starts.
Qed.

Lemma check_shards_spec lister r leaders :
  let r' := foldl (check_shard newStore lister) r leaders in
  server_view r' = server_view r /\
  (forall k, is_Some (rl_limitStoreMap r !! k) -> is_Some (rl_limitStoreMap r' !! k)) /\
  (reliable lister -> uwrap32 (rl_shardCount r) <> 0 ->
     forall k info, (k, info) ∈ leaders -> Leader info = rl_identity r ->
       is_Some (rl_limitStoreMap r' !! k)).
Proof.
  revert r. induction leaders as [|[k info] leaders IH]; intros r; cbn [foldl].
  - split_and!; [done..|]. intros _ _ k info Hin. by apply elem_of_nil in Hin.
  - destruct (check_shard_spec lister r (k, info)) as (Hv & Hkeep & Hstart).
    set (r1 := check_shard newStore lister r (k, info)) in *.
    destruct (IH r1) as (Hv' & Hkeep' & Hstart').
    pose proof Hv as Heq. injection Heq as Hid Hcount _. split_and!; [congruence|auto|].
    intros Hr Hn k' info' [[= -> ->]|Hin]%elem_of_cons Hl; [by apply Hkeep', Hstart|].
    apply (Hstart' Hr ltac:(congruence) k' info' Hin). congruence.
Qed.

(** After [leaderCheck] the server keeps stores only for shards it leads,
    it has dropped none of a shard it leads, and where stores and the cluster
    cache do not fail it has a store for every shard it leads. *)
Theorem leaderCheck_serves_led lister r :
  let r' := leaderCheck newStore lister r in
  (forall k, is_Some (rl_limitStoreMap r' !! k) -> led r k) /\
  (forall k, led r k -> is_Some (rl_limitStoreMap r !! k) -> is_Some (rl_limitStoreMap r' !! k)) /\
  (reliable lister -> uwrap32 (rl_shardCount r) <> 0 ->
     forall k, led r k -> is_Some (rl_limitStoreMap r' !! k)).
Proof.
  unfold leaderCheck.
  destruct (check_shards_spec lister r (Range (rl_leaderInfo r))) as (Hv & Hkeep & Hstart).
  set (r1 := foldl _ r _) in *. injection Hv as Hid _ Hinfo.
  set (isLeader := fun shard : Z => match rl_leaderInfo r !! shard with
    | Some info => bool_decide (Leader info = rl_identity r1) | None => false end).
  assert (forall k, isLeader k = true <-> led r k) as Hled.
  { intros k. unfold isLeader, led. rewrite Hid. destruct (rl_leaderInfo r !! k) as [info|].
    - rewrite bool_decide_eq_true. naive_solver.
    - naive_solver. }
  match goal with |- context [foldl stopLeading r1 ?l] => set (stop := l) end.
  destruct (stop_all_stores stop r1) as [_ Hk]. cbv zeta.
  assert (forall k, led r k -> k ∉ stop) as Hnot.
  { intros k Hl Hin. apply list_elem_of_filter in Hin as [Hf _]. apply Hled in Hl.
    change (isLeader k = false) in Hf. congruence. }
  split_and!.
  - intros k. rewrite Hk. case_decide as Hd; [by intros []|]. intros Hs.
    apply Hled. destruct (isLeader k) eqn:Hl; [done|]. destruct Hd.
    apply list_elem_of_filter. split; [exact Hl|]. destruct Hs as [s Hs].
    apply list_elem_of_fmap. exists (k, s). by rewrite elem_of_Range.
  - intros k Hl Hs. rewrite Hk, decide_False by auto. auto.
  - intros Hr Hn k Hl. rewrite Hk, decide_False by auto. destruct Hl as (info & Hi & Hl).
    apply (Hstart Hr Hn k info); [by rewrite elem_of_Range|done].
Qed.
End leading.

(** * Upstream clusters *)

Section upstreams.
Context `{RateLimiter} `{MapRange} `{FloatToInt} {W S : Type} `{!LimitStore W S} `{!LimitStoreLaws W S}.
Implicit Types r : rateLimiter (W := W) (S := S).

Lemma updateUpstreamStateCondition_spec o cluster :
  let c := updateUpstreamStateCondition o cluster in
  rlc_Name c = from_option rlc_Name (upstreamStateConditionName (uc_Name cluster)) o /\
  rls_UpstreamCluster (rlc_Spec c) =
    from_option (fun x => rls_UpstreamCluster (rlc_Spec x)) (uc_Name cluster) o.
Proof. by destruct o. Qed.

Lemma save_upstream_ok w (store : S) cluster w' store' :
  let name := uc_Name cluster in
  let stateName := upstreamStateConditionName name in
  ls_inv store ->
  (forall c, ls_Get store name stateName = Ok c -> rls_UpstreamCluster (rlc_Spec c) = name) ->
  save_upstream w store cluster = (w', store', Ok tt) ->
  ls_inv store' /\
  (exists o st, ls_Get store' name stateName = Ok st /\
     same_content st (updateUpstreamStateCondition o cluster) /\
     rls_UpstreamCluster (rlc_Spec st) = name /\
     match o with
     | Some c => ls_Get store name stateName = Ok c
     | None => exists e, ls_Get store name stateName = Err e
     end) /\
  (forall c n, (c, n) <> (name, stateName) -> ls_Get store' c n = ls_Get store c n).
Proof.
  intros name stateName Hs Hspec. unfold save_upstream. fold name stateName.
  assert (forall s x, ls_inv s -> rlc_Name x = stateName -> rls_UpstreamCluster (rlc_Spec x) = name ->
    match ls_Save w s name x with
    | (w, store, Ok _) => (w, ls_SyncFlowControl store name (spec_FlowControl (uc_Spec cluster)), Ok tt)
    | (w, store, Err e) => (w, store, Err (StoreError e))
    | (w, store, Panic) => (w, store, Panic) end = (w', store', Ok tt) ->
    ls_inv store' /\
    (exists st, ls_Get store' name stateName = Ok st /\ same_content st x /\
       rls_UpstreamCluster (rlc_Spec st) = name) /\
    (forall c n, (c, n) <> (name, stateName) -> ls_Get store' c n = ls_Get s c n)) as Hsave.
  { intros s x Hi Hn Hc. destruct (ls_Save w s name x) as [[w1 s1] [[]| |]] eqn:E; [|done..].
    intros [= <- <-]. destruct (law_save _ _ _ _ _ _ Hi E) as (Hi1 & (st & Hst & Hsame) & Hframe & _).
    destruct (law_sync s1 name (spec_FlowControl (uc_Spec cluster)) Hi1) as [Hi2 Hget].
    split_and!; [done| |].
    - exists st. rewrite Hget, <- Hn. split_and!; [done..|]. destruct Hsame as (_ & Heq & _). congruence.
    - intros c n Hcn. rewrite Hget, Hframe; [done|congruence]. }
  destruct (ls_Get store name stateName) as [c|e|] eqn:Hg; [| |done].
  - set (c' := updateUpstreamStateCondition (Some c) cluster). intros Heq.
    pose proof (law_name _ _ _ _ Hs Hg) as Hcn.
    destruct (law_update_condition store name stateName (fun _ => c') Hs) as (Hi & Hget & _).
    { intros x Hx. rewrite Hg in Hx. injection Hx as <-. done. }
    destruct (Hsave _ c' Hi Hcn (Hspec c eq_refl) Heq) as (Hi' & (st & ? & ? & ?) & Hframe).
    split_and!; [done|exists (Some c), st; by split_and!|].
    intros k n Hkn. rewrite Hframe, Hget by done. destruct (ls_Get store k n); [|done..].
    by rewrite decide_False.
  - destruct (IsNotFound e); [|done]. intros Heq.
    destruct (Hsave _ (updateUpstreamStateCondition None cluster) Hs eq_refl eq_refl Heq)
      as (Hi' & (st & ? & ? & ?) & Hframe).
    split_and!; [done|exists None, st; split_and!; eauto|done].
Qed.

(** The amounts of a status, zero where it has none. *)
Definition amounts (st : RateLimitItemStatus) : Z * Z * Z * Z :=
  (from_option Max 0 (li_MaxRequestsInflight (ris_Detail st)),
   from_option QPS 0 (li_TokenBucket (ris_Detail st)),
   from_option Burst 0 (li_TokenBucket (ris_Detail st)), RequestLevel st).

Lemma next_status_amounts o name d :
  amounts (next_status o name d) = from_option amounts (0, 0, 0, 0) o.
Proof.
  unfold next_status, amounts. destruct o as [[nm [[m|] [tb|]] lvl]|]; simpl; try done;
    destruct d as [[?|] [?|]]; done.
Qed.

(** The state of an upstream for its specification: the limit of every
    schema, and the amounts recorded under its name before, if any. *)
Definition state_for (old : option RateLimitCondition) (cluster : UpstreamCluster)
    (st : RateLimitCondition) : Prop :=
  let schemas := Schemas (spec_FlowControl (uc_Spec cluster)) in
  let recorded := FlowControlStatusToMap
    (from_option (fun c => LimitItemStatuses (rlc_Status c)) [] old) in
  (fun i => (ric_Name i, ric_Detail i)) <$> LimitItemConfigurations (rlc_Spec st) =
    (fun s => (fs_Name s, toFlowControlLimit s)) <$> schemas /\
  amounts <$> LimitItemStatuses (rlc_Status st) =
    (fun s => from_option amounts (0, 0, 0, 0) (recorded !! fs_Name s)) <$> schemas.

Lemma updated_state_for o cluster st :
  same_content st (updateUpstreamStateCondition o cluster) -> state_for o cluster st.
Proof.
  intros (_ & Hspec & Hst). unfold state_for. cbv zeta. rewrite Hspec, Hst.
  unfold updateUpstreamStateCondition. cbn. rewrite <- !list_fmap_compose. split; [done|].
  apply list_fmap_ext. intros i s _. cbn. rewrite next_status_amounts. by destruct o.
Qed.

End upstreams.

(** * Clean-up *)

Section cleanup.
Context `{RateLimiter} `{MapRange} `{FloatToInt} {W S : Type} `{!LimitStore W S} `{!LimitStoreLaws W S}.
Context (instance_selector : string -> gmap string string -> bool).
Implicit Types r : rateLimiter (W := W) (S := S).

Lemma remove_clients_lookup l r :
  rl_limitStoreMap (foldl remove_client r l) = rl_limitStoreMap r /\
  forall k, rl_clientCache (foldl remove_client r l) !! k =
    if decide (k ∈ l) then None else rl_clientCache r !! k.
Proof.
  revert r. induction l as [|i l IH]; intros r; [by split|]. cbn [foldl].
  destruct (IH (remove_client r i)) as [-> Hk]. split; [done|]. intros k. rewrite Hk. simpl.
  destruct (decide (k = i)) as [->|Hne].
  - rewrite lookup_delete_eq, (decide_True (P := i ∈ i :: l)) by left. by case_decide.
  - rewrite lookup_delete_ne by done. do 2 case_decide; set_solver.
Qed.

(** A client that was last heard from too long ago. *)
Definition timed_out (now : Z) r (client : string) : Prop :=
  exists t, rl_clientCache r !! client = Some t /\ t + ClientHeartBeatTimeout < now.

(** The periodic clean-up forgets exactly the clients whose last heartbeat
    is more than [ClientHeartBeatTimeout] ago, each of which is cleaned up
    once, and touches no store itself. *)
Theorem cleanupTimeoutClient_exact now r :
  (forall c t, rl_clientCache (fst (cleanupTimeoutClient now r)) !! c = Some t <->
     rl_clientCache r !! c = Some t /\ now <= t + ClientHeartBeatTimeout) /\
  (forall c, c ∈ snd (cleanupTimeoutClient now r) <-> timed_out now r c) /\
  NoDup (snd (cleanupTimeoutClient now r)) /\
  rl_limitStoreMap (fst (cleanupTimeoutClient now r)) = rl_limitStoreMap r.
Proof.
  unfold cleanupTimeoutClient. set (expired := fst <$> _). cbn [fst snd].
  assert (forall c, c ∈ expired <-> timed_out now r c) as Hexp.
  { intros c. unfold expired. rewrite list_elem_of_fmap. split.
    - intros ([c' t] & -> & Hin). apply list_elem_of_filter in Hin as [Ht Hin].
      rewrite elem_of_Range in Hin. by exists t.
    - intros (t & Hc & Ht). exists (c, t). split; [done|]. apply list_elem_of_filter.
      by rewrite elem_of_Range. }
  destruct (remove_clients_lookup expired r) as [Hs Hk]. split_and!; [|done| |done].
  - intros c t. rewrite Hk. case_decide as Hd.
    + apply Hexp in Hd as (t' & Hc & Ht). split; [done|]. intros [Hc' Hle].
      rewrite Hc in Hc'. injection Hc' as ->. lia.
    + split; [|by intros [? _]]. intros Hc. split; [done|].
      destruct (Z.le_gt_cases now (t + ClientHeartBeatTimeout)); [done|].
      destruct Hd. apply Hexp. exists t. split; [done|lia].
  - unfold expired. apply (sublist_NoDup _ (fst <$> Range (rl_clientCache r))).
    + rewrite Range_perm. apply NoDup_fst_map_to_list.
    + apply fmap_sublist, sublist_filter.
Qed.

(** How the flow controls of a store change when an instance is removed. *)
Definition forgets (instance : string) (s s' : S) : Prop :=
  forall c n, match ls_GetFlowControl s c n with
    | Ok fc => ls_GetFlowControl s' c n = Ok (fst (GlobalFlowControl_SetState fc instance (-1) (-1)))
    | e => ls_GetFlowControl s' c n = e
    end.

Lemma deleteCondition_of_spec r shard c store :
  rl_limitStoreMap r !! shard = Some store -> ls_inv store ->
  touches_only shard r (deleteCondition_of r shard c) /\
  exists store', rl_limitStoreMap (deleteCondition_of r shard c) !! shard = Some store' /\
    ls_inv store' /\ forall u n, ls_GetFlowControl store' u n = ls_GetFlowControl store u n.
Proof.
  intros Hs Hinv. unfold deleteCondition_of, getLimitStoreForShard. rewrite Hs.
  destruct (GetShardID _ _) as [id|[]|]; [|split; [apply touches_refl|eauto]].
  destruct (rl_IsLeader r id && _); [|split; [apply touches_refl|eauto]].
  destruct (ls_Delete _ _ _ _) as [[w s] res] eqn:E.
  destruct (law_delete _ _ _ _ _ _ _ Hinv E) as (Hinv' & _ & _ & Hfc).
  split; [apply touches_put|]. exists s. simpl. by rewrite lookup_insert_eq.
Qed.

Lemma deleteConditions_of_spec l r shard store :
  rl_limitStoreMap r !! shard = Some store -> ls_inv store ->
  let r' := foldl (fun r c => deleteCondition_of r shard c) r l in
  touches_only shard r r' /\
  exists store', rl_limitStoreMap r' !! shard = Some store' /\
    ls_inv store' /\ forall u n, ls_GetFlowControl store' u n = ls_GetFlowControl store u n.
Proof.
  revert r store. induction l as [|c l IH]; intros r store Hs Hinv; cbn [foldl].
  - split; [apply touches_refl|eauto].
  - destruct (deleteCondition_of_spec r shard c store Hs Hinv) as (Ht & s1 & Hs1 & Hinv1 & Hfc1).
    destruct (IH _ s1 Hs1 Hinv1) as (Ht' & s2 & Hs2 & Hinv2 & Hfc2).
    split; [by eapply touches_trans|]. exists s2. split_and!; [done..|]. intros. by rewrite Hfc2, Hfc1.
Qed.

Lemma cleanup_shard_spec instance r shard store entry :
  rl_limitStoreMap r !! shard = Some store -> ls_inv store ->
  let r' := cleanup_shard instance_selector instance r (shard, entry) in
  touches_only shard r r' /\
  exists store', rl_limitStoreMap r' !! shard = Some store' /\ ls_inv store' /\
    forgets instance store store'.
Proof.
  intros Hs Hinv. unfold cleanup_shard.
  destruct (deleteConditions_of_spec (ls_List entry (instance_selector instance)) r shard store Hs Hinv)
    as (Ht & s1 & Hs1 & Hinv1 & Hfc1).
  unfold deleteGlobalFlowControl, getLimitStoreForShard. rewrite Hs1.
  destruct (law_delete_instance s1 instance Hinv1) as (Hinv2 & _ & Hfc2). split.
  - eapply touches_trans; [exact Ht|]. apply touches_stores. intros k Hk. by rewrite lookup_insert_ne.
  - eexists. simpl. rewrite lookup_insert_eq. split_and!; [done..|].
    intros c n. rewrite Hfc2, Hfc1. by destruct (ls_GetFlowControl store c n).
Qed.

Lemma cleanup_shards_spec instance l r :
  NoDup (fst <$> l) ->
  (forall k s, (k, s) ∈ l -> exists s0, rl_limitStoreMap r !! k = Some s0 /\ ls_inv s0) ->
  let r' := foldl (cleanup_shard instance_selector instance) r l in
  forall k store, rl_limitStoreMap r !! k = Some store ->
    exists store', rl_limitStoreMap r' !! k = Some store' /\
      if decide (k ∈ fst <$> l) then forgets instance store store' else store' = store.
Proof.
  revert r. induction l as [|[k0 s0] l IH]; intros r Hnd Hl r' k store Hk.
  - exists store. by rewrite decide_False by (apply not_elem_of_nil).
  - cbn [fmap list_fmap foldl fst] in *. apply list.NoDup_cons in Hnd as [Hni Hnd].
    destruct (Hl k0 s0) as (s1 & Hs1 & Hinv1); [by left|].
    destruct (cleanup_shard_spec instance r k0 s1 s0 Hs1 Hinv1) as ([_ Ht] & s2 & Hs2 & Hinv2 & Hf).
    set (r1 := cleanup_shard instance_selector instance r (k0, s0)) in *.
    assert (forall k s, (k, s) ∈ l -> k <> k0) as Hne.
    { intros k1 s Hin ->. apply Hni, list_elem_of_fmap. by exists (k0, s). }
    assert (forall k s, (k, s) ∈ l -> exists s0, rl_limitStoreMap r1 !! k = Some s0 /\ ls_inv s0) as Hl1.
    { intros k1 s Hin. rewrite Ht by by apply (Hne k1 s). apply (Hl k1 s). by right. }
    destruct (decide (k = k0)) as [->|Hkk].
    + destruct (IH r1 Hnd Hl1 k0 s2 Hs2) as (s3 & Hs3 & Hcase).
      rewrite decide_False in Hcase by done. subst s3. exists s2. split; [done|].
      rewrite decide_True by by left. by simplify_eq.
    + destruct (IH r1 Hnd Hl1 k store) as (s3 & Hs3 & Hcase); [by rewrite Ht|].
      exists s3. split; [done|]. revert Hcase. do 2 case_decide; set_solver.
Qed.

(** Cleaning up a client removes it from the in-flight counters of every
    store: what it had in flight no longer counts, the counters keep equal to
    the sum of what is recorded, and no other client's record changes. *)
Theorem cleanup_instance_forgets r instance shard store c n f :
  map_Forall (fun _ s => ls_inv s) (rl_limitStoreMap r) ->
  rl_limitStoreMap r !! shard = Some store ->
  ls_GetFlowControl store c n = Ok (GlobalMaxInflight f) -> inflight_inv f ->
  exists store' f',
    rl_limitStoreMap (cleanup_instance instance_selector r instance) !! shard = Some store' /\
    ls_GetFlowControl store' c n = Ok (GlobalMaxInflight f') /\ inflight_inv f' /\
    entries (to_ledger f') = delete instance (entries (to_ledger f)).
Proof.
  intros Hinv Hs Hfc Hf.
  destruct (cleanup_shards_spec instance (Range (rl_limitStoreMap r)) r) with (k := shard) (store := store)
    as (store' & Hs' & Hcase); [|intros k s Hin|done|].
  - rewrite Range_perm. apply NoDup_fst_map_to_list.
  - rewrite elem_of_Range in Hin. exists s. split; [done|]. by apply (Hinv k).
  - rewrite decide_True in Hcase.
    + destruct (SetState_remove f instance (-1) Hf) as [Hi' He].
      exists store', (fst (globalMaxInflight_SetState f instance (-1) (-1))).
      split_and!; [done| |done|done]. specialize (Hcase c n). rewrite Hfc in Hcase. rewrite Hcase.
      simpl. by destruct (globalMaxInflight_SetState f instance (-1) (-1)).
    + apply list_elem_of_fmap. exists (shard, store). by rewrite elem_of_Range.
Qed.
End cleanup.

(** * Witnesses *)

#[local] Existing Instance SimpleLimiter.limiter.
#[local] Existing Instance sorted_range.
#[local] Existing Instance amd64_conversion.

Module LimiterExample.
(** A server that leads its only shard, with one upstream whose total is 100
    requests in flight. *)
Definition upstream : UpstreamCluster := Example.cluster (StoreExample.schema 100).

Definition lister : cluster_lister :=
  MkLister (inr [upstream]) (fun n => if decide (n = "c1") then inr upstream else inl (NotFound "" n)).

Definition server (stores : gmap Z localStore) (locks : gset string) : rateLimiter :=
  MkRateLimiter "run" "me" 1 {[ 0 := MkEndpointInfo "me" 0 ]} {[ "gw" := 0 ]} stores locks tt.

Definition state : RateLimitCondition := updateUpstreamStateCondition None upstream.

Definition store : localStore :=
  localStore_SyncFlowControl (fst (localStore_Save NewLocalStore "c1" state)) "c1"
    (spec_FlowControl (uc_Spec upstream)).

(** The first report of a client. *)
Definition first_report : RateLimitCondition :=
  MkCondition "c1.gw" "" None
    (MkRateLimitSpec "c1" "gw" [MkItemConfig "fc" (MkDetail (Some (MkMaxInflight 0)) None) "local"])
    (MkRateLimitStatus [MkItemStatus "fc" (MkDetail (Some (MkMaxInflight 3)) None) 0]).

Definition leading : rateLimiter := server {[ 0 := store ]} {[ "c1" ]}.

Definition reported : rateLimiter * result limiter_error RateLimitCondition :=
  UpdateRateLimitConditionStatus leading "c1" first_report.

Definition answer_of {A} (d : A) (res : result limiter_error A) : A :=
  match res with Ok a => a | _ => d end.

Lemma new_store_inv : local_inv NewLocalStore.
Proof. by intros c u Hu. Qed.

Definition saved : localStore := fst (localStore_Save NewLocalStore "c1" state).

Lemma saved_spec : local_inv saved /\ forall c n x, localStore_Get saved c n = Ok x -> c = "c1" /\ x = state.
Proof.
  destruct (Save_spec NewLocalStore "c1" state saved new_store_inv eq_refl) as (Hs & Hg & Hframe & _).
  split; [exact Hs|]. intros c n x. destruct (decide (c = "c1" /\ n = rlc_Name state)) as [[-> ->]|Hne].
  - rewrite Hg. by intros [= <-].
  - rewrite Hframe; [done|]. intros Heq. apply Hne. by injection Heq.
Qed.

Lemma store_spec : local_inv store /\ forall c n x, localStore_Get store c n = Ok x -> c = "c1" /\ x = state.
Proof.
  destruct (SyncFlowControl_conditions saved "c1" (spec_FlowControl (uc_Spec upstream)) (proj1 saved_spec))
    as [Hs Hg].
  split; [exact Hs|]. intros c n x Hx. apply (proj2 saved_spec c n). by rewrite <- Hg.
Qed.

Lemma leading_inv : limiter_inv (W := unit) leading.
Proof.
  intros k s Hk. simpl in Hk. apply lookup_singleton_Some in Hk as [<- <-]. split; [apply store_spec|].
  intros cluster c Hc. by apply store_spec in Hc as [-> ->].
Qed.
End LimiterExample.

Lemma report_totals_witness :
  let r := LimiterExample.reported in
  snd r = Ok (LimiterExample.answer_of empty_condition (snd r)) /\
  limiter_inv (W := unit) (fst r).
Proof.
  assert (snd LimiterExample.reported =
    Ok (LimiterExample.answer_of empty_condition (snd LimiterExample.reported))) as Hok
    by (vm_compute; reflexivity).
  split; [exact Hok|].
  refine (proj1 (report_totals (W := unit) LimiterExample.leading "c1" LimiterExample.first_report
    (fst LimiterExample.reported) (LimiterExample.answer_of empty_condition (snd LimiterExample.reported))
    LimiterExample.leading_inv _ _)).
  - discriminate.
  - rewrite <- Hok. apply surjective_pairing.
Defined.

Lemma DoAcquire_answers_witness :
  let req := MkAcquire "a" (MkAcquireSpec "gw" [MkAcquireRequest "fc" 40; MkAcquireRequest "nope" 1] 1)
               (MkAcquireStatus []) in
  let res := DoAcquire (W := unit) (fun _ => "error") (fun _ _ => 0) LimiterExample.leading "c1" req in
  let answer := LimiterExample.answer_of req (snd res) in
  Results (ra_Status answer) =
    [MkAcquireResult "fc" true 40 ""; MkAcquireResult "nope" false 0 "error"] /\
  exists results, Results (ra_Status answer) = [] ++ results /\ Forall2 answer_ok (Requests (ra_Spec req)) results.
Proof.
  intros req res answer. assert (snd res = Ok answer) as Hok by (vm_compute; reflexivity).
  split; [vm_compute; reflexivity|].
  refine (proj1 (DoAcquire_answers (fun _ => "error") (fun _ _ => 0) LimiterExample.leading "c1" req
    (fst res) answer _)).
  rewrite <- Hok. apply surjective_pairing.
Defined.

Lemma DoAcquire_inflight_witness :
  let req := MkAcquire "a" (MkAcquireSpec "gw" [MkAcquireRequest "fc" 40] 1) (MkAcquireStatus []) in
  let f := newMaxInflightFlowControl "fc" MaxRequestsInflight 100 in
  exists store' f', DoAcquire (W := unit) (fun _ => "error") (fun _ _ => 0) LimiterExample.leading "c1" req =
      (put_store LimiterExample.leading 0 store',
       Ok (MkAcquire "a" (ra_Spec req) (MkAcquireStatus [MkAcquireResult "fc" true 40 ""]))) /\
    localStore_GetFlowControl store' "c1" "fc" = Ok (GlobalMaxInflight f').
Proof.
  intros req f.
  pose proof (DoAcquire_inflight (fun _ => "error") (fun _ _ => 0) LimiterExample.leading "c1" req
    "fc" 40 0 LimiterExample.store f) as Hth.
  destruct Hth as (store' & f' & Heq & _ & _ & _ & Hget).
  - vm_compute. reflexivity.
  - vm_compute. reflexivity.
  - by apply lookup_singleton_Some.
  - apply LimiterExample.store_spec.
  - reflexivity.
  - lia.
  - reflexivity.
  - reflexivity.
  - by split.
  - vm_compute. reflexivity.
  - exists store', f'. split; [exact Heq|]. exact (Hget "c1" "fc").
Defined.

Lemma leaderCheck_serves_led_witness :
  is_Some (rl_limitStoreMap (leaderCheck (W := unit) (fun _ => Some NewLocalStore) LimiterExample.lister
    (LimiterExample.server ∅ ∅)) !! 0).
Proof.
  destruct (leaderCheck_serves_led (W := unit) (fun _ => Some NewLocalStore) LimiterExample.lister
    (LimiterExample.server ∅ ∅)) as (_ & _ & Hall).
  apply Hall.
  - split; simpl; try done.
    + intros s c n. unfold localStore_Get. destruct (clusters s !! c) as [u|].
      * destruct (loadCondition u n); (split; [done|]; by intros e [= <-]).
      * split; [done|]. by intros e [= <-].
    + by eexists.
    + intros n e. case_decide; [done|]. by intros [= <-].
  - vm_compute. discriminate.
  - exists (MkEndpointInfo "me" 0). split; reflexivity.
Defined.


Lemma cleanup_instance_forgets_witness :
  let f := fst (globalMaxInflight_SetState
             (newMaxInflightFlowControl "fc" MaxRequestsInflight 100) "gw" 1 40) in
  let s := localStore_UpdateFlowControl LimiterExample.store "c1" "fc" (fun _ => GlobalMaxInflight f) in
  exists store' f', rl_limitStoreMap (cleanup_instance (W := unit) (fun _ _ => true)
      (LimiterExample.server {[ 0 := s ]} ∅) "gw") !! 0 = Some store' /\
    localStore_GetFlowControl store' "c1" "fc" = Ok (GlobalMaxInflight f') /\
    entries (to_ledger f') = ∅.
Proof.
  intros f s.
  destruct (cleanup_instance_forgets (W := unit) (fun _ _ => true)
    (LimiterExample.server {[ 0 := s ]} ∅) "gw" 0 s "c1" "fc" f) as (store' & f' & Hs & Hfc & _ & He).
  - intros k s' Hk. simpl in Hk. apply lookup_singleton_Some in Hk as [<- <-].
    exact (proj1 (UpdateFlowControl_spec LimiterExample.store "c1" "fc" (fun _ => GlobalMaxInflight f)
      "c1" "fc" (proj1 LimiterExample.store_spec))).
  - by apply lookup_singleton_Some.
  - reflexivity.
  - split; try done. refine (bool_decide_unpack _ _). vm_compute. exact I.
  - exists store', f'. split_and!; [exact Hs|exact Hfc|]. rewrite He. reflexivity.
Defined.

(** The label a first report gets is not its instance but the empty string:
    the clean-up of the instance, which selects by label, does not find it. *)
Example first_report_label :
  let answer := LimiterExample.answer_of empty_condition (snd LimiterExample.reported) in
  rls_Instance (rlc_Spec answer) = "gw" /\
  (rlc_Labels answer ≫= lookup RateLimitConditionInstanceLabel) = Some "".
Proof. by vm_compute. Qed.
