(* ===== verification/ServerInvariant.v ===== *)
(** The invariant of the rate limit server over every run of its operations,
    the failing ones included: each condition is kept under its own name, for
    the cluster it speaks of, in the store of the shard of that cluster.  It
    is proved for every store that keeps conditions where they were put, and
    both stores do. *)
From stdpp Require Import base tactics list strings gmap sets relations.
From Stdlib Require Import ZArith Lia.
From S2P Require Import Prelude ApiTypes Validation FlowControl GlobalFlowControl LimitStore K8sStore Float64 Allocation RateLimiter RateLimiterSpec.

Local Open Scope Z_scope.
Local Open Scope go_scope.

(** * Stores that keep conditions where they were put *)

Section keeps.
Context `{RateLimiter} {W S : Type} `{!LimitStore W S} `{!LimitStoreLaws W S}.

(** What a store has after an operation it had before, or the operation put
    it there. *)
Definition kept (s s' : S) (put : string -> string -> RateLimitCondition -> Prop) : Prop :=
  ls_inv s' /\ forall c n x, ls_Get s' c n = Ok x -> ls_Get s c n = Ok x \/ put c n x.

Definition nothing (_ _ : string) (_ : RateLimitCondition) : Prop := False.

Lemma kept_refl s put : ls_inv s -> kept s s put.
Proof. split; [done|]. by left. Qed.
End keeps.

(** What holds of an operation whatever it returns.  [ls_loads] are the clusters
    whose conditions [Load] brings. *)
Class LimitStoreKeeps `{RateLimiter} (W S : Type) `{!LimitStore W S} `{!LimitStoreLaws W S} := {
  ls_loads : S -> string -> Prop;
  keeps_save : forall w s c cond, ls_inv s ->
    kept s (snd (fst (ls_Save w s c cond))) (fun c' n x => c' = c /\ same_content x cond);
  keeps_others : forall w s c cond c' n, ls_inv s -> (c', n) <> (c, rlc_Name cond) ->
    ls_Get (snd (fst (ls_Save w s c cond))) c' n = ls_Get s c' n;
  keeps_delete : forall w s c n, ls_inv s -> kept s (snd (fst (ls_Delete w s c n))) nothing;
  keeps_delete_upstream : forall w s c, ls_inv s -> kept s (snd (fst (ls_DeleteUpstream w s c))) nothing;
  keeps_update : forall s c n f, ls_inv s -> kept s (ls_UpdateFlowControl s c n f) nothing;
  keeps_load : forall w s, ls_inv s ->
    kept s (snd (fst (ls_Load w s))) (fun c n x => rls_UpstreamCluster (rlc_Spec x) = c /\ ls_loads s c)
}.

Section local.
Context `{RateLimiter} `{MapRange}.

Lemma local_Save_kept (s : localStore) c cond :
  local_inv s -> forall c' n x, localStore_Get (fst (localStore_Save s c cond)) c' n = Ok x ->
  localStore_Get s c' n = Ok x \/ (c' = c /\ x = cond).
Proof.
  intros Hs c' n x Hx. destruct (Save_spec s c cond _ Hs eq_refl) as (_ & Hg & Hne & _).
  destruct (decide ((c', n) = (c, rlc_Name cond))) as [[= -> ->]|Hd].
  - right. split; [done|]. cbn in Hg, Hx. congruence.
  - left. cbn in Hne, Hx. by rewrite <- (Hne c' n Hd).
Qed.

Lemma local_Delete_kept (s : localStore) c n :
  local_inv s -> kept (W := unit) s (fst (localStore_Delete s c n)) nothing.
Proof.
  intros Hs. destruct (Delete_spec s c n _ Hs (localStore_Delete_Ok s c n)) as (Hs' & Hg & Hne & _).
  split; [done|]. intros c' n' x Hx. left. destruct (decide ((c', n') = (c, n))) as [[= -> ->]|Hd]; cbn in *; [congruence|].
  by rewrite <- Hne.
Qed.

Lemma local_DeleteUpstream_kept (s : localStore) c c' n x :
  localStore_Get (fst (localStore_DeleteUpstream s c)) c' n = Ok x -> localStore_Get s c' n = Ok x.
Proof.
  unfold localStore_Get. cbn. destruct (decide (c' = c)) as [->|Hne]; [by rewrite lookup_delete_eq|].
  by rewrite lookup_delete_ne.
Qed.

Lemma local_UpdateFlowControl_kept (s : localStore) c n f c' n' :
  localStore_Get (localStore_UpdateFlowControl s c n f) c' n' = localStore_Get s c' n'.
Proof.
  unfold localStore_Get, localStore_UpdateFlowControl. cbn. destruct (decide (c' = c)) as [->|Hne].
  - rewrite lookup_alter_eq. by destruct (clusters s !! c).
  - by rewrite lookup_alter_ne.
Qed.

#[export] Instance localStore_keeps {W} : LimitStoreKeeps W localStore.
Proof.
  refine {| ls_loads _ _ := False |}; cbn.
  - intros w s c cond Hs. split; [by apply (Save_spec s c cond _ Hs eq_refl)|].
    intros c' n x [Hx|[-> ->]]%local_Save_kept; [by left| |done]. right. by split.
  - intros w s c cond c' n Hs Hne. by apply (Save_spec s c cond _ Hs eq_refl).
  - intros w s c n Hs. by apply local_Delete_kept.
  - intros w s c Hs. split; [by apply (DeleteUpstream_spec s c _ Hs eq_refl)|].
    intros c' n x Hx%local_DeleteUpstream_kept. by left.
  - intros s c n f Hs. split; [by apply (UpdateFlowControl_spec s c n f "" "" Hs)|].
    intros c' n' x. cbn. rewrite local_UpdateFlowControl_kept. by left.
  - intros w s Hs. by apply kept_refl.
Defined.
End local.

Section object.
Context `{RateLimiter} `{MapRange} {W : Type} `{!RestClient W} `{Backoff}.

Lemma load_items_kept items s s' :
  local_inv (os_localStore s) -> load_items s items = Ok s' ->
  local_inv (os_localStore s') /\
  forall c n x, localStore_Get (os_localStore s') c n = Ok x -> localStore_Get (os_localStore s) c n = Ok x \/
    (rls_UpstreamCluster (rlc_Spec x) = c /\ GetShardID c (os_shardCount s) = Ok (os_shard s)).
Proof.
  revert s. induction items as [|item items IH]; intros s Hs; [intros [= <-]; eauto|].
  cbn [load_items]. destruct (GetShardID _ _) as [shard|[]|] eqn:E; [|done]. cbn [result_bind].
  destruct (Z.eqb_spec shard (os_shard s)) as [->|]; cbn [negb]; [|by apply IH].
  rewrite (surjective_pairing (localStore_Save _ _ item)). intros Hload.
  pose proof (proj1 (Save_spec _ (rls_UpstreamCluster (rlc_Spec item)) item _ Hs eq_refl)) as Hsave.
  destruct (IH (with_local s (fst (localStore_Save (os_localStore s) (rls_UpstreamCluster (rlc_Spec item)) item)))
    Hsave Hload) as [Hs' Hget]. split; [exact Hs'|].
  intros c n x Hx. destruct (Hget c n x Hx) as [Hl|Hl]; [|by right]. cbn in Hl.
  destruct (local_Save_kept _ _ _ Hs c n x Hl) as [?|[-> ->]]; [by left|by right].
Qed.

#[export] Instance objectStore_keeps : LimitStoreKeeps W objectStore.
Proof.
  refine {| ls_loads s c := GetShardID c (os_shardCount s) = Ok (os_shard s) |}; cbn.
  - intros w s c cond Hs. unfold objectStore_Save.
    destruct (GetShardID _ _) as [shard|[]|]; [|by apply kept_refl]. destruct (negb _); [by apply kept_refl|].
    destruct (if os_syncPeriod s =? 0 then _ else _) as [[w1 cond1] err] eqn:E.
    destruct err as [e|]; [by apply kept_refl|].
    assert (same_content cond1 cond) as Hc.
    { destruct (os_syncPeriod s =? 0); [|injection E as _ <-; apply same_content_refl].
      by apply createOrUpdate_spec in E as [? _]. }
    split; [by apply (Save_spec _ c cond1 _ Hs eq_refl)|].
    intros c' n x [Hx|[-> ->]]%local_Save_kept; [by left|by right|done].
  - intros w s c cond c' n Hs Hne. unfold objectStore_Save.
    destruct (GetShardID _ _) as [shard|[]|]; [|done]. destruct (negb _); [done|].
    destruct (if os_syncPeriod s =? 0 then _ else _) as [[w1 cond1] err] eqn:E. destruct err as [e|]; [done|].
    apply (Save_spec _ c cond1 _ Hs eq_refl). assert (rlc_Name cond1 = rlc_Name cond) as ->; [|done].
    destruct (os_syncPeriod s =? 0); [|by injection E as _ <-]. by apply createOrUpdate_spec in E as [(? & _) _].
  - intros w s c n Hs. unfold objectStore_Delete. destruct (RetryOnConflict _ w) as [w1 [e|]]; [by apply kept_refl|].
    rewrite localStore_Delete_Ok. destruct (local_Delete_kept (os_localStore s) c n Hs) as [Hs' Hk]. by split.
  - intros w s c Hs. unfold objectStore_DeleteUpstream.
    destruct (delete_all_on_server _ _) as [w1 [e|]]; [by apply kept_refl|].
    split; [by apply (DeleteUpstream_spec _ c _ Hs eq_refl)|].
    intros c' n x Hx%local_DeleteUpstream_kept. by left.
  - intros s c n f Hs. split; [by apply (UpdateFlowControl_spec _ c n f "" "" Hs)|].
    intros c' n' x. cbn. rewrite local_UpdateFlowControl_kept. by left.
  - intros w s Hs. unfold objectStore_Load. destruct (rest_List w) as [e|items]; [by apply kept_refl|].
    destruct (load_items s items) as [s'|[]|] eqn:E; [|by apply kept_refl]. by apply (load_items_kept items s s').
Defined.
End object.

(** * The server *)

Section server.
Context `{RateLimiter} `{MapRange} `{FloatToInt} {W S : Type} `{!LimitStore W S} `{!LimitStoreLaws W S} `{!LimitStoreKeeps W S}.
Context (error_text : api_error -> string) (newStore : Z -> option S).
Context (instance_selector : string -> gmap string string -> bool).
Implicit Types r : rateLimiter (W := W) (S := S).

(** A condition kept for a cluster in the store of a shard. *)
Definition filed (count shard : Z) (cluster : string) (x : RateLimitCondition) : Prop :=
  rls_UpstreamCluster (rlc_Spec x) = cluster /\ GetShardID cluster count = Ok shard.

Definition store_ok (count shard : Z) (s : S) : Prop :=
  ls_inv s /\ forall c n x, ls_Get s c n = Ok x -> filed count shard c x.

Definition server_ok r : Prop := map_Forall (store_ok (rl_shardCount r)) (rl_limitStoreMap r).

Lemma kept_ok count shard s s' put :
  store_ok count shard s -> kept s s' put -> (forall c n x, put c n x -> filed count shard c x) ->
  store_ok count shard s'.
Proof. intros [_ Hs] [Hinv Hk] Hput. split; [done|]. intros c n x Hx. destruct (Hk c n x Hx); eauto. Qed.

Lemma unchanged_ok count shard s s' :
  store_ok count shard s -> kept s s' nothing -> store_ok count shard s'.
Proof. intros Hs Hk. apply (kept_ok _ _ _ _ _ Hs Hk). intros c n x []. Qed.

(** A run of the server that keeps its invariant. *)
Definition safe r r' : Prop := rl_shardCount r' = rl_shardCount r /\ (server_ok r -> server_ok r').

#[export] Instance safe_preorder : PreOrder safe.
Proof.
  split; [by intros r|]. intros r1 r2 r3 [Hc1 Hs1] [Hc2 Hs2]. split; [congruence|auto].
Qed.

Lemma safe_foldl {A} (f : rateLimiter -> A -> rateLimiter) l r :
  (forall r a, safe r (f r a)) -> safe r (foldl f r l).
Proof.
  intros Hf. revert r. induction l as [|a l IH]; intros r; cbn [foldl]; [reflexivity|].
  by transitivity (f r a).
Qed.

(** Changing the store of a shard. *)
Lemma safe_store r r' shard s :
  rl_shardCount r' = rl_shardCount r -> rl_limitStoreMap r' = <[shard := s]> (rl_limitStoreMap r) ->
  (server_ok r -> store_ok (rl_shardCount r) shard s) -> safe r r'.
Proof.
  intros Hc Hm Hs. split; [done|]. intros Hr. unfold server_ok. rewrite Hc, Hm. by apply map_Forall_insert_2; auto.
Qed.

(** Changing anything but the stores. *)
Lemma safe_same r r' :
  rl_shardCount r' = rl_shardCount r -> rl_limitStoreMap r' = rl_limitStoreMap r -> safe r r'.
Proof. intros Hc Hm. split; [done|]. unfold server_ok. by rewrite Hc, Hm. Qed.

Lemma safe_drop r shard s : safe r (drop_store r shard s).
Proof. split; [done|]. intros Hr. by apply map_Forall_delete. Qed.

Lemma server_store r shard s :
  getLimitStoreForShard r shard = Some s -> server_ok r -> store_ok (rl_shardCount r) shard s.
Proof. intros Hs Hr. by apply (Hr shard s). Qed.

(** ** Acquire *)

Lemma acquire_one_kept clock (store : S) upstream instance rid limit :
  ls_inv store -> kept store (fst (acquire_one error_text clock store upstream instance rid limit)) nothing.
Proof.
  intros Hs. unfold acquire_one. destruct (ls_GetFlowControl _ _ _) as [fc|e|]; [|by apply kept_refl..].
  destruct (_ <? 0); [by apply kept_refl|].
  destruct (GlobalFlowControl_Type fc); try by apply kept_refl.
  - destruct (GlobalFlowControl_SetState _ _ _ _) as [fc' [[a t] e]]. by apply keeps_update.
  - destruct (try_tokens _ _ _ _ _) as [[fc' a] g]. by apply keeps_update.
Qed.

Lemma acquire_all_ok clock count shard upstream instance rid limits (store : S) :
  store_ok count shard store -> store_ok count shard (fst (acquire_all error_text clock store upstream instance rid limits)).
Proof.
  revert store. induction limits as [|limit limits IH]; intros store Hs; [done|]. cbn [acquire_all].
  pose proof (acquire_one_kept (clock (length (limit :: limits))) store upstream instance rid limit (proj1 Hs)) as Hk.
  destruct (acquire_one _ _ _ _ _ _ _) as [s1 res]. apply (unchanged_ok _ _ _ _ Hs) in Hk. cbn [fst] in Hk.
  destruct res as [rs|e|]; [|done..]. pose proof (IH s1 Hk) as Hall.
  by destruct (acquire_all _ _ _ _ _ _ _).
Qed.

Lemma DoAcquire_safe clock r upstream req : safe r (fst (DoAcquire error_text clock r upstream req)).
Proof.
  unfold DoAcquire. destruct (GetShardID _ _) as [shard|[]|]; [|reflexivity].
  destruct (rl_IsLeader r shard); [|reflexivity].
  destruct (getLimitStoreForShard r shard) as [store|] eqn:Es; [|reflexivity].
  pose proof (fun Hs => acquire_all_ok clock (rl_shardCount r) shard upstream (as_Instance (ra_Spec req))
    (RequestID (ra_Spec req)) (Requests (ra_Spec req)) store Hs) as Hall.
  destruct (acquire_all _ _ _ _ _ _ _) as [s res]. apply (safe_store _ _ shard s); [done..|].
  intros Hr. by apply Hall, server_store.
Qed.

(** ** Reports *)

Lemma save_ok count shard w (s : S) c cond :
  store_ok count shard s -> filed count shard c cond -> store_ok count shard (snd (fst (ls_Save w s c cond))).
Proof.
  intros Hs [Hc Hsh]. apply (kept_ok _ _ _ _ _ Hs (keeps_save w s c cond (proj1 Hs))).
  intros c' n x [-> (_ & Hx & _)]. split; [congruence|done].
Qed.

(** Writing through the pointer to a condition. *)
Lemma update_condition_ok count shard (s : S) c n y :
  store_ok count shard s -> filed count shard c y -> rlc_Name y = n ->
  store_ok count shard (ls_UpdateCondition s c n (fun _ => y)).
Proof.
  intros [Hinv Hs] Hy Hn.
  destruct (law_update_condition s c n (fun _ => y) Hinv) as (Hinv' & Hget & _).
  { intros x Hx. by rewrite (law_name s c n x Hinv Hx). }
  split; [done|]. intros c' n' x. rewrite Hget. destruct (ls_Get s c' n') as [z|e|] eqn:E; [|done..].
  intros [= <-]. case_decide as Hd; [injection Hd as -> ->; done|by apply (Hs c' n')].
Qed.

Lemma calculate_keeps (s : S) c c' :
  calculateUpstreamCondition s c = Ok c' -> rlc_Name c' = rlc_Name c /\ rlc_Spec c' = rlc_Spec c.
Proof.
  unfold calculateUpstreamCondition. destruct (sum_conditions _ _ _ _ _) as [[totals levels]|[]|]; [|done].
  by intros [= <-].
Qed.

Lemma save_report_store_ok count shard w (s : S) uc condition :
  let cluster := rls_UpstreamCluster (rlc_Spec condition) in
  store_ok count shard s -> filed count shard cluster uc ->
  store_ok count shard (snd (fst (save_report w s uc condition))).
Proof.
  intros cluster Hs Huc. unfold save_report. fold cluster.
  pose proof (save_ok count shard w s cluster condition Hs (conj eq_refl (proj2 Huc))) as Hsave.
  destruct (ls_Save w s cluster condition) as [[w1 s1] [u|e|]]; cbn [fst snd] in Hsave; [|done..].
  destruct (calculateUpstreamCondition s1 uc) as [totals|[]|] eqn:Ec; [|done].
  destruct (calculate_keeps _ _ _ Ec) as [Hn Hspec].
  assert (filed count shard cluster totals) as Ht by (unfold filed; by rewrite Hspec).
  pose proof (save_ok count shard w1 _ cluster totals
    (update_condition_ok count shard s1 cluster (rlc_Name uc) totals Hsave Ht Hn) Ht) as Hsave'.
  by destruct (ls_Save w1 _ cluster totals) as [[w2 s2] [u'|e|]].
Qed.

Lemma report_safe r upstream condition : safe r (fst (UpdateRateLimitConditionStatus r upstream condition)).
Proof.
  unfold UpdateRateLimitConditionStatus. destruct (GetShardID _ _) as [shard|[]|]; [|reflexivity].
  destruct (rl_IsLeader r shard); [|reflexivity].
  destruct (getLimitStoreForShard r shard) as [store|] eqn:Es; [|reflexivity].
  set (cluster := rls_UpstreamCluster (rlc_Spec condition)).
  destruct (ls_Get store cluster _) as [uc|e|] eqn:Euc; [|reflexivity..].
  destruct (decide _); [|reflexivity].
  match goal with |- context [match ?x with Ok _ => _ | Err _ => _ | Panic => _ end] => destruct x as [granted'|err|] eqn:Eg end;
    [|reflexivity..].
  assert (rls_UpstreamCluster (rlc_Spec granted') = cluster) as Hcl.
  { revert Eg. unfold result_bind. do 2 (match goal with |- context [match ?x with _ => _ end] => destruct x end; try done).
    by intros [= <-]. }
  pose proof (save_report_store_ok (rl_shardCount r) shard (rl_world r) store uc granted') as Hrep.
  destruct (save_report _ _ _ _) as [[w s] res]. apply (safe_store _ _ shard s); [done..|].
  intros Hr. pose proof (server_store _ _ _ Es Hr) as Hs. apply (Hrep Hs). rewrite Hcl. apply (proj2 Hs _ _ _ Euc).
Qed.

(** ** Upstream clusters *)

Lemma updated_filed count shard o cluster :
  GetShardID (uc_Name cluster) count = Ok shard -> from_option (filed count shard (uc_Name cluster)) True o ->
  filed count shard (uc_Name cluster) (updateUpstreamStateCondition o cluster).
Proof. intros Hsh Ho. by destruct o as [c|]; cbn in *; [destruct Ho|]. Qed.

Lemma save_upstream_store_ok count shard w (s : S) cluster :
  GetShardID (uc_Name cluster) count = Ok shard -> store_ok count shard s ->
  store_ok count shard (snd (fst (save_upstream w s cluster))).
Proof.
  intros Hsh Hs. set (name := uc_Name cluster) in *.
  assert (forall s c, store_ok count shard s -> filed count shard name c ->
    store_ok count shard (snd (fst (match ls_Save w s name c with
      | (w, store, Err e) => (w, store, Err (StoreError e))
      | (w, store, Panic) => (w, store, Panic)
      | (w, store, Ok _) => (w, ls_SyncFlowControl store name (spec_FlowControl (uc_Spec cluster)), Ok tt)
      end)))) as Hsave.
  { intros s0 c Hs0 Hc. pose proof (save_ok count shard w s0 name c Hs0 Hc) as Hk.
    destruct (ls_Save w s0 name c) as [[w1 s1] [u|e|]]; cbn [fst snd] in *; [|done..].
    destruct (law_sync s1 name (spec_FlowControl (uc_Spec cluster)) (proj1 Hk)) as [Hinv Hget].
    split; [done|]. intros c' n x. rewrite Hget. apply Hk. }
  unfold save_upstream. fold name. destruct (ls_Get s name _) as [c|e|] eqn:E; [| |done].
  - assert (filed count shard name (updateUpstreamStateCondition (Some c) cluster)) as Hu
      by (apply updated_filed; [done|apply (proj2 Hs _ _ _ E)]).
    apply Hsave; [|done]. apply update_condition_ok; [done..|].
    cbn. by rewrite (law_name s name _ c (proj1 Hs) E).
  - destruct (IsNotFound e); [|done]. apply Hsave; [done|]. by apply updated_filed.
Qed.

Lemma handler_safe lister r cluster : safe r (fst (UpstreamConditionHandler lister r cluster)).
Proof.
  unfold UpstreamConditionHandler. destruct (GetShardID _ _) as [shard|[]|] eqn:Hsh; [|reflexivity].
  destruct (rl_IsLeader r shard); [|reflexivity].
  destruct (getLimitStoreForShard r shard) as [store|] eqn:Es; [|reflexivity].
  destruct (lister_Get lister _) as [e|?].
  - destruct (IsNotFound e); [|reflexivity].
    pose proof (fun Hs => keeps_delete_upstream (rl_world r) store (uc_Name cluster) Hs) as Hk.
    destruct (ls_DeleteUpstream _ _ _) as [[w s] res]. cbn [fst snd] in Hk.
    assert (server_ok r -> store_ok (rl_shardCount r) shard s) as Hs.
    { intros Hr. pose proof (server_store _ _ _ Es Hr) as Hs. apply (unchanged_ok _ _ _ _ Hs), Hk, Hs. }
    by destruct res; apply (safe_store _ _ shard s).
  - pose proof (save_upstream_store_ok (rl_shardCount r) shard (rl_world r) store cluster Hsh) as Hk.
    change (rl_world (with_lock r (uc_Name cluster))) with (rl_world r).
    destruct (save_upstream _ _ _) as [[w s] res]. apply (safe_store _ _ shard s); [done..|].
    intros Hr. by apply Hk, server_store.
Qed.

Lemma handle_clusters_safe lister r shard clusters : safe r (fst (handle_clusters lister r shard clusters)).
Proof.
  revert r. induction clusters as [|c clusters IH]; intros r; [reflexivity|]. cbn [handle_clusters].
  destruct (GetShardID _ _) as [id|[]|]; [|reflexivity]. destruct (id =? shard); [|apply IH].
  pose proof (handler_safe lister r c) as Hh. destruct (UpstreamConditionHandler lister r c) as [r1 [u| |]]; [|done..].
  etransitivity; [exact Hh|apply IH].
Qed.

(** ** Leading a shard *)

(** New stores are empty, and load what belongs to their shard. *)
Definition sound_stores (count : Z) : Prop :=
  forall shard s, newStore shard = Some s ->
    ls_inv s /\ (forall c n x, ls_Get s c n <> Ok x) /\ forall c, ls_loads s c -> GetShardID c count = Ok shard.

Lemma load_ok count shard w s :
  sound_stores count -> newStore shard = Some s -> store_ok count shard (snd (fst (ls_Load w s))).
Proof.
  intros Hnew Hs. destruct (Hnew shard s Hs) as (Hinv & Hempty & Hloads).
  eapply (kept_ok _ _ s); [|by apply keeps_load|].
  - split; [done|]. intros c n x Hx. by destruct (Hempty c n x).
  - intros c n x [Hc Hl]. split; [done|by apply Hloads].
Qed.

Lemma startLeading_safe lister r shard :
  sound_stores (rl_shardCount r) -> safe r (startLeading newStore lister r shard).
Proof.
  intros Hnew. unfold startLeading. destruct (getLimitStoreForShard r shard); [reflexivity|].
  destruct (newStore shard) as [s|] eqn:Es; [|reflexivity].
  pose proof (load_ok _ _ (rl_world r) s Hnew Es) as Hload.
  destruct (ls_Load _ _) as [[w s1] res]. cbn [fst snd] in Hload.
  assert (safe r (put_store_world r shard (w, s1))) as Hput by by apply (safe_store _ _ shard s1).
  destruct res; [|etransitivity; [exact Hput|apply safe_drop]|exact Hput].
  assert (safe r (fst (syncUpstreamClustersForShard lister (put_store_world r shard (w, s1)) shard))) as Hsync.
  { unfold syncUpstreamClustersForShard. destruct (lister_clusters lister); [done|].
    etransitivity; [exact Hput|apply handle_clusters_safe]. }
  destruct (syncUpstreamClustersForShard _ _ _) as [r1 res]. cbn [fst] in Hsync.
  destruct res; [done| |done]. destruct (getLimitStoreForShard r1 shard); [|done].
  etransitivity; [exact Hsync|apply safe_drop].
Qed.

Lemma stopLeading_safe r shard : safe r (stopLeading r shard).
Proof. unfold stopLeading. destruct (getLimitStoreForShard r shard); [apply safe_drop|reflexivity]. Qed.

Lemma leaderCheck_safe lister r : sound_stores (rl_shardCount r) -> safe r (leaderCheck newStore lister r).
Proof.
  intros Hnew. unfold leaderCheck. etransitivity; [|apply safe_foldl, stopLeading_safe].
  set (l := Range (rl_leaderInfo r)). clearbody l. revert r Hnew.
  induction l as [|[shard info] l IH]; intros r Hnew; cbn [foldl]; [reflexivity|].
  assert (safe r (check_shard newStore lister r (shard, info))) as Hc.
  { unfold check_shard. case_decide; [|reflexivity]. destruct (getLimitStoreForShard r shard); [reflexivity|].
    by apply startLeading_safe. }
  etransitivity; [exact Hc|]. apply IH. by rewrite (proj1 Hc).
Qed.

(** ** Clean-up *)

Lemma deleteCondition_safe r shard condition : safe r (deleteCondition_of r shard condition).
Proof.
  unfold deleteCondition_of. destruct (GetShardID _ _) as [id|[]|]; [|reflexivity].
  destruct (getLimitStoreForShard r shard) as [store|] eqn:Es; [|reflexivity].
  destruct (rl_IsLeader r id && _); [|reflexivity].
  pose proof (fun Hs => keeps_delete (rl_world r) store (rls_UpstreamCluster (rlc_Spec condition)) (rlc_Name condition) Hs) as Hk.
  destruct (ls_Delete _ _ _ _) as [[w s] res]. apply (safe_store _ _ shard s); [done..|].
  intros Hr. pose proof (server_store _ _ _ Es Hr) as Hs. apply (unchanged_ok _ _ _ _ Hs), Hk, Hs.
Qed.

Lemma deleteInstance_safe r shard instance : safe r (deleteGlobalFlowControl r shard instance).
Proof.
  unfold deleteGlobalFlowControl. destruct (getLimitStoreForShard r shard) as [store|] eqn:Es; [|reflexivity].
  apply (safe_store _ _ shard (ls_DeleteInstanceState store instance)); [done..|].
  intros Hr. pose proof (server_store _ _ _ Es Hr) as [Hinv Hs].
  destruct (law_delete_instance store instance Hinv) as (Hinv' & Hget & _). split; [done|].
  intros c n x. rewrite Hget. apply Hs.
Qed.

Lemma cleanup_instance_safe r instance : safe r (cleanup_instance instance_selector r instance).
Proof.
  apply safe_foldl. intros r1 [shard store]. unfold cleanup_shard.
  etransitivity; [|apply deleteInstance_safe]. apply safe_foldl. intros. apply deleteCondition_safe.
Qed.

Lemma cleanupTimeoutClient_safe now r : safe r (fst (cleanupTimeoutClient now r)).
Proof. apply safe_foldl. intros. by apply safe_same. Qed.

(** A loop that carries other values along. *)
Lemma safe_fold {A B} (proj : B -> rateLimiter) (f : B -> A -> B) l b :
  (forall b a, safe (proj b) (proj (f b a))) -> safe (proj b) (proj (foldl f b l)).
Proof.
  intros Hf. revert b. induction l as [|a l IH]; intros b; cbn [foldl]; [reflexivity|].
  etransitivity; [apply Hf|apply IH].
Qed.

Lemma unknown_in_shard_safe r known shard store : safe r (fst (fst (unknown_in_shard r known shard store))).
Proof.
  apply (safe_fold (fun b : rateLimiter * gset string * gset string => fst (fst b))).
  intros [[r1 cs] us] c. cbn [fst]. case_decide; [reflexivity|].
  case_decide; cbn [fst]; [reflexivity|apply deleteCondition_safe].
Qed.

Lemma delete_upstream_safe r upstream :
  safe r (foldl (fun r '(shard, store) =>
    let '(w, store, _) := ls_DeleteUpstream (rl_world r) store upstream in put_store_world r shard (w, store)) r
    (Range (rl_limitStoreMap r))).
Proof.
  assert (server_ok r -> Forall (fun '(shard, s) => store_ok (rl_shardCount r) shard s) (Range (rl_limitStoreMap r))) as Hl.
  { intros Hr. apply Forall_forall. intros [shard s] Hin. apply elem_of_Range in Hin. by apply (Hr shard s). }
  set (count := rl_shardCount r) in *. set (l := Range _) in *. clearbody l.
  set (f := fun r0 _ => _).
  assert (forall r1, rl_shardCount r1 = count -> rl_shardCount (foldl f r1 l) = count) as Hcount.
  { clear Hl. induction l as [|[shard s] l IH]; intros r1 Hr1; [done|]. cbn [foldl]. apply IH. unfold f.
    by destruct (ls_DeleteUpstream _ _ _) as [[w s'] res]. }
  split; [by apply Hcount|]. intros Hr. specialize (Hl Hr). clear Hcount.
  assert (rl_shardCount r = count) as Hc by done. clearbody count. revert r Hr Hc.
  induction Hl as [|[shard s] l Hs _ IH]; intros r Hr Hc; [done|]. cbn [foldl]. unfold f at 2.
  pose proof (keeps_delete_upstream (rl_world r) s upstream (proj1 Hs)) as Hk.
  destruct (ls_DeleteUpstream _ _ _) as [[w s'] res]. apply IH; [|done].
  eapply (safe_store r _ shard s'); [done..| |exact Hr]. intros _. rewrite Hc. by apply (unchanged_ok _ _ s).
Qed.

Lemma cleanupUnknown_safe lister r : safe r (cleanupUnknownCondition lister r).
Proof.
  unfold cleanupUnknownCondition. destruct (lister_clusters lister) as [e|clusters]; [reflexivity|].
  match goal with |- context [foldl ?f (r, ∅, ∅) ?l] => assert (safe r (fst (fst (foldl f (r, ∅, ∅) l)))) as Hu;
    [apply (safe_fold (fun b : rateLimiter * gset string * gset string => fst (fst b)))|destruct (foldl f (r, ∅, ∅) l) as [[r1 cs] us]] end.
  - intros [[r1 cs] us] [shard store].
    pose proof (unknown_in_shard_safe r1 (list_to_set (uc_Name <$> clusters)) shard store) as Hs.
    by destruct (unknown_in_shard _ _ _ _) as [[r2 cs'] us'].
  - etransitivity; [exact Hu|]. etransitivity; [|apply safe_foldl; intros; apply delete_upstream_safe].
    apply safe_foldl. intros r2 instance. apply safe_foldl. intros r3 [shard s]. apply deleteInstance_safe.
Qed.

(** ** All runs *)

(** What happens to a server: requests of clients, changes of clusters,
    changes of leaders, and what it does from time to time. *)
Inductive server_step : rateLimiter -> rateLimiter -> Prop :=
  | step_acquire clock r upstream req : server_step r (fst (DoAcquire error_text clock r upstream req))
  | step_report r upstream condition : server_step r (fst (UpdateRateLimitConditionStatus r upstream condition))
  | step_heartbeat now r instance : server_step r (Heartbeat now r instance)
  | step_cluster lister r cluster : server_step r (fst (UpstreamConditionHandler lister r cluster))
  | step_started lister r shard : server_step r (onStartedLeading newStore lister r shard)
  | step_stopped r shard : server_step r (onStoppedLeading r shard)
  | step_new_leader r shard identity : server_step r (onNewLeader r shard identity)
  | step_leaders lister r : server_step r (leaderCheck newStore lister r)
  | step_timeout now r : server_step r (fst (cleanupTimeoutClient now r))
  | step_instance r instance : server_step r (cleanup_instance instance_selector r instance)
  | step_unknown lister r : server_step r (cleanupUnknownCondition lister r).

Lemma step_safe r r' : sound_stores (rl_shardCount r) -> server_step r r' -> safe r r'.
Proof.
  intros Hnew Hst. destruct Hst.
  - apply DoAcquire_safe.
  - apply report_safe.
  - by apply safe_same.
  - apply handler_safe.
  - etransitivity; [|by apply startLeading_safe]. by apply safe_same.
  - etransitivity; [|apply stopLeading_safe]. by apply safe_same.
  - by apply safe_same.
  - by apply leaderCheck_safe.
  - apply cleanupTimeoutClient_safe.
  - apply cleanup_instance_safe.
  - apply cleanupUnknown_safe.
Qed.

(** C19: A server that starts without stores is well formed after every sequence
    of operations, those that fail or are refused included: each condition is
    kept under its own name, for the cluster it speaks of and in the store
    of the shard of that cluster, and so every lookup of a condition finds
    one of the cluster it asks for.  This is the invariant the theorems on
    reports rely on. *)
Theorem server_well_formed r r' :
  rl_limitStoreMap r = ∅ -> sound_stores (rl_shardCount r) -> rtc server_step r r' ->
  limiter_inv r' /\
  (forall shard s c n x, rl_limitStoreMap r' !! shard = Some s -> ls_Get s c n = Ok x ->
     rlc_Name x = n /\ rls_UpstreamCluster (rlc_Spec x) = c /\ GetShardID c (rl_shardCount r) = Ok shard) /\
  (forall upstream name x, lookup_condition r' upstream name = Ok x ->
     rlc_Name x = name /\ rls_UpstreamCluster (rlc_Spec x) = upstream).
Proof.
  intros Hm Hnew Hrun.
  assert (safe r r') as [Hc Hok].
  { clear Hm. induction Hrun as [|r1 r2 r3 Hst _ IH]; [reflexivity|].
    pose proof (step_safe _ _ Hnew Hst) as Hs. etransitivity; [exact Hs|]. apply IH. by rewrite (proj1 Hs). }
  assert (server_ok r') as Hr' by (apply Hok; intros k s; by rewrite Hm, lookup_empty).
  unfold server_ok in Hr'. rewrite Hc in Hr'. split_and!.
  - intros k s Hk. destruct (Hr' k s Hk) as [Hinv Hf]. split; [done|]. intros cluster c Hg. apply (Hf _ _ _ Hg).
  - intros shard s c n x Hk Hg. destruct (Hr' shard s Hk) as [Hinv Hf]. split; [by apply (law_name s c n x)|apply (Hf c n x Hg)].
  - intros upstream name x. unfold lookup_condition. destruct (GetShardID _ _) as [shard|[]|]; [|done].
    destruct (getLimitStoreForShard r' shard) as [s|] eqn:Hk; [|done]. destruct (Hr' shard s Hk) as [Hinv Hf].
    destruct (ls_Get s upstream name) as [y|e|] eqn:Hg; [|done..]. intros [= <-].
    split; [by apply (law_name s upstream name y)|apply (Hf _ _ _ Hg)].
Qed.
End server.

(** * Example *)

Module ServerExample.
#[local] Existing Instance SimpleLimiter.limiter.
#[local] Existing Instance sorted_range.
#[local] Existing Instance amd64_conversion.

Definition new_server : rateLimiter (W := unit) (S := localStore) := LimiterExample.server ∅ ∅.

Definition local_store (shard : Z) : option localStore := if decide (shard = 0) then Some NewLocalStore else None.

(** A server that starts to lead its shard and takes a report. *)
Definition started : rateLimiter := onStartedLeading local_store LimiterExample.lister new_server 0.
Definition took : rateLimiter * result limiter_error RateLimitCondition :=
  UpdateRateLimitConditionStatus started "c1" LimiterExample.first_report.

Definition reporter (x : result limiter_error RateLimitCondition) : option string :=
  match x with Ok c => Some (rls_Instance (rlc_Spec c)) | _ => None end.

Lemma server_well_formed_witness :
  limiter_inv (W := unit) (fst took) /\ reporter (lookup_condition (fst took) "c1" "c1.gw") = Some "gw".
Proof.
  split; [|vm_compute; reflexivity].
  refine (proj1 (server_well_formed (W := unit) (fun _ => "") local_store (fun _ _ => true) new_server (fst took) eq_refl _ _)).
  - intros shard s. unfold local_store. case_decide as Hs; [|discriminate]. intros [= <-]. subst shard. split_and!.
    + exact LimiterExample.new_store_inv.
    + intros c n x. discriminate.
    + intros c [].
  - eapply rtc_l; [apply step_started with (lister := LimiterExample.lister) (shard := 0)|].
    apply rtc_once. apply step_report.
Defined.
End ServerExample.
