(* ===== verification/Failover.v ===== *)
(** Fail-over of a shard between two rate limit servers that keep their
    conditions in the API server: what the old leader granted, the new one
    knows. *)
From stdpp Require Import base tactics list strings gmap sets relations.
From Stdlib Require Import ZArith Lia.
From S2P Require Import Prelude ApiTypes Validation FlowControl GlobalFlowControl LimitStore K8sStore Float64 Allocation RateLimiter RateLimiterSpec ServerInvariant.

Local Open Scope Z_scope.
Local Open Scope go_scope.

(** * Handling clusters keeps what clients were granted *)

Section others.
Context `{RateLimiter} `{MapRange} `{FloatToInt} {W S : Type} `{!LimitStore W S} `{!LimitStoreLaws W S} `{!LimitStoreKeeps W S}.
Implicit Types r : rateLimiter (W := W) (S := S).

Lemma save_upstream_others w (s : S) cluster c n :
  ls_inv s -> n <> upstreamStateConditionName c ->
  ls_Get (snd (fst (save_upstream w s cluster))) c n = ls_Get s c n.
Proof.
  intros Hinv Hn. set (name := uc_Name cluster).
  assert (forall s x, ls_inv s -> rlc_Name x = upstreamStateConditionName name ->
    ls_Get (snd (fst (match ls_Save w s name x with
      | (w, store, Err e) => (w, store, Err (StoreError e))
      | (w, store, Panic) => (w, store, Panic)
      | (w, store, Ok _) => (w, ls_SyncFlowControl store name (spec_FlowControl (uc_Spec cluster)), Ok tt)
      end))) c n = ls_Get s c n) as Hsave.
  { intros s0 x Hs0 Hx. assert ((c, n) <> (name, rlc_Name x)) as Hne by (rewrite Hx; intros [= -> ->]; done).
    pose proof (keeps_save w s0 name x Hs0) as [Hinv1 _]. pose proof (keeps_others w s0 name x c n Hs0 Hne) as Hk.
    destruct (ls_Save w s0 name x) as [[w1 s1] [u|e|]]; cbn [fst snd] in *; [|done..].
    destruct (law_sync s1 name (spec_FlowControl (uc_Spec cluster)) Hinv1) as [_ Hget]. by rewrite Hget. }
  unfold save_upstream. fold name. destruct (ls_Get s name _) as [x|e|] eqn:E; [| |done].
  - pose proof (law_name s name _ x Hinv E) as Hx.
    destruct (law_update_condition s name (upstreamStateConditionName name)
      (fun _ => updateUpstreamStateCondition (Some x) cluster) Hinv) as (Hinv1 & Hget & _).
    { intros y Hy. by rewrite (law_name s name _ y Hinv Hy). }
    rewrite Hsave by done. rewrite Hget. destruct (ls_Get s c n); [|done..].
    rewrite decide_False by (intros [= -> ->]; done). done.
  - destruct (IsNotFound e); [|done]. by apply Hsave.
Qed.

(** The clusters of a list are found by their names. *)
Definition lists_found (lister : cluster_lister) (clusters : list UpstreamCluster) : Prop :=
  Forall (fun c => exists o, lister_Get lister (uc_Name c) = inr o) clusters.

Lemma handler_others lister r cluster shard s c n :
  server_ok r -> rl_limitStoreMap r !! shard = Some s -> n <> upstreamStateConditionName c ->
  (exists o, lister_Get lister (uc_Name cluster) = inr o) ->
  exists s', rl_limitStoreMap (fst (UpstreamConditionHandler lister r cluster)) !! shard = Some s' /\
    ls_Get s' c n = ls_Get s c n.
Proof.
  intros Hr Hs Hn [o Ho]. unfold UpstreamConditionHandler.
  destruct (GetShardID _ _) as [id|[]|]; [|by exists s]. destruct (rl_IsLeader r id); [|by exists s].
  destruct (getLimitStoreForShard r id) as [store|] eqn:Es; [|by exists s]. rewrite Ho.
  change (rl_world (with_lock r (uc_Name cluster))) with (rl_world r).
  pose proof (save_upstream_others (rl_world r) store cluster c n (proj1 (Hr id store Es)) Hn) as Hk.
  destruct (save_upstream _ _ _) as [[w1 s1] res]. cbn. destruct (decide (id = shard)) as [->|Hne].
  - exists s1. rewrite lookup_insert_eq. split; [done|]. unfold getLimitStoreForShard in Es. cbn in Hk. congruence.
  - exists s. by rewrite lookup_insert_ne.
Qed.

Lemma handle_clusters_others lister r shard clusters s c n :
  server_ok r -> rl_limitStoreMap r !! shard = Some s -> n <> upstreamStateConditionName c ->
  lists_found lister clusters ->
  exists s', rl_limitStoreMap (fst (handle_clusters lister r shard clusters)) !! shard = Some s' /\
    ls_Get s' c n = ls_Get s c n.
Proof.
  intros Hr Hs Hn Hl. revert r s Hr Hs. induction Hl as [|o clusters Ho _ IH]; intros r s Hr Hs; [by exists s|].
  cbn [handle_clusters]. destruct (GetShardID _ _) as [id|[]|]; [|by exists s].
  destruct (id =? shard); [|by apply IH].
  destruct (handler_others lister r o shard s c n Hr Hs Hn Ho) as (s1 & Hs1 & Hg1).
  pose proof (proj2 (handler_safe lister r o) Hr) as Hr1.
  destruct (UpstreamConditionHandler lister r o) as [r1 [u| |]]; cbn [fst] in *; [|by exists s1..].
  destruct (IH r1 s1 Hr1 Hs1) as (s2 & Hs2 & Hg2). exists s2. split; [done|congruence].
Qed.
End others.

(** * Two servers *)

Section failover.
Context `{RateLimiter} `{MapRange} `{FloatToInt} {W : Type} `{!RestClient W} `{Backoff}.
Context (period : Z).
Implicit Types r : rateLimiter (W := W) (S := objectStore).

(** [store.NewLimitStore] of a server that keeps conditions in the API
    server. *)
Definition new_k8s_store (count shard : Z) : option objectStore := Some (NewK8sCacheStore period shard count).

Lemma new_k8s_sound count : sound_stores (W := W) (new_k8s_store count) count.
Proof.
  intros shard s [= <-]. split_and!; [by intros c u Hu|done|done].
Qed.

Lemma stop_store_once tries w (s : objectStore) w' s' u :
  objectStore_Stop w s = (w', s', Ok u) -> stop_store (Datatypes.S tries) w s = w'.
Proof. intros Hs. cbn [stop_store ls_Stop objectStore_LimitStore]. by rewrite Hs. Qed.

(** No two conditions of a server have the same name. *)
Definition unique_names (s : objectStore) : Prop :=
  forall c d n x y, localStore_Get (os_localStore s) c n = Ok x -> localStore_Get (os_localStore s) d n = Ok y -> c = d.

Lemma load_no_panic value (s : objectStore) shard w w' s' :
  GetShardID value (os_shardCount s) = Ok shard -> objectStore_Load w s <> (w', s', Panic).
Proof.
  intros Hid. unfold objectStore_Load. destruct (rest_List w) as [e|items]; [done|].
  destruct (load_items_total items s) as [s1 ->]; [|done].
  unfold GetShardID in Hid. by destruct (Z.eqb_spec (uwrap32 (os_shardCount s)) 0).
Qed.

(** A server that serves a shard it just started to lead has what it loaded,
    states of clusters aside. *)
Lemma started_has_loaded lister r shard w s res s2 c n x :
  server_ok r -> rl_limitStoreMap r !! shard = None ->
  objectStore_Load (rl_world r) (NewK8sCacheStore period shard (rl_shardCount r)) = (w, s, res) -> res <> Panic ->
  (forall clusters, lister_clusters lister = inr clusters -> lists_found lister clusters) ->
  rl_limitStoreMap (startLeading (new_k8s_store (rl_shardCount r)) lister r shard) !! shard = Some s2 ->
  res = Ok tt /\ (ls_Get s c n = Ok x -> n <> upstreamStateConditionName c -> ls_Get s2 c n = Ok x).
Proof.
  intros Hr Hnone Hload Hpanic Hlist. unfold startLeading, getLimitStoreForShard. rewrite Hnone. cbn [new_k8s_store].
  pose proof (load_ok (W := W) (new_k8s_store (rl_shardCount r)) (rl_shardCount r) shard (rl_world r) _ (new_k8s_sound _) eq_refl) as Hok.
  cbn [ls_Load objectStore_LimitStore] in Hok |- *. rewrite Hload in Hok |- *. cbn [fst snd] in Hok.
  destruct res as [[]|e|]; [|cbn; by rewrite lookup_delete_eq|done].
  assert (server_ok (put_store_world r shard (w, s))) as Hput by (by apply (safe_store r _ shard s)).
  intros Hs2. split; [done|]. intros Hx Hn. revert Hs2. unfold syncUpstreamClustersForShard.
  destruct (lister_clusters lister) as [e|clusters]; [cbn; rewrite lookup_insert_eq; cbn; by rewrite lookup_delete_eq|].
  destruct (handle_clusters_others lister (put_store_world r shard (w, s)) shard clusters s c n Hput) as (s3 & Hs3 & Hg);
    [cbn; by rewrite lookup_insert_eq|done|by apply Hlist|].
  destruct (handle_clusters _ _ _ _) as [r3 res]. cbn [fst] in Hs3. destruct res as [u|e|].
  - rewrite Hs3. intros [= <-]. congruence.
  - rewrite Hs3. cbn. by rewrite lookup_delete_eq.
  - rewrite Hs3. intros [= <-]. congruence.
Qed.

End failover.

(** * Example *)

Module FailoverExample.
#[local] Existing Instance SimpleLimiter.limiter.
#[local] Existing Instance sorted_range.
#[local] Existing Instance amd64_conversion.
#[local] Existing Instance SimpleServer.client.
#[local] Existing Instance SimpleServer.retry.

Definition server (me : string) (stores : gmap Z objectStore) (w : gmap string RateLimitCondition) : rateLimiter :=
  MkRateLimiter "run" me 1 ∅ ∅ stores ∅ w.

Definition old_leader : rateLimiter := server "a" {[ 0 := K8sExample.store ]} ∅.
Definition stopped : rateLimiter := onStoppedLeading old_leader 0.
Definition new_leader : rateLimiter := server "b" ∅ (rl_world stopped).
Definition serving : rateLimiter := onStartedLeading (new_k8s_store 30 1) LimiterExample.lister new_leader 0.

Lemma old_ok : server_ok old_leader.
Proof.
  intros k s Hk. cbn in Hk. apply lookup_singleton_Some in Hk as [<- <-]. split; [exact K8sExample.store_local_inv|].
  intros c n x (-> & _ & ->)%K8sExample.store_get. split; [reflexivity|]. vm_compute. reflexivity.
Qed.

Lemma old_stops : exists s0, objectStore_Stop ∅ K8sExample.store = (rl_world stopped, s0, Ok tt).
Proof.
  assert (snd (objectStore_Stop ∅ K8sExample.store) = Ok tt) as Hok by (vm_compute; reflexivity).
  destruct (objectStore_Stop ∅ K8sExample.store) as [[w s0] res] eqn:E. cbn [snd] in Hok. subst res. exists s0.
  f_equal. f_equal. symmetry. change (stop_store 10 ∅ K8sExample.store = w).
  by rewrite (stop_store_once 9 ∅ K8sExample.store w s0 tt E).
Qed.


(** Names are not unique by themselves: instances of two clusters may report
    under one name. *)
Example names_collide :
  GenerateRateLimitConditionName "a" "b.gw" = GenerateRateLimitConditionName "a.b" "gw".
Proof. reflexivity. Qed.
End FailoverExample.
