(* ===== verification/Http.v ===== *)
(** The part of the Go standard library the proxy stands on: header maps of
    [net/http] with their canonical keys ([net/textproto]), escaped paths of
    [net/url], host and port of [net], and a few functions of [strings]. *)
From stdpp Require Import base list strings gmap.
From Stdlib Require Import ZArith Lia Ascii.
From S2P Require Import Prelude.

Local Open Scope Z_scope.

(** * Bytes *)

Definition in_range (lo hi : Z) (a : ascii) : bool := (lo <=? byte a) && (byte a <=? hi).
Definition is_upper : ascii -> bool := in_range 65 90.
Definition is_lower : ascii -> bool := in_range 97 122.
Definition is_digit : ascii -> bool := in_range 48 57.

Definition upper_byte (a : ascii) : ascii := if is_lower a then of_byte (byte a - 32) else a.

Fixpoint contains_byte (s : string) (a : ascii) : bool :=
  match s with
  | EmptyString => false
  | String b s' => bool_decide (a = b) || contains_byte s' a
  end.

(** The bytes of an HTTP token ([validHeaderFieldByte]). *)
Definition validHeaderFieldByte (a : ascii) : bool :=
  is_upper a || is_lower a || is_digit a || contains_byte "!#$%&'*+-.^_`|~" a.

(** * Canonical header keys *)

Fixpoint canonical_case (upper : bool) (s : string) : string :=
  match s with
  | EmptyString => EmptyString
  | String a s' =>
      let c := if upper then upper_byte a else lower_byte a in
      String c (canonical_case (bool_decide (c = "-"%char)) s')
  end.

(** [http.CanonicalHeaderKey]: a key that is not a token is left alone. *)
Definition CanonicalHeaderKey (s : string) : string :=
  if string_forallb validHeaderFieldByte s then canonical_case true s else s.

(** * [http.Header] *)

Abbreviation Header := (gmap string (list string)) (only parsing).

(** [h[k]], the raw entry. *)
Definition Header_values (h : Header) (k : string) : list string := default [] (h !! k).

Definition Header_Get (h : Header) (key : string) : string :=
  match Header_values h (CanonicalHeaderKey key) with
  | [] => ""
  | v :: _ => v
  end.

Definition Header_Set (h : Header) (key value : string) : Header :=
  <[CanonicalHeaderKey key := [value]]> h.

Definition Header_Add (h : Header) (key value : string) : Header :=
  <[CanonicalHeaderKey key := Header_values h (CanonicalHeaderKey key) ++ [value]]> h.

Definition Header_Del (h : Header) (key : string) : Header := delete (CanonicalHeaderKey key) h.

(** * Percent encoding *)

Definition ishex (a : ascii) : bool := is_digit a || in_range 97 102 a || in_range 65 70 a.

Definition unhex (a : ascii) : Z :=
  if is_digit a then byte a - 48
  else if in_range 97 102 a then byte a - 97 + 10
  else if in_range 65 70 a then byte a - 65 + 10
  else 0.

(** The digit of [%X]. *)
Definition hex_digit (d : Z) : ascii := of_byte (if d <? 10 then 48 + d else 55 + d).

(** [fmt.Sprintf("%%%02X", b)] *)
Definition percent_encode (a : ascii) : string :=
  String "%" (String (hex_digit (byte a / 16)) (String (hex_digit (byte a mod 16)) "")).

(** [url.PathUnescape]; [None] is the error of a malformed escape. *)
Fixpoint PathUnescape (s : string) : option string :=
  match s with
  | EmptyString => Some EmptyString
  | String a s' =>
      if decide (a = "%"%char) then
        match s' with
        | String x (String y s'') =>
            if ishex x && ishex y then
              String (of_byte (unhex x * 16 + unhex y)) <$> PathUnescape s''
            else None
        | _ => None
        end
      else String a <$> PathUnescape s'
  end.

(** * Host names *)

(** [strings.IndexByte] and [strings.LastIndexByte]. *)
Fixpoint IndexByte (s : string) (b : ascii) : option nat :=
  match s with
  | EmptyString => None
  | String a s' => if decide (a = b) then Some O else Datatypes.S <$> IndexByte s' b
  end.

Fixpoint LastIndexByte (s : string) (b : ascii) : option nat :=
  match s with
  | EmptyString => None
  | String a s' =>
      match LastIndexByte s' b with
      | Some i => Some (Datatypes.S i)
      | None => if decide (a = b) then Some O else None
      end
  end.

(** [s[i:j]] *)
Fixpoint sub_drop (i : nat) (s : string) : string :=
  match i, s with
  | O, _ => s
  | Datatypes.S i', String _ s' => sub_drop i' s'
  | Datatypes.S _, EmptyString => EmptyString
  end.

Fixpoint sub_take (n : nat) (s : string) : string :=
  match n, s with
  | Datatypes.S n', String a s' => String a (sub_take n' s')
  | _, _ => EmptyString
  end.

Definition has_byte (s : string) (b : ascii) : bool :=
  match IndexByte s b with Some _ => true | None => false end.

(** [net.SplitHostPort], of which only the host is used; [None] is its
    error. *)
Definition SplitHostPort (hostport : string) : option string :=
  match LastIndexByte hostport ":" with
  | None => None
  | Some i =>
      match hostport with
      | String "[" _ =>
          match IndexByte hostport "]" with
          | None => None
          | Some fin =>
              if decide (Datatypes.S fin = i) then
                if has_byte (sub_drop 1 hostport) "[" || has_byte (sub_drop (Datatypes.S fin) hostport) "]"
                then None else Some (sub_take (fin - 1) (sub_drop 1 hostport))
              else None
          end
      | _ =>
          let host := sub_take i hostport in
          if has_byte host ":" || has_byte hostport "[" || has_byte hostport "]" then None else Some host
      end
  end.

Example split_examples :
  SplitHostPort "c1.example.com:6443" = Some "c1.example.com" /\ SplitHostPort "[::1]:6443" = Some "::1" /\
  SplitHostPort "c1.example.com" = None /\ SplitHostPort "a:b:1" = None /\ SplitHostPort "[::1]" = None.
Proof. by vm_compute. Qed.

(** * IP addresses *)

(** [dtoi] and [xtoi] of package net: the number, the digits it took, and the
    rest; numbers stop at [0xFFFFFF]. *)
Fixpoint number (base : Z) (digit : ascii -> option Z) (n : Z) (count : nat) (s : string)
    : option (Z * nat * string) :=
  match s with
  | String a s' =>
      match digit a with
      | Some d =>
          let n := n * base + d in
          if 16777215 <=? n then None else number base digit n (Datatypes.S count) s'
      | None => if decide (count = O) then None else Some (n, count, s)
      end
  | EmptyString => if decide (count = O) then None else Some (n, count, s)
  end.

Definition dtoi (s : string) : option (Z * nat * string) :=
  number 10 (fun a => if is_digit a then Some (byte a - 48) else None) 0 0 s.
Definition xtoi (s : string) : option (Z * nat * string) :=
  number 16 (fun a => if ishex a then Some (unhex a) else None) 0 0 s.

(** One part of a dotted address, without leading zeros. *)
Definition ipv4_part (s : string) : option string :=
  match dtoi s with
  | Some (n, count, rest) =>
      if 255 <? n then None
      else if (1 <? Z.of_nat count) && HasPrefix s "0" then None else Some rest
  | None => None
  end.

Fixpoint ipv4_more (parts : nat) (s : string) : bool :=
  match parts with
  | O => bool_decide (s = "")
  | Datatypes.S parts' =>
      match s with
      | String a s' =>
          if decide (a = "."%char) then
            match ipv4_part s' with Some rest => ipv4_more parts' rest | None => false end
          else false
      | EmptyString => false
      end
  end.

Definition parseIPv4 (s : string) : bool :=
  match ipv4_part s with Some rest => ipv4_more 3 rest | None => false end.

(** The loop of [parseIPv6]: [groups] more groups of 16 bits fit. *)
Fixpoint ipv6_groups (groups : nat) (ellipsis : bool) (s : string) : bool :=
  match groups with
  | O => bool_decide (s = "") && negb ellipsis
  | Datatypes.S groups' =>
      match xtoi s with
      | None => false
      | Some (n, _, rest) =>
          if 65535 <? n then false
          else
            match rest with
            | EmptyString => bool_decide (groups' = O) && negb ellipsis || bool_decide (groups' <> O) && ellipsis
            | String "." _ =>
                if negb ellipsis && negb (bool_decide (groups = 2%nat)) then false
                else if decide (groups = 1%nat) then false
                else parseIPv4 s &&
                     (bool_decide (groups = 2%nat) && negb ellipsis || bool_decide (groups <> 2%nat) && ellipsis)
            | String ":" (String a s') =>
                if decide (a = ":"%char) then
                  if ellipsis then false
                  else match s' with
                       | EmptyString => bool_decide (groups' <> O)
                       | _ => ipv6_groups groups' true s'
                       end
                else ipv6_groups groups' ellipsis (String a s')
            | _ => false
            end
      end
  end.

Definition parseIPv6 (s : string) : bool :=
  match s with
  | String ":" (String ":" EmptyString) => true
  | String ":" (String ":" s') => ipv6_groups 8 true s'
  | _ => ipv6_groups 8 false s
  end.

(** [net.ParseIP] gives an address. *)
Fixpoint is_ip_by (sep : string) (s : string) : bool :=
  match sep with
  | EmptyString => false
  | String a sep' =>
      if decide (a = "."%char) then parseIPv4 s else if decide (a = ":"%char) then parseIPv6 s else is_ip_by sep' s
  end.

Definition ParseIP (s : string) : bool := is_ip_by s s.

Example ParseIP_examples :
  ParseIP "10.0.0.1" = true /\ ParseIP "256.0.0.1" = false /\ ParseIP "10.0.0.01" = false /\ ParseIP "1.2.3" = false /\
  ParseIP "::1" = true /\ ParseIP "fe80::1:2" = true /\ ParseIP "1:2:3:4:5:6:7:8" = true /\
  ParseIP "1:2:3:4:5:6:7:8:9" = false /\ ParseIP "::ffff:10.0.0.1" = true /\ ParseIP "1::2::3" = false /\
  ParseIP "c1.example.com" = false /\ ParseIP "" = false /\ ParseIP "1:2:3:4:5:6:7::" = true /\
  ParseIP "1:2:3:4:5:6:7:8::" = false.
Proof. vm_compute. repeat split. Qed.

(** * Lists of tokens *)

(** [strings.Split] by one byte. *)
Fixpoint Split (s : string) (sep : ascii) : list string :=
  match s with
  | EmptyString => [EmptyString]
  | String a s' =>
      if decide (a = sep) then EmptyString :: Split s' sep
      else match Split s' sep with
           | t :: ts => String a t :: ts
           | [] => [String a EmptyString]
           end
  end.

Definition is_space (a : ascii) : bool :=
  (byte a =? 32) || (byte a =? 9) || (byte a =? 10) || (byte a =? 13).

Fixpoint trim_left (s : string) : string :=
  match s with
  | String a s' => if is_space a then trim_left s' else s
  | EmptyString => EmptyString
  end.

Fixpoint trim_right (s : string) : string :=
  match s with
  | EmptyString => EmptyString
  | String a s' =>
      match trim_right s' with
      | EmptyString => if is_space a then EmptyString else String a EmptyString
      | t => String a t
      end
  end.

(** [textproto.TrimString] *)
Definition TrimString (s : string) : string := trim_right (trim_left s).

(** * URLs *)

Record URL := MkURL {
  url_Scheme : string;
  url_Host : string;
  url_Path : string;
  url_RawPath : string;
  url_RawQuery : string
}.

(** [shouldEscape], [escape] and [validEncoded] of package url for paths. *)
Definition path_shouldEscape (a : ascii) : bool :=
  if is_lower a || is_upper a || is_digit a || contains_byte "-_.~" a then false
  else if contains_byte "$&+,/:;=?@" a then bool_decide (a = "?"%char)
  else true.

Fixpoint escape_path (s : string) : string :=
  match s with
  | EmptyString => EmptyString
  | String a s' => (if path_shouldEscape a then percent_encode a else String a "") +:+ escape_path s'
  end.

Definition validEncoded (s : string) : bool :=
  string_forallb (fun a => contains_byte "!$&'()*+,;=:@[]%" a || negb (path_shouldEscape a)) s.

(** [URL.EscapedPath] *)
Definition EscapedPath (u : URL) : string :=
  if negb (bool_decide (url_RawPath u = "")) && validEncoded (url_RawPath u) &&
     bool_decide (PathUnescape (url_RawPath u) = Some (url_Path u))
  then url_RawPath u
  else if decide (url_Path u = "*") then "*"
  else escape_path (url_Path u).

(** * Lemmas *)

(** A property of bytes holds when it holds of all 256. *)
Lemma byte_cases (P : ascii -> bool) :
  forallb (fun n => P (of_byte (Z.of_nat n))) (seq 0 256) = true -> forall a, P a = true.
Proof.
  intros Hall a. rewrite forallb_forall in Hall.
  specialize (Hall (Z.to_nat (byte a))). pose proof (byte_range a).
  rewrite Z2Nat.id, of_byte_byte in Hall by lia. apply Hall, in_seq. lia.
Qed.

(** Lower case does not see the canonical case. *)
Lemma lower_canonical_case s up :
  string_map lower_byte (canonical_case up s) = string_map lower_byte s.
Proof.
  revert up. induction s as [|a s IH]; intros up; [done|]. cbn [canonical_case string_map].
  rewrite IH. f_equal. destruct up; [|apply lower_byte_idem].
  apply (bool_decide_eq_true_1 _). revert a. apply byte_cases. vm_compute. reflexivity.
Qed.

(** The case of what follows a dash does not depend on what precedes it. *)
Lemma canonical_case_dash s t up :
  canonical_case up (s +:+ String "-" t) = canonical_case up (s +:+ "-") +:+ canonical_case true t.
Proof.
  revert up. induction s as [|a s IH]; intros up.
  - by destruct up.
  - unfold String.app in *. cbn [canonical_case String.append]. by rewrite IH.
Qed.

Lemma string_forallb_app f s t :
  string_forallb f (s +:+ t) = string_forallb f s && string_forallb f t.
Proof.
  induction s as [|a s IH]; [done|]. unfold String.app in *. simpl. by rewrite IH, andb_assoc.
Qed.

Lemma string_map_app f s t : string_map f (s +:+ t) = string_map f s +:+ string_map f t.
Proof. induction s as [|a s IH]; [done|]. unfold String.app in *. simpl. by rewrite IH. Qed.

Lemma canonical_case_idem s up : canonical_case up (canonical_case up s) = canonical_case up s.
Proof.
  revert up. induction s as [|a s IH]; intros up; [done|]. cbn [canonical_case].
  assert (upper_byte (upper_byte a) = upper_byte a) as Hu.
  { apply (bool_decide_eq_true_1 _). revert a. apply byte_cases. vm_compute. reflexivity. }
  destruct up; rewrite ?Hu, ?lower_byte_idem; by rewrite IH.
Qed.

Lemma canonical_case_token s up :
  string_forallb validHeaderFieldByte s = true ->
  string_forallb validHeaderFieldByte (canonical_case up s) = true.
Proof.
  revert up. induction s as [|a s IH]; [done|]. intros up. cbn [string_forallb canonical_case].
  intros [Ha Hs]%andb_true_iff. rewrite (IH _ Hs), andb_true_r.
  assert (forall b, (if validHeaderFieldByte b
    then validHeaderFieldByte (upper_byte b) && validHeaderFieldByte (lower_byte b) else true) = true) as Hb
    by (apply byte_cases; vm_compute; reflexivity).
  specialize (Hb a). rewrite Ha in Hb. apply andb_true_iff in Hb as [? ?]. by destruct up.
Qed.

Lemma CanonicalHeaderKey_idem s : CanonicalHeaderKey (CanonicalHeaderKey s) = CanonicalHeaderKey s.
Proof.
  unfold CanonicalHeaderKey. destruct (string_forallb validHeaderFieldByte s) eqn:E; [|by rewrite E].
  by rewrite canonical_case_token, canonical_case_idem.
Qed.

Lemma Header_values_insert (h : Header) k k' vs :
  Header_values (<[k := vs]> h) k' = if decide (k' = k) then vs else Header_values h k'.
Proof.
  unfold Header_values. case_decide; subst; [by rewrite lookup_insert_eq|by rewrite lookup_insert_ne].
Qed.

Lemma Header_Add_all (h : Header) key vs k' :
  foldl (fun h v => Header_Add h key v) h vs !! k' =
    if decide (k' = CanonicalHeaderKey key /\ vs <> [])
    then Some (Header_values h (CanonicalHeaderKey key) ++ vs) else h !! k'.
Proof.
  revert h. induction vs as [|v vs IH]; intros h; cbn [foldl].
  - rewrite decide_False; naive_solver.
  - rewrite IH. unfold Header_Add at 1 2. rewrite Header_values_insert,
      (decide_True (P := CanonicalHeaderKey key = CanonicalHeaderKey key)) by done.
    destruct (decide (k' = CanonicalHeaderKey key)) as [->|Hne].
    + rewrite (decide_True (P := _ /\ v :: vs <> [])) by done.
      destruct (decide (_ /\ vs <> [])) as [_|Hvs]; [by rewrite <- app_assoc|].
      rewrite lookup_insert_eq. destruct vs; [done|]. destruct Hvs. done.
    + rewrite !decide_False by naive_solver. by rewrite lookup_insert_ne.
Qed.

(** Deleting the listed keys that pass a test. *)
Lemma Header_Del_all (p : string -> bool) (l : list (string * list string)) (h : Header) k :
  foldl (fun h '(n, _) => if p n then Header_Del h n else h) h l !! k =
    if decide (Exists (fun e => p e.1 = true /\ CanonicalHeaderKey e.1 = k) l) then None else h !! k.
Proof.
  revert h. induction l as [|[n vs] l IH]; intros h; cbn [foldl].
  - rewrite decide_False; [done|]. intros He. by apply Exists_nil in He.
  - rewrite IH. destruct (decide (Exists _ l)) as [Hl|Hl].
    + rewrite decide_True; [done|]. by apply Exists_cons_tl.
    + destruct (p n) eqn:Hp; unfold Header_Del.
      * destruct (decide (CanonicalHeaderKey n = k)) as [<-|Hne].
        -- rewrite lookup_delete_eq, decide_True; [done|]. by apply Exists_cons_hd.
        -- rewrite lookup_delete_ne, decide_False; [done| |done]. intros He.
           apply Exists_cons in He as [[_ ?]|?]; done.
      * rewrite decide_False; [done|]. intros He. apply Exists_cons in He as [[? _]|?]; [|done].
        cbn in *. congruence.
Qed.

(** The canonical case does not see the case. *)
Lemma canonical_case_lower s up : canonical_case up (string_map lower_byte s) = canonical_case up s.
Proof.
  revert up. induction s as [|a s IH]; intros up; [done|]. cbn [canonical_case string_map].
  assert (upper_byte (lower_byte a) = upper_byte a) as Hu.
  { apply (bool_decide_eq_true_1 _). revert a. apply byte_cases. vm_compute. reflexivity. }
  destruct up; rewrite ?Hu, ?lower_byte_idem; by rewrite IH.
Qed.

(** ** Escaped paths *)

Lemma unescape_encode a s : PathUnescape (percent_encode a +:+ s) = String a <$> PathUnescape s.
Proof.
  unfold percent_encode, String.app. cbn [PathUnescape String.append].
  assert (forall b, (ishex (hex_digit (byte b / 16)) && ishex (hex_digit (byte b mod 16)) &&
    bool_decide (of_byte (unhex (hex_digit (byte b / 16)) * 16 + unhex (hex_digit (byte b mod 16))) = b))
    = true) as Hb by (apply byte_cases; vm_compute; reflexivity).
  specialize (Hb a). apply andb_true_iff in Hb as [Hx Hv]. apply bool_decide_eq_true in Hv.
  by rewrite Hx, Hv.
Qed.

Lemma unescape_plain a s : a <> "%"%char -> PathUnescape (String a s) = String a <$> PathUnescape s.
Proof. intros Ha. cbn [PathUnescape]. by rewrite decide_False. Qed.

Lemma unescape_escape s : PathUnescape (escape_path s) = Some s.
Proof.
  induction s as [|a s IH]; [done|]. cbn [escape_path]. destruct (path_shouldEscape a) eqn:Ha.
  - by rewrite unescape_encode, IH.
  - unfold String.app. cbn [String.append]. rewrite unescape_plain, IH; [done|]. intros ->. by vm_compute in Ha.
Qed.

Lemma EscapedPath_decodes u : PathUnescape (EscapedPath u) = Some (url_Path u).
Proof.
  unfold EscapedPath. destruct (_ && _) eqn:E;
    [|destruct (decide (url_Path u = "*")) as [Hp|_]; [by rewrite Hp|apply unescape_escape]].
  apply andb_true_iff in E as [_ E]. by apply bool_decide_eq_true in E.
Qed.

Lemma unescape_app s t s' t' :
  PathUnescape s = Some s' -> PathUnescape t = Some t' -> PathUnescape (s +:+ t) = Some (s' +:+ t').
Proof.
  intros Hs Ht. revert s' Hs. remember (String.length s) as n eqn:Hn. revert s Hn.
  induction n as [n IH] using lt_wf_ind. intros [|a s] Hn s' Hs; [by injection Hs as <-|].
  unfold String.app in *. cbn [PathUnescape String.append] in *. destruct (decide (a = "%"%char)) as [->|Ha].
  - destruct s as [|x [|y s]]; try done. cbn [PathUnescape String.append]. destruct (ishex x && ishex y); [|done].
    destruct (PathUnescape s) as [r|] eqn:Er; [|done]. injection Hs as <-.
    rewrite (IH (String.length s)) with (s' := r); [done| |done|done]. subst n. cbn. lia.
  - destruct (PathUnescape s) as [r|] eqn:Er; [|done]. injection Hs as <-.
    rewrite (IH (String.length s)) with (s' := r); [done| |done|done]. subst n. cbn. lia.
Qed.
