(* ===== verification/ClientSets.v ===== *)
(** The gateway's clients of the rate limiter servers
    ([pkg/ratelimiter/clientsets]): which server a cluster is asked at, and
    when a server counts as ready.

    The clients of the API and what servers answer are parameters. *)
From stdpp Require Import base tactics list strings gmap sorting.
From Stdlib Require Import ZArith Lia Ascii.
From S2P Require Import Prelude ApiTypes GlobalFlowControl LimitStore K8sStore Float64 RateLimiter Http.

Local Open Scope Z_scope.
Local Open Scope go_scope.

(** Times are in nanoseconds. *)
Definition ClientCacheTTL : Z := 120 * 10 ^ 9.
Definition ServerHeartBeatTimeout : Z := 5 * 10 ^ 9.

Record TLSClientConfig := MkTLS {
  tls_Insecure : bool;
  tls_CAData : string;
  tls_CertData : string;
  tls_KeyData : string
}.

Definition empty_tls : TLSClientConfig := MkTLS false "" "" "".

Record rest_config := MkRestConfig {
  rc_Host : string;
  rc_TLS : TLSClientConfig
}.

(** A client is the configuration it was made with. *)
Record clientCache := MkClientCache {
  cc_expire : Z;
  cc_client : rest_config
}.

Record heartbeatStatus := MkHeartbeat {
  hb_lastChange : Z;
  hb_lastState : bool;
  hb_ready : bool
}.

Record clientSets := MkClientSets {
  cs_service : string;
  cs_leaderEndpoints : gmap Z string;
  cs_leaderReady : gmap Z heartbeatStatus;
  cs_shardCount : Z;
  cs_clientsCache : gmap string clientCache;
  cs_restConfig : rest_config;
  cs_runId : string;
  cs_insecure : bool
}.

Definition newClientSets (service runId : string) (restConfig : rest_config) : clientSets :=
  MkClientSets service ∅ ∅ 0 ∅ restConfig runId (bool_decide (tls_CAData (rc_TLS restConfig) = "")).

Definition with_leader_endpoints (c : clientSets) (m : gmap Z string) : clientSets :=
  MkClientSets (cs_service c) m (cs_leaderReady c) (cs_shardCount c) (cs_clientsCache c) (cs_restConfig c)
    (cs_runId c) (cs_insecure c).
Definition with_ready (c : clientSets) (m : gmap Z heartbeatStatus) : clientSets :=
  MkClientSets (cs_service c) (cs_leaderEndpoints c) m (cs_shardCount c) (cs_clientsCache c) (cs_restConfig c)
    (cs_runId c) (cs_insecure c).
Definition with_shards (c : clientSets) (n : Z) : clientSets :=
  MkClientSets (cs_service c) (cs_leaderEndpoints c) (cs_leaderReady c) n (cs_clientsCache c) (cs_restConfig c)
    (cs_runId c) (cs_insecure c).
Definition with_cache (c : clientSets) (m : gmap string clientCache) : clientSets :=
  MkClientSets (cs_service c) (cs_leaderEndpoints c) (cs_leaderReady c) (cs_shardCount c) m (cs_restConfig c)
    (cs_runId c) (cs_insecure c).

(** * Servers *)

(** [multiServiceLookup]; [url_host] is the host of what [url.Parse] accepts. *)
Definition multiServiceLookup (url_host : string -> option string) (service : string) : list string :=
  let named ep := match url_host ep with Some host => negb (bool_decide (host = "")) | None => false end in
  filter (fun ep => named ep || bool_decide (is_Some (SplitHostPort ep))) (Split service ","%char).

(** The first of the lookup functions that finds something. *)
Fixpoint ServiceLookup (funcs : list (string -> list string)) (service : string) : list string :=
  match funcs with
  | [] => []
  | f :: funcs => match f service with [] => ServiceLookup funcs service | endpoints => endpoints end
  end.

(** * Heartbeats *)

Definition next_heartbeat (now : Z) (ready : bool) (s : heartbeatStatus) : heartbeatStatus :=
  let s := if Bool.eqb (hb_lastState s) ready then s else MkHeartbeat now ready (hb_ready s) in
  if Bool.eqb (hb_ready s) ready then s
  else if ready || (hb_lastChange s + ServerHeartBeatTimeout <? now)
  then MkHeartbeat (hb_lastChange s) (hb_lastState s) ready else s.

(** [setLeaderStatus]; the zero time is before any other. *)
Definition zero_heartbeat (zero : Z) : heartbeatStatus := MkHeartbeat zero false false.

Definition setLeaderStatus (zero now : Z) (c : clientSets) (shard : Z) (ready : bool) : clientSets :=
  let s := default (zero_heartbeat zero) (cs_leaderReady c !! shard) in
  with_ready c (<[shard := next_heartbeat now ready s]> (cs_leaderReady c)).

Section clients.
Context `{MapRange}.

(** Whether the API client can be made for a configuration. *)
Context (NewForConfig : rest_config -> bool).

(** The zero time. *)
Context (zero : Z).

(** * Clients *)

Definition createClient (c : clientSets) (server : string) : option rest_config :=
  let tls := rc_TLS (cs_restConfig c) in
  let tls :=
    if cs_insecure c && HasPrefix server "https"
    then MkTLS true (tls_CAData tls) (tls_CertData tls) (tls_KeyData tls) else tls in
  let tls := if HasPrefix server "http://" || negb (HasPrefix server "http") then empty_tls else tls in
  let config := MkRestConfig server tls in
  if NewForConfig config then Some config else None.

Definition getOrCreateClient (now : Z) (c : clientSets) (server : string) : clientSets * option rest_config :=
  match cs_clientsCache c !! server with
  | Some cc => (c, Some (cc_client cc))
  | None =>
      match createClient c server with
      | None => (c, None)
      | Some client =>
          (with_cache c (<[server := MkClientCache (now + ClientCacheTTL) client]> (cs_clientsCache c)), Some client)
      end
  end.

(** The shard of a cluster, once the number of shards is known. *)
Definition ShardIDFor (c : clientSets) (cluster : string) : option (result Empty_set Z) :=
  if cs_shardCount c =? 0 then None else Some (GetShardID cluster (cs_shardCount c)).

Inductive client_error := ShardsUnknown | NoLeader (shard : Z) | NotCreated (server : string).

Definition ClientFor (now : Z) (c : clientSets) (cluster : string) : clientSets * result client_error rest_config :=
  match ShardIDFor c cluster with
  | None => (c, Err ShardsUnknown)
  | Some (Ok shard) =>
      match cs_leaderEndpoints c !! shard with
      | None => (c, Err (NoLeader shard))
      | Some server =>
          match getOrCreateClient now c server with
          | (c, Some client) => (c, Ok client)
          | (c, None) => (c, Err (NotCreated server))
          end
      end
  | Some _ => (c, Panic)
  end.

Definition IsReady (c : clientSets) (cluster : string) : bool :=
  match ShardIDFor c cluster with
  | Some (Ok shard) => match cs_leaderReady c !! shard with Some s => hb_ready s | None => false end
  | _ => false
  end.

(** The clients of the leaders that are in the cache. *)
Definition GetAllClients (c : clientSets) : list rest_config :=
  omap (fun '(_, server) => cc_client <$> cs_clientsCache c !! server) (Range (cs_leaderEndpoints c)).

(** * Synchronisation *)

Definition sync_endpoint (now : Z) (c : clientSets) (ep : EndpointInfo) : clientSets :=
  let shard := ShardID ep in
  let oldLeader := default "" (cs_leaderEndpoints c !! shard) in
  let c :=
    if decide (oldLeader = Leader ep) then c
    else setLeaderStatus zero now (with_leader_endpoints c (<[shard := Leader ep]> (cs_leaderEndpoints c))) shard true in
  fst (getOrCreateClient now c (Leader ep)).

(** [sync]: [servers] is what the lookup found, [chosen] the server that is
    asked, and [serverInfo] what it answers. *)
Definition clients_sync (now : Z) (servers : list string) (chosen : nat) (serverInfo : rest_config -> option RateLimitServerInfo)
    (c : clientSets) : clientSets :=
  match servers !! chosen with
  | None => c
  | Some server =>
      match getOrCreateClient now c server with
      | (c, None) => c
      | (c, Some client) =>
          match serverInfo client with
          | None => c
          | Some info =>
              let c := with_shards c (si_ShardCount info) in
              let c := foldl (sync_endpoint now) c (si_Endpoints info) in
              with_cache c ((fun cc => MkClientCache (now + ClientCacheTTL) (cc_client cc)) <$> cs_clientsCache c)
          end
      end
  end.

Definition cleanup (now : Z) (c : clientSets) : clientSets :=
  with_cache c (filter (fun '(_, cc) => ~ now < cc_expire cc) (cs_clientsCache c)).

(** [clientHeart]: every leader that has a client gets a heartbeat; [beat]
    says when and how it was answered. *)
Definition clientHeart (beat : Z -> string -> Z * bool) (c : clientSets) : clientSets :=
  foldl (fun c '(shard, server) =>
      let '(now, ready) := beat shard server in setLeaderStatus zero now c shard ready)
    c (filter (fun '(_, server) => is_Some (cs_clientsCache c !! server)) (Range (cs_leaderEndpoints c))).
End clients.

(** * Readiness *)

(** Heartbeats of a shard, with their times and whether they were answered. *)
Definition heartbeats (zero : Z) (evs : list (Z * bool)) : heartbeatStatus :=
  foldl (fun s '(now, ready) => next_heartbeat now ready s) (zero_heartbeat zero) evs.

(** The heartbeats since the last one that was answered. *)
Definition missed (evs : list (Z * bool)) : list (Z * bool) := last_run (fun e => negb (snd e)) evs.

Definition ready_spec (evs : list (Z * bool)) : bool :=
  existsb snd evs &&
  match missed evs, last evs with
  | (t0, _) :: _, Some (t, _) => t <=? t0 + ServerHeartBeatTimeout
  | _, _ => true
  end.

Definition in_order (evs : list (Z * bool)) : Prop := StronglySorted (fun a b => fst a <= fst b) evs.

Record heartbeat_inv (evs : list (Z * bool)) (s : heartbeatStatus) : Prop := {
  hi_ready : hb_ready s = ready_spec evs;
  hi_last : hb_lastState s = match last evs with Some (_, r) => r | None => false end;
  hi_since : existsb snd evs = true -> match missed evs with (t0, _) :: _ => hb_lastChange s = t0 | [] => True end
}.

Lemma missed_last evs t : last evs = Some (t, true) -> missed evs = [].
Proof.
  destruct evs as [|e evs _] using rev_ind; [done|]. rewrite last_snoc. intros [= ->].
  unfold missed. by rewrite last_run_snoc.
Qed.

Lemma missed_nonempty evs t : last evs = Some (t, false) -> exists e l, missed evs = e :: l.
Proof.
  destruct evs as [|e evs _] using rev_ind; [done|]. rewrite last_snoc. intros [= ->].
  unfold missed. rewrite last_run_snoc. cbn. destruct (last_run _ evs); cbn; eauto.
Qed.

Lemma missed_snoc evs t r : missed (evs ++ [(t, r)]) = if r then [] else missed evs ++ [(t, r)].
Proof. unfold missed. rewrite last_run_snoc. by destruct r. Qed.

Lemma ever_snoc (evs : list (Z * bool)) t r : existsb snd (evs ++ [(t, r)]) = existsb snd evs || r.
Proof. rewrite existsb_app. cbn. by rewrite orb_false_r. Qed.

Lemma heartbeat_answered evs s t :
  heartbeat_inv evs s -> heartbeat_inv (evs ++ [(t, true)]) (next_heartbeat t true s).
Proof.
  intros _. split; unfold ready_spec; rewrite ?missed_snoc, ?last_snoc, ?ever_snoc, ?orb_true_r; [|..].
  - destruct s as [change [] []]; reflexivity.
  - destruct s as [change [] []]; reflexivity.
  - done.
Qed.

(** A heartbeat that is missed: the first after an answered one starts the
    time, a later one compares with it. *)
Lemma heartbeat_missed evs s t :
  Forall (fun e => fst e <= t) evs -> heartbeat_inv evs s ->
  heartbeat_inv (evs ++ [(t, false)]) (next_heartbeat t false s).
Proof.
  intros Hord [Hr Hl Hs]. destruct (last evs) as [[t1 [|]]|] eqn:Elast.
  - assert (existsb snd evs = true) as Hup.
    { apply existsb_exists. exists (t1, true). split; [|done]. apply last_Some in Elast as [l ->].
      apply in_or_app. right. by left. }
    assert (missed evs = []) as Hm by (by apply (missed_last evs t1)).
    assert (hb_ready s = true) as Hrs by (rewrite Hr; unfold ready_spec; by rewrite Hup, Hm).
    unfold next_heartbeat. rewrite Hl. cbn. rewrite Hrs. cbn.
    destruct (Z.ltb_spec (t + ServerHeartBeatTimeout) t) as [Hlt|_]; [unfold ServerHeartBeatTimeout in Hlt; lia|].
    split; unfold ready_spec; rewrite ?missed_snoc, ?last_snoc, ?ever_snoc, ?Hm, ?Hup; cbn; [|done|done].
    symmetry. apply Z.leb_le. unfold ServerHeartBeatTimeout. lia.
  - destruct (missed_nonempty evs t1 Elast) as ([t0 r0] & l & Hm). unfold next_heartbeat. rewrite Hl. cbn [Bool.eqb].
    unfold ready_spec in Hr. rewrite Hm, Elast in Hr. rewrite Hm in Hs.
    destruct (existsb snd evs) eqn:Hup; cbn [andb] in Hr.
    + specialize (Hs eq_refl).
      assert (t1 <= t) as Ht by (apply last_Some_elem_of in Elast; by apply (proj1 (Forall_forall _ _) Hord (t1, false))).
      assert (forall b, b = (t <=? t0 + ServerHeartBeatTimeout) ->
        heartbeat_inv (evs ++ [(t, false)]) (MkHeartbeat t0 false b)) as Hfin.
      { intros b ->. split; unfold ready_spec; rewrite ?missed_snoc, ?last_snoc, ?ever_snoc, ?Hup, ?Hm; done. }
      destruct s as [change state ready]. cbn in Hl, Hr, Hs. subst change state. cbn.
      destruct ready; cbn; symmetry in Hr.
      * destruct (Z.ltb_spec (t0 + ServerHeartBeatTimeout) t); apply Hfin; symmetry; [apply Z.leb_gt|apply Z.leb_le]; lia.
      * apply Hfin. symmetry. apply Z.leb_gt. apply Z.leb_gt in Hr. lia.
    + rewrite Hr. cbn. split; unfold ready_spec; rewrite ?missed_snoc, ?last_snoc, ?ever_snoc, ?Hup; done.
  - apply last_None in Elast as ->. unfold next_heartbeat. rewrite Hl. cbn. unfold ready_spec in Hr. cbn in Hr. rewrite Hr. cbn.
    split; done.
Qed.

(** A server counts as ready from the first answered heartbeat on, and
    stops to only once heartbeats have been missed for longer than the
    timeout; one answer makes it ready again. *)
Theorem readiness_exact zero evs : in_order evs -> hb_ready (heartbeats zero evs) = ready_spec evs.
Proof.
  intros Hord. cut (heartbeat_inv evs (heartbeats zero evs)); [by intros []|].
  induction evs as [|[t r] evs IH] using rev_ind; [done|].
  unfold in_order in Hord. apply StronglySorted_app in Hord as (Hle & Hord & _).
  unfold heartbeats. rewrite foldl_app. cbn [foldl]. destruct r.
  - by apply heartbeat_answered, IH.
  - apply heartbeat_missed; [|by apply IH]. apply Forall_forall. intros e He. apply (Hle e (t, false)); [done|by left].
Qed.

(** * Clusters and servers *)

Section clients_lemmas.
Context `{MapRange} (NewForConfig : rest_config -> bool) (zero : Z).
Implicit Types c : clientSets.

(** What never changes. *)
Definition fixed c : rest_config * bool := (cs_restConfig c, cs_insecure c).

(** The clients in the cache are those their server is asked with. *)
Definition cache_made c : Prop :=
  forall server cc, cs_clientsCache c !! server = Some cc -> createClient NewForConfig c server = Some (cc_client cc).

Lemma createClient_fixed c c' server :
  fixed c' = fixed c -> createClient NewForConfig c' server = createClient NewForConfig c server.
Proof. unfold fixed, createClient. by intros [= -> ->]. Qed.

Lemma createClient_host c server client : createClient NewForConfig c server = Some client -> rc_Host client = server.
Proof. unfold createClient. destruct (NewForConfig _); [|done]. by intros [= <-]. Qed.

Lemma getOrCreate_spec now c server :
  cache_made c ->
  let '(c', r) := getOrCreateClient NewForConfig now c server in
  fixed c' = fixed c /\ cs_leaderEndpoints c' = cs_leaderEndpoints c /\ cs_shardCount c' = cs_shardCount c /\
  cs_leaderReady c' = cs_leaderReady c /\ cache_made c' /\ r = createClient NewForConfig c server /\
  (forall s, is_Some (cs_clientsCache c !! s) -> cs_clientsCache c' !! s = cs_clientsCache c !! s) /\
  (is_Some r -> is_Some (cs_clientsCache c' !! server)).
Proof.
  intros Hmade. unfold getOrCreateClient. destruct (cs_clientsCache c !! server) as [cc|] eqn:Hc.
  - rewrite (Hmade server cc Hc). split_and!; done.
  - destruct (createClient NewForConfig c server) as [client|] eqn:Hn; [|split_and!; try done; by intros []].
    split_and!; try done; cbn.
    + intros s cc. destruct (decide (s = server)) as [->|Hne]; cbn.
      * rewrite lookup_insert_eq. intros [= <-]. cbn. rewrite <- Hn. by apply createClient_fixed.
      * rewrite lookup_insert_ne by done. intros Hs. rewrite <- (Hmade s cc Hs). by apply createClient_fixed.
    + intros s Hs. rewrite lookup_insert_ne; [done|]. intros <-. rewrite Hc in Hs. by destruct Hs.
    + intros _. rewrite lookup_insert_eq. by eexists.
Qed.

Lemma sync_endpoint_spec now c ep :
  cache_made c -> Leader ep <> "" ->
  let c' := sync_endpoint NewForConfig zero now c ep in
  fixed c' = fixed c /\ cs_shardCount c' = cs_shardCount c /\ cache_made c' /\
  cs_leaderEndpoints c' = <[ShardID ep := Leader ep]> (cs_leaderEndpoints c).
Proof.
  intros Hmade Hne. unfold sync_endpoint. case_decide as Hold; cbv zeta.
  - pose proof (getOrCreate_spec now c (Leader ep) Hmade) as Hs. destruct (getOrCreateClient _ _ c _) as [c' r].
    destruct Hs as (F & L & N & _ & M & _). cbn [fst]. split_and!; [done|done|done|]. rewrite L. symmetry.
    apply insert_id. destruct (cs_leaderEndpoints c !! ShardID ep); cbn in Hold; congruence.
  - set (c1 := setLeaderStatus _ _ _ _ _). assert (cache_made c1) as Hmade1.
    { intros s cc Hs. rewrite <- (Hmade s cc Hs). by apply createClient_fixed. }
    pose proof (getOrCreate_spec now c1 (Leader ep) Hmade1) as Hs. destruct (getOrCreateClient _ _ c1 _) as [c' r].
    destruct Hs as (F & L & N & _ & M & _). cbn [fst]. split_and!; [by rewrite F|by rewrite N|done|by rewrite L].
Qed.

Lemma sync_endpoints_spec now eps c :
  cache_made c -> Forall (fun ep => Leader ep <> "") eps -> NoDup (ShardID <$> eps) ->
  let c' := foldl (sync_endpoint NewForConfig zero now) c eps in
  fixed c' = fixed c /\ cs_shardCount c' = cs_shardCount c /\ cache_made c' /\
  (forall ep, ep ∈ eps -> cs_leaderEndpoints c' !! ShardID ep = Some (Leader ep)) /\
  (forall s, s ∉ ShardID <$> eps -> cs_leaderEndpoints c' !! s = cs_leaderEndpoints c !! s).
Proof.
  revert c. induction eps as [|ep eps IH]; intros c Hmade Hne Hnd; cbn [foldl].
  { split_and!; try done. intros ep Hep. by apply elem_of_nil in Hep. }
  apply Forall_cons in Hne as [Hep Hne]. rewrite fmap_cons in Hnd. apply NoDup_cons in Hnd as [Hnot Hnd].
  destruct (sync_endpoint_spec now c ep Hmade Hep) as (F & N & M & L).
  destruct (IH _ M Hne Hnd) as (F' & N' & M' & L1 & L2). split_and!; [congruence|congruence|done|..].
  - intros e [->|He]%elem_of_cons; [|by apply L1]. rewrite L2 by done. by rewrite L, lookup_insert_eq.
  - intros s Hs. rewrite fmap_cons, not_elem_of_cons in Hs. destruct Hs as [Hs1 Hs2].
    rewrite L2 by done. rewrite L. by rewrite lookup_insert_ne.
Qed.

Lemma client_of_leader now c cluster shard leader :
  cache_made c -> 0 < cs_shardCount c < 2 ^ 31 -> GetShardID cluster (cs_shardCount c) = Ok shard ->
  cs_leaderEndpoints c !! shard = Some leader -> is_Some (createClient NewForConfig c leader) ->
  exists c' client, ClientFor NewForConfig now c cluster = (c', Ok client) /\ rc_Host client = leader.
Proof.
  intros Hmade Hn Hs Hl [client Hc]. unfold ClientFor, ShardIDFor.
  destruct (Z.eqb_spec (cs_shardCount c) 0); [lia|]. rewrite Hs, Hl.
  pose proof (getOrCreate_spec now c leader Hmade) as Hg. destruct (getOrCreateClient _ _ c leader) as [c' r].
  destruct Hg as (_ & _ & _ & _ & _ & -> & _). rewrite Hc. exists c', client. split; [done|].
  by apply (createClient_host c leader).
Qed.

Context {W S : Type}.
Implicit Types r : @rateLimiter W S.

(** The elector of a server files every leader under its shard. *)
Definition leaders_filed r : Prop :=
  0 < rl_shardCount r < 2 ^ 31 /\
  forall shard info, rl_leaderInfo r !! shard = Some info -> ShardID info = shard /\ Leader info <> "".

Lemma ServerInfo_endpoints r :
  leaders_filed r -> NoDup (ShardID <$> si_Endpoints (ServerInfo r)) /\
  Forall (fun ep => Leader ep <> "") (si_Endpoints (ServerInfo r)) /\
  (forall shard info, rl_leaderInfo r !! shard = Some info -> info ∈ si_Endpoints (ServerInfo r)).
Proof.
  intros [_ Hf]. unfold ServerInfo. cbn [si_Endpoints].
  assert (merge_sort shard_le (snd <$> Range (rl_leaderInfo r)) ≡ₚ snd <$> Range (rl_leaderInfo r)) as Hp
    by apply merge_sort_Permutation.
  assert (ShardID <$> (snd <$> Range (rl_leaderInfo r)) = fst <$> Range (rl_leaderInfo r)) as Hids.
  { rewrite <- list_fmap_compose. apply list_fmap_ext. intros i [shard info] Hi. cbn.
    apply list_elem_of_lookup_2, elem_of_Range in Hi. by apply Hf. }
  split_and!.
  - rewrite Hp, Hids, Range_perm. apply NoDup_fst_map_to_list.
  - rewrite Hp. apply Forall_forall. intros info Hin. apply list_elem_of_fmap in Hin as ([shard i] & -> & Hin).
    apply elem_of_Range in Hin. by apply (Hf shard).
  - intros shard info Hl. rewrite Hp. apply list_elem_of_fmap. exists (shard, info). by rewrite elem_of_Range.
Qed.

(** After a gateway synchronised with a rate limiter server, it sends the
    requests of every cluster to the server that leads the shard the
    servers assign the cluster to. *)
Lemma gateway_asks_leader now now' servers chosen server serverInfo c r cluster shard info :
  cache_made c -> leaders_filed r -> servers !! chosen = Some server ->
  (forall s, is_Some (createClient NewForConfig c s)) -> (forall client, serverInfo client = Some (ServerInfo r)) ->
  GetShardID cluster (rl_shardCount r) = Ok shard -> rl_leaderInfo r !! shard = Some info ->
  exists c' client,
    ClientFor NewForConfig now' (clients_sync NewForConfig zero now servers chosen serverInfo c) cluster = (c', Ok client) /\
    rc_Host client = leader_of r shard.
Proof.
  intros Hmade Hfiled Hserver Hall Hinfo Hshard Hl. unfold clients_sync. rewrite Hserver.
  pose proof (getOrCreate_spec now c server Hmade) as Hg. destruct (getOrCreateClient _ _ c server) as [c1 r1].
  destruct Hg as (F1 & _ & _ & _ & M1 & -> & _). destruct (Hall server) as [client0 ->]. rewrite Hinfo.
  destruct (ServerInfo_endpoints r Hfiled) as (Hnd & Hne & Hin). destruct Hfiled as [Hn Hf].
  assert (cache_made (with_shards c1 (si_ShardCount (ServerInfo r)))) as M2.
  { intros s cc Hs. rewrite <- (M1 s cc Hs). by apply createClient_fixed. }
  destruct (sync_endpoints_spec now (si_Endpoints (ServerInfo r)) _ M2 Hne Hnd) as (F3 & N3 & M3 & L3 & _).
  set (c3 := foldl _ _ _) in *. clearbody c3. cbv zeta.
  assert (si_ShardCount (ServerInfo r) = rl_shardCount r) as Hcount by (cbn; apply wrap32_id; unfold in_int32; lia).
  apply (client_of_leader _ _ _ shard); cbn [cs_shardCount with_cache cs_leaderEndpoints].
  - intros s cc. cbn. rewrite lookup_fmap. destruct (cs_clientsCache c3 !! s) as [cc0|] eqn:E; [|done].
    intros [= <-]. cbn. rewrite <- (M3 s cc0 E). by apply createClient_fixed.
  - rewrite N3. cbn [cs_shardCount with_shards]. rewrite Hcount. lia.
  - rewrite N3. cbn [cs_shardCount with_shards]. by rewrite Hcount.
  - unfold leader_of. rewrite Hl. cbn. specialize (L3 info (Hin shard info Hl)). by rewrite (proj1 (Hf _ _ Hl)) in L3.
  - destruct (Hall (leader_of r shard)) as [x Hx]. exists x. rewrite <- Hx. apply createClient_fixed.
    transitivity (fixed c3); [done|]. rewrite F3. exact F1.
Qed.

(** Cleaning up drops exactly the clients that are still valid: after a
    synchronisation, and until its clients expire, a clean-up empties the
    cache, and the next round of heartbeats reaches no server. *)
Theorem cleanup_drops_live_clients now now' servers chosen server client info serverInfo c :
  servers !! chosen = Some server -> getOrCreateClient NewForConfig now c server = (client, Some info) ->
  is_Some (serverInfo info) -> now' < now + ClientCacheTTL ->
  let c' := cleanup now' (clients_sync NewForConfig zero now servers chosen serverInfo c) in
  cs_clientsCache c' = ∅ /\ GetAllClients c' = [] /\ forall beat, clientHeart zero beat c' = c'.
Proof.
  intros Hserver Hg [si Hsi] Hlt. unfold clients_sync. rewrite Hserver, Hg, Hsi. cbv zeta.
  set (c1 := foldl _ _ _). clearbody c1. unfold cleanup. cbn [cs_clientsCache with_cache].
  assert (filter (fun '(_, cc) => ~ now' < cc_expire cc)
    ((fun cc => MkClientCache (now + ClientCacheTTL) (cc_client cc)) <$> cs_clientsCache c1) = ∅) as Hempty.
  { apply map_eq. intros k. rewrite lookup_empty, map_lookup_filter_None, lookup_fmap. right. intros cc.
    destruct (cs_clientsCache c1 !! k); [|done]. intros [= <-]. cbn. tauto. }
  rewrite Hempty. split; [done|]. split.
  - unfold GetAllClients. cbn. induction (Range (cs_leaderEndpoints c1)) as [|[s l] eps IH]; [done|]. cbn.
    by rewrite lookup_empty.
  - intros beat. unfold clientHeart. cbn [cs_clientsCache with_cache cs_leaderEndpoints].
    assert (forall eps : list (Z * string),
      filter (fun '(_, server) => is_Some ((∅ : gmap string clientCache) !! server)) eps = []) as ->; [|done].
    intros eps. induction eps as [|[s l] eps IH]; [done|]. rewrite filter_cons, decide_False; [done|].
    rewrite lookup_empty. by intros [].
Qed.
End clients_lemmas.

(** * Examples *)

Module ClientsExample.
#[local] Existing Instance sorted_range.

Definition any_client (_ : rest_config) : bool := true.

(** Answered at 1 s, missed from 2 s to 8 s. *)
Definition beats : list (Z * bool) :=
  [(1 * 10 ^ 9, true); (2 * 10 ^ 9, false); (5 * 10 ^ 9, false); (8 * 10 ^ 9, false)].

Lemma readiness_exact_witness : hb_ready (heartbeats 0 beats) = false.
Proof.
  rewrite (readiness_exact 0 beats); [vm_compute; reflexivity|].
  repeat (constructor; [|repeat (constructor; [vm_compute; discriminate|]); constructor]). constructor.
Defined.

Definition fresh : clientSets := newClientSets "https://s1" "gw-1" (MkRestConfig "" empty_tls).

Definition shard : Z := match GetShardID "c1" 4 with Ok s => s | _ => 0 end.

(** One server that leads the shard of the cluster. *)
Definition leading : @rateLimiter unit unit :=
  MkRateLimiter "r1" "https://s1" 4 {[ shard := MkEndpointInfo "https://s1" shard ]} ∅ ∅ ∅ tt.

Lemma fresh_made : cache_made any_client fresh.
Proof. intros s cc Hs. discriminate Hs. Qed.

Lemma leading_filed : leaders_filed leading.
Proof.
  split; [split; reflexivity|]. intros s info Hs. cbn in Hs. apply lookup_singleton_Some in Hs as [<- <-]. by split.
Qed.

Lemma gateway_asks_leader_witness :
  exists c' client,
    ClientFor any_client 5 (clients_sync any_client 0 1 ["https://s1"] 0 (fun _ => Some (ServerInfo leading)) fresh) "c1" =
      (c', Ok client) /\ rc_Host client = "https://s1".
Proof.
  destruct (gateway_asks_leader any_client 0 1 5 ["https://s1"] 0 "https://s1" (fun _ => Some (ServerInfo leading)) fresh
    leading "c1" shard (MkEndpointInfo "https://s1" shard)) as (c' & client & Hc & Hh).
  - exact fresh_made.
  - exact leading_filed.
  - reflexivity.
  - intros s. unfold createClient. cbn. by eexists.
  - reflexivity.
  - vm_compute. reflexivity.
  - vm_compute. reflexivity.
  - exists c', client. split; [exact Hc|]. rewrite Hh. vm_compute. reflexivity.
Defined.

Lemma cleanup_drops_live_clients_witness :
  GetAllClients (cleanup 2 (clients_sync any_client 0 1 ["https://s1"] 0 (fun _ => Some (ServerInfo leading)) fresh)) = [].
Proof.
  apply (cleanup_drops_live_clients any_client 0 1 2 ["https://s1"] 0 "https://s1"
    (fst (getOrCreateClient any_client 1 fresh "https://s1"))
    (default (MkRestConfig "" empty_tls) (snd (getOrCreateClient any_client 1 fresh "https://s1")))
    (fun _ => Some (ServerInfo leading)) fresh).
  - reflexivity.
  - reflexivity.
  - by eexists.
  - reflexivity.
Defined.
End ClientsExample.
