(* ===== verification/LimiterEndpoints.v ===== *)
(** The HTTP interface of the rate limiter server
    ([pkg/ratelimiter/endpoints]): its filters, its routes and its handlers,
    and what a gateway that asks the leader of a shard is answered.

    The router of go-restful, decoding of bodies, authentication and
    authorization are parameters. *)
From stdpp Require Import base tactics list strings gmap sorting.
From Stdlib Require Import ZArith Lia Ascii.
From S2P Require Import Prelude ApiTypes GlobalFlowControl LimitStore Float64 Allocation RateLimiter RateLimiterSpec Http ClientSets.

Local Open Scope Z_scope.
Local Open Scope go_scope.

(** * Routes *)

Inductive endpoint :=
  | EndpointCondition
  | EndpointReport
  | EndpointAcquire
  | EndpointServerInfo
  | EndpointHeartbeat.

Definition RootPath : string := "/apis/proxy.kubegateway.io/v1alpha1".

(** The method and the path of the routes; [condition] is the value of the
    parameter in the path. *)
Definition initDispatcher (e : endpoint) (condition : string) : string * string :=
  match e with
  | EndpointCondition => ("GET", "/ratelimitconditions/" +:+ condition)
  | EndpointReport => ("PUT", "/ratelimitconditions/" +:+ condition +:+ "/status")
  | EndpointAcquire => ("POST", "/ratelimitconditions/" +:+ condition +:+ "/acquire")
  | EndpointServerInfo => ("GET", "/ratelimit/endpoints")
  | EndpointHeartbeat => ("POST", "/ratelimit/heartbeat")
  end.

(** A value of a path parameter. *)
Definition segment (s : string) : Prop := s <> "" /\ Split s "/"%char = [s].

(** The container of go-restful: the route it picks for a method and a path,
    with the value of the path parameter, or the status it answers when there
    is none. *)
Class Container := {
  Route : string -> string -> Z + endpoint * string;
  Route_template : forall e condition, segment condition ->
    exists c, Route (initDispatcher e condition).1 (RootPath +:+ (initDispatcher e condition).2) = inr (e, c) /\
      (e = EndpointCondition \/ e = EndpointReport \/ e = EndpointAcquire -> c = condition)
}.

(** A request: its method and path, the query parameter [instance], and what
    its body decodes to. *)
Record limiter_request := MkLimiterRequest {
  lr_Method : string;
  lr_Path : string;
  lr_instance : string;
  lr_condition : option RateLimitCondition;
  lr_acquire : option RateLimitAcquire
}.

Inductive limiter_answer :=
  | AnswerCondition (c : RateLimitCondition)
  | AnswerAcquire (a : RateLimitAcquire)
  | AnswerInfo (i : RateLimitServerInfo)
  | AnswerEmpty
  | AnswerError (code : Z)
  | Delegated.

Definition StatusBadRequest : Z := 400.
Definition StatusUnauthorized : Z := 401.
Definition StatusForbidden : Z := 403.
Definition StatusInternalServerError : Z := 500.

Section endpoints.
Context `{RateLimiter} `{MapRange} `{FloatToInt} {W S : Type} `{!LimitStore W S} `{Container}.
Context (error_text : api_error -> string).
Implicit Types r : @rateLimiter W S.

(** Whether the codec encodes a condition. *)
Context (Encode : RateLimitCondition -> bool).

Definition writeJSONResponse (c : RateLimitCondition) : limiter_answer :=
  if Encode c then AnswerCondition c else AnswerError StatusInternalServerError.

(** ** Handlers

    A panic is answered by the filter that recovers from it; the state is
    that left by the operation. *)

Definition getRateLimitCondition (lister : cluster_lister) r (condition : string) : limiter_answer :=
  match GetRateLimitCondition lister r "" condition with
  | Ok status => writeJSONResponse status
  | _ => AnswerError StatusInternalServerError
  end.

Definition reportRateLimitConditionStatus r (conditionName : string) (body : option RateLimitCondition)
    : rateLimiter * limiter_answer :=
  match body with
  | None => (r, AnswerError StatusBadRequest)
  | Some rateLimitCondition =>
      let domain := rls_UpstreamCluster (rlc_Spec rateLimitCondition) in
      if decide (GenerateRateLimitConditionName domain (rls_Instance (rlc_Spec rateLimitCondition)) = conditionName) then
        match UpdateRateLimitConditionStatus r domain rateLimitCondition with
        | (r, Ok status) => (r, writeJSONResponse status)
        | (r, _) => (r, AnswerError StatusInternalServerError)
        end
      else (r, AnswerError StatusBadRequest)
  end.

(** The errors of [DoAcquire] carry no status of their own. *)
Definition doAcquire (clock : nat -> nat -> Z) r (body : option RateLimitAcquire)
    : rateLimiter * limiter_answer :=
  match body with
  | None => (r, AnswerError StatusBadRequest)
  | Some acquireRequest =>
      let domain := ra_Name acquireRequest in
      if decide (as_Instance (ra_Spec acquireRequest) = "") then (r, AnswerError StatusBadRequest)
      else
        match DoAcquire error_text clock r domain acquireRequest with
        | (r, Ok result) => (r, AnswerAcquire result)
        | (r, _) => (r, AnswerError StatusInternalServerError)
        end
  end.

Definition serverInfo r : limiter_answer := AnswerInfo (ServerInfo r).

Definition heartbeat (now : Z) r (instance : string) : rateLimiter * limiter_answer :=
  (Heartbeat now r instance, AnswerEmpty).

(** ** Dispatch *)

Definition Dispatch (lister : cluster_lister) (clock : nat -> nat -> Z) (now : Z) r (req : limiter_request)
    : rateLimiter * limiter_answer :=
  if HasPrefix (lr_Path req) RootPath then
    match Route (lr_Method req) (lr_Path req) with
    | inr (EndpointCondition, condition) => (r, getRateLimitCondition lister r condition)
    | inr (EndpointReport, condition) => reportRateLimitConditionStatus r condition (lr_condition req)
    | inr (EndpointAcquire, _) => doAcquire clock r (lr_acquire req)
    | inr (EndpointServerInfo, _) => (r, serverInfo r)
    | inr (EndpointHeartbeat, _) => heartbeat now r (lr_instance req)
    | inl code => (r, AnswerError code)
    end
  else (r, Delegated).

(** ** Filters *)

Context {U : Type}.

(** [authenticationInfo] and [authorizationInfo] may be absent. *)
Context (request_info_ok : limiter_request -> bool).
Context (Authenticate : option (limiter_request -> option U)).
Context (Authorize : option (option U -> limiter_request -> bool)).

Definition limiter_WithAuthentication (req : limiter_request) : option (option U) :=
  match Authenticate with
  | Some authenticate => Some <$> authenticate req
  | None => Some None
  end.

Definition limiter_WithAuthorization (user : option U) (req : limiter_request) : bool :=
  match Authorize with
  | Some authorize => authorize user req
  | None => true
  end.

Definition BuildHandlerChain (lister : cluster_lister) (clock : nat -> nat -> Z) (now : Z) r (req : limiter_request)
    : rateLimiter * limiter_answer :=
  if request_info_ok req then
    match limiter_WithAuthentication req with
    | None => (r, AnswerError StatusUnauthorized)
    | Some user =>
        if limiter_WithAuthorization user req then Dispatch lister clock now r req
        else (r, AnswerError StatusForbidden)
    end
  else (r, AnswerError StatusInternalServerError).
End endpoints.

(** * What changes the server *)

Section endpoints_lemmas.
Context `{RateLimiter} `{MapRange} `{FloatToInt} {W S : Type} `{!LimitStore W S} `{Container}.
Context (error_text : api_error -> string) (Encode : RateLimitCondition -> bool).
Context {U : Type} (request_info_ok : limiter_request -> bool).
Context (Authenticate : option (limiter_request -> option U)).
Context (Authorize : option (option U -> limiter_request -> bool)).
Implicit Types r : @rateLimiter W S.

Abbreviation chain := (BuildHandlerChain error_text Encode request_info_ok Authenticate Authorize).

(** The server leads the shard of a cluster and has its store. *)
Definition serves_cluster r (cluster : string) : Prop :=
  exists shard, GetShardID cluster (rl_shardCount r) = Ok shard /\ rl_IsLeader r shard = true /\
    is_Some (getLimitStoreForShard r shard).

Lemma DoAcquire_serves clock r cluster req r' res :
  DoAcquire error_text clock r cluster req = (r', res) -> r' <> r -> serves_cluster r cluster.
Proof.
  unfold DoAcquire, serves_cluster. destruct (GetShardID _ _) as [shard|[]|] eqn:Hs; [|by intros [= <- _]].
  destruct (rl_IsLeader r shard) eqn:Hl; [|by intros [= <- _]].
  destruct (getLimitStoreForShard r shard) eqn:Hst; [|by intros [= <- _]].
  intros _ _. by exists shard.
Qed.

Lemma report_serves r cluster c r' res :
  UpdateRateLimitConditionStatus r cluster c = (r', res) -> r' <> r -> serves_cluster r cluster.
Proof.
  unfold UpdateRateLimitConditionStatus, serves_cluster. destruct (GetShardID _ _) as [shard|[]|] eqn:Hs; [|by intros [= <- _]].
  destruct (rl_IsLeader r shard) eqn:Hl; [|by intros [= <- _]].
  destruct (getLimitStoreForShard r shard) eqn:Hst; [|by intros [= <- _]].
  intros _ _. by exists shard.
Qed.

(** What a request may change, by its route. *)
Inductive may_change r (req : limiter_request) : endpoint -> Prop :=
  | change_report c : lr_condition req = Some c -> serves_cluster r (rls_UpstreamCluster (rlc_Spec c)) ->
      Route (lr_Method req) (lr_Path req) =
        inr (EndpointReport, GenerateRateLimitConditionName (rls_UpstreamCluster (rlc_Spec c)) (rls_Instance (rlc_Spec c))) ->
      may_change r req EndpointReport
  | change_acquire a condition : lr_acquire req = Some a -> as_Instance (ra_Spec a) <> "" -> serves_cluster r (ra_Name a) ->
      Route (lr_Method req) (lr_Path req) = inr (EndpointAcquire, condition) ->
      may_change r req EndpointAcquire
  | change_heartbeat condition : Route (lr_Method req) (lr_Path req) = inr (EndpointHeartbeat, condition) ->
      may_change r req EndpointHeartbeat.

Lemma Dispatch_changes lister clock now r req r' ans :
  Dispatch error_text Encode lister clock now r req = (r', ans) -> r' <> r -> exists e, may_change r req e.
Proof.
  unfold Dispatch. destruct (HasPrefix _ _); [|by intros [= <- _]].
  destruct (Route _ _) as [code|[[] condition]] eqn:Hr; try (by intros [= <- _]).
  - unfold reportRateLimitConditionStatus. destruct (lr_condition req) as [c|] eqn:Hc; [|by intros [= <- _]].
    case_decide as Hn; [|by intros [= <- _]].
    destruct (UpdateRateLimitConditionStatus r _ c) as [r1 res] eqn:E. intros Heq Hne.
    assert (r1 = r') as -> by (destruct res; congruence).
    exists EndpointReport. eapply change_report; [exact Hc|by eapply report_serves|by rewrite Hn].
  - unfold doAcquire. destruct (lr_acquire req) as [a|] eqn:Ha; [|by intros [= <- _]].
    case_decide as Hi; [by intros [= <- _]|].
    destruct (DoAcquire _ _ r _ a) as [r1 res] eqn:E. intros Heq Hne.
    assert (r1 = r') as -> by (destruct res; congruence).
    exists EndpointAcquire. eapply change_acquire; [exact Ha|exact Hi|by eapply DoAcquire_serves|exact Hr].
  - intros _ _. exists EndpointHeartbeat. by econstructor.
Qed.

(** C21: A request changes the state of the rate limiter server only if it was
    authenticated and authorised and is a heartbeat, an acquire request of a
    named instance, or a report under the name of its cluster and instance;
    the last two only at the server that leads the shard of the cluster. *)
Theorem changes_authorized lister clock now r req r' ans :
  chain lister clock now r req = (r', ans) -> r' <> r ->
  (exists user, limiter_WithAuthentication Authenticate req = Some user /\ limiter_WithAuthorization Authorize user req = true) /\
  exists e, may_change r req e.
Proof.
  unfold BuildHandlerChain. destruct (request_info_ok req); [|by intros [= <- _]].
  destruct (limiter_WithAuthentication _ req) as [user|] eqn:Hu; [|by intros [= <- _]].
  destruct (limiter_WithAuthorization _ user req) eqn:Hz; [|by intros [= <- _]].
  intros Hd Hne. split; [by exists user|]. by eapply Dispatch_changes.
Qed.

(** * The answer a gateway gets *)

Context `{!LimitStoreLaws W S}.

(** Flow controls of a cluster are looked up without a panic. *)
Definition lookups_return (store : S) (cluster : string) : Prop :=
  forall n, ls_GetFlowControl store cluster n <> Panic.

Lemma acquire_one_returns clock store cluster instance rid limit :
  ls_inv store -> lookups_return store cluster ->
  exists store' rs, acquire_one error_text clock store cluster instance rid limit = (store', Ok rs) /\
    ls_inv store' /\ lookups_return store' cluster.
Proof.
  intros Hinv Hret. unfold acquire_one.
  assert (forall f, ls_inv (ls_UpdateFlowControl store cluster (arq_FlowControl limit) f) /\
    lookups_return (ls_UpdateFlowControl store cluster (arq_FlowControl limit) f) cluster) as Hup.
  { intros f. split; [apply (law_update store cluster _ f cluster ""); exact Hinv|].
    intros n. destruct (law_update store cluster (arq_FlowControl limit) f cluster n Hinv) as [_ ->].
    specialize (Hret n). by destruct (ls_GetFlowControl store cluster n). }
  specialize (Hret (arq_FlowControl limit)) as Hn. destruct (ls_GetFlowControl _ _ _) as [fc|e|] eqn:E; [|eauto|done].
  destruct (Tokens limit <? 0); [eauto|]. destruct (GlobalFlowControl_Type fc); [eauto|eauto| |].
  - destruct (GlobalFlowControl_SetState _ _ _ _) as [fc' [[accept threshold] err]].
    do 2 eexists; split; [reflexivity|]. apply (Hup (fun _ => fc')).
  - destruct (try_tokens _ _ _ _ _) as [[fc' accept] token].
    do 2 eexists; split; [reflexivity|]. apply (Hup (fun _ => fc')).
Qed.

Lemma acquire_all_returns clock store cluster instance rid limits :
  ls_inv store -> lookups_return store cluster ->
  exists store' rs, acquire_all error_text clock store cluster instance rid limits = (store', Ok rs).
Proof.
  revert store. induction limits as [|limit limits IH]; intros store Hinv Hret; [by exists store, []|].
  cbn [acquire_all].
  destruct (acquire_one_returns (clock (length (limit :: limits))) store cluster instance rid limit Hinv Hret)
    as (s1 & rs & -> & Hinv1 & Hret1).
  destruct (IH s1 Hinv1 Hret1) as (s2 & rest & ->). by exists s2, (rs :: rest).
Qed.

Lemma DoAcquire_returns clock r cluster a shard store :
  GetShardID cluster (rl_shardCount r) = Ok shard -> leader_of r shard = rl_identity r ->
  getLimitStoreForShard r shard = Some store -> ls_inv store -> lookups_return store cluster ->
  exists r' a', DoAcquire error_text clock r cluster a = (r', Ok a') /\
    exists results, Results (ra_Status a') = Results (ra_Status a) ++ results /\
      Forall2 answer_ok (Requests (ra_Spec a)) results.
Proof.
  intros Hs Hl Hst Hinv Hret. unfold DoAcquire.
  rewrite Hs, (bool_decide_eq_true_2 _ Hl : rl_IsLeader r shard = true), Hst.
  destruct (acquire_all_returns clock store cluster (as_Instance (ra_Spec a)) (RequestID (ra_Spec a))
    (Requests (ra_Spec a)) Hinv Hret) as (store' & results & Hall).
  rewrite Hall. do 2 eexists. split; [reflexivity|]. exists results. split; [reflexivity|]. by eapply acquire_all_answers.
Qed.

Lemma acquire_route lister clock now r req condition :
  segment condition -> lr_Method req = "POST" ->
  lr_Path req = RootPath +:+ "/ratelimitconditions/" +:+ condition +:+ "/acquire" ->
  Dispatch error_text Encode lister clock now r req = doAcquire error_text clock r (lr_acquire req).
Proof.
  intros Hseg Hm Hp. destruct (Route_template EndpointAcquire condition Hseg) as (c & Hr & _). cbn in Hr.
  unfold Dispatch. rewrite Hm, Hp. rewrite (proj2 (HasPrefix_spec _ _)) by eauto. by rewrite Hr.
Qed.

(** C14: A gateway that synchronised its clients with a server that leads the
    shard of a cluster sends its acquire requests for the cluster to that
    server, and each is answered, one result per flow control and in order,
    by what the flow control grants. *)
Theorem asked_server_answers NewForConfig zero now now' servers chosen server info c r cluster shard store
    lister clock req a user :
  cache_made NewForConfig c -> leaders_filed r -> servers !! chosen = Some server ->
  (forall s, is_Some (createClient NewForConfig c s)) -> (forall client, info client = Some (ServerInfo r)) ->
  GetShardID cluster (rl_shardCount r) = Ok shard -> is_Some (rl_leaderInfo r !! shard) ->
  leader_of r shard = rl_identity r ->
  getLimitStoreForShard r shard = Some store -> ls_inv store -> lookups_return store cluster ->
  segment cluster -> lr_Method req = "POST" ->
  lr_Path req = RootPath +:+ "/ratelimitconditions/" +:+ cluster +:+ "/acquire" ->
  lr_acquire req = Some a -> ra_Name a = cluster -> as_Instance (ra_Spec a) <> "" ->
  request_info_ok req = true -> limiter_WithAuthentication Authenticate req = Some user ->
  limiter_WithAuthorization Authorize user req = true ->
  (exists c' client,
    ClientFor NewForConfig now' (clients_sync NewForConfig zero now servers chosen info c) cluster = (c', Ok client) /\
    rc_Host client = rl_identity r) /\
  exists r' a', chain lister clock now' r req = (r', AnswerAcquire a') /\
    exists results, Results (ra_Status a') = Results (ra_Status a) ++ results /\
      Forall2 answer_ok (Requests (ra_Spec a)) results.
Proof.
  intros Hmade Hfiled Hserver Hall Hinfo Hshard [ep Hep] Hl Hst Hinv Hret Hseg Hm Hp Ha Hname Hi Hok Hu Hz. split.
  - rewrite <- Hl. by eapply gateway_asks_leader.
  - destruct (DoAcquire_returns clock r cluster a shard store) as (r' & a' & Hd & Hres); [done..|].
    exists r', a'. split; [|exact Hres]. unfold BuildHandlerChain. rewrite Hok, Hu, Hz.
    rewrite (acquire_route lister clock now' r req cluster) by done. unfold doAcquire. rewrite Ha.
    rewrite decide_False by done. by rewrite Hname, Hd.
Qed.
End endpoints_lemmas.

(** * Examples *)

Module EndpointsExample.
#[local] Existing Instance SimpleLimiter.limiter.
#[local] Existing Instance sorted_range.
#[local] Existing Instance amd64_conversion.

(** A router that splits the path at its slashes. *)
Definition split_route (method path : string) : Z + endpoint * string :=
  match Split path "/"%char with
  | "" :: "apis" :: "proxy.kubegateway.io" :: "v1alpha1" :: rest =>
      match rest with
      | ["ratelimitconditions"; c] => if decide (method = "GET") then inr (EndpointCondition, c) else inl 405
      | ["ratelimitconditions"; c; "status"] => if decide (method = "PUT") then inr (EndpointReport, c) else inl 405
      | ["ratelimitconditions"; c; "acquire"] => if decide (method = "POST") then inr (EndpointAcquire, c) else inl 405
      | ["ratelimit"; "endpoints"] => if decide (method = "GET") then inr (EndpointServerInfo, "") else inl 405
      | ["ratelimit"; "heartbeat"] => if decide (method = "POST") then inr (EndpointHeartbeat, "") else inl 405
      | _ => inl 404
      end
  | _ => inl 404
  end.

Lemma Split_cons x s sep : Split (String x s) sep =
  if decide (x = sep) then EmptyString :: Split s sep
  else match Split s sep with t :: ts => String x t :: ts | [] => [String x EmptyString] end.
Proof. reflexivity. Qed.

Lemma Split_not_nil s sep : Split s sep <> [].
Proof. destruct s as [|a s]; [done|]. rewrite Split_cons. case_decide; [done|]. by destruct (Split s sep). Qed.

Lemma Split_app a b sep : Split a sep = [a] -> Split (a +:+ String sep b) sep = a :: Split b sep.
Proof.
  induction a as [|x a IH].
  - intros _. change (EmptyString +:+ String sep b) with (String sep b). by rewrite Split_cons, decide_True.
  - change (String x a +:+ String sep b) with (String x (a +:+ String sep b)). rewrite !Split_cons.
    case_decide; [by intros [=]|]. destruct (Split a sep) as [|t ts] eqn:E; [by destruct (Split_not_nil a sep)|].
    intros [= -> ->]. by rewrite IH.
Qed.

Lemma Split_route rest : Split (RootPath +:+ String "/"%char rest) "/"%char =
  "" :: "apis" :: "proxy.kubegateway.io" :: "v1alpha1" :: Split rest "/"%char.
Proof.
  change (RootPath +:+ String "/"%char rest) with
    ("" +:+ String "/"%char ("apis" +:+ String "/"%char ("proxy.kubegateway.io" +:+ String "/"%char
      ("v1alpha1" +:+ String "/"%char rest)))).
  by rewrite !Split_app.
Qed.

#[export] Instance split_container : Container.
Proof.
  refine {| Route := split_route |}. intros e condition [_ Hseg]. exists match e with
    | EndpointServerInfo | EndpointHeartbeat => "" | _ => condition end.
  split; [|by intros [->|[->| ->]]]. unfold split_route. destruct e; cbn [initDispatcher fst snd].
  - change ("/ratelimitconditions/" +:+ condition) with
      (String "/"%char ("ratelimitconditions" +:+ String "/"%char condition)).
    by rewrite Split_route, Split_app, Hseg.
  - change ("/ratelimitconditions/" +:+ condition +:+ "/status") with
      (String "/"%char ("ratelimitconditions" +:+ String "/"%char (condition +:+ String "/"%char "status"))).
    by rewrite Split_route, !Split_app by done.
  - change ("/ratelimitconditions/" +:+ condition +:+ "/acquire") with
      (String "/"%char ("ratelimitconditions" +:+ String "/"%char (condition +:+ String "/"%char "acquire"))).
    by rewrite Split_route, !Split_app by done.
  - reflexivity.
  - reflexivity.
Defined.

(** Bearers of a certificate are authenticated; they may not read. *)
Definition authenticate : option (limiter_request -> option string) := Some (fun _ => Some "gateway").
Definition authorize : option (option string -> limiter_request -> bool) :=
  Some (fun user req => bool_decide (user = Some "gateway" /\ lr_Method req <> "GET")).

Definition acquire_body : RateLimitAcquire :=
  MkAcquire "c1" (MkAcquireSpec "gw" [MkAcquireRequest "fc" 40; MkAcquireRequest "nope" 1] 1) (MkAcquireStatus []).

Definition acquire_request : limiter_request :=
  MkLimiterRequest "POST" (RootPath +:+ "/ratelimitconditions/c1/acquire") "" None (Some acquire_body).

Definition handle (r : @rateLimiter unit localStore) (req : limiter_request) : @rateLimiter unit localStore * limiter_answer :=
  BuildHandlerChain (fun _ => "error") (fun _ => true) (fun _ => true) authenticate authorize
    LimiterExample.lister (fun _ _ => 0) 5 r req.

(** The instance recorded in the condition a server has stored under a
    name. *)
Definition stored_instance (r : @rateLimiter unit localStore) (name : string) : option string :=
  match lookup_condition r "c1" name with
  | Ok c => Some (rls_Instance (rlc_Spec c))
  | _ => None
  end.

(** A report of [instance], sent to the path that names it, with an object of
    any name. *)
Definition report_request (instance name : string) : limiter_request :=
  let spec := MkRateLimitSpec "c1" instance [MkItemConfig "fc" (MkDetail (Some (MkMaxInflight 0)) None) "local"] in
  MkLimiterRequest "PUT" (RootPath +:+ "/ratelimitconditions/" +:+ GenerateRateLimitConditionName "c1" instance +:+ "/status")
    "" (Some (MkCondition name "" None spec
           (MkRateLimitStatus [MkItemStatus "fc" (MkDetail (Some (MkMaxInflight 3)) None) 0]))) None.

Definition answered_ok (a : limiter_answer) : bool :=
  match a with AnswerError _ | Delegated => false | _ => true end.

(** The name in the path is compared with the cluster and the instance of the
    object, but the object is stored under its own name: the report of one
    instance replaces what the server granted another. *)
Example report_overwrites_other :
  let '(r1, a1) := handle LimiterExample.leading (report_request "gw" "c1.gw") in
  let '(r2, a2) := handle r1 (report_request "gw2" "c1.gw") in
  answered_ok a1 = true /\ stored_instance r1 "c1.gw" = Some "gw" /\
  answered_ok a2 = true /\ stored_instance r2 "c1.gw" = Some "gw2" /\ stored_instance r2 "c1.gw2" = None.
Proof. vm_compute. repeat split. Qed.

(** A heartbeat changes the server; a request to read it is refused. *)
Definition heartbeat_request : limiter_request :=
  MkLimiterRequest "POST" (RootPath +:+ "/ratelimit/heartbeat") "gw3" None None.

Lemma changes_authorized_witness :
  (exists user, limiter_WithAuthentication authenticate heartbeat_request = Some user /\
     limiter_WithAuthorization authorize user heartbeat_request = true) /\
  exists e, may_change LimiterExample.leading heartbeat_request e.
Proof.
  apply (changes_authorized (W := unit) (fun _ => "error") (fun _ => true) (fun _ => true) authenticate authorize
    LimiterExample.lister (fun _ _ => 0) 5 LimiterExample.leading heartbeat_request
    (Heartbeat 5 LimiterExample.leading "gw3") AnswerEmpty).
  - assert (limiter_WithAuthorization authorize (Some "gateway") heartbeat_request = true) as Hz by (vm_compute; reflexivity).
    assert (HasPrefix (lr_Path heartbeat_request) RootPath = true) as Hp by (vm_compute; reflexivity).
    assert (Route (lr_Method heartbeat_request) (lr_Path heartbeat_request) = inr (EndpointHeartbeat, "")) as Hr
      by (vm_compute; reflexivity).
    unfold BuildHandlerChain, limiter_WithAuthentication, authenticate. cbn [fmap option_fmap option_map].
    rewrite Hz. unfold Dispatch. by rewrite Hp, Hr.
  - intros Heq. apply (f_equal (fun r => rl_clientCache r !! "gw3")) in Heq. vm_compute in Heq. discriminate Heq.
Defined.

Lemma server_filed : leaders_filed LimiterExample.leading.
Proof.
  split; [split; reflexivity|]. intros s info Hs. cbn in Hs. apply lookup_singleton_Some in Hs as [<- <-]. by split.
Qed.

Lemma asked_server_answers_witness :
  exists r' a', handle LimiterExample.leading acquire_request = (r', AnswerAcquire a') /\
    exists results, Results (ra_Status a') = [] ++ results /\ Forall2 answer_ok (Requests (ra_Spec acquire_body)) results.
Proof.
  refine (proj2 (asked_server_answers (W := unit) (fun _ => "error") (fun _ => true) (fun _ => true) authenticate
    authorize ClientsExample.any_client 0 1 5 ["me"] 0 "me" (fun _ => Some (ServerInfo LimiterExample.leading))
    ClientsExample.fresh LimiterExample.leading "c1" 0 LimiterExample.store LimiterExample.lister (fun _ _ => 0)
    acquire_request acquire_body (Some "gateway") _ _ _ _ _ _ _ _ _ _ _ _ _ _ _ _ _ _ _ _)).
  - exact ClientsExample.fresh_made.
  - exact server_filed.
  - reflexivity.
  - intros s. unfold createClient. cbn. by eexists.
  - reflexivity.
  - vm_compute. reflexivity.
  - cbn. by eexists.
  - vm_compute. reflexivity.
  - reflexivity.
  - apply LimiterExample.store_spec.
  - intros n. cbn. unfold localStore_GetFlowControl. by repeat case_match.
  - by split.
  - reflexivity.
  - reflexivity.
  - reflexivity.
  - reflexivity.
  - discriminate.
  - reflexivity.
  - reflexivity.
  - vm_compute. reflexivity.
Defined.
End EndpointsExample.
