(* ===== verification/Impersonation.v ===== *)
(** Impersonation: the filter that lets an authorised client act as another
    user ([pkg/gateway/endpoints/filters/impersonation.go]) and the transport
    that hands the user of a request to the upstream
    ([pkg/transport/dynamic_impersonate.go]).

    The names of the headers and of the well-known users and groups are
    constants of k8s.io/api and k8s.io/apiserver, and so are the functions on
    service account names: both are parameters.  An object reference is one
    constructor per kind the filter builds; its group, version and kind are
    not kept.  Of a user the UID is not kept: neither side passes it on. *)
From stdpp Require Import base tactics list strings gmap.
From Stdlib Require Import ZArith Lia Ascii.
From S2P Require Import Prelude Http.

Local Open Scope Z_scope.

(** * Constants of Kubernetes *)

Class ImpersonationNames := {
  ImpersonateUserHeader : string;
  ImpersonateGroupHeader : string;
  ImpersonateUserExtraHeaderPrefix : string;
  user_canonical : CanonicalHeaderKey ImpersonateUserHeader = ImpersonateUserHeader;
  group_canonical : CanonicalHeaderKey ImpersonateGroupHeader = ImpersonateGroupHeader;
  prefix_canonical : CanonicalHeaderKey ImpersonateUserExtraHeaderPrefix = ImpersonateUserExtraHeaderPrefix;
  prefix_token : string_forallb validHeaderFieldByte ImpersonateUserExtraHeaderPrefix = true;
  prefix_dash : HasSuffix ImpersonateUserExtraHeaderPrefix "-" = true;
  headers_distinct : ImpersonateUserHeader <> ImpersonateGroupHeader;
  user_not_extra : HasPrefix ImpersonateUserHeader ImpersonateUserExtraHeaderPrefix = false;
  group_not_extra : HasPrefix ImpersonateGroupHeader ImpersonateUserExtraHeaderPrefix = false;
  Anonymous : string;
  AllAuthenticated : string;
  AllUnauthenticated : string
}.

(** k8s.io/apiserver/pkg/authentication/serviceaccount: splitting a user name
    is the inverse of making it. *)
Class ServiceAccountNames := {
  MakeUsername : string -> string -> string;
  SplitUsername : string -> option (string * string);
  MakeGroupNames : string -> list string;
  split_make : forall u ns n, SplitUsername u = Some (ns, n) -> MakeUsername ns n = u
}.

Record UserInfo := MkUser {
  ui_Name : string;
  ui_Groups : list string;
  ui_Extra : gmap string (list string)
}.

(** * The transport *)

(** The table of [dynamic_impersonate.go]. *)
Definition legalHeaderKeyBytes : string :=
  "%!#$&'*+-.0123456789ABCDEFGHIJKLMNOPQRSTUWVXYZ^_`abcdefghijklmnopqrstuvwxyz|~".

Definition legalHeaderByte (b : ascii) : bool :=
  (byte b <? 127) && contains_byte legalHeaderKeyBytes b.

Definition shouldEscape (b : ascii) : bool := negb (legalHeaderByte b) || bool_decide (b = "%"%char).

Fixpoint headerKeyEscape (key : string) : string :=
  match key with
  | EmptyString => EmptyString
  | String b key' =>
      (if shouldEscape b then percent_encode b else String b "") +:+ headerKeyEscape key'
  end.

Section impersonation.
Context `{ImpersonationNames} `{ServiceAccountNames} `{UnicodeLower} `{MapRange}.

Definition add_group (h : Header) (group : string) : Header :=
  Header_Add h ImpersonateGroupHeader group.

Definition add_extra (h : Header) (kvv : string * list string) : Header :=
  let '(k, vv) := kvv in
  foldl (fun h v => Header_Add h (ImpersonateUserExtraHeaderPrefix +:+ headerKeyEscape k) v) h vv.

(** [WrapRequest], on the headers of the request. *)
Definition WrapRequest (h : Header) (requestor : option UserInfo) : Header :=
  if negb (bool_decide (Header_Get h ImpersonateUserHeader = "")) then h
  else
    match requestor with
    | None => h
    | Some u =>
        let h := Header_Set h ImpersonateUserHeader (ui_Name u) in
        let h := foldl add_group h (ui_Groups u) in
        foldl add_extra h (Range (ui_Extra u))
    end.

(** * The filter *)

Definition unescapeExtraKey (encodedKey : string) : string :=
  default encodedKey (PathUnescape encodedKey).

(** [s[len(p):]] *)
Fixpoint drop_bytes (p s : string) : string :=
  match p, s with
  | EmptyString, _ => s
  | String _ _, EmptyString => EmptyString
  | String _ p', String _ s' => drop_bytes p' s'
  end.

Inductive ObjectReference :=
  | RefServiceAccount (namespace name : string)
  | RefUser (name : string)
  | RefGroup (name : string)
  | RefUserExtra (key value : string).

Definition user_requests (h : Header) : list ObjectReference :=
  let requestedUser := Header_Get h ImpersonateUserHeader in
  if decide (requestedUser = "") then []
  else match SplitUsername requestedUser with
       | Some (namespace, name) => [RefServiceAccount namespace name]
       | None => [RefUser requestedUser]
       end.

Definition extraKey_of (headerName : string) : string :=
  unescapeExtraKey (ToLower (drop_bytes ImpersonateUserExtraHeaderPrefix headerName)).

Definition is_extra_header (headerName : string) : bool :=
  HasPrefix headerName ImpersonateUserExtraHeaderPrefix.

Definition extra_requests (h : Header) : list ObjectReference :=
  Range h ≫= fun '(headerName, values) =>
    if is_extra_header headerName then RefUserExtra (extraKey_of headerName) <$> values else [].

(** [None] is the error: groups or extra values without a user. *)
Definition buildImpersonationRequests (h : Header) : option (list ObjectReference) :=
  let hasUser := negb (bool_decide (Header_Get h ImpersonateUserHeader = "")) in
  let hasGroups := negb (bool_decide (Header_values h ImpersonateGroupHeader = [])) in
  let hasUserExtra := existsb (fun '(headerName, _) => is_extra_header headerName) (Range h) in
  if (hasGroups || hasUserExtra) && negb hasUser then None
  else Some (user_requests h ++ (RefGroup <$> Header_values h ImpersonateGroupHeader) ++ extra_requests h).

(** The attributes of the authorization check. *)
Record AttributesRecord := MkAttributesRecord {
  at_Verb : string;
  at_Namespace : string;
  at_Resource : string;
  at_Subresource : string;
  at_Name : string
}.

Definition acting_as (r : ObjectReference) : AttributesRecord :=
  match r with
  | RefServiceAccount namespace name => MkAttributesRecord "impersonate" namespace "serviceaccounts" "" name
  | RefUser name => MkAttributesRecord "impersonate" "" "users" "" name
  | RefGroup name => MkAttributesRecord "impersonate" "" "groups" "" name
  | RefUserExtra key value => MkAttributesRecord "impersonate" "" "userextras" key value
  end.

(** The user under construction. *)
Definition assume (groupsSpecified : bool) (u : UserInfo) (r : ObjectReference) : UserInfo :=
  match r with
  | RefServiceAccount namespace name =>
      MkUser (MakeUsername namespace name)
        (if groupsSpecified then ui_Groups u else MakeGroupNames namespace) (ui_Extra u)
  | RefUser name => MkUser name (ui_Groups u) (ui_Extra u)
  | RefGroup name => MkUser (ui_Name u) (ui_Groups u ++ [name]) (ui_Extra u)
  | RefUserExtra key value =>
      MkUser (ui_Name u) (ui_Groups u)
        (<[key := default [] (ui_Extra u !! key) ++ [value]]> (ui_Extra u))
  end.

(** [Authorize] of a requestor answers without error and allows. *)
Context (Authorize : UserInfo -> AttributesRecord -> bool).

Fixpoint assume_all (requestor : UserInfo) (groupsSpecified : bool) (u : UserInfo)
    (reqs : list ObjectReference) : option UserInfo :=
  match reqs with
  | [] => Some u
  | r :: reqs' =>
      if Authorize requestor (acting_as r) then
        assume_all requestor groupsSpecified (assume groupsSpecified u r) reqs'
      else None
  end.

Definition add_wellknown_group (u : UserInfo) : UserInfo :=
  let groups := ui_Groups u in
  let groups' :=
    if negb (bool_decide (ui_Name u = Anonymous)) then
      if existsb (fun g => bool_decide (g = AllAuthenticated) || bool_decide (g = AllUnauthenticated)) groups
      then groups else groups ++ [AllAuthenticated]
    else
      if existsb (fun g => bool_decide (g = AllUnauthenticated)) groups
      then groups else groups ++ [AllUnauthenticated] in
  MkUser (ui_Name u) groups' (ui_Extra u).

Definition clear_headers (h : Header) : Header :=
  let h := Header_Del h ImpersonateUserHeader in
  let h := Header_Del h ImpersonateGroupHeader in
  foldl (fun h '(headerName, _) => if is_extra_header headerName then Header_Del h headerName else h)
    h (Range h).

Inductive outcome :=
  | Next (u : option UserInfo) (h : Header)
  | Forbidden
  | InternalError.

Definition WithNoLoggingImpersonation (requestor : option UserInfo) (h : Header) : outcome :=
  match buildImpersonationRequests h with
  | None => InternalError
  | Some [] => Next requestor h
  | Some reqs =>
      match requestor with
      | None => InternalError
      | Some requestor =>
          let groupsSpecified := negb (bool_decide (Header_values h ImpersonateGroupHeader = [])) in
          match assume_all requestor groupsSpecified (MkUser "" [] ∅) reqs with
          | None => Forbidden
          | Some u => Next (Some (add_wellknown_group u)) (clear_headers h)
          end
      end
  end.
End impersonation.

(** * Lemmas *)

(** ** Header keys of extra values *)

Lemma legal_is_token a : legalHeaderByte a = validHeaderFieldByte a.
Proof. apply (bool_decide_eq_true_1 _). revert a. apply byte_cases. vm_compute. reflexivity. Qed.

Definition escape_ok (a : ascii) : bool :=
  if shouldEscape a then
    let x := hex_digit (byte a / 16) in
    let y := hex_digit (byte a mod 16) in
    let lx := lower_byte x in
    let ly := lower_byte y in
    validHeaderFieldByte x && validHeaderFieldByte y && ishex lx && ishex ly &&
    bool_decide (of_byte (unhex lx * 16 + unhex ly) = lower_byte a)
  else validHeaderFieldByte a && negb (bool_decide (lower_byte a = "%"%char)).

Lemma escape_bytes a : escape_ok a = true.
Proof. revert a. apply byte_cases. vm_compute. reflexivity. Qed.

Lemma headerKeyEscape_token k : string_forallb validHeaderFieldByte (headerKeyEscape k) = true.
Proof.
  induction k as [|a k IH]; [done|]. cbn [headerKeyEscape]. rewrite string_forallb_app, IH, andb_true_r.
  pose proof (escape_bytes a) as Ha. unfold escape_ok in Ha. destruct (shouldEscape a).
  - bool_to_prop. unfold percent_encode. cbn [string_forallb]. by rewrite H, H3.
  - bool_to_prop. cbn [string_forallb]. by rewrite H.
Qed.

Lemma unescape_lower_escape k :
  PathUnescape (string_map lower_byte (headerKeyEscape k)) = Some (string_map lower_byte k).
Proof.
  induction k as [|a k IH]; [done|]. cbn [headerKeyEscape]. rewrite string_map_app.
  pose proof (escape_bytes a) as Ha. unfold escape_ok in Ha. destruct (shouldEscape a).
  - bool_to_prop. unfold percent_encode, String.app. cbn [string_map String.append PathUnescape].
    rewrite decide_True by done. rewrite H1, H2. cbn [andb]. rewrite IH. cbn. by rewrite H0.
  - bool_to_prop. unfold String.app. cbn [string_map String.append PathUnescape].
    rewrite decide_False by done. by rewrite IH.
Qed.

Lemma token_ascii s : string_forallb validHeaderFieldByte s = true -> is_ascii s = true.
Proof.
  unfold is_ascii. induction s as [|a s IH]; [done|]. cbn [string_forallb]. intros Hs. bool_to_prop.
  rewrite IH, andb_true_r by done. rewrite <- legal_is_token in H. unfold legalHeaderByte in H.
  bool_to_prop. apply Z.ltb_lt. lia.
Qed.

Section impersonation_lemmas.
Context `{ImpersonationNames} `{ServiceAccountNames} `{UnicodeLower} `{MapRange}.

(** The header an extra key is sent in. *)
Definition extra_header (k : string) : string :=
  CanonicalHeaderKey (ImpersonateUserExtraHeaderPrefix +:+ headerKeyEscape k).

Lemma extra_header_eq k :
  extra_header k = ImpersonateUserExtraHeaderPrefix +:+ canonical_case true (headerKeyEscape k).
Proof.
  unfold extra_header, CanonicalHeaderKey.
  rewrite string_forallb_app, prefix_token, headerKeyEscape_token. cbn [andb].
  pose proof prefix_canonical as Hc. unfold CanonicalHeaderKey in Hc. rewrite prefix_token in Hc.
  destruct (proj1 (HasSuffix_spec _ _) prefix_dash) as [t Ht]. rewrite Ht in *.
  rewrite string_app_assoc. change ("-" +:+ headerKeyEscape k) with (String "-" (headerKeyEscape k)).
  by rewrite canonical_case_dash, Hc.
Qed.

Lemma drop_bytes_app p s : drop_bytes p (p +:+ s) = s.
Proof. induction p as [|a p IH]; [by destruct s|]. unfold String.app in *. simpl. exact IH. Qed.

Lemma extraKey_of_header k : extraKey_of (extra_header k) = string_map lower_byte k.
Proof.
  unfold extraKey_of. rewrite extra_header_eq, drop_bytes_app.
  unfold ToLower. rewrite (token_ascii _ (canonical_case_token _ true (headerKeyEscape_token k))).
  rewrite lower_canonical_case. unfold unescapeExtraKey. by rewrite unescape_lower_escape.
Qed.

Lemma extra_header_is_extra k : is_extra_header (extra_header k) = true.
Proof. rewrite extra_header_eq. unfold is_extra_header. apply HasPrefix_spec. eauto. Qed.

Lemma user_header_not_extra k : extra_header k <> ImpersonateUserHeader.
Proof.
  intros Heq. pose proof (extra_header_is_extra k) as Hx. rewrite Heq in Hx.
  pose proof user_not_extra. unfold is_extra_header in Hx. congruence.
Qed.

Lemma group_header_not_extra k : extra_header k <> ImpersonateGroupHeader.
Proof.
  intros Heq. pose proof (extra_header_is_extra k) as Hx. rewrite Heq in Hx.
  pose proof group_not_extra. unfold is_extra_header in Hx. congruence.
Qed.

(** ** The headers [WrapRequest] sets *)

Lemma add_extra_lookup (h : Header) k vv k' :
  add_extra h (k, vv) !! k' =
    if decide (k' = extra_header k /\ vv <> []) then Some (Header_values h (extra_header k) ++ vv)
    else h !! k'.
Proof. apply Header_Add_all. Qed.

(** Extra keys are in lower case: what Kubernetes asks of them. *)
Definition lower_key (k : string) : Prop := string_map lower_byte k = k.

Lemma extra_header_inj k k' : lower_key k -> lower_key k' -> extra_header k = extra_header k' -> k = k'.
Proof.
  intros Hk Hk' Heq. rewrite <- Hk, <- Hk', <- !extraKey_of_header. by rewrite Heq.
Qed.

Lemma add_extras_other l (h : Header) k' :
  (forall k vv, (k, vv) ∈ l -> vv <> [] -> k' <> extra_header k) ->
  foldl add_extra h l !! k' = h !! k'.
Proof.
  revert h. induction l as [|[k vv] l IH]; intros h Hl; [done|]. cbn [foldl].
  rewrite IH by (intros; eapply Hl; [by right|done]).
  rewrite add_extra_lookup, decide_False; [done|]. intros [-> Hv]. by apply (Hl k vv); [left|..].
Qed.

Lemma add_extras_own l (h : Header) k vv :
  NoDup (fst <$> l) -> Forall (fun e => lower_key e.1) l ->
  (forall k vv, (k, vv) ∈ l -> Header_values h (extra_header k) = []) ->
  (k, vv) ∈ l -> vv <> [] -> foldl add_extra h l !! extra_header k = Some vv.
Proof.
  intros Hnd Hlow Hh Hin Hv. revert h Hh. induction l as [|[k0 vv0] l IH]; intros h Hh.
  { by apply elem_of_nil in Hin. }
  cbn [foldl]. apply Forall_cons in Hlow as [Hk0 Hlow]. cbn in Hnd, Hk0.
  apply list.NoDup_cons in Hnd as [Hni Hnd].
  assert (forall k' vv', (k', vv') ∈ l -> extra_header k' <> extra_header k0) as Hne.
  { intros k' vv' Hin' Heq. rewrite Forall_forall in Hlow. specialize (Hlow _ Hin').
    apply extra_header_inj in Heq; [|done..]. subst. apply Hni, list_elem_of_fmap. by exists (k0, vv'). }
  apply elem_of_cons in Hin as [[= -> ->]|Hin].
  - rewrite add_extras_other; [|intros k' vv' Hin' _ Heq; by apply (Hne k' vv')].
    rewrite add_extra_lookup, decide_True by done. by rewrite (Hh k0 vv0) by by left.
  - apply IH; [done..|]. intros k' vv' Hin'. unfold Header_values. rewrite add_extra_lookup, decide_False.
    + apply (Hh k' vv'). by right.
    + intros [Heq _]. by apply (Hne k' vv').
Qed.

(** Headers that say nothing of a user. *)
Record plain (h : Header) : Prop := {
  plain_user : Header_Get h ImpersonateUserHeader = "";
  plain_group : Header_values h ImpersonateGroupHeader = [];
  plain_extra : forall k, is_extra_header k = true -> h !! k = None
}.

(** A header name that does not speak of the user. *)
Definition ordinary (k : string) : bool :=
  negb (bool_decide (k = ImpersonateUserHeader)) && negb (bool_decide (k = ImpersonateGroupHeader)) &&
  negb (is_extra_header k).

Record carries (u : UserInfo) (h h' : Header) : Prop := {
  carries_user : h' !! ImpersonateUserHeader = Some [ui_Name u];
  carries_group : Header_values h' ImpersonateGroupHeader = ui_Groups u;
  carries_extra : forall k vs, is_extra_header k = true -> h' !! k = Some vs <->
    exists x, k = extra_header x /\ vs <> [] /\ ui_Extra u !! x = Some vs;
  carries_other : forall k, ordinary k = true -> h' !! k = h !! k
}.

Lemma WrapRequest_carries h u :
  plain h -> map_Forall (fun k _ => lower_key k) (ui_Extra u) -> carries u h (WrapRequest h (Some u)).
Proof.
  intros [Hu Hg He] Hlow. unfold WrapRequest. rewrite Hu. rewrite bool_decide_eq_true_2 by done. simpl.
  set (h1 := Header_Set h ImpersonateUserHeader (ui_Name u)).
  set (h2 := foldl add_group h1 (ui_Groups u)).
  assert (forall k, h2 !! k = if decide (k = ImpersonateGroupHeader /\ ui_Groups u <> [])
    then Some (ui_Groups u) else h1 !! k) as E2.
  { intros k. unfold h2, add_group. rewrite (Header_Add_all h1 ImpersonateGroupHeader), group_canonical.
    case_decide; [|done]. f_equal. unfold h1, Header_Set. rewrite user_canonical, Header_values_insert.
    rewrite decide_False by (apply not_eq_sym, headers_distinct). by rewrite Hg. }
  assert (forall k, k <> ImpersonateUserHeader -> h1 !! k = h !! k) as E1.
  { intros k Hk. unfold h1, Header_Set. rewrite user_canonical. by rewrite lookup_insert_ne. }
  assert (forall k, is_extra_header k = true -> h2 !! k = None) as E2e.
  { intros k Hk. rewrite E2, decide_False.
    - rewrite E1; [by apply He|]. intros ->. pose proof user_not_extra.
      unfold is_extra_header in Hk. congruence.
    - intros [-> _]. pose proof group_not_extra. unfold is_extra_header in Hk. congruence. }
  assert (forall k, is_extra_header k = false -> foldl add_extra h2 (Range (ui_Extra u)) !! k = h2 !! k)
    as E3.
  { intros k Hk. apply add_extras_other. intros x vv _ _ ->. by rewrite extra_header_is_extra in Hk. }
  assert (forall x vv, (x, vv) ∈ Range (ui_Extra u) -> vv <> [] ->
    foldl add_extra h2 (Range (ui_Extra u)) !! extra_header x = Some vv) as Hown.
  { intros x vv Hin Hv. apply add_extras_own; [| | |done..].
    - rewrite Range_perm. apply NoDup_fst_map_to_list.
    - apply Forall_forall. intros [y ys] Hy. rewrite elem_of_Range in Hy. by apply (Hlow y ys).
    - intros y ys _. unfold Header_values. by rewrite E2e by apply extra_header_is_extra. }
  split.
  - rewrite E3 by exact user_not_extra. rewrite E2, decide_False by (intros [? _]; by apply headers_distinct).
    unfold h1, Header_Set. rewrite user_canonical. apply lookup_insert_eq.
  - unfold Header_values. rewrite E3 by exact group_not_extra. rewrite E2. case_decide as Hd; [done|].
    destruct (ui_Groups u); [|by destruct Hd]. rewrite E1 by (apply not_eq_sym, headers_distinct). exact Hg.
  - intros k vs Hk. split.
    + intros Hl. destruct (decide (Exists (fun e => e.2 <> [] /\ k = extra_header e.1) (Range (ui_Extra u))))
        as [Hex|Hno].
      * apply Exists_exists in Hex as ([x vv] & Hin & Hv & ->). cbn in *.
        rewrite (Hown x vv Hin Hv) in Hl. injection Hl as ->. exists x. by rewrite elem_of_Range in Hin.
      * rewrite add_extras_other, E2e in Hl; [done|done|].
        intros x vv Hin Hv ->. apply Hno, Exists_exists. by exists (x, vv).
    + intros (x & -> & Hv & Hx). apply Hown; [by rewrite elem_of_Range|done].
  - intros k Hk. unfold ordinary in Hk. bool_to_prop. rewrite E3, E2, decide_False, E1 by naive_solver. done.
Qed.

(** ** What the filter reads *)

Definition extra_values (k : string) (r : ObjectReference) : list string :=
  match r with RefUserExtra k' v => if decide (k' = k) then [v] else [] | _ => [] end.

Lemma assume_all_extra gs (u : UserInfo) reqs k :
  default [] (ui_Extra (foldl (assume gs) u reqs) !! k) =
    default [] (ui_Extra u !! k) ++ (reqs ≫= extra_values k).
Proof.
  revert u. induction reqs as [|r reqs IH]; intros u; cbn [foldl mbind list_bind].
  - by rewrite app_nil_r.
  - rewrite IH. rewrite app_assoc. f_equal.
    destruct r as [ns n|n|g|k' v]; cbn; rewrite ?app_nil_r; try done.
    case_decide as Hd; [subst; by rewrite lookup_insert_eq|rewrite lookup_insert_ne by done].
    by rewrite app_nil_r.
Qed.

Lemma assume_extras gs (u : UserInfo) (l : list (string * list string)) :
  let u' := foldl (assume gs) u (l ≫= fun '(n, vs) =>
    if is_extra_header n then RefUserExtra (extraKey_of n) <$> vs else []) in
  ui_Name u' = ui_Name u /\ ui_Groups u' = ui_Groups u.
Proof.
  revert u. induction l as [|[n vs] l IH]; intros u; [done|]. cbn [mbind list_bind].
  rewrite foldl_app.
  assert (forall u, ui_Name (foldl (assume gs) u (RefUserExtra (extraKey_of n) <$> vs)) = ui_Name u /\
                    ui_Groups (foldl (assume gs) u (RefUserExtra (extraKey_of n) <$> vs)) = ui_Groups u) as Hvs.
  { clear. induction vs as [|v vs IH]; intros u; [done|]. cbn [fmap list_fmap foldl].
    destruct (IH (assume gs u (RefUserExtra (extraKey_of n) v))) as [-> ->]. done. }
  destruct (is_extra_header n); [|apply IH].
  destruct (IH (foldl (assume gs) u (RefUserExtra (extraKey_of n) <$> vs))) as [-> ->]. apply Hvs.
Qed.

Lemma assume_groups gs (u : UserInfo) l :
  foldl (assume gs) u (RefGroup <$> l) = MkUser (ui_Name u) (ui_Groups u ++ l) (ui_Extra u).
Proof.
  revert u. induction l as [|g l IH]; intros u; cbn [fmap list_fmap foldl].
  - rewrite app_nil_r. by destruct u.
  - rewrite IH. cbn. by rewrite <- app_assoc.
Qed.

(** The values collected under the one key that passes a test. *)
Lemma bind_unique (p : string -> bool) (l : list (string * list string)) k0 :
  NoDup (fst <$> l) -> (forall k vs, (k, vs) ∈ l -> p k = true -> k = k0) ->
  (l ≫= fun '(k, vs) => if p k then vs else []) =
    if p k0 then default [] (list_to_map (M := gmap string _) l !! k0) else [].
Proof.
  induction l as [|[k vs] l IH]; intros Hnd Hp; cbn [mbind list_bind].
  - by destruct (p k0).
  - cbn in Hnd. apply list.NoDup_cons in Hnd as [Hni Hnd].
    rewrite IH; [|done|intros k' vs' Hin; apply (Hp k' vs'); by right]. cbn.
    destruct (decide (k = k0)) as [->|Hne].
    + rewrite lookup_insert_eq. rewrite (not_elem_of_list_to_map_1 l k0) by done.
      destruct (p k0); cbn; by rewrite ?app_nil_r.
    + rewrite lookup_insert_ne by done. destruct (p k) eqn:E; [|done].
      destruct Hne. apply (Hp k vs); [by left|done].
Qed.

Lemma list_to_map_Range {V} (m : gmap string V) : list_to_map (Range m) = m.
Proof.
  apply map_eq. intros k. apply option_eq. intros v.
  rewrite <- elem_of_list_to_map, elem_of_Range; [done|].
  rewrite Range_perm. apply NoDup_fst_map_to_list.
Qed.

Lemma extra_requests_values (u : UserInfo) h h' k :
  carries u h h' -> map_Forall (fun k _ => lower_key k) (ui_Extra u) ->
  (extra_requests h' ≫= extra_values k) = default [] (ui_Extra u !! k).
Proof.
  intros Hc Hlow. set (p := fun n => is_extra_header n && bool_decide (extraKey_of n = k)).
  assert ((extra_requests h' ≫= extra_values k) =
    Range h' ≫= fun '(n, vs) => if p n then vs else []) as ->.
  { unfold extra_requests. generalize (Range h'). intros l. induction l as [|[n vs] l IH]; [done|].
    cbn [mbind list_bind]. rewrite bind_app, IH. f_equal. unfold p. destruct (is_extra_header n); [|done].
    cbn [andb]. clear. case_bool_decide as Hd.
    - induction vs as [|v vs IH]; [done|]. cbn. rewrite decide_True by done. cbn. by f_equal.
    - induction vs as [|v vs IH]; [done|]. cbn. by rewrite decide_False. }
  assert (forall n vs, (n, vs) ∈ Range h' -> p n = true -> n = extra_header k) as Hp.
  { intros n vs Hin [He Hk]%andb_true_iff. apply bool_decide_eq_true in Hk. rewrite elem_of_Range in Hin.
    apply (carries_extra _ _ _ Hc) in Hin as (x & -> & _ & Hx); [|done].
    rewrite extraKey_of_header in Hk. rewrite (Hlow x vs Hx) in Hk. by subst. }
  rewrite (bind_unique p _ (extra_header k)); [|rewrite Range_perm; apply NoDup_fst_map_to_list|done].
  rewrite list_to_map_Range.
  destruct (ui_Extra u !! k) as [vs|] eqn:Hk; cbn.
  - pose proof (Hlow k vs Hk) as Hlk. cbn in Hlk. unfold p.
    rewrite extra_header_is_extra, extraKey_of_header, Hlk, bool_decide_eq_true_2 by done. cbn.
    destruct (h' !! extra_header k) as [vs'|] eqn:Hh.
    + apply (carries_extra _ _ _ Hc) in Hh as (x & Hx & _ & Hxe); [|apply extra_header_is_extra].
      apply extra_header_inj in Hx; [|done|by apply (Hlow x vs')]. subst. cbn. congruence.
    + destruct vs as [|v vs]; [done|].
      assert (h' !! extra_header k = Some (v :: vs)) as Hsome; [|congruence].
      apply (carries_extra _ _ _ Hc); [apply extra_header_is_extra|]. by exists k.
  - destruct (p (extra_header k)) eqn:Hpk; [|done].
    apply andb_true_iff in Hpk as [_ Hpk]. apply bool_decide_eq_true in Hpk.
    rewrite extraKey_of_header in Hpk.
    destruct (h' !! extra_header k) as [vs'|] eqn:Hh; [|done].
    apply (carries_extra _ _ _ Hc) in Hh as (x & Hx & _ & Hxe); [|apply extra_header_is_extra].
    apply extra_header_inj in Hx; [|done|by apply (Hlow x vs')]. congruence.
Qed.

(** ** The filter *)

(** The keys of a header map read from a request are canonical. *)
Definition canonical_keys (h : Header) : Prop := map_Forall (fun k _ => CanonicalHeaderKey k = k) h.

Lemma clear_headers_lookup h k :
  canonical_keys h -> clear_headers h !! k = if ordinary k then h !! k else None.
Proof.
  intros Hcan. unfold clear_headers. set (h1 := Header_Del _ ImpersonateGroupHeader).
  assert (forall k, h1 !! k = if decide (k = ImpersonateUserHeader \/ k = ImpersonateGroupHeader)
    then None else h !! k) as Hh1.
  { intros k'. unfold h1, Header_Del. rewrite user_canonical, group_canonical.
    case_decide as Hd; [|rewrite !lookup_delete_ne; naive_solver].
    destruct (decide (ImpersonateGroupHeader = k')) as [<-|]; [apply lookup_delete_eq|].
    rewrite lookup_delete_ne by done. destruct Hd as [->|]; [apply lookup_delete_eq|congruence]. }
  assert (forall e, e ∈ Range h1 -> CanonicalHeaderKey e.1 = e.1) as Hc1.
  { intros [n vs] Hin. rewrite elem_of_Range, Hh1 in Hin. case_decide; [done|]. by apply (Hcan n vs). }
  rewrite Header_Del_all, Hh1. unfold ordinary.
  destruct (is_extra_header k) eqn:He; rewrite ?andb_false_r, ?andb_true_r.
  - case_decide as Hex; [done|]. case_decide as Hd; [done|].
    destruct (h !! k) as [vs|] eqn:Hk; [|done]. exfalso. apply Hex, Exists_exists. exists (k, vs).
    assert ((k, vs) ∈ Range h1) as Hin by (rewrite elem_of_Range, Hh1, decide_False; done).
    split; [done|]. split; [done|]. exact (Hc1 _ Hin).
  - rewrite decide_False.
    + repeat case_bool_decide; subst; rewrite ?decide_True by auto; try done.
      rewrite decide_False by naive_solver. done.
    + intros Hex. apply Exists_exists in Hex as ([n vs] & Hin & Hn & Hc). rewrite (Hc1 _ Hin) in Hc.
      change (n = k) in Hc. change (is_extra_header n = true) in Hn. congruence.
Qed.

Lemma plain_no_requests h : buildImpersonationRequests h = Some [] -> plain h.
Proof.
  unfold buildImpersonationRequests. destruct (_ && _) eqn:E; [done|]. intros [= Hnil].
  apply app_eq_nil in Hnil as [Hu Hrest]. apply app_eq_nil in Hrest as [Hg _].
  assert (Header_Get h ImpersonateUserHeader = "") as Hempty.
  { unfold user_requests in Hu. case_decide; [done|]. by destruct (SplitUsername _) as [[? ?]|]. }
  rewrite Hempty, (bool_decide_eq_true_2 ("" = "")) in E by done. cbn [negb] in E.
  rewrite andb_true_r in E.
  apply orb_false_iff in E as [_ Hex]. split; [done|by apply fmap_nil_inv in Hg|].
  intros k Hk. destruct (h !! k) as [vs|] eqn:Hl; [|done].
  rewrite <- not_true_iff_false in Hex. destruct Hex. apply existsb_exists. exists (k, vs).
  split; [|done]. apply list_elem_of_In. by rewrite elem_of_Range.
Qed.

Lemma assume_all_spec Authorize requestor gs (u : UserInfo) reqs u' :
  assume_all Authorize requestor gs u reqs = Some u' <->
  u' = foldl (assume gs) u reqs /\ Forall (fun r => Authorize requestor (acting_as r) = true) reqs.
Proof.
  revert u. induction reqs as [|r reqs IH]; intros u; cbn [assume_all foldl].
  - split; [intros [= <-]; by split|intros [-> _]; done].
  - destruct (Authorize requestor (acting_as r)) eqn:E.
    + rewrite IH, Forall_cons. naive_solver.
    + split; [done|]. intros [_ Hall]. apply Forall_cons in Hall as [? _]. congruence.
Qed.

(** The user the requests of a header map describe. *)
Lemma requested_user h reqs gs u :
  buildImpersonationRequests h = Some reqs -> Header_Get h ImpersonateUserHeader <> "" ->
  gs = negb (bool_decide (Header_values h ImpersonateGroupHeader = [])) ->
  u = foldl (assume gs) (MkUser "" [] ∅) reqs ->
  ui_Name u = Header_Get h ImpersonateUserHeader /\
  ui_Groups u =
    match Header_values h ImpersonateGroupHeader, SplitUsername (Header_Get h ImpersonateUserHeader) with
    | [], Some (ns, _) => MakeGroupNames ns
    | groups, _ => groups
    end /\
  forall k, default [] (ui_Extra u !! k) = extra_requests h ≫= extra_values k.
Proof.
  unfold buildImpersonationRequests. destruct (_ && _); [done|]. intros [= <-] Hne -> ->.
  set (gs := negb _).
  assert (forall (l : list string) k, (RefGroup <$> l) ≫= extra_values k = []) as Hgroups.
  { intros l k. by induction l. }
  split_and!.
  - rewrite !foldl_app. unfold extra_requests. rewrite (proj1 (assume_extras gs _ _)), assume_groups. cbn.
    unfold user_requests. rewrite decide_False by done.
    destruct (SplitUsername _) as [[ns n]|] eqn:Es; cbn; [by apply split_make|done].
  - rewrite !foldl_app. unfold extra_requests. rewrite (proj2 (assume_extras gs _ _)), assume_groups. cbn.
    unfold user_requests. rewrite decide_False by done.
    destruct (SplitUsername _) as [[ns n]|] eqn:Es; cbn; unfold gs.
    + destruct (Header_values h ImpersonateGroupHeader) as [|g gl]; cbn; [by rewrite app_nil_r|done].
    + by destruct (Header_values h ImpersonateGroupHeader).
  - intros k. rewrite assume_all_extra. cbn. rewrite lookup_empty. cbn.
    rewrite !bind_app, Hgroups. cbn. unfold user_requests. rewrite decide_False by done.
    by destruct (SplitUsername _) as [[ns n]|].
Qed.

Lemma wellknown_groups (u : UserInfo) g :
  g ∈ ui_Groups (add_wellknown_group u) ->
  g ∈ ui_Groups u \/ g = AllAuthenticated \/ g = AllUnauthenticated.
Proof.
  unfold add_wellknown_group. cbn. destruct (negb _); destruct (existsb _ _); auto;
    intros [?|Hg]%elem_of_app; auto; apply list_elem_of_singleton in Hg; auto.
Qed.

(** Without requests the header map says nothing of a user, and the other way
    round. *)
Lemma requests_user h r reqs :
  buildImpersonationRequests h = Some (r :: reqs) -> Header_Get h ImpersonateUserHeader <> "".
Proof.
  intros Hb Hempty. unfold buildImpersonationRequests in Hb.
  rewrite Hempty, (bool_decide_eq_true_2 ("" = "")) in Hb by done. cbn [negb] in Hb.
  rewrite andb_true_r in Hb. destruct (_ || _) eqn:E; [done|]. apply orb_false_iff in E as [Hg He].
  apply negb_false_iff, bool_decide_eq_true in Hg. injection Hb as Hb.
  unfold user_requests in Hb. rewrite Hempty, Hg in Hb. cbn in Hb.
  assert (extra_requests h = []) as Hx; [|by rewrite Hx in Hb].
  unfold extra_requests. revert He. generalize (Range h). intros l.
  induction l as [|[n vs] l IH]; [done|]. cbn. intros [Hn Hl]%orb_false_iff. by rewrite Hn, IH.
Qed.

(** What the filter does to the headers of a request it lets pass. *)
Lemma filter_headers Authorize requestor h u h' :
  canonical_keys h -> WithNoLoggingImpersonation Authorize requestor h = Next u h' ->
  plain h' /\ forall k, ordinary k = true -> h' !! k = h !! k.
Proof.
  intros Hcan. unfold WithNoLoggingImpersonation.
  destruct (buildImpersonationRequests h) as [[|r reqs]|] eqn:Hb; [| |done].
  { intros [= <- <-]. split; [by apply plain_no_requests|done]. }
  destruct requestor as [req|]; [|done]. destruct (assume_all _ _ _ _ _) as [new|]; [|done].
  intros [= <- <-].
  assert (forall k, ordinary k = false -> clear_headers h !! k = None) as Hgone.
  { intros k Hk. by rewrite clear_headers_lookup, Hk. }
  split; [split|intros k Hk; by rewrite clear_headers_lookup, Hk].
  - unfold Header_Get, Header_values. rewrite user_canonical, Hgone; [done|].
    unfold ordinary. by rewrite bool_decide_eq_true_2.
  - unfold Header_values. rewrite Hgone; [done|]. unfold ordinary.
    rewrite (bool_decide_eq_true_2 (ImpersonateGroupHeader = ImpersonateGroupHeader)) by done.
    by rewrite andb_false_r.
  - intros k Hk. apply Hgone. unfold ordinary. by rewrite Hk, andb_false_r.
Qed.

(** C15: A request leaves the impersonation filter either as it came, with the
    user that was authenticated and no impersonation header, or as a user of
    whom every part was authorised: the name asked for, every group and every
    extra value, apart from the well-known groups and the groups that belong
    to a service account.  In both cases no impersonation header is left and
    no other header is changed. *)
Theorem impersonation_authorized Authorize requestor h u h' :
  canonical_keys h -> WithNoLoggingImpersonation Authorize requestor h = Next u h' ->
  plain h' /\ (forall k, ordinary k = true -> h' !! k = h !! k) /\
  (u = requestor \/
   exists req new, requestor = Some req /\ u = Some new /\
     ui_Name new = Header_Get h ImpersonateUserHeader /\
     Forall (fun r => Authorize req (acting_as r) = true) (user_requests h) /\
     (forall g, g ∈ ui_Groups new ->
        Authorize req (acting_as (RefGroup g)) = true \/ g = AllAuthenticated \/ g = AllUnauthenticated \/
        exists ns n, SplitUsername (ui_Name new) = Some (ns, n) /\ g ∈ MakeGroupNames ns) /\
     (forall k v, v ∈ default [] (ui_Extra new !! k) ->
        Authorize req (acting_as (RefUserExtra k v)) = true)).
Proof.
  intros Hcan Hnext. destruct (filter_headers _ _ _ _ _ Hcan Hnext) as [Hplain Hother].
  split_and!; [done..|]. revert Hnext. unfold WithNoLoggingImpersonation.
  destruct (buildImpersonationRequests h) as [[|r reqs]|] eqn:Hb; [intros [= <- <-]; by left| |done].
  destruct requestor as [req|]; [|done]. set (gs := negb _).
  destruct (assume_all _ _ _ _ _) as [new|] eqn:Ha; [|done]. intros [= <- <-].
  apply assume_all_spec in Ha as [Hnew Hauth]. pose proof (requests_user _ _ _ Hb) as Hne.
  destruct (requested_user h _ gs new Hb Hne eq_refl Hnew) as (Hname & Hgroups & Hextra).
  assert (r :: reqs = user_requests h ++ (RefGroup <$> Header_values h ImpersonateGroupHeader) ++
    extra_requests h) as Hreqs.
  { unfold buildImpersonationRequests in Hb. by destruct (_ && _); simplify_eq. }
  rewrite Hreqs, !Forall_app in Hauth. destruct Hauth as (Hau & Hag & Hae).
  right. exists req, (add_wellknown_group new). split_and!; [done..| |].
  - intros g Hg. apply wellknown_groups in Hg as [Hg|[?|?]]; [|auto..].
    rewrite Hgroups in Hg. cbn [ui_Name add_wellknown_group]. rewrite Hname.
    destruct (Header_values h ImpersonateGroupHeader) as [|g0 gl] eqn:Eg.
    + destruct (SplitUsername _) as [[ns n]|]; [|by apply elem_of_nil in Hg].
        right. right. right. by exists ns, n.
    + left. rewrite Forall_fmap, Forall_forall in Hag. by apply (Hag g).
  - intros k v. change (ui_Extra (add_wellknown_group new)) with (ui_Extra new). rewrite Hextra.
    intros Hv. apply list_elem_of_bind in Hv as (x & Hx & Hin). destruct x as [| | |k' v']; cbn in Hx;
        try by apply elem_of_nil in Hx.
    case_decide; [|by apply elem_of_nil in Hx]. apply list_elem_of_singleton in Hx. subst.
    rewrite Forall_forall in Hae. by apply Hae.
Qed.

(** A user as authentication leaves it: named, with one of the well-known
    groups, and with extra keys in lower case. *)
Record complete (u : UserInfo) : Prop := {
  complete_name : ui_Name u <> "";
  complete_extra : map_Forall (fun k _ => lower_key k) (ui_Extra u);
  complete_groups : if decide (ui_Name u = Anonymous) then AllUnauthenticated ∈ ui_Groups u
    else AllAuthenticated ∈ ui_Groups u \/ AllUnauthenticated ∈ ui_Groups u
}.

Lemma wellknown_fixed u :
  (if decide (ui_Name u = Anonymous) then AllUnauthenticated ∈ ui_Groups u
   else AllAuthenticated ∈ ui_Groups u \/ AllUnauthenticated ∈ ui_Groups u) ->
  add_wellknown_group u = u.
Proof.
  intros Hg. unfold add_wellknown_group. destruct u as [name groups extra]. cbn in *. f_equal.
  destruct (decide (name = Anonymous)) as [->|Hne].
  - rewrite bool_decide_eq_true_2 by done. cbn.
    rewrite (proj2 (existsb_exists _ _)); [done|]. exists AllUnauthenticated.
    split; [by apply list_elem_of_In|]. by apply bool_decide_eq_true.
  - rewrite bool_decide_eq_false_2 by done. cbn. rewrite (proj2 (existsb_exists _ _)); [done|].
    destruct Hg as [Hg|Hg]; apply list_elem_of_In in Hg; (eexists; split; [exact Hg|]).
    + by rewrite bool_decide_eq_true_2.
    + rewrite (bool_decide_eq_true_2 (AllUnauthenticated = AllUnauthenticated)) by done. apply orb_true_r.
Qed.

Lemma ordinary_false k :
  ordinary k = false -> k = ImpersonateUserHeader \/ k = ImpersonateGroupHeader \/ is_extra_header k = true.
Proof.
  unfold ordinary. repeat case_bool_decide; cbn; auto. intros He. apply negb_false_iff in He. auto.
Qed.

Lemma wrapped_canonical h u h' :
  canonical_keys h -> carries u h h' -> canonical_keys h'.
Proof.
  intros Hcan Hc k vs Hk. cbn. destruct (ordinary k) eqn:Ho.
  - rewrite (carries_other _ _ _ Hc) in Hk by done. by apply (Hcan k vs).
  - apply ordinary_false in Ho as [->|[->|Ho]]; [apply user_canonical|apply group_canonical|].
    apply (carries_extra _ _ _ Hc) in Hk as (x & -> & _); [|done]. apply CanonicalHeaderKey_idem.
Qed.

Lemma filtered_canonical h h' :
  canonical_keys h -> plain h' -> (forall k, ordinary k = true -> h' !! k = h !! k) -> canonical_keys h'.
Proof.
  intros Hcan Hplain Hother k vs Hk. cbn.
  destruct (ordinary k) eqn:Ho; [rewrite Hother in Hk by done; by apply (Hcan k vs)|].
  apply ordinary_false in Ho as [->|[->|Ho]]; [apply user_canonical|apply group_canonical|].
  by rewrite (plain_extra _ Hplain k Ho) in Hk.
Qed.

(** What the transport adds to a request without impersonation headers is read
    back by the filter. *)
Lemma read_back gateway h' u :
  plain h' -> canonical_keys h' -> complete u ->
  exists u' h'',
    WithNoLoggingImpersonation (fun _ _ => true) (Some gateway) (WrapRequest h' (Some u)) =
      Next (Some u') h'' /\
    ui_Name u' = ui_Name u /\ ui_Groups u' = ui_Groups u /\
    (forall k, default [] (ui_Extra u' !! k) = default [] (ui_Extra u !! k)) /\
    (forall k, h'' !! k = if ordinary k then h' !! k else None).
Proof.
  intros Hplain Hcan' Hu. pose proof (WrapRequest_carries h' u Hplain (complete_extra _ Hu)) as Hc.
  set (hw := WrapRequest h' (Some u)) in *.
  pose proof (wrapped_canonical _ _ _ Hcan' Hc) as Hcanw.
  assert (Header_Get hw ImpersonateUserHeader = ui_Name u) as Huser.
  { unfold Header_Get, Header_values. by rewrite user_canonical, (carries_user _ _ _ Hc). }
  assert (exists r reqs, buildImpersonationRequests hw = Some (r :: reqs)) as (r & reqs & Hb).
  { unfold buildImpersonationRequests. rewrite Huser, (bool_decide_eq_false_2 (ui_Name u = "")) by apply (complete_name _ Hu).
    cbn [negb]. rewrite andb_false_r. unfold user_requests. rewrite Huser, decide_False by apply (complete_name _ Hu).
    destruct (SplitUsername (ui_Name u)) as [[ns n]|]; cbn; eauto. }
  unfold WithNoLoggingImpersonation. rewrite Hb.
  set (gs := negb _).
  assert (assume_all (fun _ _ => true) gateway gs (MkUser "" [] ∅) (r :: reqs) =
    Some (foldl (assume gs) (MkUser "" [] ∅) (r :: reqs))) as ->.
  { apply assume_all_spec. split; [done|]. by apply Forall_true. }
  set (u' := foldl _ _ _).
  destruct (requested_user hw (r :: reqs) gs u' Hb) as (Hn & Hg & He); [|done..|].
  { rewrite Huser. apply (complete_name _ Hu). }
  rewrite Huser in Hn, Hg. rewrite (carries_group _ _ _ Hc) in Hg.
  assert (ui_Groups u' = ui_Groups u) as Hgroups.
  { rewrite Hg. destruct (ui_Groups u) as [|g gl] eqn:Eg; [|done]. exfalso.
    pose proof (complete_groups _ Hu) as Hcg. rewrite Eg in Hcg. revert Hcg. case_decide; set_solver. }
  exists u', (clear_headers hw). split_and!; [|done..| |].
  - rewrite wellknown_fixed; [done|]. rewrite Hn, Hgroups. apply (complete_groups _ Hu).
  - intros k. rewrite He. exact (extra_requests_values u h' hw k Hc (complete_extra _ Hu)).
  - intros k. rewrite clear_headers_lookup by done. destruct (ordinary k) eqn:Ho; [|done].
    by rewrite (carries_other _ _ _ Hc).
Qed.

(** End to end, the upstream acts for the user the gateway decided on:
    what the transport adds to a request that passed the filter is read back
    by the same filter of the upstream, when that trusts the gateway, as the
    same name, the same groups in order and the same extra values; of the
    other headers of the client none is lost or changed, and whatever the
    client itself sent about the user is gone. *)
Theorem upstream_sees_user Authorize requestor gateway h u h' :
  canonical_keys h -> WithNoLoggingImpersonation Authorize requestor h = Next (Some u) h' -> complete u ->
  exists u' h'',
    WithNoLoggingImpersonation (fun _ _ => true) (Some gateway) (WrapRequest h' (Some u)) =
      Next (Some u') h'' /\
    ui_Name u' = ui_Name u /\ ui_Groups u' = ui_Groups u /\
    (forall k, default [] (ui_Extra u' !! k) = default [] (ui_Extra u !! k)) /\
    (forall k, h'' !! k = if ordinary k then h !! k else None).
Proof.
  intros Hcan Hnext Hu. destruct (filter_headers _ _ _ _ _ Hcan Hnext) as [Hplain Hother].
  pose proof (filtered_canonical _ _ Hcan Hplain Hother) as Hcan'.
  destruct (read_back gateway h' u Hplain Hcan' Hu) as (u' & h'' & Hn & Hname & Hgroups & Hextra & Hh).
  exists u', h''. split_and!; [done..|]. intros k. rewrite Hh. destruct (ordinary k) eqn:Ho; [by apply Hother|done].
Qed.

Lemma lower_escape_lower k :
  string_map lower_byte (headerKeyEscape (string_map lower_byte k)) =
  string_map lower_byte (headerKeyEscape k).
Proof.
  induction k as [|a k IH]; [done|]. cbn [headerKeyEscape string_map]. rewrite !string_map_app, IH.
  f_equal. apply (bool_decide_eq_true_1 _). revert a. apply byte_cases. vm_compute. reflexivity.
Qed.

(** Two extra keys are sent in the same header exactly when they differ in
    nothing but the case of ASCII letters; bytes that are not legal in a
    header name, non-ASCII ones included, survive. *)
Theorem extra_header_collision k k' :
  extra_header k = extra_header k' <-> string_map lower_byte k = string_map lower_byte k'.
Proof.
  split; intros Heq.
  - rewrite <- !extraKey_of_header. by rewrite Heq.
  - rewrite !extra_header_eq. f_equal.
    rewrite <- (canonical_case_lower (headerKeyEscape k)), <- (canonical_case_lower (headerKeyEscape k')).
    rewrite <- (lower_escape_lower k), <- (lower_escape_lower k'). by rewrite Heq.
Qed.
End impersonation_lemmas.

(** * Witnesses *)

Module ImpersonationExample.
#[refine] Definition names : ImpersonationNames := {|
  ImpersonateUserHeader := "Impersonate-User";
  ImpersonateGroupHeader := "Impersonate-Group";
  ImpersonateUserExtraHeaderPrefix := "Impersonate-Extra-";
  Anonymous := "system:anonymous";
  AllAuthenticated := "system:authenticated";
  AllUnauthenticated := "system:unauthenticated"
|}.
Proof. all: try (vm_compute; reflexivity). discriminate. Defined.

Fixpoint cut (s : string) : option (string * string) :=
  match s with
  | EmptyString => None
  | String a s' =>
      if decide (a = ":"%char) then Some ("", s')
      else match cut s' with Some (x, y) => Some (String a x, y) | None => None end
  end.

Lemma cut_spec s x y : cut s = Some (x, y) -> x +:+ ":" +:+ y = s.
Proof.
  revert x. induction s as [|a s IH]; intros x; [done|]. cbn [cut]. case_decide as Ha.
  - intros [= <- <-]. by subst.
  - destruct (cut s) as [[x' y']|]; [|done]. intros [= <- <-]. unfold String.app in *. cbn.
    by rewrite (IH x').
Qed.

Definition sa_prefix : string := "system:serviceaccount:".

#[refine] Definition accounts : ServiceAccountNames := {|
  MakeUsername ns n := sa_prefix +:+ ns +:+ ":" +:+ n;
  SplitUsername u := if HasPrefix u sa_prefix then cut (drop_bytes sa_prefix u) else None;
  MakeGroupNames ns := ["system:serviceaccounts"; "system:serviceaccounts:" +:+ ns]
|}.
Proof.
  intros u ns n. destruct (HasPrefix u sa_prefix) eqn:E; [|done]. apply HasPrefix_spec in E as [t ->].
  rewrite drop_bytes_app. intros Hc. by rewrite (cut_spec _ _ _ Hc).
Defined.

#[local] Existing Instance names.
#[local] Existing Instance accounts.
#[local] Existing Instance ascii_only_lower.
#[local] Existing Instance sorted_range.

(** A client that acts as a service account, with one group and a header of
    its own. *)
Definition headers : gmap string (list string) :=
  {[ "Impersonate-User" := ["system:serviceaccount:ns1:sa1"];
     "Impersonate-Extra-Acme.com%2fteam" := ["x"];
     "Accept" := ["json"] ]}.

Definition admin : UserInfo := MkUser "admin" ["system:masters"; "system:authenticated"] ∅.
Definition gateway_user : UserInfo := MkUser "gateway" ["system:authenticated"] ∅.

Definition passed : option UserInfo * gmap string (list string) :=
  match WithNoLoggingImpersonation (fun u _ => bool_decide (ui_Name u = "admin")) (Some admin) headers with
  | Next u h => (u, h)
  | _ => (None, ∅)
  end.

Definition acted : UserInfo := default gateway_user (fst passed).

Lemma headers_canonical : canonical_keys headers.
Proof. refine (bool_decide_unpack _ _). vm_compute. exact I. Qed.

Example acted_is :
  acted = MkUser "system:serviceaccount:ns1:sa1"
    ["system:serviceaccounts"; "system:serviceaccounts:ns1"; "system:authenticated"]
    {[ "acme.com/team" := ["x"] ]}.
Proof. vm_compute. reflexivity. Qed.
End ImpersonationExample.

#[local] Existing Instance ImpersonationExample.names.
#[local] Existing Instance ImpersonationExample.accounts.
#[local] Existing Instance ascii_only_lower.
#[local] Existing Instance sorted_range.

Lemma impersonation_authorized_witness :
  WithNoLoggingImpersonation (fun u _ => bool_decide (ui_Name u = "admin"))
    (Some ImpersonationExample.admin) ImpersonationExample.headers =
    Next (Some ImpersonationExample.acted) (snd ImpersonationExample.passed) /\
  plain (snd ImpersonationExample.passed).
Proof.
  assert (WithNoLoggingImpersonation (fun u _ => bool_decide (ui_Name u = "admin"))
    (Some ImpersonationExample.admin) ImpersonationExample.headers =
    Next (Some ImpersonationExample.acted) (snd ImpersonationExample.passed)) as Hnext
    by (vm_compute; reflexivity).
  split; [exact Hnext|].
  exact (proj1 (impersonation_authorized _ _ _ _ _ ImpersonationExample.headers_canonical Hnext)).
Defined.

Lemma upstream_sees_user_witness :
  exists u' h'',
    WithNoLoggingImpersonation (fun _ _ => true) (Some ImpersonationExample.gateway_user)
      (WrapRequest (snd ImpersonationExample.passed) (Some ImpersonationExample.acted)) = Next (Some u') h'' /\
    ui_Name u' = "system:serviceaccount:ns1:sa1".
Proof.
  destruct (upstream_sees_user (fun u _ => bool_decide (ui_Name u = "admin"))
    (Some ImpersonationExample.admin) ImpersonationExample.gateway_user ImpersonationExample.headers
    ImpersonationExample.acted (snd ImpersonationExample.passed)) as (u' & h'' & Hnext & Hn & _).
  - exact ImpersonationExample.headers_canonical.
  - vm_compute. reflexivity.
  - rewrite ImpersonationExample.acted_is. split.
    + discriminate.
    + refine (bool_decide_unpack _ _). vm_compute. exact I.
    + rewrite decide_False by discriminate. left. refine (bool_decide_unpack _ _). vm_compute. exact I.
  - exists u', h''. split; [exact Hnext|]. rewrite Hn, ImpersonationExample.acted_is. reflexivity.
Defined.
