(* ===== verification/Clusters.v ===== *)
(** Upstream clusters as the proxy sees them ([pkg/clusters]): the health and
    readiness of endpoints ([endpoint.go]), the state of a cluster, its
    synchronisation with the UpstreamCluster object, matching a request and
    picking an endpoint ([clusterinfo.go]), and the manager of all clusters
    ([manager.go]).

    A pointer to an endpoint is its [ei_id]; transports are not kept, and of
    contexts and goroutines what the flags [ei_checking] and [ci_stopped]
    say.  The limiter of a cluster, feature gates, certificates and
    the creation of transports are parameters. *)
From stdpp Require Import base list strings gmap sets.
From Stdlib Require Import ZArith Lia Ascii.
From S2P Require Import Prelude ApiTypes Matching Admission.

Local Open Scope Z_scope.
Local Open Scope go_scope.

(** * Parameters *)

(** The interface of [pkg/flowcontrols], as a cluster uses it. *)
Class UpstreamLimiter := {
  ul_state : Type;
  ul_flowControl : Type;
  ul_New : string -> ul_state;
  ul_ResetLimiter : ul_state -> string -> ul_state;
  ul_Sync : ul_state -> FlowControl -> ul_state;
  ul_GetOrDefault : ul_state -> string -> ul_flowControl
}.

(** k8s.io/component-base/featuregate: setting gates from a string can fail. *)
Class FeatureGates := {
  gates : Type;
  gates_default : gates;
  gates_Set : gates -> string -> string + gates;
  gates_Enabled : gates -> string -> bool;
  gates_KnownFeatures : gates -> list string
}.

(** Certificates of the standard library and client-go. *)
Class Certificates := {
  CertPool : Type;
  Certificate : Type;
  ParsePool : string -> string + CertPool;
  KeyPair : string -> string -> string + Certificate
}.

(** * Endpoints *)

Record endpointStatus := MkStatus {
  es_Healthy : bool;
  es_Reason : string;
  es_Message : string;
  es_Disabled : bool;
  es_UnhealthyCount : Z
}.

Definition endpointStatus_IsReady (s : endpointStatus) : bool := negb (es_Disabled s) && es_Healthy s.

Definition endpointStatus_SetStatus (s : endpointStatus) (healthy : bool) (reason message : string)
    : endpointStatus :=
  MkStatus healthy reason message (es_Disabled s) (if healthy then 0 else es_UnhealthyCount s + 1).

(** [clusters.EndpointInfo]. *)
Record Endpoint_Info := MkEndpoint {
  ei_id : Z;
  ei_Endpoint : string;
  ei_status : endpointStatus;
  ei_checking : bool
}.

Definition with_status (e : Endpoint_Info) (s : endpointStatus) : Endpoint_Info :=
  MkEndpoint (ei_id e) (ei_Endpoint e) s (ei_checking e).

Definition Endpoint_Info_SetDisabled (e : Endpoint_Info) (disabled : bool) : Endpoint_Info :=
  let s := ei_status e in
  with_status e (MkStatus (es_Healthy s) (es_Reason s) (es_Message s) disabled (es_UnhealthyCount s)).

Definition UpdateStatus (e : Endpoint_Info) (healthy : bool) (reason message : string) : Endpoint_Info :=
  with_status e (endpointStatus_SetStatus (ei_status e) healthy reason message).

Definition Endpoint_Info_IsReady (e : Endpoint_Info) : bool := endpointStatus_IsReady (ei_status e).

(** [EnsureGatewayHealthCheck]: checks run for an endpoint that is enabled. *)
Definition EnsureGatewayHealthCheck (healthCheckFun : bool) (e : Endpoint_Info) : Endpoint_Info :=
  if healthCheckFun then
    MkEndpoint (ei_id e) (ei_Endpoint e) (ei_status e) (negb (es_Disabled (ei_status e)))
  else e.

(** What [UnreadyReason] says. *)
Inductive unready := NoReason | IsDisabled (endpoint : string) | IsUnhealthy (endpoint reason message : string).

Definition UnreadyReason (e : Endpoint_Info) : unready :=
  if es_Disabled (ei_status e) then IsDisabled (ei_Endpoint e)
  else if negb (es_Healthy (ei_status e)) then
    IsUnhealthy (ei_Endpoint e) (es_Reason (ei_status e)) (es_Message (ei_status e))
  else NoReason.

(** * Logging *)

Definition isLogEnabled (upstream policy : LogMode) : bool :=
  if bool_decide (upstream = LogOff) || bool_decide (policy = LogOff) then false
  else bool_decide (upstream = LogOn) || bool_decide (policy = LogOn).

Section clusters.
Context `{UpstreamLimiter} `{FeatureGates} `{Certificates} `{UnicodeLower} `{MapRange}.

(** * Feature gates *)

Definition GlobalRateLimiter : string := "GlobalRateLimiter".
Definition RemoteFlowControls : string := "remote".
Definition LocalFlowControls : string := "local".

(** [strings.SplitN(s, "=", 2)[0]] *)
Fixpoint before_equals (s : string) : string :=
  match s with
  | EmptyString => EmptyString
  | String a s' => if decide (a = "="%char) then EmptyString else String a (before_equals s')
  end.

Definition IsDefault (fg : gates) : bool :=
  let inputFeatures := gates_KnownFeatures fg in
  let defaultKnownFeatures := gates_KnownFeatures gates_default in
  bool_decide (inputFeatures = defaultKnownFeatures) &&
  forallb (fun desc => let key := before_equals desc in
             Bool.eqb (gates_Enabled gates_default key) (gates_Enabled fg key)) defaultKnownFeatures.

Definition getFlowControlType (global : string) (fg : gates) : string :=
  if bool_decide (global = RemoteFlowControls) && gates_Enabled fg GlobalRateLimiter then RemoteFlowControls
  else LocalFlowControls.

(** * Clusters *)

Record secureServingConfig := MkServingConfig {
  sc_secureServing : SecureServing;
  sc_clientCA : option CertPool;
  sc_certs : list Certificate;
  sc_verifyOptions : option CertPool
}.

Record ClusterInfo := MkClusterInfo {
  ci_Cluster : string;
  ci_globalRateLimiter : string;
  ci_Endpoints : gmap string Endpoint_Info;
  ci_nextId : Z;
  ci_flowcontrol : ul_state;
  ci_loadbalancer : gmap (list Z) Z;
  ci_secure : option secureServingConfig;
  ci_policies : option (list DispatchPolicy);
  ci_logging : option LoggingConfig;
  ci_featuregate : gates;
  ci_healthCheck : bool;
  ci_skipSyncEndpoints : bool;
  ci_stopped : bool
}.

Definition with_endpoints (c : ClusterInfo) (m : gmap string Endpoint_Info) (next : Z) : ClusterInfo :=
  MkClusterInfo (ci_Cluster c) (ci_globalRateLimiter c) m next (ci_flowcontrol c) (ci_loadbalancer c)
    (ci_secure c) (ci_policies c) (ci_logging c) (ci_featuregate c) (ci_healthCheck c)
    (ci_skipSyncEndpoints c) (ci_stopped c).

Definition with_loadbalancer (c : ClusterInfo) (lb : gmap (list Z) Z) : ClusterInfo :=
  MkClusterInfo (ci_Cluster c) (ci_globalRateLimiter c) (ci_Endpoints c) (ci_nextId c) (ci_flowcontrol c) lb
    (ci_secure c) (ci_policies c) (ci_logging c) (ci_featuregate c) (ci_healthCheck c)
    (ci_skipSyncEndpoints c) (ci_stopped c).

Definition with_secure (c : ClusterInfo) (s : secureServingConfig) : ClusterInfo :=
  MkClusterInfo (ci_Cluster c) (ci_globalRateLimiter c) (ci_Endpoints c) (ci_nextId c) (ci_flowcontrol c)
    (ci_loadbalancer c) (Some s) (ci_policies c) (ci_logging c) (ci_featuregate c) (ci_healthCheck c)
    (ci_skipSyncEndpoints c) (ci_stopped c).

Definition with_gates (c : ClusterInfo) (fg : gates) : ClusterInfo :=
  MkClusterInfo (ci_Cluster c) (ci_globalRateLimiter c) (ci_Endpoints c) (ci_nextId c) (ci_flowcontrol c)
    (ci_loadbalancer c) (ci_secure c) (ci_policies c) (ci_logging c) fg (ci_healthCheck c)
    (ci_skipSyncEndpoints c) (ci_stopped c).

Definition with_limiter (c : ClusterInfo) (l : ul_state) : ClusterInfo :=
  MkClusterInfo (ci_Cluster c) (ci_globalRateLimiter c) (ci_Endpoints c) (ci_nextId c) l
    (ci_loadbalancer c) (ci_secure c) (ci_policies c) (ci_logging c) (ci_featuregate c) (ci_healthCheck c)
    (ci_skipSyncEndpoints c) (ci_stopped c).

Definition with_policies (c : ClusterInfo) (ps : list DispatchPolicy) (l : LoggingConfig) : ClusterInfo :=
  MkClusterInfo (ci_Cluster c) (ci_globalRateLimiter c) (ci_Endpoints c) (ci_nextId c) (ci_flowcontrol c)
    (ci_loadbalancer c) (ci_secure c) (Some ps) (Some l) (ci_featuregate c) (ci_healthCheck c)
    (ci_skipSyncEndpoints c) (ci_stopped c).

Definition ClusterInfo_Stop (c : ClusterInfo) : ClusterInfo :=
  MkClusterInfo (ci_Cluster c) (ci_globalRateLimiter c) (ci_Endpoints c) (ci_nextId c) (ci_flowcontrol c)
    (ci_loadbalancer c) (ci_secure c) (ci_policies c) (ci_logging c) (ci_featuregate c) (ci_healthCheck c)
    (ci_skipSyncEndpoints c) true.

(** [NewEmptyClusterInfo]; whether a rest config and a health check function
    were given. *)
Definition NewEmptyClusterInfo (clusterName : string) (config healthCheck : bool) (rateLimiter : string)
    : ClusterInfo :=
  let clusterName := ToLower clusterName in
  MkClusterInfo clusterName rateLimiter ∅ 0 (ul_New clusterName) ∅ None None None gates_default
    healthCheck (negb config && negb healthCheck) false.

Definition empty_serving : secureServingConfig :=
  MkServingConfig (MkSecureServing "" "" "" []) None [] None.

Definition loadSecureServingConfig (c : ClusterInfo) : secureServingConfig := default empty_serving (ci_secure c).

Definition LoadTLSConfig (c : ClusterInfo) : option (option CertPool * list Certificate) :=
  match ci_secure c with
  | None => None
  | Some cfg =>
      match sc_certs cfg, sc_clientCA cfg with
      | [], None => None
      | certs, ca => Some (ca, certs)
      end
  end.

Definition LoadVerifyOptions (c : ClusterInfo) : option CertPool :=
  match ci_secure c with None => None | Some cfg => sc_verifyOptions cfg end.

Definition LoadServerNames (c : ClusterInfo) : list string :=
  ci_Cluster c ::
  match ci_secure c with
  | None => []
  | Some cfg => ToLower <$> ss_ServerNames (sc_secureServing cfg)
  end.

Definition AllEndpoints (c : ClusterInfo) : list string := fst <$> Range (ci_Endpoints c).

(** ** Synchronisation *)

Inductive sync_error :=
  | FeatureGateError (message : string)
  | ClientCAError (message : string)
  | KeyPairError (message : string)
  | TransportError (endpoint : string).

Definition syncFeatureGate (c : ClusterInfo) (annotations : gmap string string)
    : ClusterInfo * option sync_error :=
  let featuregate := default "" (annotations !! FeatureGateAnnotationKey) in
  if decide (featuregate = "") then
    (if negb (IsDefault (ci_featuregate c)) then with_gates c gates_default else c, None)
  else
    match gates_Set (ci_featuregate c) featuregate with
    | inl e => (c, Some (FeatureGateError e))
    | inr fg => (with_gates c fg, None)
    end.

(** The client CA of the new configuration (lines 399 to 426). *)
Definition next_client_ca (old : secureServingConfig) (new : SecureServing)
    : sync_error + (option CertPool * option CertPool) :=
  if decide (ss_ClientCAData (sc_secureServing old) = ss_ClientCAData new) then
    inr (sc_verifyOptions old, sc_clientCA old)
  else if decide (ss_ClientCAData new = "") then inr (None, None)
  else
    match ParsePool (ss_ClientCAData new) with
    | inl e => inl (ClientCAError e)
    | inr pool => inr (Some pool, Some pool)
    end.

(** Its certificates (lines 428 to 442): one of key and certificate alone
    changes nothing. *)
Definition next_certs (old : secureServingConfig) (new : SecureServing) : sync_error + list Certificate :=
  if decide (ss_KeyData (sc_secureServing old) = ss_KeyData new /\
             ss_CertData (sc_secureServing old) = ss_CertData new) then inr (sc_certs old)
  else if decide (ss_KeyData new = "" /\ ss_CertData new = "") then inr []
  else if decide (ss_KeyData new <> "" /\ ss_CertData new <> "") then
    match KeyPair (ss_CertData new) (ss_KeyData new) with
    | inl e => inl (KeyPairError e)
    | inr cert => inr [cert]
    end
  else inr (sc_certs old).

(** The first comparison of the code, of a pointer with a struct, never
    holds. *)
Definition syncSecureServingConfigLocked (c : ClusterInfo) (new : SecureServing)
    : ClusterInfo * option sync_error :=
  let oldCfg := loadSecureServingConfig c in
  match next_client_ca oldCfg new with
  | inl e => (c, Some e)
  | inr (verifyOptions, clientCA) =>
      match next_certs oldCfg new with
      | inl e => (c, Some e)
      | inr certs => (with_secure c (MkServingConfig new clientCA certs verifyOptions), None)
      end
  end.

(** Whether the transports of a new endpoint can be made. *)
Context (transport_ok : string -> bool).

Definition addOrUpdateEndpoint (c : ClusterInfo) (endpoint : string) (disabled : bool)
    : ClusterInfo * option sync_error :=
  match ci_Endpoints c !! endpoint with
  | Some info =>
      let info := EnsureGatewayHealthCheck (ci_healthCheck c) (Endpoint_Info_SetDisabled info disabled) in
      (with_endpoints c (<[endpoint := info]> (ci_Endpoints c)) (ci_nextId c), None)
  | None =>
      if transport_ok endpoint then
        let info := MkEndpoint (ci_nextId c) endpoint (MkStatus false "" "" disabled 0) false in
        let info := EnsureGatewayHealthCheck (ci_healthCheck c) info in
        (with_endpoints c (<[endpoint := info]> (ci_Endpoints c)) (ci_nextId c + 1), None)
      else (c, Some (TransportError endpoint))
  end.

(** [Range] of a set. *)
Definition set_range (s : gset string) : list string := fst <$> Range (gset_to_gmap () s).

Fixpoint add_endpoints (c : ClusterInfo) (disabled : gset string) (eps : list string)
    : ClusterInfo * option sync_error :=
  match eps with
  | [] => (c, None)
  | ep :: eps' =>
      match addOrUpdateEndpoint c ep (bool_decide (ep ∈ disabled)) with
      | (c, None) => add_endpoints c disabled eps'
      | (c, Some e) => (c, Some e)
      end
  end.

Definition syncEndpoints (c : ClusterInfo) (servers : list UpstreamClusterServer)
    : ClusterInfo * option sync_error :=
  if ci_skipSyncEndpoints c then (c, None)
  else
    let currentEPs : gset string := list_to_set (AllEndpoints c) in
    let wantedEPs : gset string := list_to_set (Endpoint <$> servers) in
    let deleted := currentEPs ∖ wantedEPs in
    let added := wantedEPs ∖ currentEPs in
    let c := if decide (added = ∅ /\ deleted = ∅) then c else with_loadbalancer c ∅ in
    let c := with_endpoints c (foldl (fun m ep => delete ep m) (ci_Endpoints c) (set_range deleted))
               (ci_nextId c) in
    let disabled : gset string :=
      list_to_set (Endpoint <$> filter (fun s => Disabled s = Some true) servers) in
    add_endpoints c disabled (set_range wantedEPs).

Definition ClusterInfo_Sync (c : ClusterInfo) (cluster : UpstreamCluster)
    : ClusterInfo * option sync_error :=
  if decide (ci_Cluster c = ToLower (uc_Name cluster)) then
    let '(c, err) :=
      match uc_Annotations cluster with
      | None => (c, None)
      | Some annotations => syncFeatureGate c annotations
      end in
    match err with
    | Some e => (c, Some e)
    | None =>
        let l := ul_ResetLimiter (ci_flowcontrol c)
                   (getFlowControlType (ci_globalRateLimiter c) (ci_featuregate c)) in
        let c := with_limiter c (ul_Sync l (spec_FlowControl (uc_Spec cluster))) in
        match syncSecureServingConfigLocked c (spec_SecureServing (uc_Spec cluster)) with
        | (c, Some e) => (c, Some e)
        | (c, None) =>
            match syncEndpoints c (Servers (uc_Spec cluster)) with
            | (c, Some e) => (c, Some e)
            | (c, None) =>
                (with_policies c (DispatchPolicies (uc_Spec cluster)) (Logging (uc_Spec cluster)), None)
            end
        end
    end
  else (c, None).

(** [CreateClusterInfo]; [config] says whether a rest config can be built. *)
Definition CreateClusterInfo (config : bool) (cluster : UpstreamCluster) (rateLimiter : string)
    : string + ClusterInfo :=
  if config then
    match ClusterInfo_Sync (NewEmptyClusterInfo (uc_Name cluster) true true rateLimiter) cluster with
    | (_, Some _) => inl "sync"
    | (c, None) => inr c
    end
  else inl "rest config".

(** ** Picking an endpoint *)

(** Why the endpoints are not ready is told when there are some. *)
Inductive pick_error := ErrNoReadyEndpoints (reasons : option (list unready)) | ErrNoRouterRuleMatches.

Definition ready_endpoints (c : ClusterInfo) (upstreams : list string) : list Endpoint_Info :=
  filter (fun e => Endpoint_Info_IsReady e = true) (omap (fun ep => ci_Endpoints c !! ep) upstreams).

Definition unready_reasons (c : ClusterInfo) (upstreams : list string) : list unready :=
  UnreadyReason <$>
  filter (fun e => Endpoint_Info_IsReady e = false) (omap (fun ep => ci_Endpoints c !! ep) upstreams).

Definition wrap64u (z : Z) : Z := z mod 2 ^ 64.

(** [Pop] of an [endpointPickStrategy]: round robin over the ready endpoints,
    with one counter per list of ready endpoints. *)
Definition Pop (c : ClusterInfo) (upstreams : list string) : ClusterInfo * (pick_error + Endpoint_Info) :=
  match upstreams with
  | [] => (c, inl (ErrNoReadyEndpoints None))
  | _ =>
      match ready_endpoints c upstreams with
      | [] => (c, inl (ErrNoReadyEndpoints (Some (unready_reasons c upstreams))))
      | [e] => (c, inr e)
      | (e0 :: _) as ready =>
          let key := ei_id <$> ready in
          let index := wrap64u (default 0 (ci_loadbalancer c !! key) + 1) in
          let c := with_loadbalancer c (<[key := index]> (ci_loadbalancer c)) in
          (c, inr (nth (Z.to_nat (index mod Z.of_nat (length ready))) ready e0))
      end
  end.

(** A health check reports on an endpoint. *)
Definition check_result (c : ClusterInfo) (ep : string) (healthy : bool) (reason message : string)
    : ClusterInfo :=
  with_endpoints c (alter (fun e => UpdateStatus e healthy reason message) ep (ci_Endpoints c)) (ci_nextId c).

Definition PickOne (c : ClusterInfo) : ClusterInfo * (pick_error + Endpoint_Info) := Pop c (AllEndpoints c).

(** The picker a request gets: its flow control, the name of it, the
    endpoints it may go to, and whether it is logged. *)
Record endpointPickStrategy := MkPicker {
  pk_flowControl : ul_flowControl;
  pk_flowControlName : string;
  pk_upstreams : list string;
  pk_enableLog : bool
}.

Definition MatchAttributes (c : ClusterInfo) (attr : Attributes) : pick_error + endpointPickStrategy :=
  let policies := default [] (ci_policies c) in
  let logging := default (MkLogging "") (ci_logging c) in
  match MatchPolicies attr policies with
  | None => inl ErrNoRouterRuleMatches
  | Some policy =>
      let name := FlowControlSchemaName policy in
      inr (MkPicker (ul_GetOrDefault (ci_flowcontrol c) name)
             (if decide (name = "") then "system-default" else name)
             (if decide (UpstreamSubset policy = []) then AllEndpoints c else UpstreamSubset policy)
             (isLogEnabled (Mode logging) (dp_LogMode policy)))
  end.
End clusters.

(** * Lemmas *)

Section cluster_lemmas.
Context `{UpstreamLimiter} `{FeatureGates} `{Certificates} `{UnicodeLower} `{MapRange}.
Context (transport_ok : string -> bool).
Implicit Types c : ClusterInfo.

(** ** Picking *)

Lemma elem_of_ready c ups e :
  e ∈ ready_endpoints c ups <->
  Endpoint_Info_IsReady e = true /\ exists ep, ep ∈ ups /\ ci_Endpoints c !! ep = Some e.
Proof. unfold ready_endpoints. by rewrite list_elem_of_filter, list_elem_of_omap. Qed.

Lemma nth_elem {A} (l : list A) (n : nat) d : (n < length l)%nat -> nth n l d ∈ l.
Proof. intros Hn. apply list_elem_of_In, nth_In, Hn. Qed.

Lemma Pop_cases c ups :
  match ready_endpoints c ups with
  | [] => exists rs, Pop c ups = (c, inl (ErrNoReadyEndpoints rs))
  | (e0 :: _) as ready => exists c' i, (i < length ready)%nat /\ Pop c ups = (c', inr (nth i ready e0)) /\
      ci_Endpoints c' = ci_Endpoints c /\ ci_policies c' = ci_policies c
  end.
Proof.
  unfold Pop. destruct ups as [|u ups]; [cbn; by eexists|].
  set (us := u :: ups). destruct (ready_endpoints c us) as [|e0 [|e1 ready]]; [by eexists| |].
  - exists c, O. split_and!; [cbn; lia|done..].
  - eexists _, _. split_and!; [|reflexivity|done..]. set (n := length _).
    pose proof (Z.mod_pos_bound (wrap64u (default 0 (ci_loadbalancer c !! (ei_id <$> e0 :: e1 :: ready)) + 1))
      (Z.of_nat n) ltac:(unfold n; cbn; lia)). lia.
Qed.

(** Consecutive picks. *)
Fixpoint pops (n : nat) c (ups : list string) : list (pick_error + Endpoint_Info) :=
  match n with
  | O => []
  | Datatypes.S n' => let '(c', e) := Pop c ups in e :: pops n' c' ups
  end.

(** The pick number [i] of a round. *)
Lemma pops_nth n c ups e0 e1 rest k0 :
  let ready := e0 :: e1 :: rest in
  ready_endpoints c ups = ready -> default 0 (ci_loadbalancer c !! (ei_id <$> ready)) = k0 ->
  0 <= k0 -> k0 + Z.of_nat n < 2 ^ 64 ->
  pops n c ups =
    (fun i => inr (nth (Z.to_nat ((k0 + 1 + Z.of_nat i) mod Z.of_nat (length ready))) ready e0)) <$> seq 0 n.
Proof.
  intros ready. revert c k0. induction n as [|n IH]; intros c k0 Hr Hk Hpos Hlt; [done|].
  assert (ups <> []) as Hups by (intros ->; done).
  assert (Pop c ups = (with_loadbalancer c (<[ei_id <$> ready := k0 + 1]> (ci_loadbalancer c)),
    inr (nth (Z.to_nat ((k0 + 1) mod Z.of_nat (length ready))) ready e0))) as Hpop.
  { unfold Pop. destruct ups as [|u us]; [done|]. rewrite Hr. unfold ready at 1.
    fold ready. rewrite Hk. unfold wrap64u. by rewrite (Z.mod_small (k0 + 1)) by lia. }
  cbn [pops]. rewrite Hpop. rewrite (IH _ (k0 + 1)); [| |by cbn; rewrite lookup_insert_eq|lia|lia].
  - cbn [seq fmap list_fmap]. f_equal.
    + by rewrite Z.add_0_r.
    + rewrite <- fmap_S_seq, <- list_fmap_compose. apply list_fmap_ext. intros i x _. cbn -[Z.of_nat].
      by replace (k0 + 1 + 1 + Z.of_nat x) with (k0 + 1 + Z.of_nat (Datatypes.S x)) by lia.
  - exact Hr.
Qed.

(** Shifting the indices of a list modulo its length permutes them. *)
Lemma shifted_indices (n : nat) k :
  (0 < n)%nat -> 0 <= k ->
  (fun i => Z.to_nat ((k + Z.of_nat i) mod Z.of_nat n)) <$> seq 0 n ≡ₚ seq 0 n.
Proof.
  intros Hn Hk. symmetry. apply NoDup_Permutation_bis;
    [apply NoDup_ListNoDup, NoDup_seq|by rewrite length_fmap, length_seq|].
  intros j Hj. apply list_elem_of_In, elem_of_seq in Hj. apply list_elem_of_In, list_elem_of_fmap.
  set (N := Z.of_nat n). exists (Z.to_nat ((Z.of_nat j - k) mod N)).
  pose proof (Z.mod_pos_bound (Z.of_nat j - k) N ltac:(unfold N; lia)) as Hb.
  split.
  - rewrite Z2Nat.id by lia. rewrite Zplus_mod_idemp_r.
    replace (k + (Z.of_nat j - k)) with (Z.of_nat j) by lia. rewrite Z.mod_small by (unfold N; lia). lia.
  - apply elem_of_seq. unfold N in *. lia.
Qed.

Lemma nth_seq_list {A} (l : list A) d : (fun i => nth i l d) <$> seq 0 (length l) = l.
Proof.
  induction l as [|a l IH]; [done|]. cbn [length seq fmap list_fmap]. f_equal.
  rewrite <- fmap_S_seq, <- list_fmap_compose. exact IH.
Qed.


(** ** Endpoints *)

Definition health (e : Endpoint_Info) : bool * string * string * Z :=
  let s := ei_status e in (es_Healthy s, es_Reason s, es_Message s, es_UnhealthyCount s).

(** Endpoints are kept under their own name and have distinct identities. *)
Record endpoints_inv c : Prop := {
  inv_names : map_Forall (fun ep e => ei_Endpoint e = ep) (ci_Endpoints c);
  inv_ids : map_Forall (fun _ e => ei_id e < ci_nextId c) (ci_Endpoints c);
  inv_distinct : forall ep ep' e e', ci_Endpoints c !! ep = Some e -> ci_Endpoints c !! ep' = Some e' ->
    ei_id e = ei_id e' -> ep = ep'
}.

(** An endpoint after a synchronisation that wants it disabled or not. *)
Record updated (healthCheck disabled : bool) (old : option Endpoint_Info) (e : Endpoint_Info) : Prop := {
  upd_disabled : es_Disabled (ei_status e) = disabled;
  upd_checking : healthCheck = true -> ei_checking e = negb disabled;
  upd_old : match old with
            | Some o => ei_id e = ei_id o /\ health e = health o
            | None => es_Healthy (ei_status e) = false
            end
}.

(** Only the endpoints of a cluster may differ. *)
Definition same_but_endpoints c c' : Prop := exists m n, c' = with_endpoints c m n.

Lemma addOrUpdateEndpoint_spec c ep disabled c' :
  endpoints_inv c -> addOrUpdateEndpoint transport_ok c ep disabled = (c', None) ->
  endpoints_inv c' /\ same_but_endpoints c c' /\
  (exists e, ci_Endpoints c' !! ep = Some e /\ updated (ci_healthCheck c) disabled (ci_Endpoints c !! ep) e) /\
  (forall ep', ep' <> ep -> ci_Endpoints c' !! ep' = ci_Endpoints c !! ep').
Proof.
  intros [Hn Hi Hd]. unfold addOrUpdateEndpoint. destruct (ci_Endpoints c !! ep) as [o|] eqn:Ho.
  - intros [= <-]. set (e := EnsureGatewayHealthCheck _ _).
    assert (ei_id e = ei_id o /\ ei_Endpoint e = ei_Endpoint o /\ health e = health o /\
            es_Disabled (ei_status e) = disabled /\
            (ci_healthCheck c = true -> ei_checking e = negb disabled)) as (E1 & E2 & E3 & E4 & E5).
    { unfold e, EnsureGatewayHealthCheck. by destruct (ci_healthCheck c). }
    split_and!; [split| |exists e; split; [apply lookup_insert_eq|by split]|].
    + apply map_Forall_insert_2; [rewrite E2; by apply (Hn ep)|done].
    + cbn. apply map_Forall_insert_2; [rewrite E1; by apply (Hi ep)|done].
    + intros x y ex ey. cbn. rewrite !lookup_insert_Some. intros Hx Hy Heq.
      destruct Hx as [[<- <-]|[? Hx]]; destruct Hy as [[<- <-]|[? Hy]]; try done.
      * rewrite E1 in Heq. by destruct (Hd ep y o ey).
      * rewrite E1 in Heq. symmetry in Heq. by destruct (Hd ep x o ex).
      * by apply (Hd x y ex ey).
    + by eexists _, _.
    + intros ep' Hne. cbn. by rewrite lookup_insert_ne.
  - destruct (transport_ok ep); [|done]. intros [= <-]. set (e := EnsureGatewayHealthCheck _ _).
    assert (ei_id e = ci_nextId c /\ ei_Endpoint e = ep /\ es_Healthy (ei_status e) = false /\
            es_Disabled (ei_status e) = disabled /\
            (ci_healthCheck c = true -> ei_checking e = negb disabled)) as (E1 & E2 & E3 & E4 & E5).
    { unfold e, EnsureGatewayHealthCheck. by destruct (ci_healthCheck c). }
    split_and!; [split| |exists e; split; [apply lookup_insert_eq|by split]|].
    + by apply map_Forall_insert_2.
    + cbn. apply map_Forall_insert_2; [lia|]. eapply map_Forall_impl; [exact Hi|]. intros; cbn in *; lia.
    + intros x y ex ey. cbn. rewrite !lookup_insert_Some. intros Hx Hy Heq.
      destruct Hx as [[<- <-]|[? Hx]]; destruct Hy as [[<- <-]|[? Hy]]; try done.
      * pose proof (Hi y ey Hy) as Hlt. cbn in Hlt. lia.
      * pose proof (Hi x ex Hx) as Hlt. cbn in Hlt. lia.
      * by apply (Hd x y ex ey).
    + by eexists _, _.
    + intros ep' Hne. cbn. by rewrite lookup_insert_ne.
Qed.

Lemma same_but_endpoints_trans c1 c2 c3 :
  same_but_endpoints c1 c2 -> same_but_endpoints c2 c3 -> same_but_endpoints c1 c3.
Proof. intros (m & n & ->) (m' & n' & ->). by exists m', n'. Qed.

Lemma add_endpoints_spec eps c disabled c' :
  NoDup eps -> endpoints_inv c -> add_endpoints transport_ok c disabled eps = (c', None) ->
  endpoints_inv c' /\ same_but_endpoints c c' /\
  (forall ep, ep ∈ eps -> exists e, ci_Endpoints c' !! ep = Some e /\
     updated (ci_healthCheck c) (bool_decide (ep ∈ disabled)) (ci_Endpoints c !! ep) e) /\
  (forall ep, ep ∉ eps -> ci_Endpoints c' !! ep = ci_Endpoints c !! ep).
Proof.
  revert c. induction eps as [|ep eps IH]; intros c Hnd Hinv; cbn [add_endpoints].
  - intros [= <-]. split_and!; [done|by exists (ci_Endpoints c), (ci_nextId c); destruct c| |done].
    intros ep Hep. by apply elem_of_nil in Hep.
  - apply list.NoDup_cons in Hnd as [Hni Hnd].
    destruct (addOrUpdateEndpoint _ c ep _) as [c1 [e|]] eqn:E; [done|]. intros Hadd.
    destruct (addOrUpdateEndpoint_spec c ep _ c1 Hinv E) as (Hinv1 & Hsame1 & (e1 & He1 & Hu1) & Hother1).
    destruct (IH c1 Hnd Hinv1 Hadd) as (Hinv' & Hsame' & Hin' & Hout').
    assert (ci_healthCheck c1 = ci_healthCheck c) as Hhc by (destruct Hsame1 as (m & n & ->); done).
    split_and!; [done|by eapply same_but_endpoints_trans| |].
    + intros ep' [->|Hep]%elem_of_cons.
      * exists e1. rewrite Hout' by done. done.
      * destruct (Hin' ep' Hep) as (e & He & Hu). exists e. split; [done|].
        rewrite Hhc, Hother1 in Hu; [done|]. by intros ->.
    + intros ep' Hep. apply not_elem_of_cons in Hep as [Hne Hep]. by rewrite Hout', Hother1.
Qed.

Lemma elem_of_set_range s x : x ∈ set_range s <-> x ∈ s.
Proof.
  unfold set_range. rewrite list_elem_of_fmap. split.
  - intros ([y u] & -> & Hin). rewrite elem_of_Range, lookup_gset_to_gmap_Some in Hin. by destruct Hin.
  - intros Hx. exists (x, ()). split; [done|]. by rewrite elem_of_Range, lookup_gset_to_gmap_Some.
Qed.

Lemma NoDup_set_range s : NoDup (set_range s).
Proof. unfold set_range. rewrite Range_perm. apply NoDup_fst_map_to_list. Qed.

Lemma delete_list_lookup {V} (l : list string) (m : gmap string V) k :
  foldl (fun m ep => delete ep m) m l !! k = if decide (k ∈ l) then None else m !! k.
Proof.
  revert m. induction l as [|x l IH]; intros m; cbn [foldl]; [done|]. rewrite IH.
  destruct (decide (k = x)) as [->|Hne].
  - rewrite lookup_delete_eq. rewrite (decide_True (P := x ∈ x :: l)) by left. by case_decide.
  - rewrite lookup_delete_ne by done. do 2 case_decide; set_solver.
Qed.

Lemma delete_endpoints_inv c l lb :
  endpoints_inv c -> endpoints_inv (with_endpoints (with_loadbalancer c lb)
    (foldl (fun m ep => delete ep m) (ci_Endpoints c) l) (ci_nextId c)).
Proof.
  intros [Hn Hi Hd].
  assert (forall k e, foldl (fun m ep => delete ep m) (ci_Endpoints c) l !! k = Some e ->
    ci_Endpoints c !! k = Some e) as Hsub.
  { intros k e. rewrite delete_list_lookup. by case_decide. }
  split; cbn.
  - intros k e Hk. apply (Hn k), Hsub, Hk.
  - intros k e Hk. apply (Hi k), Hsub, Hk.
  - intros x y ex ey Hx Hy. apply Hd; by apply Hsub.
Qed.

Lemma elem_of_AllEndpoints c ep : ep ∈ AllEndpoints c <-> is_Some (ci_Endpoints c !! ep).
Proof.
  unfold AllEndpoints. rewrite list_elem_of_fmap. split.
  - intros ([x e] & -> & Hin). rewrite elem_of_Range in Hin. by exists e.
  - intros [e He]. exists (ep, e). by rewrite elem_of_Range.
Qed.

(** The servers of a specification that are switched off. *)
Definition disabled_in (servers : list UpstreamClusterServer) (ep : string) : Prop :=
  exists s, s ∈ servers /\ Endpoint s = ep /\ Disabled s = Some true.

Lemma syncEndpoints_spec c servers c' :
  endpoints_inv c -> ci_skipSyncEndpoints c = false ->
  syncEndpoints transport_ok c servers = (c', None) ->
  (exists lb, same_but_endpoints (with_loadbalancer c lb) c') /\
  endpoints_inv c' /\
  (forall ep, is_Some (ci_Endpoints c' !! ep) <-> ep ∈ Endpoint <$> servers) /\
  (forall ep e, ci_Endpoints c' !! ep = Some e -> exists disabled,
     (disabled = true <-> disabled_in servers ep) /\
     updated (ci_healthCheck c) disabled (ci_Endpoints c !! ep) e).
Proof.
  intros Hinv Hskip. unfold syncEndpoints. rewrite Hskip.
  set (current := list_to_set (AllEndpoints c) : gset string).
  set (wanted := list_to_set (Endpoint <$> servers) : gset string).
  set (disabled := list_to_set (Endpoint <$> filter _ servers) : gset string).
  assert (exists lb, (if decide (wanted ∖ current = ∅ /\ current ∖ wanted = ∅) then c
    else with_loadbalancer c ∅) = with_loadbalancer c lb) as [lb ->].
  { case_decide; [exists (ci_loadbalancer c); by destruct c|by eexists]. }
  set (c1 := with_endpoints _ _ _). intros Hadd.
  pose proof (delete_endpoints_inv c (set_range (current ∖ wanted)) lb Hinv) as Hinv1.
  destruct (add_endpoints_spec _ c1 _ _ (NoDup_set_range wanted) Hinv1 Hadd) as (Hinv' & Hsame & Hin & Hout).
  assert (forall ep, ci_Endpoints c1 !! ep =
    if decide (ep ∈ current ∖ wanted) then None else ci_Endpoints c !! ep) as Hc1.
  { intros ep. cbn. rewrite delete_list_lookup. apply decide_ext, elem_of_set_range. }
  assert (forall ep, ep ∈ wanted <-> ep ∈ Endpoint <$> servers) as Hw by (intros; apply elem_of_list_to_set).
  assert (forall ep, is_Some (ci_Endpoints c' !! ep) -> ep ∈ wanted) as Hwanted.
  { intros ep Hs. destruct (decide (ep ∈ wanted)) as [|Hn]; [done|].
    rewrite Hout, Hc1 in Hs by by rewrite elem_of_set_range.
    case_decide as Hd; [by destruct Hs|]. destruct Hd. apply elem_of_difference. split; [|done].
    apply elem_of_list_to_set. by apply elem_of_AllEndpoints. }
  split_and!; [|done| |].
  - exists lb. destruct Hsame as (m & n & ->). by exists m, n.
  - intros ep. rewrite <- Hw. split; [apply Hwanted|]. intros Hep.
    destruct (Hin ep) as (e & He & _); [by rewrite elem_of_set_range|]. by exists e.
  - intros ep e He. assert (ep ∈ wanted) as Hep by (apply Hwanted; by exists e).
    destruct (Hin ep) as (e' & He' & Hu); [by rewrite elem_of_set_range|].
    rewrite He in He'. injection He' as <-. exists (bool_decide (ep ∈ disabled)). split.
    + rewrite bool_decide_eq_true. unfold disabled, disabled_in. rewrite elem_of_list_to_set, list_elem_of_fmap.
      split; [intros (x & -> & Hx)|intros (x & Hx & <- & Hxd)].
      * apply list_elem_of_filter in Hx as [? ?]. by exists x.
      * exists x. split; [done|]. by apply list_elem_of_filter.
    + rewrite Hc1, decide_False in Hu; [exact Hu|]. set_solver.
Qed.

(** Synchronising the servers of a cluster without error leaves exactly
    its servers as endpoints, disabled exactly when the specification says
    so; an endpoint that was there keeps its identity and its health, a new
    one is not ready before a health check succeeds. *)
Theorem syncEndpoints_exact c servers c' :
  endpoints_inv c -> ci_skipSyncEndpoints c = false ->
  syncEndpoints transport_ok c servers = (c', None) ->
  endpoints_inv c' /\
  (forall ep, is_Some (ci_Endpoints c' !! ep) <-> ep ∈ Endpoint <$> servers) /\
  (forall ep e, ci_Endpoints c' !! ep = Some e ->
     (es_Disabled (ei_status e) = true <-> disabled_in servers ep) /\
     match ci_Endpoints c !! ep with
     | Some o => ei_id e = ei_id o /\ health e = health o
     | None => Endpoint_Info_IsReady e = false
     end).
Proof.
  intros Hinv Hskip Hsync. destruct (syncEndpoints_spec c servers c' Hinv Hskip Hsync) as (_ & Hinv' & Hdom & Hupd).
  split_and!; [done..|]. intros ep e He. destruct (Hupd ep e He) as (d & Hd & [Hud _ Huo]). split.
  - by rewrite Hud.
  - destruct (ci_Endpoints c !! ep); [done|]. unfold Endpoint_Info_IsReady, endpointStatus_IsReady.
    by rewrite Huo, andb_false_r.
Qed.

(** ** Secure serving *)

(** A key comes with a certificate: what validation asks for. *)
Definition paired (s : SecureServing) : Prop := ss_KeyData s = "" <-> ss_CertData s = "".

(** The certificates in use are those of the specification. *)
Record serving_matches (cfg : secureServingConfig) : Prop := {
  sm_verify : sc_verifyOptions cfg = sc_clientCA cfg;
  sm_client : match sc_clientCA cfg with
    | None => ss_ClientCAData (sc_secureServing cfg) = ""
    | Some pool => ss_ClientCAData (sc_secureServing cfg) <> "" /\
        ParsePool (ss_ClientCAData (sc_secureServing cfg)) = inr pool
    end;
  sm_certs : if decide (ss_KeyData (sc_secureServing cfg) = "") then sc_certs cfg = []
    else exists cert, sc_certs cfg = [cert] /\
      KeyPair (ss_CertData (sc_secureServing cfg)) (ss_KeyData (sc_secureServing cfg)) = inr cert
}.

Definition serving_inv c : Prop := forall cfg, ci_secure c = Some cfg -> serving_matches cfg.

Lemma loaded_matches c : serving_inv c -> serving_matches (loadSecureServingConfig c).
Proof.
  intros Hinv. unfold loadSecureServingConfig. destruct (ci_secure c) as [cfg|] eqn:E; [by apply Hinv|].
  by split.
Qed.

Lemma syncSecureServing_spec c new c' :
  serving_inv c -> paired new -> syncSecureServingConfigLocked c new = (c', None) ->
  exists cfg, c' = with_secure c cfg /\ sc_secureServing cfg = new /\ serving_matches cfg.
Proof.
  intros Hinv Hp. unfold syncSecureServingConfigLocked.
  destruct (loaded_matches c Hinv) as [Hv Hc Hk]. set (old := loadSecureServingConfig c) in *.
  destruct (next_client_ca old new) as [e|[vo ca]] eqn:Eca; [done|].
  destruct (next_certs old new) as [e|certs] eqn:Ece; [done|]. intros [= <-].
  eexists. split_and!; [done|done|]. split; cbn.
  - clear Hk Hc. revert Eca. unfold next_client_ca. case_decide; [by intros [= <- <-]|].
    case_decide; [by intros [= <- <-]|]. destruct (ParsePool _); [done|]. by intros [= <- <-].
  - clear Hk. revert Eca. unfold next_client_ca. case_decide as Hd.
    + intros [= <- <-]. rewrite <- Hd. exact Hc.
    + case_decide; [by intros [= <- <-]|]. destruct (ParsePool (ss_ClientCAData new)) eqn:Ep; [done|].
      by intros [= <- <-].
  - revert Ece. unfold next_certs. destruct (decide (ss_KeyData (sc_secureServing old) = ss_KeyData new /\
      ss_CertData (sc_secureServing old) = ss_CertData new)) as [Hd|Hd].
    + intros [= <-]. destruct Hd as [<- <-]. exact Hk.
    + clear Hk. destruct (decide (ss_KeyData new = "" /\ ss_CertData new = "")) as [Hd2|Hd2];
        [intros [= <-]; by rewrite decide_True by apply Hd2|].
      destruct (decide (ss_KeyData new <> "" /\ ss_CertData new <> "")) as [Hd3|Hd3].
      * destruct (KeyPair _ _) eqn:Ep; [done|]. intros [= <-]. rewrite decide_False by apply Hd3. eauto.
      * exfalso. unfold paired in Hp. destruct (decide (ss_KeyData new = "")); naive_solver.
Qed.

(** ** Synchronisation *)

Record cluster_inv c : Prop := {
  cinv_endpoints : endpoints_inv c;
  cinv_serving : serving_inv c
}.

Lemma syncFeatureGate_spec c annotations c' :
  syncFeatureGate c annotations = (c', None) -> exists fg, c' = with_gates c fg.
Proof.
  unfold syncFeatureGate. case_decide.
  - intros [= <-]. destruct (negb _); [by eexists|]. exists (ci_featuregate c). by destruct c.
  - destruct (gates_Set _ _); [done|]. intros [= <-]. by eexists.
Qed.

(** What a cluster is after a synchronisation without error. *)
Record reflects (cluster : UpstreamCluster) c : Prop := {
  ref_inv : cluster_inv c;
  ref_policies : ci_policies c = Some (DispatchPolicies (uc_Spec cluster));
  ref_logging : ci_logging c = Some (Logging (uc_Spec cluster));
  ref_serving : exists cfg, ci_secure c = Some cfg /\ sc_secureServing cfg = spec_SecureServing (uc_Spec cluster);
  ref_servers : forall ep, is_Some (ci_Endpoints c !! ep) <-> ep ∈ Endpoint <$> Servers (uc_Spec cluster);
  ref_disabled : forall ep e, ci_Endpoints c !! ep = Some e ->
    es_Disabled (ei_status e) = true <-> disabled_in (Servers (uc_Spec cluster)) ep
}.

Lemma Sync_reflects c cluster c' :
  cluster_inv c -> ci_skipSyncEndpoints c = false -> ci_Cluster c = ToLower (uc_Name cluster) ->
  paired (spec_SecureServing (uc_Spec cluster)) ->
  ClusterInfo_Sync transport_ok c cluster = (c', None) ->
  reflects cluster c' /\
  exists l, ci_flowcontrol c' = ul_Sync l (spec_FlowControl (uc_Spec cluster)).
Proof.
  intros [He Hs] Hskip Hname Hp. unfold ClusterInfo_Sync. rewrite decide_True by done.
  destruct (match uc_Annotations cluster with Some _ => _ | None => _ end) as [c1 [e|]] eqn:E1; [done|].
  assert (exists fg, c1 = with_gates c fg) as [fg ->].
  { destruct (uc_Annotations cluster); [by eapply syncFeatureGate_spec|].
    injection E1 as <-. exists (ci_featuregate c). by destruct c. }
  set (l := ul_ResetLimiter _ _). set (c2 := with_limiter _ _).
  destruct (syncSecureServingConfigLocked c2 _) as [c3 [e|]] eqn:E3; [done|].
  destruct (syncSecureServing_spec c2 _ c3 Hs Hp E3) as (cfg & -> & Hcfg & Hm).
  destruct (syncEndpoints _ _ _) as [c4 [e|]] eqn:E4; [done|]. intros [= <-].
  destruct (syncEndpoints_spec (with_secure c2 cfg) (Servers (uc_Spec cluster)) c4) as ((lb & m & n & Hc4) & Hinv4 & Hdom & Hupd);
    [by destruct He; split|done|done|].
  split; [|exists l; by rewrite Hc4]. split.
  - split; [by destruct Hinv4; split|]. intros cfg'. rewrite Hc4. cbn. by intros [= <-].
  - done.
  - done.
  - exists cfg. by rewrite Hc4.
  - exact Hdom.
  - intros ep e Hep. destruct (Hupd ep e Hep) as (d & Hd & [Hud _ _]). by rewrite Hud.
Qed.

(** Synchronisation keeps the name of a cluster. *)
Definition kept c : string * bool := (ci_Cluster c, ci_skipSyncEndpoints c).

Lemma add_endpoints_kept eps c disabled : kept (fst (add_endpoints transport_ok c disabled eps)) = kept c.
Proof.
  revert c. induction eps as [|ep eps IH]; intros c; [done|]. cbn [add_endpoints].
  assert (kept (fst (addOrUpdateEndpoint transport_ok c ep (bool_decide (ep ∈ disabled)))) = kept c) as Hone.
  { unfold addOrUpdateEndpoint. destruct (ci_Endpoints c !! ep); [done|]. by destruct (transport_ok ep). }
  destruct (addOrUpdateEndpoint _ c ep _) as [c1 [e|]]; [done|]. by rewrite IH.
Qed.

Lemma Sync_kept c cluster : kept (fst (ClusterInfo_Sync transport_ok c cluster)) = kept c.
Proof.
  unfold ClusterInfo_Sync. case_decide; [|done].
  destruct (match uc_Annotations cluster with Some _ => _ | None => _ end) as [c1 err] eqn:E1.
  assert (kept c1 = kept c) as Hk1.
  { destruct (uc_Annotations cluster) as [an|]; [|by injection E1 as <- _]. revert E1. unfold syncFeatureGate.
    case_decide; [intros [= <- _]; by destruct (negb _)|]. destruct (gates_Set _ _); by intros [= <- _]. }
  destruct err as [e|]; [done|]. rewrite <- Hk1. set (l := ul_ResetLimiter _ _). set (c2 := with_limiter _ _).
  change (kept c1) with (kept c2).
  assert (kept (fst (syncSecureServingConfigLocked c2 (spec_SecureServing (uc_Spec cluster)))) = kept c2) as Hk3.
  { unfold syncSecureServingConfigLocked. destruct (next_client_ca _ _) as [|[? ?]]; [done|].
    by destruct (next_certs _ _). }
  destruct (syncSecureServingConfigLocked c2 _) as [c3 [e|]]; [done|]. cbn [fst] in Hk3. rewrite <- Hk3.
  assert (kept (fst (syncEndpoints transport_ok c3 (Servers (uc_Spec cluster)))) = kept c3) as Hk4.
  { unfold syncEndpoints. destruct (ci_skipSyncEndpoints c3) eqn:Esk; [done|]. rewrite add_endpoints_kept.
    by case_decide. }
  by destruct (syncEndpoints _ c3 _) as [c4 [e|]].
Qed.

(** Synchronising a cluster without error makes it reflect the object:
    its policies and logging, exactly its servers with those disabled that
    the object disables, its serving certificates and client CA, and its flow
    controls; and the invariants of endpoints and certificates hold again. *)
Theorem ClusterInfo_Sync_reflects c cluster c' :
  cluster_inv c -> ci_skipSyncEndpoints c = false -> ci_Cluster c = ToLower (uc_Name cluster) ->
  paired (spec_SecureServing (uc_Spec cluster)) ->
  ClusterInfo_Sync transport_ok c cluster = (c', None) ->
  reflects cluster c' /\
  exists l, ci_flowcontrol c' = ul_Sync l (spec_FlowControl (uc_Spec cluster)).
Proof. apply Sync_reflects. Qed.

(** A cluster in service: synchronised with the object, since then health
    checks have reported and requests have picked endpoints. *)
Inductive in_service (cluster : UpstreamCluster) : ClusterInfo -> Prop :=
  | service_sync c c' :
      cluster_inv c -> ci_skipSyncEndpoints c = false -> ci_Cluster c = ToLower (uc_Name cluster) ->
      paired (spec_SecureServing (uc_Spec cluster)) ->
      ClusterInfo_Sync transport_ok c cluster = (c', None) -> in_service cluster c'
  | service_check c ep healthy reason message :
      in_service cluster c -> in_service cluster (check_result c ep healthy reason message)
  | service_pop c ups : in_service cluster c -> in_service cluster (fst (Pop c ups)).

Lemma check_result_reflects cluster c ep healthy reason message :
  reflects cluster c -> reflects cluster (check_result c ep healthy reason message).
Proof.
  intros [[[Hn Hi Hd] Hs] Hp Hl Hsv Hdom Hdis].
  assert (forall k e, ci_Endpoints (check_result c ep healthy reason message) !! k = Some e ->
    exists e0, ci_Endpoints c !! k = Some e0 /\ ei_id e = ei_id e0 /\ ei_Endpoint e = ei_Endpoint e0 /\
      es_Disabled (ei_status e) = es_Disabled (ei_status e0)) as Hback.
  { intros k e He. cbn in He. apply lookup_alter_Some in He as [(-> & e0 & He0 & ->)|[_ He]]; [|by exists e].
    by exists e0. }
  split; [split; [split|]|done..| |].
  - intros k e He. destruct (Hback k e He) as (e0 & He0 & _ & -> & _). by apply (Hn k).
  - intros k e He. destruct (Hback k e He) as (e0 & He0 & -> & _). by apply (Hi k).
  - intros x y ex ey Hx Hy Heq. destruct (Hback x ex Hx) as (e0 & He0 & E0 & _).
    destruct (Hback y ey Hy) as (e1 & He1 & E1 & _). apply (Hd x y e0 e1); congruence.
  - exact Hs.
  - intros k. rewrite <- Hdom. cbn. destruct (decide (ep = k)) as [->|]; [rewrite lookup_alter_eq|
      by rewrite lookup_alter_ne]. rewrite fmap_is_Some. done.
  - intros k e He. destruct (Hback k e He) as (e0 & He0 & _ & _ & ->). by apply Hdis.
Qed.

Lemma Pop_frame c ups : exists lb, fst (Pop c ups) = with_loadbalancer c lb.
Proof.
  assert (exists lb, c = with_loadbalancer c lb) as Hid by (exists (ci_loadbalancer c); by destruct c).
  unfold Pop. destruct ups; [done|]. destruct (ready_endpoints _ _) as [|? [|? ?]]; [done..|]. by eexists.
Qed.

Lemma in_service_reflects cluster c : in_service cluster c -> reflects cluster c.
Proof.
  induction 1 as [c c' Hinv Hskip Hname Hp Hsync|c ep h r m _ IH|c ups _ IH].
  - by eapply Sync_reflects.
  - by apply check_result_reflects.
  - destruct (Pop_frame c ups) as [lb ->]. destruct IH as [[[Hn Hi Hd] Hs] Hp Hl Hsv Hdom Hdis]. by split.
Qed.

(** C5: A request handled by a cluster in service takes the first policy of
    the object that matches it and goes to a server of the object that is not
    disabled, is healthy, and is in the policy's subset when it has one; it
    is turned away only when no policy matches or no such server is ready. *)
Theorem dispatch_follows_spec cluster c attr :
  in_service cluster c ->
  let spec := uc_Spec cluster in
  match MatchAttributes c attr with
  | inl e => e = ErrNoRouterRuleMatches /\ MatchPolicies attr (DispatchPolicies spec) = None
  | inr pk =>
      exists policy, MatchPolicies attr (DispatchPolicies spec) = Some policy /\
      match snd (Pop c (pk_upstreams pk)) with
      | inr e =>
          ei_Endpoint e ∈ Endpoint <$> Servers spec /\ ~ disabled_in (Servers spec) (ei_Endpoint e) /\
          es_Healthy (ei_status e) = true /\
          (UpstreamSubset policy <> [] -> ei_Endpoint e ∈ UpstreamSubset policy)
      | inl _ =>
          forall ep e, ci_Endpoints c !! ep = Some e -> Endpoint_Info_IsReady e = true ->
            UpstreamSubset policy <> [] /\ ep ∉ UpstreamSubset policy
      end
  end.
Proof.
  intros Hin spec. destruct (in_service_reflects cluster c Hin) as [[[Hn Hi Hd] Hs] Hp Hl Hsv Hdom Hdis].
  unfold MatchAttributes. rewrite Hp. cbn [default from_option id]. fold spec.
  destruct (MatchPolicies attr (DispatchPolicies spec)) as [policy|] eqn:Em; [|done].
  exists policy. split; [done|]. cbn [pk_upstreams]. set (ups := if decide _ then _ else _).
  assert (forall ep, ep ∈ ups -> UpstreamSubset policy <> [] -> ep ∈ UpstreamSubset policy) as Hsub.
  { intros ep Hep Hne. unfold ups in Hep. by rewrite decide_False in Hep. }
  pose proof (Pop_cases c ups) as Hpop. destruct (ready_endpoints c ups) as [|e0 rest] eqn:Er.
  - destruct Hpop as [rs ->]. cbn [snd]. intros ep e He Hready.
    assert (ep ∉ ups) as Hni.
    { intros Hep. assert (e ∈ ready_endpoints c ups) as Hx by (apply elem_of_ready; eauto).
      rewrite Er in Hx. by apply elem_of_nil in Hx. }
    unfold ups in Hni. case_decide as Hempty; [|done]. destruct Hni. apply elem_of_AllEndpoints. by exists e.
  - destruct Hpop as (c' & i & Hlt & -> & _). cbn [snd]. set (e := nth i _ e0).
    assert (e ∈ ready_endpoints c ups) as He by (rewrite Er; by apply nth_elem).
    clearbody e. apply elem_of_ready in He as [Hready (ep & Hep & Hlook)].
    assert (ei_Endpoint e = ep) as -> by exact (Hn ep e Hlook).
    unfold Endpoint_Info_IsReady, endpointStatus_IsReady in Hready. apply andb_true_iff in Hready as [Hnd Hh].
    split_and!; [apply Hdom; by exists e| |done|by apply Hsub].
    intros Hdi. apply (Hdis ep e Hlook) in Hdi. by rewrite Hdi in Hnd.
Qed.
End cluster_lemmas.

(** * A concrete cluster *)

Module ClusterExample.
(** A limiter that remembers what it was last given. *)
Definition limiter : UpstreamLimiter := {|
  ul_state := string * list FlowControlSchema;
  ul_flowControl := option FlowControlSchema;
  ul_New name := (LocalFlowControls, []);
  ul_ResetLimiter s t := (t, s.2);
  ul_Sync s fc := (s.1, Schemas fc);
  ul_GetOrDefault s name := head (filter (fun f => fs_Name f = name) s.2)
|}.

(** One gate. *)
Definition one_gate : FeatureGates := {|
  gates := bool;
  gates_default := false;
  gates_Set g s :=
    if decide (s = "GlobalRateLimiter=true") then inr true
    else if decide (s = "GlobalRateLimiter=false") then inr false else inl "unrecognized feature gate";
  gates_Enabled g name := g && bool_decide (name = "GlobalRateLimiter");
  gates_KnownFeatures _ := ["GlobalRateLimiter=true|false (ALPHA - default=false)"]
|}.

(** Certificates that are their own text. *)
Definition text_certificates : Certificates := {|
  CertPool := string;
  Certificate := string * string;
  ParsePool s := inr s;
  KeyPair cert key := inr (cert, key)
|}.

#[local] Existing Instance limiter.
#[local] Existing Instance one_gate.
#[local] Existing Instance text_certificates.
#[local] Existing Instance ascii_only_lower.
#[local] Existing Instance sorted_range.

Definition rule : DispatchPolicyRule := MkRule ["*"] ["*"] ["*"] [] [] [] [] ["*"].

Definition cluster : UpstreamCluster :=
  MkCluster "C1" None
    (MkSpec [MkServer "https://a" None; MkServer "https://b" (Some false); MkServer "https://c" (Some true)]
       (MkClientConfig true "token" "" "" "" 0 0 0 "")
       (MkSecureServing "key" "cert" "ca" ["C1.example.com"])
       (MkFlowControl []) [MkPolicy RoundRobin [] [rule] "" ""] (MkLogging "")).

Definition new_cluster : ClusterInfo := NewEmptyClusterInfo "C1" true true "".
Definition any_transport (ep : string) : bool := true.
Definition synced : ClusterInfo := fst (ClusterInfo_Sync any_transport new_cluster cluster).
Definition checked : ClusterInfo :=
  check_result (check_result (check_result synced "https://a" true "" "") "https://b" true "" "")
    "https://c" true "" "".

Lemma new_inv : cluster_inv new_cluster.
Proof. split; [by split|]. done. Qed.

Lemma sync_ok : ClusterInfo_Sync any_transport new_cluster cluster = (synced, None).
Proof. vm_compute. reflexivity. Qed.

Lemma checked_in_service : in_service any_transport cluster checked.
Proof.
  do 3 apply service_check. apply (service_sync any_transport cluster new_cluster);
    [apply new_inv|done|done| |exact sync_ok]. by vm_compute.
Qed.
End ClusterExample.

Section cluster_witnesses.
Import ClusterExample.
#[local] Existing Instance limiter.
#[local] Existing Instance one_gate.
#[local] Existing Instance text_certificates.
#[local] Existing Instance ascii_only_lower.
#[local] Existing Instance sorted_range.


Lemma syncEndpoints_exact_witness :
  endpoints_inv (fst (syncEndpoints any_transport new_cluster (Servers (uc_Spec cluster)))).
Proof.
  refine (proj1 (syncEndpoints_exact any_transport new_cluster (Servers (uc_Spec cluster)) _ _ _ _)).
  - exact (cinv_endpoints _ new_inv).
  - reflexivity.
  - by vm_compute.
Defined.

Lemma ClusterInfo_Sync_reflects_witness : reflects cluster synced.
Proof.
  refine (proj1 (ClusterInfo_Sync_reflects any_transport new_cluster cluster synced _ _ _ _ _)).
  - exact new_inv.
  - reflexivity.
  - by vm_compute.
  - by vm_compute.
  - exact sync_ok.
Defined.

(** A request. *)
Definition request : Attributes := MkAttributes "alice" [] "get" "" "pods" "" "" "/api/v1/pods" true.

(** The endpoint its policy picks first. *)
Definition picked : pick_error + string :=
  match MatchAttributes checked request with
  | inl e => inl e
  | inr pk => match snd (Pop checked (pk_upstreams pk)) with inl e => inl e | inr e => inr (ei_Endpoint e) end
  end.

Lemma dispatch_follows_spec_witness :
  exists ep, picked = inr ep /\ ep ∈ Endpoint <$> Servers (uc_Spec cluster).
Proof.
  pose proof (dispatch_follows_spec any_transport cluster checked request checked_in_service) as Hd.
  cbv zeta in Hd. assert (picked = inr "https://b") as Hp by (vm_compute; reflexivity). unfold picked in *.
  destruct (MatchAttributes checked request) as [e|pk]; [discriminate Hp|].
  destruct Hd as (policy & _ & Hd). destruct (snd (Pop checked (pk_upstreams pk))) as [e|e]; [discriminate Hp|].
  exists (ei_Endpoint e). split; [reflexivity|]. exact (proj1 Hd).
Defined.
End cluster_witnesses.
