(* ===== verification/Controller.v ===== *)
(** The routing table of the proxy: the manager of clusters
    ([pkg/clusters/manager.go]) and the controller that keeps it in step with
    the UpstreamCluster objects ([pkg/gateway/controllers/upstream_controller.go],
    [pkg/gateway/net/net.go]).

    The manager maps host names to pointers; a cluster that serves several
    names is one object under each of them, so clusters live in a heap and
    the table holds addresses. *)
From stdpp Require Import base tactics list strings gmap sets.
From Stdlib Require Import ZArith Lia Ascii.
From S2P Require Import Prelude Http ApiTypes Matching Admission Clusters.

Local Open Scope Z_scope.
Local Open Scope go_scope.

(** * Host names *)

Definition HostWithoutPort `{UnicodeLower} (hostport : string) : string :=
  let hostport := ToLower hostport in default hostport (SplitHostPort hostport).

Section controller.
Context `{UpstreamLimiter} `{FeatureGates} `{Certificates} `{UnicodeLower} `{MapRange}.
Context (transport_ok : string -> bool).

(** * The manager *)

Record manager := MkManager {
  mg_clusters : gmap string Z;
  mg_heap : gmap Z ClusterInfo;
  mg_next : Z
}.

Definition with_table (m : manager) (t : gmap string Z) : manager := MkManager t (mg_heap m) (mg_next m).

Definition write_heap (m : manager) (p : Z) (c : ClusterInfo) : manager :=
  MkManager (mg_clusters m) (<[p := c]> (mg_heap m)) (mg_next m).

(** A new object. *)
Definition alloc (m : manager) (c : ClusterInfo) : manager * Z :=
  (MkManager (mg_clusters m) (<[mg_next m := c]> (mg_heap m)) (mg_next m + 1), mg_next m).

(** [Get], with the object the pointer is to. *)
Definition manager_Get (m : manager) (name : string) : option (Z * ClusterInfo) :=
  p ← mg_clusters m !! ToLower name; c ← mg_heap m !! p; Some (p, c).

Definition AddWithKey (m : manager) (key : string) (p : Z) : manager :=
  with_table m (<[ToLower key := p]> (mg_clusters m)).

Definition doDelete (m : manager) (name : string) (stop : bool) : manager :=
  match mg_clusters m !! ToLower name with
  | None => m
  | Some p =>
      let m := with_table m (delete (ToLower name) (mg_clusters m)) in
      if stop then MkManager (mg_clusters m) (alter ClusterInfo_Stop p (mg_heap m)) (mg_next m) else m
  end.

Definition manager_Delete (m : manager) (name : string) : manager := doDelete m name false.
Definition DeleteWithStop (m : manager) (name : string) : manager := doDelete m name true.

Definition DeleteAll (m : manager) : manager :=
  let pointers := snd <$> Range (mg_clusters m) in
  MkManager ∅ (foldl (fun h p => alter ClusterInfo_Stop p h) (mg_heap m) pointers) (mg_next m).

(** * The controller *)

(** The cluster a name routes to, if it is another one than [clusterName]. *)
Definition conflicts (m : manager) (clusterName name : string) : bool :=
  match manager_Get m name with
  | Some (_, c) => negb (bool_decide (ci_Cluster c = clusterName))
  | None => false
  end.

(** [checkServerNameConflict]; [true] is the error. *)
Definition checkServerNameConflict (m : manager) (clusterName : string)
    (oldServerNames newServerNames : list string) : bool :=
  if decide (oldServerNames = newServerNames) then false
  else
    existsb (conflicts m clusterName) newServerNames ||
    existsb (fun n => negb (bool_decide (n ∈ newServerNames)) && conflicts m clusterName n) oldServerNames.

(** A name that is not served any more is removed if it is the cluster's. *)
Definition remove_name (new : list string) (c : ClusterInfo) (m : manager) (n : string) : manager :=
  if bool_decide (n ∈ new) then m
  else match manager_Get m n with
       | Some (_, d) => if decide (ci_Cluster d = ci_Cluster c) then manager_Delete m n else m
       | None => m
       end.

(** A name that was not served before is added. *)
Definition add_name (old : list string) (p : Z) (m : manager) (n : string) : manager :=
  if bool_decide (n ∈ old) then m else AddWithKey m n p.

(** [AddOrUpdateForServerNames] for the object at a pointer. *)
Definition AddOrUpdateForServerNames (m : manager) (oldServerNames : list string) (p : Z) (c : ClusterInfo)
    : manager * bool :=
  let newServerNames := LoadServerNames c in
  if decide (oldServerNames = newServerNames) then (m, false)
  else if checkServerNameConflict m (ci_Cluster c) oldServerNames newServerNames then (m, true)
  else
    let m := foldl (remove_name newServerNames c) m oldServerNames in
    let m := foldl (add_name oldServerNames p) m newServerNames in
    (m, false).

Definition checkUpstreamServerNameConflict (m : manager) (cluster : UpstreamCluster) : bool :=
  let clusterName := ToLower (uc_Name cluster) in
  let newServerNames := clusterName :: (ToLower <$> ss_ServerNames (spec_SecureServing (uc_Spec cluster))) in
  let oldServerNames :=
    match manager_Get m clusterName with Some (_, c) => LoadServerNames c | None => [] end in
  checkServerNameConflict m clusterName oldServerNames newServerNames.

(** A name is removed, and its cluster stopped, if it is [clusterName]. *)
Definition delete_name (clusterName : string) (m : manager) (n : string) : manager :=
  match manager_Get m n with
  | Some (_, d) => if decide (ci_Cluster d = clusterName) then DeleteWithStop m n else m
  | None => m
  end.

Definition DeleteForServerNames (m : manager) (clusterName : string) : manager :=
  match manager_Get m clusterName with
  | None => m
  | Some (_, c) =>
      foldl (delete_name clusterName) m (LoadServerNames c)
  end.

(** What the queue is told: done, try again later, an error, or the process
    panics. *)
Inductive sync_result := Synced | Requeue | ListerFailed (e : string) | Panicked.

Inductive lookup := Found | Missing | LookupError (e : string).

(** [syncUpstreamCluster]; [config] says whether a rest config can be built
    for the object, [found] what the lister says.  When the cluster cannot be
    created, the deferred call stops a nil cluster. *)
Definition syncUpstreamCluster (rateLimiter : string) (config : bool) (found : lookup) (m : manager)
    (cluster : UpstreamCluster) : manager * sync_result :=
  let clusterName := ToLower (uc_Name cluster) in
  match found with
  | Missing => (DeleteForServerNames m clusterName, Synced)
  | LookupError e => (m, ListerFailed e)
  | Found =>
      if checkUpstreamServerNameConflict m cluster then (m, Requeue)
      else
        match manager_Get m clusterName with
        | None =>
            match CreateClusterInfo transport_ok config cluster rateLimiter with
            | inl _ => (m, Panicked)
            | inr c =>
                let '(m, p) := alloc m c in
                match AddOrUpdateForServerNames m [] p c with
                | (m, true) =>
                    (DeleteForServerNames (write_heap m p (ClusterInfo_Stop c)) clusterName, Requeue)
                | (m, false) => (m, Synced)
                end
            end
        | Some (p, c) =>
            let oldServerNames := LoadServerNames c in
            match ClusterInfo_Sync transport_ok c cluster with
            | (c', Some _) => (write_heap m p c', Requeue)
            | (c', None) =>
                let m := write_heap m p c' in
                match AddOrUpdateForServerNames m oldServerNames p c' with
                | (m, true) => (m, Requeue)
                | (m, false) => (m, Synced)
                end
            end
        end
  end.

Definition SNIVerifyOptions (m : manager) (host : string) : option CertPool :=
  match manager_Get m (HostWithoutPort host) with
  | None => None
  | Some (_, c) => LoadVerifyOptions c
  end.

(** The TLS configuration of [WrapGetConfigForClient] for a host name: what it
    replaces in the base configuration. *)
Definition tls_for_host (m : manager) (hostname : string) : option (option CertPool * list Certificate) :=
  match manager_Get m hostname with
  | None => None
  | Some (_, c) => LoadTLSConfig c
  end.
End controller.

(** * Lemmas *)

Section controller_lemmas.
Context `{UpstreamLimiter} `{FeatureGates} `{Certificates} `{UnicodeLower} `{MapRange}.
Context (transport_ok : string -> bool).
Implicit Types m : manager.

(** The object at a pointer, and that the names that route to it are the
    names it serves. *)
Definition serves m (p : Z) (c : ClusterInfo) : Prop :=
  mg_heap m !! p = Some c /\ cluster_inv c /\ ci_skipSyncEndpoints c = false /\
  ToLower (ci_Cluster c) = ci_Cluster c /\
  forall k, mg_clusters m !! k = Some p <-> k ∈ LoadServerNames c.

(** The table routes every name to a cluster that serves it, and every name a
    routed cluster serves to that cluster. *)
Record routes_inv m : Prop := {
  ri_serves : forall k p, mg_clusters m !! k = Some p -> exists c, serves m p c;
  ri_next : forall p, is_Some (mg_heap m !! p) -> p < mg_next m
}.

Lemma LoadServerNames_lower c n :
  ToLower (ci_Cluster c) = ci_Cluster c -> n ∈ LoadServerNames c -> ToLower n = n.
Proof.
  intros Hl. unfold LoadServerNames. intros [->|Hn]%elem_of_cons; [done|].
  destruct (ci_secure c) as [cfg|]; [|by apply elem_of_nil in Hn].
  apply list_elem_of_fmap in Hn as (x & -> & _). apply ToLower_idem.
Qed.

Lemma Cluster_in_names c : ci_Cluster c ∈ LoadServerNames c.
Proof. left. Qed.

Lemma manager_Get_Some m n p c :
  manager_Get m n = Some (p, c) <-> mg_clusters m !! ToLower n = Some p /\ mg_heap m !! p = Some c.
Proof.
  unfold manager_Get. destruct (mg_clusters m !! ToLower n) as [q|]; cbn; [|naive_solver].
  destruct (mg_heap m !! q) as [d|] eqn:E; cbn; naive_solver.
Qed.

(** In a consistent table the name of a cluster routes to it, so clusters of
    the same name are the same object. *)
Lemma routes_unique m k k' p p' c c' :
  routes_inv m -> mg_clusters m !! k = Some p -> mg_clusters m !! k' = Some p' ->
  mg_heap m !! p = Some c -> mg_heap m !! p' = Some c' -> ci_Cluster c = ci_Cluster c' -> p = p'.
Proof.
  intros [Hr _] Hk Hk' Hc Hc' Heq.
  destruct (Hr k p Hk) as (d & Hd & _ & _ & _ & Hn). destruct (Hr k' p' Hk') as (d' & Hd' & _ & _ & _ & Hn').
  rewrite Hc in Hd. rewrite Hc' in Hd'. injection Hd as <-. injection Hd' as <-.
  pose proof (proj2 (Hn _) (Cluster_in_names c)) as Hcl.
  pose proof (proj2 (Hn' _) (Cluster_in_names c')) as Hcl'. rewrite Heq in Hcl. congruence.
Qed.

(** ** Updating the table *)

Lemma doDelete_spec m n stop :
  ToLower n = n ->
  mg_clusters (doDelete m n stop) = delete n (mg_clusters m) /\ mg_next (doDelete m n stop) = mg_next m /\
  mg_heap (doDelete m n stop) =
    match mg_clusters m !! n, stop with
    | Some p, true => alter ClusterInfo_Stop p (mg_heap m)
    | _, _ => mg_heap m
    end.
Proof.
  intros Hn. unfold doDelete. rewrite Hn. destruct (mg_clusters m !! n) as [p|] eqn:E.
  - by destruct stop.
  - by rewrite delete_id.
Qed.

Lemma remove_name_spec new c m n :
  ToLower n = n ->
  let m1 := remove_name new c m n in
  mg_heap m1 = mg_heap m /\ mg_next m1 = mg_next m /\
  (forall k, k <> n \/ k ∈ new -> mg_clusters m1 !! k = mg_clusters m !! k) /\
  (forall p d, n ∉ new -> mg_clusters m !! n = Some p -> mg_heap m !! p = Some d ->
     ci_Cluster d = ci_Cluster c -> mg_clusters m1 !! n = None) /\
  (forall k, mg_clusters m !! k = None -> mg_clusters m1 !! k = None).
Proof.
  intros Hn. unfold remove_name. case_bool_decide as Hb; [by split_and!|].
  destruct (manager_Get m n) as [[p d]|] eqn:Hg.
  - apply manager_Get_Some in Hg as [Hp Hd]. rewrite Hn in Hp. case_decide as Hc; cbn zeta.
    + unfold manager_Delete. destruct (doDelete_spec m n false Hn) as (-> & -> & ->). rewrite Hp.
      split_and!; try done.
      * intros k [Hk|Hk]; [by rewrite lookup_delete_ne|]. rewrite lookup_delete_ne; [done|]. by intros ->.
      * intros. apply lookup_delete_eq.
      * intros k Hk. destruct (decide (n = k)) as [->|]; [apply lookup_delete_eq|by rewrite lookup_delete_ne].
    + split_and!; try done. intros p' d' _ Hp' Hd' Hc'. simplify_eq.
  - cbn zeta. split_and!; try done. intros p d _ Hp Hd _. exfalso.
    assert (manager_Get m n = Some (p, d)); [|congruence]. apply manager_Get_Some. by rewrite Hn.
Qed.

Lemma remove_names_spec old new c m :
  (forall n, n ∈ old -> ToLower n = n) ->
  let m' := foldl (remove_name new c) m old in
  mg_heap m' = mg_heap m /\ mg_next m' = mg_next m /\
  (forall k, k ∉ old \/ k ∈ new -> mg_clusters m' !! k = mg_clusters m !! k) /\
  (forall k p d, k ∈ old -> k ∉ new -> mg_clusters m !! k = Some p -> mg_heap m !! p = Some d ->
     ci_Cluster d = ci_Cluster c -> mg_clusters m' !! k = None) /\
  (forall k, mg_clusters m !! k = None -> mg_clusters m' !! k = None).
Proof.
  revert m. induction old as [|n old IH]; intros m Hlow; cbn [foldl].
  { split_and!; try done. intros k p d Hk. by apply elem_of_nil in Hk. }
  destruct (remove_name_spec new c m n) as (E1 & E2 & E3 & E4 & E5); [apply Hlow; left|].
  set (m1 := remove_name new c m n) in *.
  destruct (IH m1) as (F1 & F2 & F3 & F4 & F5); [intros x Hx; apply Hlow; by right|].
  cbn zeta. rewrite F1, F2. split_and!; [done..| | |auto].
  - intros k Hk. rewrite F3, E3; [done| |]; set_solver.
  - intros k p d Hin Hnew Hp Hd Hc. destruct (decide (k = n)) as [->|Hne].
    + apply F5. by apply (E4 p d).
    + apply elem_of_cons in Hin as [?|Hin]; [done|].
      apply (F4 k p d); [done|done|by rewrite E3; auto|by rewrite E1|done].
Qed.

Lemma add_names_spec (old new : list string) p m :
  (forall n, n ∈ new -> ToLower n = n) ->
  let m' := foldl (add_name old p) m new in
  mg_heap m' = mg_heap m /\ mg_next m' = mg_next m /\
  forall k, mg_clusters m' !! k = if decide (k ∈ new /\ k ∉ old) then Some p else mg_clusters m !! k.
Proof.
  revert m. induction new as [|n new IH]; intros m Hlow; cbn [foldl].
  { by split_and!. }
  set (m1 := add_name old p m n).
  destruct (IH m1) as (F1 & F2 & F3); [intros x Hx; apply Hlow; by right|]. cbn zeta. rewrite F1, F2.
  assert (mg_heap m1 = mg_heap m /\ mg_next m1 = mg_next m /\ forall k, mg_clusters m1 !! k =
    if decide (k = n /\ n ∉ old) then Some p else mg_clusters m !! k) as (E1 & E2 & E3).
  { unfold m1, add_name. case_bool_decide as Hb.
    - split_and!; try done. intros k. rewrite decide_False; [done|]. by intros [_ ?].
    - split_and!; try done. intros k. cbn. rewrite (Hlow n) by left.
      destruct (decide (n = k)) as [<-|Hne].
      + by rewrite lookup_insert_eq, decide_True.
      + rewrite lookup_insert_ne, decide_False; [done| |done]. by intros [-> _]. }
  split_and!; [done..|]. intros k. rewrite F3, E3. repeat case_decide; try done; set_solver.
Qed.

(** Every other routed object is of another cluster. *)
Definition others m (p : Z) (c : ClusterInfo) : Prop :=
  forall k q, mg_clusters m !! k = Some q -> q <> p ->
  exists d, mg_heap m !! q = Some d /\ ci_Cluster d <> ci_Cluster c.

Lemma no_conflict m old c p k q :
  others m p c -> checkServerNameConflict m (ci_Cluster c) old (LoadServerNames c) = false ->
  old <> LoadServerNames c -> ToLower k = k -> k ∈ LoadServerNames c -> mg_clusters m !! k = Some q -> q = p.
Proof.
  intros Ho Hcf Hne Hk Hin Hq. destruct (decide (q = p)) as [|Hqp]; [done|exfalso].
  destruct (Ho k q Hq Hqp) as (d & Hd & Hdc). unfold checkServerNameConflict in Hcf.
  rewrite decide_False in Hcf by done. apply orb_false_iff in Hcf as [Hcf _].
  assert (existsb (conflicts m (ci_Cluster c)) (LoadServerNames c) = true); [|congruence].
  apply existsb_exists. exists k. split; [by apply list_elem_of_In|]. unfold conflicts.
  assert (manager_Get m k = Some (q, d)) as ->; [apply manager_Get_Some; by rewrite Hk|].
  by rewrite bool_decide_eq_false_2.
Qed.

(** When the names of the cluster are the ones that route to it, registering
    its new names makes exactly these route to it. *)
Lemma AddOrUpdate_spec m old p c m' :
  mg_heap m !! p = Some c -> ToLower (ci_Cluster c) = ci_Cluster c -> others m p c ->
  (forall k, k ∈ old -> ToLower k = k) -> (forall k, mg_clusters m !! k = Some p <-> k ∈ old) ->
  AddOrUpdateForServerNames m old p c = (m', false) ->
  mg_heap m' = mg_heap m /\ mg_next m' = mg_next m /\
  (forall k, mg_clusters m' !! k = Some p <-> k ∈ LoadServerNames c) /\
  (forall k q, q <> p -> mg_clusters m' !! k = Some q <-> mg_clusters m !! k = Some q).
Proof.
  intros Hp Hl Ho Hlow Hold. unfold AddOrUpdateForServerNames.
  destruct (decide (old = LoadServerNames c)) as [->|Hne].
  { intros [= <-]. by split_and!. }
  destruct (checkServerNameConflict _ _ _ _) eqn:Hcf; [done|].
  destruct (remove_names_spec old (LoadServerNames c) c m Hlow) as (F1 & F2 & F3 & F4 & _).
  set (m1 := foldl _ m old) in *.
  destruct (add_names_spec old (LoadServerNames c) p m1) as (G1 & G2 & G3).
  { intros n Hn. by apply (LoadServerNames_lower c). }
  cbn zeta. set (m2 := foldl _ m1 _) in *. clearbody m1 m2. intros [= <-]. rewrite G1, G2, F1, F2.
  assert (Hm : forall k, mg_clusters m2 !! k =
            if decide (k ∈ LoadServerNames c) then Some p
            else if decide (k ∈ old) then None else mg_clusters m !! k).
  { intros k. rewrite G3. destruct (decide (k ∈ LoadServerNames c)) as [Hn|Hn], (decide (k ∈ old)) as [Hk|Hk].
    - rewrite decide_False by tauto. rewrite F3 by auto. by apply Hold.
    - by rewrite decide_True.
    - rewrite decide_False by tauto. apply (F4 k p c Hk Hn); [by apply Hold|done|done].
    - rewrite decide_False by tauto. rewrite F3 by auto. done. }
  split_and!; [done|done|..]; intros k; [|intros q Hq]; rewrite Hm;
    destruct (decide (k ∈ LoadServerNames c)) as [Hn|Hn], (decide (k ∈ old)) as [Hk|Hk];
    try (apply Hold in Hk as Hkp); try solve [split; congruence].
  - rewrite Hold. tauto.
  - split; [congruence|]. intros Hmk. exfalso. apply Hq.
    by apply (no_conflict m old c p k q Ho Hcf Hne (LoadServerNames_lower c k Hl Hn) Hn).
Qed.

(** ** Consistency *)

Lemma routes_inv_update m m' p c :
  routes_inv m -> mg_heap m' !! p = Some c -> cluster_inv c -> ci_skipSyncEndpoints c = false ->
  ToLower (ci_Cluster c) = ci_Cluster c ->
  (forall k, mg_clusters m' !! k = Some p <-> k ∈ LoadServerNames c) ->
  (forall k q, q <> p -> mg_clusters m' !! k = Some q <-> mg_clusters m !! k = Some q) ->
  (forall q, q <> p -> mg_heap m' !! q = mg_heap m !! q) ->
  (forall q, is_Some (mg_heap m' !! q) -> q < mg_next m') ->
  routes_inv m'.
Proof.
  intros [Hr _] Hp Hinv Hskip Hl Hk Hq Hh Hn. split; [|done]. intros k q Hkq.
  destruct (decide (q = p)) as [->|Hne]; [by exists c|].
  rewrite (Hq k q Hne) in Hkq. destruct (Hr k q Hkq) as (d & Hd & Hdi & Hds & Hdl & Hdk).
  exists d. split_and!; [by rewrite Hh|done..|]. intros k'. by rewrite Hq.
Qed.

Lemma reflects_names cluster c :
  reflects cluster c -> ci_Cluster c = ToLower (uc_Name cluster) ->
  LoadServerNames c =
    ToLower (uc_Name cluster) :: (ToLower <$> ss_ServerNames (spec_SecureServing (uc_Spec cluster))).
Proof.
  intros [_ _ _ (cfg & Hs & Hcfg) _ _] Hn. unfold LoadServerNames. by rewrite Hs, Hcfg, Hn.
Qed.

Lemma new_cluster_inv name config healthCheck rl : cluster_inv (NewEmptyClusterInfo name config healthCheck rl).
Proof. split; [by split|]. done. Qed.

(** What a successful synchronisation leaves in the table. *)
Record routed m m' (cluster : UpstreamCluster) (p : Z) (c : ClusterInfo) : Prop := {
  rt_object : mg_heap m' !! p = Some c;
  rt_reflects : reflects cluster c;
  rt_name : ci_Cluster c = ToLower (uc_Name cluster);
  rt_names : forall k, mg_clusters m' !! k = Some p <->
    k ∈ ToLower (uc_Name cluster) :: (ToLower <$> ss_ServerNames (spec_SecureServing (uc_Spec cluster)));
  rt_others : forall k q, q <> p -> mg_clusters m' !! k = Some q <-> mg_clusters m !! k = Some q;
  rt_kept : forall q, q <> p -> mg_heap m' !! q = mg_heap m !! q;
  rt_old : forall d, mg_heap m !! p = Some d -> ci_Cluster d = ToLower (uc_Name cluster)
}.

Lemma register_routed m m1 m' cluster old p c :
  routes_inv m -> mg_clusters m1 = mg_clusters m -> mg_heap m1 = <[p := c]> (mg_heap m) ->
  mg_next m <= mg_next m1 -> p < mg_next m1 ->
  reflects cluster c -> ci_skipSyncEndpoints c = false -> ci_Cluster c = ToLower (uc_Name cluster) ->
  others m p c -> (forall k, k ∈ old -> ToLower k = k) -> (forall k, mg_clusters m !! k = Some p <-> k ∈ old) ->
  (forall d, mg_heap m !! p = Some d -> ci_Cluster d = ToLower (uc_Name cluster)) ->
  AddOrUpdateForServerNames m1 old p c = (m', false) ->
  routes_inv m' /\ routed m m' cluster p c.
Proof.
  intros Hr Ht Hh Hnx Hpx Href Hskip Hname Ho Hlow Hold Hsame Hadd.
  assert (ToLower (ci_Cluster c) = ci_Cluster c) as Hl by (rewrite Hname; apply ToLower_idem).
  assert (others m1 p c) as Ho1.
  { intros k q. rewrite Ht, Hh. intros Hk Hq. rewrite lookup_insert_ne by done. by apply (Ho k). }
  destruct (AddOrUpdate_spec m1 old p c m') as (A1 & A2 & A3 & A4); try done.
  { rewrite Hh. apply lookup_insert_eq. }
  { by rewrite Ht. }
  rewrite Hh in A1. rewrite Ht in A4. rewrite (reflects_names cluster c Href Hname) in A3.
  assert (forall q, q <> p -> mg_heap m' !! q = mg_heap m !! q) as Hother.
  { intros q Hq. by rewrite A1, lookup_insert_ne. }
  assert (mg_heap m' !! p = Some c) as Hp by (rewrite A1; apply lookup_insert_eq).
  split; [|by split]. apply (routes_inv_update m m' p c); try done.
  - apply Href.
  - intros k. rewrite A3. by rewrite (reflects_names cluster c).
  - intros q Hq. rewrite A2. destruct (decide (q = p)) as [->|Hne]; [done|].
    rewrite Hother in Hq by done. apply (ri_next m Hr) in Hq. lia.
Qed.

Lemma others_new m name c :
  routes_inv m -> manager_Get m (ToLower name) = None -> ci_Cluster c = ToLower name -> others m (mg_next m) c.
Proof.
  intros Hr Hg Hc k q Hk _. destruct (ri_serves m Hr k q Hk) as (d & Hd & _ & _ & Hl & Hn).
  exists d. split; [done|]. intros Heq. pose proof (proj2 (Hn _) (Cluster_in_names d)) as Hcl.
  assert (manager_Get m (ToLower name) = Some (q, d)); [|congruence].
  apply manager_Get_Some. by rewrite <-Hc, <-Heq, Hl.
Qed.

Lemma others_old m k p c c' :
  routes_inv m -> mg_clusters m !! k = Some p -> mg_heap m !! p = Some c -> ci_Cluster c' = ci_Cluster c ->
  others m p c'.
Proof.
  intros Hr Hk Hp Hc k' q Hk' Hq. destruct (ri_serves m Hr k' q Hk') as (d & Hd & _).
  exists d. split; [done|]. rewrite Hc. intros Heq. apply Hq. by apply (routes_unique m k' k q p d c).
Qed.

(** An object that passes the check is not routed to another cluster. *)
Lemma unconflicted_name m cluster p c :
  checkUpstreamServerNameConflict m cluster = false ->
  manager_Get m (ToLower (uc_Name cluster)) = Some (p, c) -> ci_Cluster c = ToLower (uc_Name cluster).
Proof.
  unfold checkUpstreamServerNameConflict, checkServerNameConflict. intros Hcf Hg. rewrite Hg in Hcf.
  case_decide as Heq; [by injection Heq|]. apply orb_false_iff in Hcf as [Hcf _].
  cbn [existsb] in Hcf. apply orb_false_iff in Hcf as [Hcf _]. unfold conflicts in Hcf. rewrite Hg in Hcf.
  by apply negb_false_iff, bool_decide_eq_true_1 in Hcf.
Qed.

Lemma sync_routes rateLimiter config m cluster m' :
  routes_inv m -> paired (spec_SecureServing (uc_Spec cluster)) ->
  syncUpstreamCluster transport_ok rateLimiter config Found m cluster = (m', Synced) ->
  routes_inv m' /\ exists p c, routed m m' cluster p c.
Proof.
  intros Hr Hp. unfold syncUpstreamCluster.
  destruct (checkUpstreamServerNameConflict m cluster) eqn:Hcf; [done|].
  destruct (manager_Get m (ToLower (uc_Name cluster))) as [[p c]|] eqn:Hg.
  - pose proof Hg as [Hk Hc]%manager_Get_Some.
    destruct (ri_serves m Hr _ p Hk) as (c0 & Hc0 & Hinv & Hskip & Hl & Hn).
    assert (c0 = c) as -> by congruence.
    assert (ci_Cluster c = ToLower (uc_Name cluster)) as Hname.
    { by apply (unconflicted_name m cluster p c). }
    pose proof (Sync_kept transport_ok c cluster) as Hkept.
    destruct (ClusterInfo_Sync transport_ok c cluster) as [c' [e|]] eqn:Hs; [done|]. injection Hkept as Hk1 Hk2.
    destruct (AddOrUpdateForServerNames _ _ _ _) as [m2 []] eqn:Ha; [done|]. intros [= <-].
    destruct (register_routed m (write_heap m p c') m2 cluster (LoadServerNames c) p c') as [Hr2 Hrt];
      try done.
    + apply (ri_next m Hr). by exists c.
    + by apply (Sync_reflects transport_ok c).
    + congruence.
    + congruence.
    + by apply (others_old m _ p c c' Hr Hk).
    + intros k. by apply LoadServerNames_lower.
    + intros d Hd. congruence.
    + split; [done|]. by exists p, c'.
  - unfold CreateClusterInfo. destruct config; [|done].
    pose proof (Sync_kept transport_ok (NewEmptyClusterInfo (uc_Name cluster) true true rateLimiter) cluster) as Hkept.
    destruct (ClusterInfo_Sync _ _ cluster) as [c' [e|]] eqn:Hs; [done|]. injection Hkept as Hk1 Hk2.
    cbn [alloc]. destruct (AddOrUpdateForServerNames _ _ _ _) as [m2 []] eqn:Ha; [done|]. intros [= <-].
    destruct (register_routed m (fst (alloc m c')) m2 cluster [] (mg_next m) c') as [Hr2 Hrt]; try done.
    + cbn. lia.
    + cbn. lia.
    + eapply (Sync_reflects transport_ok); [apply new_cluster_inv|..|exact Hs]; done.
    + by apply (others_new m (uc_Name cluster)).
    + intros k Hk. by apply elem_of_nil in Hk.
    + intros k. rewrite elem_of_nil. split; [|done]. intros Hk.
      destruct (ri_serves m Hr k _ Hk) as (d & Hd & _). pose proof (ri_next m Hr (mg_next m)) as Hlt.
      rewrite Hd in Hlt. specialize (Hlt (mk_is_Some _ _ eq_refl)). lia.
    + intros d Hd. apply mk_is_Some, (ri_next m Hr) in Hd. lia.
    + split; [done|]. by exists (mg_next m), c'.
Qed.

(** After a successful synchronisation of an UpstreamCluster object the
    table of the proxy is consistent again; the object of the cluster holds
    what the UpstreamCluster says; exactly its name and server names, in lower
    case, route to it; and the routes of every other cluster are as before. *)
Theorem syncUpstreamCluster_routes rateLimiter config m cluster m' :
  routes_inv m -> paired (spec_SecureServing (uc_Spec cluster)) ->
  syncUpstreamCluster transport_ok rateLimiter config Found m cluster = (m', Synced) ->
  routes_inv m' /\ exists p c, routed m m' cluster p c.
Proof. apply sync_routes. Qed.

(** ** Deletion *)

Lemma cluster_route m k q c :
  routes_inv m -> mg_clusters m !! k = Some q -> mg_heap m !! q = Some c ->
  mg_clusters m !! ci_Cluster c = Some q /\ ToLower (ci_Cluster c) = ci_Cluster c.
Proof.
  intros Hr Hk Hq. destruct (ri_serves m Hr k q Hk) as (d & Hd & _ & _ & Hl & Hn).
  assert (d = c) as -> by congruence. split; [|done]. apply Hn, Cluster_in_names.
Qed.

Lemma delete_names_spec l m p d :
  (forall n, n ∈ l -> ToLower n = n) -> mg_heap m !! p = Some d ->
  (forall n, n ∈ l -> mg_clusters m !! n = Some p \/ mg_clusters m !! n = None) ->
  let m' := foldl (delete_name (ci_Cluster d)) m l in
  (forall k, mg_clusters m' !! k = if decide (k ∈ l) then None else mg_clusters m !! k) /\
  mg_next m' = mg_next m /\
  (mg_heap m' = mg_heap m /\ (forall n, n ∈ l -> mg_clusters m !! n = None) \/
   mg_heap m' = <[p := ClusterInfo_Stop d]> (mg_heap m)).
Proof.
  revert m d. induction l as [|n l IH]; intros m d Hlow Hp Hl; cbn [foldl].
  { cbn zeta. split_and!; [done|done|]. left. split; [done|]. intros n Hn. by apply elem_of_nil in Hn. }
  assert (Hlow' : forall x, x ∈ l -> ToLower x = x) by (intros x Hx; apply Hlow; by right).
  assert (ToLower n = n) as Hn by (apply Hlow; left).
  destruct (Hl n) as [Hr|Hr]; [left|..].
  - assert (delete_name (ci_Cluster d) m n = doDelete m n true) as ->.
    { unfold delete_name.
      assert (manager_Get m n = Some (p, d)) as -> by (apply manager_Get_Some; by rewrite Hn).
      by rewrite decide_True. }
    destruct (doDelete_spec m n true Hn) as (D1 & D2 & D3). rewrite Hr in D3.
    assert (mg_heap (doDelete m n true) = <[p := ClusterInfo_Stop d]> (mg_heap m)) as D3'.
    { rewrite D3. apply map_eq. intros q. destruct (decide (p = q)) as [<-|Hq].
      - by rewrite lookup_alter_eq, Hp, lookup_insert_eq.
      - by rewrite lookup_alter_ne, lookup_insert_ne. }
    destruct (IH (doDelete m n true) (ClusterInfo_Stop d)) as (I1 & I2 & I3); [done|..].
    { rewrite D3'. apply lookup_insert_eq. }
    { intros x Hx. rewrite D1. destruct (decide (n = x)) as [<-|Hne]; [right; apply lookup_delete_eq|].
      rewrite lookup_delete_ne by done. apply Hl. by right. }
    change (ci_Cluster (ClusterInfo_Stop d)) with (ci_Cluster d) in *. cbn zeta. split_and!.
    + intros k. rewrite I1, D1. destruct (decide (n = k)) as [<-|Hne].
      * rewrite lookup_delete_eq, (decide_True (P := n ∈ n :: l)) by left. by case_decide.
      * rewrite lookup_delete_ne by done. repeat case_decide; try done; set_solver.
    + exact (eq_trans I2 D2).
    + right. destruct I3 as [[I3 _]|I3]; [exact (eq_trans I3 D3')|].
      rewrite D3', insert_insert_eq in I3. exact I3.
  - assert (delete_name (ci_Cluster d) m n = m) as ->.
    { unfold delete_name. destruct (manager_Get m n) as [[q d']|] eqn:Hg; [|done].
      apply manager_Get_Some in Hg as [Hg _]. congruence. }
    destruct (IH m d) as (I1 & I2 & I3); [done|done|intros x Hx; apply Hl; by right|]. cbn zeta. split_and!.
    + intros k. rewrite I1. repeat case_decide; try done; [set_solver|].
      assert (k = n) as -> by set_solver. done.
    + done.
    + destruct I3 as [[I3 I4]|I3]; [left|by right]. split; [done|].
      intros x [->|Hx]%elem_of_cons; [done|by apply I4].
Qed.

Lemma delete_names_other l m p d cn :
  ci_Cluster d <> cn -> mg_heap m !! p = Some d -> (forall n, n ∈ l -> ToLower n = n /\ mg_clusters m !! n = Some p) ->
  foldl (delete_name cn) m l = m.
Proof.
  intros Hne Hp. induction l as [|n l IH]; intros Hl; [done|]. cbn [foldl]. unfold delete_name at 2.
  destruct (Hl n) as [Hn Hr]; [left|].
  assert (manager_Get m n = Some (p, d)) as -> by (apply manager_Get_Some; by rewrite Hn).
  rewrite decide_False by done. apply IH. intros x Hx. apply Hl. by right.
Qed.

Lemma deleted_inv m m' p d :
  routes_inv m -> serves m p d -> mg_next m' = mg_next m ->
  mg_heap m' = <[p := ClusterInfo_Stop d]> (mg_heap m) ->
  (forall k, mg_clusters m' !! k = if decide (k ∈ LoadServerNames d) then None else mg_clusters m !! k) ->
  routes_inv m' /\
  (forall k q, mg_clusters m' !! k = Some q <-> mg_clusters m !! k = Some q /\ q <> p).
Proof.
  intros Hr (Hp & _ & _ & _ & Hn) Hnx Hh Ht.
  assert (Hiff : forall k q, mg_clusters m' !! k = Some q <-> mg_clusters m !! k = Some q /\ q <> p).
  { intros k q. rewrite Ht. destruct (decide (k ∈ LoadServerNames d)) as [Hk|Hk].
    - apply Hn in Hk. naive_solver.
    - split; [|by intros [? _]]. intros Hq. split; [done|]. intros ->. by apply Hk, Hn. }
  split; [|exact Hiff]. split.
  - intros k q [Hk Hq]%Hiff. destruct (ri_serves m Hr k q Hk) as (c & Hc & Hi & Hs & Hl & Hnm).
    exists c. split_and!; [by rewrite Hh, lookup_insert_ne|done..|]. intros k'. rewrite Hiff, Hnm. tauto.
  - intros q. rewrite Hh, Hnx, lookup_insert_is_Some'. intros [<-|Hq]; apply (ri_next m Hr); [by exists d|done].
Qed.

Lemma sync_deletes rateLimiter config m cluster :
  routes_inv m ->
  exists m', syncUpstreamCluster transport_ok rateLimiter config Missing m cluster = (m', Synced) /\
  routes_inv m' /\
  (forall k q, mg_clusters m' !! k = Some q -> mg_clusters m !! k = Some q) /\
  forall k q c, mg_clusters m !! k = Some q -> mg_heap m !! q = Some c ->
    if decide (ci_Cluster c = ToLower (uc_Name cluster))
    then mg_clusters m' !! k = None /\ mg_heap m' !! q = Some (ClusterInfo_Stop c)
    else mg_clusters m' !! k = Some q /\ mg_heap m' !! q = Some c.
Proof.
  intros Hr. eexists. split; [reflexivity|]. set (cn := ToLower (uc_Name cluster)).
  assert (ToLower cn = cn) as Hcn by apply ToLower_idem.
  unfold DeleteForServerNames. destruct (manager_Get m cn) as [[p d]|] eqn:Hg.
  - apply manager_Get_Some in Hg as [Hp Hd]. rewrite Hcn in Hp.
    destruct (ri_serves m Hr cn p Hp) as (d0 & Hsv). assert (d0 = d) as -> by (destruct Hsv; congruence).
    pose proof Hsv as (_ & _ & _ & Hl & Hn).
    assert (forall n, n ∈ LoadServerNames d -> ToLower n = n) as Hlow by (intros n; by apply LoadServerNames_lower).
    destruct (decide (ci_Cluster d = cn)) as [Heq|Hne].
    + rewrite <-Heq. destruct (delete_names_spec (LoadServerNames d) m p d) as (T1 & T2 & T3); try done.
      { intros n Hin. left. by apply Hn. }
      destruct T3 as [[_ T3]|T3]; [exfalso; specialize (T3 _ (Cluster_in_names d)); congruence|].
      set (m' := foldl _ m _) in *. clearbody m'.
      destruct (deleted_inv m m' p d Hr Hsv T2 T3 T1) as [Hr' Hiff]. split; [done|].
      split; [intros k q; rewrite T1; by case_decide|]. intros k q c Hk Hq. case_decide as Hc.
      * assert (q = p) as -> by (apply (routes_unique m k cn q p c d); done).
        assert (c = d) as -> by congruence. rewrite T1, T3, lookup_insert_eq.
        rewrite decide_True by (by apply Hn). done.
      * assert (q <> p) as Hqp by (intros ->; congruence).
        split; [by apply Hiff|]. by rewrite T3, lookup_insert_ne.
    + rewrite (delete_names_other _ m p d); [|done|done|intros n Hin; split; [by apply Hlow|by apply Hn]].
      split; [done|]. split; [done|]. intros k q c Hk Hq. rewrite decide_False; [done|]. intros Hc.
      destruct (cluster_route m k q c Hr Hk Hq) as [Hk' _]. rewrite Hc in Hk'. congruence.
  - split; [done|]. split; [done|]. intros k q c Hk Hq. rewrite decide_False; [done|]. intros Hc.
    destruct (cluster_route m k q c Hr Hk Hq) as [Hk' _]. rewrite Hc in Hk'.
    assert (manager_Get m cn = Some (q, c)); [|congruence]. apply manager_Get_Some. by rewrite Hcn.
Qed.
(** When an UpstreamCluster object is gone, its synchronisation succeeds;
    afterwards no name routes to its cluster, every name of another cluster
    routes to the same, unchanged object as before, the cluster itself is
    stopped, and the table is consistent. *)
Theorem syncUpstreamCluster_deletes rateLimiter config m cluster :
  routes_inv m ->
  exists m', syncUpstreamCluster transport_ok rateLimiter config Missing m cluster = (m', Synced) /\
  routes_inv m' /\
  forall k q c, mg_clusters m !! k = Some q -> mg_heap m !! q = Some c ->
    if decide (ci_Cluster c = ToLower (uc_Name cluster))
    then mg_clusters m' !! k = None /\ mg_heap m' !! q = Some (ClusterInfo_Stop c)
    else mg_clusters m' !! k = Some q /\ mg_heap m' !! q = Some c.
Proof.
  intros Hr. destruct (sync_deletes rateLimiter config m cluster Hr) as (m' & Hs & Hr' & _ & Hk). by exists m'.
Qed.
End controller_lemmas.

(** * A concrete table *)

Module ControllerExample.
#[local] Existing Instance ClusterExample.limiter.
#[local] Existing Instance ClusterExample.one_gate.
#[local] Existing Instance ClusterExample.text_certificates.
#[local] Existing Instance ascii_only_lower.
#[local] Existing Instance sorted_range.

(** Transports cannot be made for one address. *)
Definition reachable (ep : string) : bool := negb (bool_decide (ep = "https://bad")).

Definition cluster (servers names : list string) : UpstreamCluster :=
  MkCluster "C1" None
    (MkSpec ((fun ep => MkServer ep None) <$> servers) (MkClientConfig true "token" "" "" "" 0 0 0 "")
       (MkSecureServing "" "" "" names) (MkFlowControl []) [] (MkLogging "")).

Definition empty_manager : manager := MkManager ∅ ∅ 0.

Lemma empty_routes : routes_inv empty_manager.
Proof. split; [intros k p Hk|intros p [c Hp]]; discriminate. Qed.

Definition sync (m : manager) (servers names : list string) : manager * sync_result :=
  syncUpstreamCluster reachable "" true Found m (cluster servers names).

Definition first : manager := fst (sync empty_manager ["https://a"] ["c1.example.com"]).

Definition routed_names (m : manager) : list string := fst <$> Range (mg_clusters m).

Lemma first_synced : sync empty_manager ["https://a"] ["c1.example.com"] = (first, Synced).
Proof. vm_compute. reflexivity. Qed.

Lemma first_routes : routes_inv first.
Proof.
  apply (sync_routes reachable "" true empty_manager (cluster ["https://a"] ["c1.example.com"]));
    [exact empty_routes|split; reflexivity|exact first_synced].
Qed.

(** A cluster whose first synchronisation fails is never created: the
    deferred clean-up calls [Stop] on a nil pointer. *)
Example create_error_panics : snd (sync empty_manager ["https://bad"] []) = Panicked.
Proof. vm_compute. reflexivity. Qed.

(** A synchronisation that fails after the serving configuration was stored
    loses its new server names: the next one, which succeeds, takes them for
    registered. *)
Definition failed : manager := fst (sync first ["https://a"; "https://bad"] ["c1.example.com"; "new.example.com"]).
Definition retried : manager * sync_result := sync failed ["https://a"] ["c1.example.com"; "new.example.com"].

Example server_names_lost :
  snd retried = Synced /\
  (LoadServerNames <$> mg_heap (fst retried) !! 0) = Some ["c1"; "c1.example.com"; "new.example.com"] /\
  routed_names (fst retried) = ["c1.example.com"; "c1"].
Proof. vm_compute. split_and!; reflexivity. Qed.
End ControllerExample.

Section controller_witnesses.
Import ControllerExample.
#[local] Existing Instance ClusterExample.limiter.
#[local] Existing Instance ClusterExample.one_gate.
#[local] Existing Instance ClusterExample.text_certificates.
#[local] Existing Instance ascii_only_lower.
#[local] Existing Instance sorted_range.

Lemma syncUpstreamCluster_routes_witness :
  exists p c, routed empty_manager first (ControllerExample.cluster ["https://a"] ["c1.example.com"]) p c.
Proof.
  refine (proj2 (syncUpstreamCluster_routes reachable "" true empty_manager
    (ControllerExample.cluster ["https://a"] ["c1.example.com"]) first _ _ _)).
  - exact empty_routes.
  - split; reflexivity.
  - exact first_synced.
Defined.

Lemma syncUpstreamCluster_deletes_witness :
  exists m', syncUpstreamCluster reachable "" true Missing first (ControllerExample.cluster [] []) = (m', Synced) /\
  mg_clusters m' !! "c1.example.com" = None.
Proof.
  destruct (syncUpstreamCluster_deletes reachable "" true first (ControllerExample.cluster [] []) first_routes)
    as (m' & Hs & _ & Hk).
  exists m'. split; [exact Hs|].
  destruct (mg_heap first !! 0) as [c|] eqn:Hc; [|vm_compute in Hc; discriminate].
  specialize (Hk "c1.example.com" 0 c eq_refl Hc).
  rewrite decide_True in Hk; [exact (proj1 Hk)|].
  assert (ci_Cluster <$> mg_heap first !! 0 = Some "c1") as Hn by (vm_compute; reflexivity).
  rewrite Hc in Hn. injection Hn as Hn. exact Hn.
Defined.
End controller_witnesses.
