(* ===== verification/Delegation.v ===== *)
(** Authentication and authorization by the upstream clusters: tokens are
    reviewed ([pkg/gateway/authentication/token/webhook/tokenreview.go]) and
    access is reviewed
    ([pkg/gateway/authorization/webhook/subjectaccessreview.go]) by an
    endpoint of the cluster the host of a request names
    ([pkg/clusters/clientprovider.go]), and answers are cached by host.

    The caches of k8s.io/apimachinery and k8s.io/apiserver, JSON encoding and
    the reviews the endpoints answer are parameters.  Of a cache it is only
    assumed that what it returns was put in and is not expired. *)
From stdpp Require Import base tactics list strings gmap relations.
From Stdlib Require Import ZArith Lia.
From S2P Require Import Prelude Http ApiTypes Matching Clusters Controller Impersonation.

Local Open Scope Z_scope.
Local Open Scope go_scope.

(** * Caches *)

(** [cache.LRUExpireCache].  [lru_holds c k v e]: the cache has [v] under [k]
    until [e]. *)
Class LRUExpireCache (V : Type) := {
  lru : Type;
  lru_New : Z -> lru;
  lru_Get : Z -> lru -> string -> lru * option V;
  lru_Add : Z -> lru -> string -> V -> Z -> lru;
  lru_holds : lru -> string -> V -> Z -> Prop;
  lru_New_holds : forall n k v e, lru_holds (lru_New n) k v e -> False;
  lru_Get_holds : forall now c k' k v e, lru_holds (lru_Get now c k').1 k v e -> lru_holds c k v e;
  lru_Add_holds : forall now c k' v' ttl k v e, lru_holds (lru_Add now c k' v' ttl) k v e ->
    lru_holds c k v e \/ (k = k' /\ v = v' /\ e = now + ttl);
  lru_Get_Some : forall now c k v, (lru_Get now c k).2 = Some v -> exists e, lru_holds c k v e /\ now <= e
}.

(** [tokencache.New]: an authenticator that asks [fetch] when it has no answer.
    [None] says that the token is not valid.  [tc_holds c t v e]: the cache
    has the answer [v] for the token [t] until [e]. *)
Class TokenCache (V : Type) := {
  tokencache : Type;
  tc_New : Z -> Z -> tokencache;
  tc_Authenticate : forall {S : Type}, Z -> tokencache -> (S -> S * (string + option V)) -> string -> S ->
    S * tokencache * (string + option V);
  tc_holds : tokencache -> string -> option V -> Z -> Prop;
  tc_New_holds : forall s f t v e, tc_holds (tc_New s f) t v e -> False;
  (* The lives of answers are those the cache was made with. *)
  tc_success : tokencache -> Z;
  tc_failure : tokencache -> Z;
  tc_New_success : forall s f, tc_success (tc_New s f) = s;
  tc_New_failure : forall s f, tc_failure (tc_New s f) = f;
  tc_Authenticate_spec : forall {S : Type} now c (fetch : S -> S * (string + option V)) t s s' c' a,
    tc_Authenticate now c fetch t s = (s', c', a) ->
    tc_success c' = tc_success c /\ tc_failure c' = tc_failure c /\
    ((s', a) = fetch s /\
     (forall t' v e, tc_holds c' t' v e -> tc_holds c t' v e \/
        (t' = t /\ a = inr v /\ e = now + match v with Some _ => tc_success c | None => tc_failure c end))
     \/ s' = s /\ (forall t' v e, tc_holds c' t' v e -> tc_holds c t' v e) /\
        exists v e, a = inr v /\ tc_holds c t v e /\ now <= e)
}.

(** * Reviews of access *)

(** What [authorizer.Attributes] answers, and the user with its id; an absent
    map of extra values is [None]. *)
Record review_user := MkReviewUser {
  ru_Name : string;
  ru_UID : string;
  ru_Groups : list string;
  ru_Extra : option (gmap string (list string))
}.

Record review_attributes := MkReviewAttributes {
  rv_User : option review_user;
  rv_Verb : string;
  rv_Namespace : string;
  rv_APIGroup : string;
  rv_APIVersion : string;
  rv_Resource : string;
  rv_Subresource : string;
  rv_Name : string;
  rv_Path : string;
  rv_IsResourceRequest : bool
}.

Record ResourceAttributes := MkResourceAttributes {
  rat_Namespace : string;
  rat_Verb : string;
  rat_Group : string;
  rat_Version : string;
  rat_Resource : string;
  rat_Subresource : string;
  rat_ResourceName : string
}.

Record NonResourceAttributes := MkNonResourceAttributes {
  na_Path : string;
  na_Verb : string
}.

Record SubjectAccessReviewSpec := MkReviewSpec {
  sp_ResourceAttributes : option ResourceAttributes;
  sp_NonResourceAttributes : option NonResourceAttributes;
  sp_User : string;
  sp_Groups : list string;
  sp_Extra : option (gmap string (list string));
  sp_UID : string
}.

Record SubjectAccessReviewStatus := MkReviewStatus {
  st_Allowed : bool;
  st_Denied : bool;
  st_Reason : string
}.

Inductive authz_decision := DecisionDeny | DecisionAllow | DecisionNoOpinion.

(** The values of a map are copied one by one. *)
Definition convertToSARExtra `{MapRange} (extra : option (gmap string (list string)))
    : option (gmap string (list string)) :=
  (fun m => foldl (fun ret '(k, v) => <[k := v]> ret) ∅ (Range m)) <$> extra.

Definition subjectAccessReviewFromAttributes `{MapRange} (attr : review_attributes) : SubjectAccessReviewSpec :=
  let '(user, uid, groups, extra) :=
    match rv_User attr with
    | Some u => (ru_Name u, ru_UID u, ru_Groups u, convertToSARExtra (ru_Extra u))
    | None => ("", "", [], None)
    end in
  if rv_IsResourceRequest attr then
    MkReviewSpec (Some (MkResourceAttributes (rv_Namespace attr) (rv_Verb attr) (rv_APIGroup attr)
        (rv_APIVersion attr) (rv_Resource attr) (rv_Subresource attr) (rv_Name attr))) None user groups extra uid
  else
    MkReviewSpec None (Some (MkNonResourceAttributes (rv_Path attr) (rv_Verb attr))) user groups extra uid.

Definition maxControlledAttrCacheSize : Z := 10000.

Definition go_len (s : string) : Z := Z.of_nat (String.length s).

Definition shouldCache (attr : review_attributes) : bool :=
  go_len (rv_Namespace attr) + go_len (rv_Verb attr) + go_len (rv_APIGroup attr) + go_len (rv_APIVersion attr) +
  go_len (rv_Resource attr) + go_len (rv_Subresource attr) + go_len (rv_Name attr) + go_len (rv_Path attr)
  <? maxControlledAttrCacheSize.

(** The answer of a review. *)
Definition review_decision (s : SubjectAccessReviewStatus) : authz_decision * string * option string :=
  if st_Denied s && st_Allowed s then
    (DecisionDeny, st_Reason s, Some "webhook subject access review returned both allow and deny response")
  else if st_Denied s then (DecisionDeny, st_Reason s, None)
  else if st_Allowed s then (DecisionAllow, st_Reason s, None)
  else (DecisionNoOpinion, st_Reason s, None).

Section delegation.
Context `{UpstreamLimiter} `{FeatureGates} `{Certificates} `{UnicodeLower} `{MapRange}.
Context `{!LRUExpireCache SubjectAccessReviewStatus} `{!TokenCache UserInfo}.

(** [json.Marshal] of a review; what an endpoint answers a review of access
    (after the retries of [webhook.WithExponentialBackoff]) and of a token,
    errors on the left, at a time. *)
Context (Marshal : SubjectAccessReviewSpec -> option string).
Context (review : Z -> Endpoint_Info -> SubjectAccessReviewSpec -> string + SubjectAccessReviewStatus).
Context (token_review : Z -> Endpoint_Info -> string -> string + option UserInfo).

(** ** The client of a cluster *)

Inductive client_for_error := ErrClusterNotFound (name : string) | ErrPick (e : pick_error).

(** [ClientFor]: the cluster a name routes to and the endpoint picked of it. *)
Definition manager_ClientFor (m : manager) (name : string)
    : manager * (client_for_error + Z * Endpoint_Info) :=
  match manager_Get m name with
  | None => (m, inl (ErrClusterNotFound name))
  | Some (p, cluster) =>
      let '(cluster, picked) := PickOne cluster in
      (write_heap m p cluster,
       match picked with inl e => inl (ErrPick e) | inr endpoint => inr (p, endpoint) end)
  end.

(** ** Access *)

(** The authorizer: a cache per host, and the goroutines that wait for a
    cluster to stop to drop the cache of a host. *)
Record access_authorizer := MkAuthorizer {
  az_allowCacheTTL : Z;
  az_denyCacheTTL : Z;
  az_caches : gmap string lru;
  az_watchers : list (string * Z)
}.

Definition decisionOnError : authz_decision := DecisionDeny.

Definition NewMultiClusterSubjectAccessReviewAuthorizer (allowCacheTTL denyCacheTTL : Z) : access_authorizer :=
  MkAuthorizer allowCacheTTL denyCacheTTL ∅ [].

Definition az_with_cache (a : access_authorizer) (host : string) (c : lru) : access_authorizer :=
  MkAuthorizer (az_allowCacheTTL a) (az_denyCacheTTL a) (<[host := c]> (az_caches a)) (az_watchers a).

(** The cache of a host; a new one is watched. *)
Definition host_cache (a : access_authorizer) (host : string) (p : Z) : access_authorizer * lru :=
  match az_caches a !! host with
  | Some c => (a, c)
  | None =>
      let c := lru_New 8192 in
      (MkAuthorizer (az_allowCacheTTL a) (az_denyCacheTTL a) (<[host := c]> (az_caches a))
         ((host, p) :: az_watchers a), c)
  end.

(** A watcher whose cluster stopped drops the cache of its host. *)
Definition watch_done (m : manager) (a : access_authorizer) (i : nat) : access_authorizer :=
  match az_watchers a !! i with
  | Some (host, p) =>
      if default false (ci_stopped <$> mg_heap m !! p) then
        MkAuthorizer (az_allowCacheTTL a) (az_denyCacheTTL a) (delete host (az_caches a))
          (take i (az_watchers a) ++ drop (Datatypes.S i) (az_watchers a))
      else a
  | None => a
  end.

(** A review an endpoint answered. *)
Record reviewed := MkReviewed {
  rw_time : Z;
  rw_host : string;
  rw_cluster : Z;
  rw_endpoint : Endpoint_Info;
  rw_spec : SubjectAccessReviewSpec;
  rw_status : SubjectAccessReviewStatus
}.

Record authorize_result := MkAuthorizeResult {
  ar_decision : authz_decision;
  ar_reason : string;
  ar_error : option string;
  ar_reviewed : option reviewed
}.

Definition denied (err : string) : authorize_result := MkAuthorizeResult decisionOnError "" (Some err) None.

Definition decided (s : SubjectAccessReviewStatus) (made : option reviewed) : authorize_result :=
  let '(decision, reason, err) := review_decision s in MkAuthorizeResult decision reason err made.

Definition client_message (e : client_for_error) : string :=
  match e with
  | ErrClusterNotFound name => "cluster " +:+ name +:+ ": cluster not found"
  | ErrPick _ => "no ready endpoints"
  end.

Definition Authorize (now : Z) (m : manager) (a : access_authorizer) (hostname : option string)
    (attr : review_attributes) : manager * access_authorizer * authorize_result :=
  match hostname with
  | None => (m, a, denied "failed to get request host from context")
  | Some host =>
      match manager_ClientFor m host with
      | (m, inl e) => (m, a, denied (client_message e))
      | (m, inr (p, client)) =>
          let '(a, cache) := host_cache a host p in
          let spec := subjectAccessReviewFromAttributes attr in
          match Marshal spec with
          | None => (m, a, denied "json")
          | Some key =>
              match lru_Get now cache key with
              | (cache, Some entry) => (m, az_with_cache a host cache, decided entry None)
              | (cache, None) =>
                  match review now client spec with
                  | inl e => (m, az_with_cache a host cache, denied e)
                  | inr status =>
                      let cache :=
                        if shouldCache attr then
                          lru_Add now cache key status
                            (if st_Allowed status then az_allowCacheTTL a else az_denyCacheTTL a)
                        else cache in
                      (m, az_with_cache a host cache,
                       decided status (Some (MkReviewed now host p client spec status)))
                  end
              end
          end
      end
  end.

(** ** Tokens *)

Record token_authenticator := MkTokenAuthenticator {
  ta_tokenSuccessCacheTTL : Z;
  ta_tokenFailureCacheTTL : Z;
  ta_caches : gmap string tokencache;
  ta_watchers : list (string * Z)
}.

Definition NewMultiClusterTokenReviewAuthenticator (success failure : Z) : token_authenticator :=
  MkTokenAuthenticator success failure ∅ [].

(** A review of a token an endpoint answered. *)
Record token_reviewed := MkTokenReviewed {
  tr_time : Z;
  tr_host : string;
  tr_cluster : Z;
  tr_endpoint : Endpoint_Info;
  tr_token : string;
  tr_answer : option UserInfo
}.

(** The manager, and the reviews of tokens made so far, each with the manager
    of its time. *)
Definition token_world : Type := manager * list (manager * token_reviewed).

Definition authenticateTokenForHost (now : Z) (host token : string) (s : token_world)
    : token_world * (string + option UserInfo) :=
  let '(m0, made) := s in
  match manager_ClientFor m0 host with
  | (m, inl e) => (m, made, inl (client_message e))
  | (m, inr (p, client)) =>
      match token_review now client token with
      | inl e => (m, made, inl e)
      | inr answer => (m, (m0, MkTokenReviewed now host p client token answer) :: made, inr answer)
      end
  end.

Definition AuthenticateToken (now : Z) (s : token_world) (a : token_authenticator)
    (hostname : option string) (token : string)
    : token_world * token_authenticator * (string + option UserInfo) :=
  match hostname with
  | None => (s, a, inl "failed to get extra request info from context")
  | Some host =>
      let '(m, made) := s in
      match manager_ClientFor m host with
      | (m, inl e) => (m, made, a, inl (client_message e))
      | (m, inr (p, _)) =>
          let fetch := authenticateTokenForHost now host token in
          if (ta_tokenFailureCacheTTL a =? 0) && (ta_tokenSuccessCacheTTL a =? 0) then
            let '(s, r) := fetch (m, made) in (s, a, r)
          else
            let '(cache, watchers) :=
              match ta_caches a !! host with
              | Some c => (c, ta_watchers a)
              | None => (tc_New (ta_tokenSuccessCacheTTL a) (ta_tokenFailureCacheTTL a), (host, p) :: ta_watchers a)
              end in
            let '(s, cache, r) := tc_Authenticate now cache fetch token (m, made) in
            (s, MkTokenAuthenticator (ta_tokenSuccessCacheTTL a) (ta_tokenFailureCacheTTL a)
                  (<[host := cache]> (ta_caches a)) watchers, r)
      end
  end.

Definition token_watch_done (m : manager) (a : token_authenticator) (i : nat) : token_authenticator :=
  match ta_watchers a !! i with
  | Some (host, p) =>
      if default false (ci_stopped <$> mg_heap m !! p) then
        MkTokenAuthenticator (ta_tokenSuccessCacheTTL a) (ta_tokenFailureCacheTTL a) (delete host (ta_caches a))
          (take i (ta_watchers a) ++ drop (Datatypes.S i) (ta_watchers a))
      else a
  | None => a
  end.
End delegation.

(** * Answers are those of the upstream cluster *)

Section delegation_lemmas.
Context `{UpstreamLimiter} `{FeatureGates} `{Certificates} `{UnicodeLower} `{MapRange}.
Context `{!LRUExpireCache SubjectAccessReviewStatus} `{!TokenCache UserInfo}.
Context (Marshal : SubjectAccessReviewSpec -> option string).
Context (review : Z -> Endpoint_Info -> SubjectAccessReviewSpec -> string + SubjectAccessReviewStatus).
Context (token_review : Z -> Endpoint_Info -> string -> string + option UserInfo).
Implicit Types m : manager.

(** ** Access *)

(** The proxy, with the reviews made so far, each with the manager of its
    time. *)
Record access_world := MkAccessWorld {
  aw_manager : manager;
  aw_authorizer : access_authorizer;
  aw_now : Z;
  aw_reviews : list (manager * reviewed)
}.

Definition reviews_of m (r : authorize_result) : list (manager * reviewed) :=
  match ar_reviewed r with Some rw => [(m, rw)] | None => [] end.

(** Requests are authorised, clusters change in any way, watchers run, time
    passes. *)
Inductive access_step : access_world -> access_world -> Prop :=
  | access_authorize m a now l host attr m' a' r :
      Authorize Marshal review now m a host attr = (m', a', r) ->
      access_step (MkAccessWorld m a now l) (MkAccessWorld m' a' now (reviews_of m r ++ l))
  | access_change m a now l m' : access_step (MkAccessWorld m a now l) (MkAccessWorld m' a now l)
  | access_watch m a now l i : access_step (MkAccessWorld m a now l) (MkAccessWorld m (watch_done m a i) now l)
  | access_time m a now l now' : now <= now' -> access_step (MkAccessWorld m a now l) (MkAccessWorld m a now' l).

(** An endpoint of the cluster the host named then gave the answer. *)
Definition asked (mr : manager * reviewed) : Prop :=
  let '(m, rw) := mr in
  snd (manager_ClientFor m (rw_host rw)) = inr (rw_cluster rw, rw_endpoint rw) /\
  review (rw_time rw) (rw_endpoint rw) (rw_spec rw) = inr (rw_status rw).

Definition life (allow deny : Z) (s : SubjectAccessReviewStatus) : Z := if st_Allowed s then allow else deny.

(** A cached answer is that of a review. *)
Definition cached_from (allow deny : Z) (l : list (manager * reviewed)) (host key : string)
    (s : SubjectAccessReviewStatus) (e : Z) : Prop :=
  exists m rw, (m, rw) ∈ l /\ rw_host rw = host /\ Marshal (rw_spec rw) = Some key /\ rw_status rw = s /\
    e = rw_time rw + life allow deny s.

Record access_inv (allow deny : Z) (w : access_world) : Prop := {
  ai_allow : az_allowCacheTTL (aw_authorizer w) = allow;
  ai_deny : az_denyCacheTTL (aw_authorizer w) = deny;
  ai_asked : Forall asked (aw_reviews w);
  ai_past : Forall (fun mr => rw_time mr.2 <= aw_now w) (aw_reviews w);
  ai_cached : forall host c k s e, az_caches (aw_authorizer w) !! host = Some c -> lru_holds c k s e ->
    cached_from allow deny (aw_reviews w) host k s e
}.

Lemma cached_more allow deny l l' host key s e :
  cached_from allow deny l host key s e -> cached_from allow deny (l' ++ l) host key s e.
Proof. intros (m & rw & Hin & Hrest). exists m, rw. split; [|done]. apply elem_of_app. by right. Qed.

Lemma host_cache_spec a host p a' c :
  host_cache a host p = (a', c) ->
  az_allowCacheTTL a' = az_allowCacheTTL a /\ az_denyCacheTTL a' = az_denyCacheTTL a /\
  az_caches a' !! host = Some c /\
  forall h c' k s e, az_caches a' !! h = Some c' -> lru_holds c' k s e ->
    exists c0, az_caches a !! h = Some c0 /\ lru_holds c0 k s e.
Proof.
  unfold host_cache. destruct (az_caches a !! host) as [c0|] eqn:Hc.
  - intros [= <- <-]. split_and!; [done..|]. eauto.
  - intros [= <- <-]. cbn. split_and!; [done|done|by rewrite lookup_insert_eq|].
    intros h c' k s e. destruct (decide (h = host)) as [->|Hne].
    + rewrite lookup_insert_eq. intros [= <-] []%lru_New_holds.
    + rewrite lookup_insert_ne by done. eauto.
Qed.

Lemma access_inv_update allow deny w m' a' extra :
  access_inv allow deny w ->
  az_allowCacheTTL a' = az_allowCacheTTL (aw_authorizer w) -> az_denyCacheTTL a' = az_denyCacheTTL (aw_authorizer w) ->
  Forall asked extra -> Forall (fun mr => rw_time mr.2 <= aw_now w) extra ->
  (forall host c k s e, az_caches a' !! host = Some c -> lru_holds c k s e ->
     (exists c0, az_caches (aw_authorizer w) !! host = Some c0 /\ lru_holds c0 k s e) \/
     cached_from allow deny extra host k s e) ->
  access_inv allow deny (MkAccessWorld m' a' (aw_now w) (extra ++ aw_reviews w)).
Proof.
  intros [Ha Hd Hasked Hpast Hc] Ha' Hd' Hex Htime Hnew. split; cbn; [congruence|congruence|by apply Forall_app_2..|].
  intros host c k s e Hl Hh. destruct (Hnew host c k s e Hl Hh) as [(c0 & Hl0 & Hh0)|(m & rw & Hin & Hrest)].
  - apply cached_more. by eapply Hc.
  - exists m, rw. split; [|done]. apply elem_of_app. by left.
Qed.

Lemma decided_reviewed s made : ar_reviewed (decided s made) = made.
Proof. unfold decided. by destruct (review_decision s) as [[]]. Qed.

Lemma decided_allow s made :
  ar_decision (decided s made) = DecisionAllow ->
  ar_error (decided s made) = None /\ st_Allowed s = true /\ st_Denied s = false.
Proof. unfold decided, review_decision. destruct s as [[] [] reason]; cbn; by intros. Qed.

(** Entries of the caches once the cache of a host is replaced. *)
Lemma az_with_cache_holds a host c h c' k s e :
  az_caches (az_with_cache a host c) !! h = Some c' -> lru_holds c' k s e ->
  (h = host /\ lru_holds c k s e) \/ (exists c0, az_caches a !! h = Some c0 /\ lru_holds c0 k s e).
Proof.
  cbn. destruct (decide (h = host)) as [->|Hne].
  - rewrite lookup_insert_eq. intros [= <-]. eauto.
  - rewrite lookup_insert_ne by done. eauto.
Qed.

(** Looking a key up adds no entry. *)
Lemma got_cache_holds a host p a1 c1 now key c2 got h c k s e :
  host_cache a host p = (a1, c1) -> lru_Get now c1 key = (c2, got) ->
  az_caches (az_with_cache a1 host c2) !! h = Some c -> lru_holds c k s e ->
  exists c0, az_caches a !! h = Some c0 /\ lru_holds c0 k s e.
Proof.
  intros Ha Hget Hl Hh. destruct (host_cache_spec _ _ _ _ _ Ha) as (_ & _ & Hc1 & Hold).
  destruct (az_with_cache_holds _ _ _ _ _ _ _ _ Hl Hh) as [[-> Hh2]|(c0 & Hl0 & Hh0)]; [|by eapply Hold].
  eapply Hold; [exact Hc1|]. apply (lru_Get_holds now c1 key). by rewrite Hget.
Qed.

(** What an authorization does to the caches, and which review it rests on. *)
Lemma Authorize_spec allow deny m a now l host attr m' a' r :
  access_inv allow deny (MkAccessWorld m a now l) -> Authorize Marshal review now m a host attr = (m', a', r) ->
  access_inv allow deny (MkAccessWorld m' a' now (reviews_of m r ++ l)) /\
  (ar_decision r = DecisionAllow -> ar_error r = None /\ exists h mr rw,
     host = Some h /\ (mr, rw) ∈ reviews_of m r ++ l /\ rw_host rw = h /\
     Marshal (rw_spec rw) = Marshal (subjectAccessReviewFromAttributes attr) /\
     st_Allowed (rw_status rw) = true /\ st_Denied (rw_status rw) = false /\
     now <= rw_time rw + Z.max 0 allow).
Proof.
  intros Hinv. unfold Authorize. destruct host as [host|]; [|intros [= <- <- <-]; by split].
  destruct (manager_ClientFor m host) as [m1 [e|[p client]]] eqn:Hm.
  { intros [= <- <- <-]. split; [|done]. destruct Hinv. by split. }
  destruct (host_cache a host p) as [a1 c1] eqn:Ha. destruct (host_cache_spec _ _ _ _ _ Ha) as (Hal & Hde & Hc1 & Hold).
  set (spec := subjectAccessReviewFromAttributes attr).
  assert (forall h c k s e, az_caches a1 !! h = Some c -> lru_holds c k s e ->
    (exists c0, az_caches a !! h = Some c0 /\ lru_holds c0 k s e) \/ cached_from allow deny [] h k s e) as Hold'
    by (intros; left; by eapply Hold).
  destruct (Marshal spec) as [key|] eqn:Hkey.
  2: { intros [= <- <- <-]. split; [|done]. by apply (access_inv_update _ _ _ _ _ [] Hinv). }
  destruct (lru_Get now c1 key) as [c2 [entry|]] eqn:Hget.
  - intros [= <- <- <-]. unfold reviews_of. rewrite decided_reviewed. split.
    + apply (access_inv_update _ _ _ _ _ [] Hinv); [done..|]. intros h c k s e Hl Hh. left.
      by eapply got_cache_holds.
    + intros (Herr & Hal' & Hden)%decided_allow. split; [done|].
      destruct (lru_Get_Some now c1 key entry) as (e & Hh & He); [by rewrite Hget|].
      destruct (Hold host c1 key entry e Hc1 Hh) as (c0 & Hc0 & Hh0).
      destruct (ai_cached _ _ _ Hinv host c0 key entry e Hc0 Hh0) as (mr & rw & Hin & Hhost & Hk & Hst & ->).
      exists host, mr, rw. unfold life in He. rewrite Hal' in He. split_and!; try done; [congruence..|lia].
  - destruct (review now client spec) as [e|status] eqn:Hrev.
    { intros [= <- <- <-]. split; [|done]. apply (access_inv_update _ _ _ _ _ [] Hinv); [done..|].
      intros h c k s e' Hl Hh. left. by eapply got_cache_holds. }
    set (rw := MkReviewed now host p client spec status). intros [= <- <- <-].
    unfold reviews_of. rewrite decided_reviewed. split.
    + apply (access_inv_update _ _ _ _ _ [(m, rw)] Hinv); [done|done| |by repeat constructor|].
      { repeat constructor; cbn; [by rewrite Hm|done]. }
      intros h c k s e Hl Hh.
      destruct (az_with_cache_holds _ _ _ _ _ _ _ _ Hl Hh) as [[-> Hh2]|(c0 & Hl0 & Hh0)]; [|left; by eapply Hold].
      assert (lru_holds c2 k s e \/ (k = key /\ s = status /\ e = now + life allow deny status)) as [Hh3|(-> & -> & ->)].
      { destruct (shouldCache attr); [|by left]. destruct (lru_Add_holds _ _ _ _ _ _ _ _ Hh2) as [|(-> & -> & ->)]; [by left|].
        right. unfold life. destruct Hinv as [Hia Hid _ _ _]. cbn in Hia, Hid. split_and!; [done..|].
        rewrite <- Hia, <- Hid, <- Hal, <- Hde. done. }
      * left. eapply Hold; [exact Hc1|]. apply (lru_Get_holds now c1 key). by rewrite Hget.
      * right. exists m, rw. split_and!; [by left|done..].
    + intros (Herr & Hal' & Hden)%decided_allow. split; [done|]. exists host, m, rw.
      split_and!; [done|by left|done|done|done|done|cbn; lia].
Qed.

Lemma access_inv_step allow deny w w' : access_step w w' -> access_inv allow deny w -> access_inv allow deny w'.
Proof.
  intros [m a now l host attr m' a' r Haz|m a now l m'|m a now l i|m a now l now' Hle] Hinv.
  - by apply (Authorize_spec _ _ _ _ _ _ _ _ _ _ _ Hinv Haz).
  - destruct Hinv. by split.
  - unfold watch_done. destruct (az_watchers a !! i) as [[host p]|]; [|done]. destruct (default _ _); [|done].
    apply (access_inv_update _ _ _ _ _ [] Hinv); [done..|].
    cbn. intros h c k s e [_ Hl]%lookup_delete_Some Hh. eauto.
  - destruct Hinv as [Ha Hd Hasked Hpast Hc]. split; try done. cbn in *. eapply Forall_impl; [exact Hpast|]. cbn. lia.
Qed.

Lemma access_inv_reachable allow deny m now w :
  rtc access_step (MkAccessWorld m (NewMultiClusterSubjectAccessReviewAuthorizer allow deny) now []) w ->
  access_inv allow deny w.
Proof.
  intros Hr. refine (rtc_ind_l (fun w0 => access_inv allow deny w0 -> access_inv allow deny w) w _ _ _ Hr _).
  - done.
  - intros x y Hs _ IH Hx. apply IH. by eapply access_inv_step.
  - split; try done; constructor.
Qed.

(** C10: Whatever was authorised before and however clusters changed, a
    request is allowed only on the answer of an endpoint: one of the cluster
    its host named when it was asked, about a review that reads the same,
    allowed and not denied, and no longer ago than the life of an answer.  An
    error is never an answer that allows. *)
Theorem access_reviewed allow deny m0 now0 m a now l host attr m' a' r :
  rtc access_step (MkAccessWorld m0 (NewMultiClusterSubjectAccessReviewAuthorizer allow deny) now0 [])
    (MkAccessWorld m a now l) ->
  Authorize Marshal review now m a host attr = (m', a', r) -> ar_decision r = DecisionAllow ->
  ar_error r = None /\ exists h mr rw, host = Some h /\ (mr, rw) ∈ reviews_of m r ++ l /\ asked (mr, rw) /\
    rw_host rw = h /\ Marshal (rw_spec rw) = Marshal (subjectAccessReviewFromAttributes attr) /\
    st_Allowed (rw_status rw) = true /\ st_Denied (rw_status rw) = false /\
    rw_time rw <= now <= rw_time rw + Z.max 0 allow.
Proof.
  intros Hr%access_inv_reachable Haz Hallow. destruct (Authorize_spec _ _ _ _ _ _ _ _ _ _ _ Hr Haz) as [Hinv Hspec].
  destruct (Hspec Hallow) as (Herr & h & mr & rw & Hh & Hin & Hhost & Hk & Hal & Hde & Htime). split; [done|].
  pose proof (proj1 (Forall_forall _ _) (ai_asked _ _ _ Hinv) _ Hin) as Hasked.
  pose proof (proj1 (Forall_forall _ _) (ai_past _ _ _ Hinv) _ Hin) as Hpast.
  exists h, mr, rw. by repeat (split; [assumption|]).
Qed.

(** ** Tokens *)

Record token_review_state := MkTokenState {
  ts_world : token_world;
  ts_authenticator : token_authenticator;
  ts_now : Z
}.

Inductive token_review_step : token_review_state -> token_review_state -> Prop :=
  | token_authenticate s a now host token s' a' r :
      AuthenticateToken token_review now s a host token = (s', a', r) ->
      token_review_step (MkTokenState s a now) (MkTokenState s' a' now)
  | token_change m made a now m' : token_review_step (MkTokenState (m, made) a now) (MkTokenState (m', made) a now)
  | token_watch m made a now i :
      token_review_step (MkTokenState (m, made) a now) (MkTokenState (m, made) (token_watch_done m a i) now)
  | token_time s a now now' : now <= now' -> token_review_step (MkTokenState s a now) (MkTokenState s a now').

Definition token_asked (mr : manager * token_reviewed) : Prop :=
  let '(m, tr) := mr in
  snd (manager_ClientFor m (tr_host tr)) = inr (tr_cluster tr, tr_endpoint tr) /\
  token_review (tr_time tr) (tr_endpoint tr) (tr_token tr) = inr (tr_answer tr).

Definition token_life (success failure : Z) (v : option UserInfo) : Z :=
  match v with Some _ => success | None => failure end.

Definition token_from (made : list (manager * token_reviewed)) (host token : string) (v : option UserInfo)
    (P : Z -> Prop) : Prop :=
  exists m tr, (m, tr) ∈ made /\ tr_host tr = host /\ tr_token tr = token /\ tr_answer tr = v /\ P (tr_time tr).

(** The answers a cache of a host holds are those of reviews. *)
Definition cache_from (success failure : Z) (made : list (manager * token_reviewed)) (host : string) (c : tokencache)
    : Prop :=
  tc_success c = success /\ tc_failure c = failure /\
  forall t v e, tc_holds c t v e -> token_from made host t v (fun time => e = time + token_life success failure v).

Record token_inv (success failure : Z) (st : token_review_state) : Prop := {
  ti_success : ta_tokenSuccessCacheTTL (ts_authenticator st) = success;
  ti_failure : ta_tokenFailureCacheTTL (ts_authenticator st) = failure;
  ti_asked : Forall token_asked (ts_world st).2;
  ti_past : Forall (fun mr => tr_time mr.2 <= ts_now st) (ts_world st).2;
  ti_caches : map_Forall (cache_from success failure (ts_world st).2) (ta_caches (ts_authenticator st))
}.

Lemma token_from_more made extra host t v P : token_from made host t v P -> token_from (extra ++ made) host t v P.
Proof. intros (m & tr & Hin & Hrest). exists m, tr. split; [|done]. apply elem_of_app. by right. Qed.

Lemma cache_from_more success failure made extra host c :
  cache_from success failure made host c -> cache_from success failure (extra ++ made) host c.
Proof. intros (Hs & Hf & Hc). split_and!; [done..|]. intros t v e Hh. by apply token_from_more, Hc. Qed.

(** A review that is made is recorded. *)
Lemma fetch_spec now host token m made s' r :
  authenticateTokenForHost token_review now host token (m, made) = (s', r) ->
  exists extra, s'.2 = extra ++ made /\ Forall token_asked extra /\ Forall (fun mr => tr_time mr.2 = now) extra /\
    forall v, r = inr v -> token_from extra host token v (fun time => time = now).
Proof.
  unfold authenticateTokenForHost. destruct (manager_ClientFor m host) as [m' [e|[p client]]] eqn:Hm.
  { intros [= <- <-]. exists []. split_and!; [done..|]. by intros. }
  destruct (token_review now client token) as [e|answer] eqn:Hr.
  { intros [= <- <-]. exists []. split_and!; [done..|]. by intros. }
  intros [= <- <-]. set (tr := MkTokenReviewed now host p client token answer). exists [(m, tr)].
  split_and!; [done| |by repeat constructor|].
  - repeat constructor; cbn; [by rewrite Hm|done].
  - intros v [= <-]. exists m, tr. split_and!; [by left|done..].
Qed.

(** An answer the cache gives is one it holds or a new one; what it holds
    afterwards are answers of reviews. *)
Lemma cached_fetch success failure now host token m made c s' c' r :
  cache_from success failure made host c ->
  tc_Authenticate now c (authenticateTokenForHost token_review now host token) token (m, made) = (s', c', r) ->
  exists extra, s'.2 = extra ++ made /\ Forall token_asked extra /\ Forall (fun mr => tr_time mr.2 = now) extra /\
    cache_from success failure (extra ++ made) host c' /\
    forall v, r = inr v -> token_from (extra ++ made) host token v
      (fun time => now <= time + Z.max 0 (token_life success failure v)).
Proof.
  intros (Hs & Hf & Hc) Ha. destruct (tc_Authenticate_spec _ _ _ _ _ _ _ _ Ha) as (Hs' & Hf' & [[Hfetch Hnew]|Hold]).
  - symmetry in Hfetch. destruct (fetch_spec _ _ _ _ _ _ _ Hfetch) as (extra & Hex & Hasked & Htime & Hr).
    exists extra. split_and!; [done..| |].
    + split_and!; [congruence..|]. intros t v e Hh. destruct (Hnew t v e Hh) as [Hh0|(-> & Hv & ->)].
      * by apply token_from_more, Hc.
      * destruct (Hr v Hv) as (m1 & tr & Hin & Hhost & Ht & Hans & Hnow). exists m1, tr.
        split_and!; [apply elem_of_app; by left|done..|]. rewrite Hnow, Hs, Hf. by destruct v.
    + intros v Hv. destruct (Hr v Hv) as (m1 & tr & Hin & Hhost & Ht & Hans & Hnow). exists m1, tr.
      split_and!; [apply elem_of_app; by left|done..|lia].
  - destruct Hold as (-> & Hsame & v0 & e & -> & Hh & He). exists []. split_and!; [done..| |].
    + split_and!; [congruence..|]. intros t v e' Hh'. by apply Hc, Hsame.
    + intros v [= <-]. destruct (Hc token v0 e Hh) as (m1 & tr & Hin & Hhost & Ht & Hans & ->).
      exists m1, tr. split_and!; [done..|lia].
Qed.

Lemma AuthenticateToken_spec success failure m made a now host token s' a' r :
  token_inv success failure (MkTokenState (m, made) a now) ->
  AuthenticateToken token_review now (m, made) a host token = (s', a', r) ->
  token_inv success failure (MkTokenState s' a' now) /\
  forall v, r = inr v -> exists h, host = Some h /\
    token_from s'.2 h token v (fun time => now <= time + Z.max 0 (token_life success failure v)).
Proof.
  intros Hinv. pose proof Hinv as [Hs Hf Hasked Hpast Hc]. cbn in Hs, Hf, Hasked, Hpast, Hc.
  assert (forall extra w b, w.2 = extra ++ made -> Forall token_asked extra -> Forall (fun mr => tr_time mr.2 = now) extra ->
    ta_tokenSuccessCacheTTL b = success -> ta_tokenFailureCacheTTL b = failure ->
    map_Forall (cache_from success failure (extra ++ made)) (ta_caches b) ->
    token_inv success failure (MkTokenState w b now)) as Hmore.
  { intros extra w b Hw Hea Het Hbs Hbf Hbc. split; cbn; rewrite ?Hw; [done..| | |done]; apply Forall_app_2; [done|done| |done].
    eapply Forall_impl; [exact Het|]. cbn. lia. }
  unfold AuthenticateToken. destruct host as [host|]; [|intros [= <- <- <-]; by split].
  destruct (manager_ClientFor m host) as [m1 [e|[p client]]].
  { intros [= <- <- <-]. split; [|done]. by apply (Hmore []). }
  destruct ((_ =? 0) && (_ =? 0)).
  - destruct (authenticateTokenForHost _ _ _ _ _) as [s1 r1] eqn:Hfetch. intros [= <- <- <-].
    destruct (fetch_spec _ _ _ _ _ _ _ Hfetch) as (extra & Hex & Hea & Het & Hr). split.
    + apply (Hmore extra); try done. intros h c Hl. by apply cache_from_more, Hc.
    + intros v Hv. exists host. split; [done|]. destruct (Hr v Hv) as (m2 & tr & Hin & Hh & Ht & Hans & Hnow).
      exists m2, tr. rewrite Hex. split_and!; [apply elem_of_app; by left|done..|lia].
  - destruct (match ta_caches a !! host with Some c => _ | None => _ end) as [c ws] eqn:Hcw.
    assert (cache_from success failure made host c) as Hcf.
    { destruct (ta_caches a !! host) as [c0|] eqn:Hl; injection Hcw as <- <-; [by apply Hc|].
      split_and!; [by rewrite tc_New_success|by rewrite tc_New_failure|]. intros t v e []%tc_New_holds. }
    destruct (tc_Authenticate _ _ _ _ _) as [[s1 c1] r1] eqn:Hta. intros [= <- <- <-].
    destruct (cached_fetch _ _ _ _ _ _ _ _ _ _ _ Hcf Hta) as (extra & Hex & Hea & Het & Hc1 & Hr). split.
    + apply (Hmore extra); try done. cbn. apply map_Forall_insert_2; [done|].
      intros h c0 Hl. by apply cache_from_more, Hc.
    + intros v Hv. exists host. rewrite Hex. split; [done|]. by apply Hr.
Qed.

Lemma token_inv_step success failure st st' :
  token_review_step st st' -> token_inv success failure st -> token_inv success failure st'.
Proof.
  intros [[m made] a now host token s' a' r Hau|m made a now m'|m made a now i|s a now now' Hle] Hinv.
  - by apply (AuthenticateToken_spec _ _ _ _ _ _ _ _ _ _ _ Hinv Hau).
  - destruct Hinv. by split.
  - unfold token_watch_done. destruct (ta_watchers a !! i) as [[host p]|]; [|done]. destruct (default _ _); [|done].
    destruct Hinv as [Hs Hf Hasked Hpast Hc]. split; try done. cbn. by apply map_Forall_delete.
  - destruct Hinv as [Hs Hf Hasked Hpast Hc]. split; try done. cbn in *. eapply Forall_impl; [exact Hpast|]. cbn. lia.
Qed.

Lemma token_inv_reachable success failure m now st :
  rtc token_review_step (MkTokenState (m, []) (NewMultiClusterTokenReviewAuthenticator success failure) now) st ->
  token_inv success failure st.
Proof.
  intros Hr. refine (rtc_ind_l (fun s0 => token_inv success failure s0 -> token_inv success failure st) st _ _ _ Hr _).
  - done.
  - intros x y Hs _ IH Hx. apply IH. by eapply token_inv_step.
  - split; try done; constructor.
Qed.

(** C11: A token is accepted for a user only on the answer of an endpoint of the
    cluster the host named when it was asked about this very token, which said
    so no longer ago than the life of a good answer. *)
Theorem tokens_reviewed success failure m0 now0 s a now host token s' a' user :
  rtc token_review_step (MkTokenState (m0, []) (NewMultiClusterTokenReviewAuthenticator success failure) now0)
    (MkTokenState s a now) ->
  AuthenticateToken token_review now s a host token = (s', a', inr (Some user)) ->
  exists h mr tr, host = Some h /\ (mr, tr) ∈ s'.2 /\ token_asked (mr, tr) /\ tr_host tr = h /\ tr_token tr = token /\
    tr_answer tr = Some user /\ tr_time tr <= now <= tr_time tr + Z.max 0 success.
Proof.
  intros Hr%token_inv_reachable Hau. destruct s as [m made].
  destruct (AuthenticateToken_spec _ _ _ _ _ _ _ _ _ _ _ Hr Hau) as [Hinv Hspec].
  destruct (Hspec _ eq_refl) as (h & Hh & mr & tr & Hin & Hhost & Ht & Hans & Htime).
  pose proof (proj1 (Forall_forall _ _) (ti_asked _ _ _ Hinv) _ Hin) as Hasked.
  pose proof (proj1 (Forall_forall _ _) (ti_past _ _ _ Hinv) _ Hin) as Hpast.
  exists h, mr, tr. by repeat (split; [assumption|]).
Qed.
End delegation_lemmas.

(** * Examples *)

Module DelegationExample.
#[local] Existing Instance ClusterExample.limiter.
#[local] Existing Instance ClusterExample.one_gate.
#[local] Existing Instance ClusterExample.text_certificates.
#[local] Existing Instance ascii_only_lower.
#[local] Existing Instance sorted_range.

(** A cache that forgets nothing. *)
Definition entries (V : Type) : Type := list (string * V * Z).

Definition find_entry {V} (now : Z) (l : entries V) (k : string) : option V :=
  (fun x => x.1.2) <$> head (filter (fun x => x.1.1 = k /\ now <= x.2) l).

Lemma find_entry_Some {V} now (l : entries V) k v : find_entry now l k = Some v -> exists e, (k, v, e) ∈ l /\ now <= e.
Proof.
  unfold find_entry. destruct (head _) as [[[k' v'] e]|] eqn:Hh; [|done]. intros [= <-].
  apply head_Some_elem_of, list_elem_of_filter in Hh as [[Hk Hle] Hin]. cbn in *. subst k'. by exists e.
Qed.

#[export] Instance list_lru V : LRUExpireCache V.
Proof.
  refine {| lru := entries V; lru_New _ := []; lru_Get now c k := (c, find_entry now c k);
    lru_Add now c k v ttl := (k, v, now + ttl) :: c; lru_holds c k v e := (k, v, e) ∈ c |}.
  - intros _ k v e Hin. by apply not_elem_of_nil in Hin.
  - done.
  - intros now c k' v' ttl k v e [[= -> -> ->]|Hin]%elem_of_cons; [by right|by left].
  - intros now c k v. apply find_entry_Some.
Defined.

Record tokens := MkTokens {
  tk_entries : entries (option UserInfo);
  tk_success : Z;
  tk_failure : Z
}.

#[export] Instance list_tokens : TokenCache UserInfo.
Proof.
  refine {| tokencache := tokens; tc_New s f := MkTokens [] s f; tc_success := tk_success; tc_failure := tk_failure;
    tc_holds c t v e := (t, v, e) ∈ tk_entries c;
    tc_Authenticate S now c fetch t s :=
      match find_entry now (tk_entries c) t with
      | Some v => (s, c, inr v)
      | None =>
          let '(s, a) := fetch s in
          (s, match a with
              | inr v => MkTokens ((t, v, now + match v with Some _ => tk_success c | None => tk_failure c end)
                           :: tk_entries c) (tk_success c) (tk_failure c)
              | inl _ => c
              end, a)
      end |}.
  - intros s f t v e Hin. by apply not_elem_of_nil in Hin.
  - done.
  - done.
  - intros S now c fetch t s s' c' a. destruct (find_entry now (tk_entries c) t) as [v|] eqn:Hf.
    + intros [= <- <- <-]. split_and!; [done..|]. right. split_and!; [done..|].
      apply find_entry_Some in Hf as (e & Hin & Hle). by exists v, e.
    + destruct (fetch s) as [s1 [err|v]]; intros [= <- <- <-]; (split_and!; [done..|]); left; (split; [done|]).
      * by left.
      * intros t' v' e' [[= -> -> ->]|Hin]%elem_of_cons; [by right|by left].
Defined.

Definition cluster (name server : string) (names : list string) : UpstreamCluster :=
  MkCluster name None
    (MkSpec [MkServer server None] (MkClientConfig true "token" "" "" "" 0 0 0 "")
       (MkSecureServing "" "" "" names) (MkFlowControl []) [] (MkLogging "")).

Definition synchronise (m : manager) (o : UpstreamCluster) : manager :=
  fst (syncUpstreamCluster (fun _ => true) "" true Found m o).

(** Every endpoint passes its health check. *)
Definition healthy (m : manager) : manager :=
  MkManager (mg_clusters m)
    ((fun c => foldl (fun c ep => check_result c ep true "" "") c (AllEndpoints c)) <$> mg_heap m) (mg_next m).

(** Two clusters; the first has a second name. *)
Definition before : manager :=
  healthy (synchronise (synchronise (MkManager ∅ ∅ 0) (cluster "a" "https://a" ["x.example.com"]))
             (cluster "b" "https://b" [])).

(** The name moves from the first to the second. *)
Definition moved (m : manager) : manager :=
  synchronise (synchronise m (cluster "a" "https://a" [])) (cluster "b" "https://b" ["x.example.com"]).

(** The first cluster lets everyone do everything, the second nobody. *)
Definition answers (now : Z) (e : Endpoint_Info) (s : SubjectAccessReviewSpec) : string + SubjectAccessReviewStatus :=
  inr (if decide (ei_Endpoint e = "https://a") then MkReviewStatus true false "" else MkReviewStatus false true "").

Definition token_answers (now : Z) (e : Endpoint_Info) (t : string) : string + option UserInfo :=
  inr (if decide (ei_Endpoint e = "https://a") then Some (MkUser "alice" [] ∅) else None).

(** A key that has the user and the verb. *)
Definition key (s : SubjectAccessReviewSpec) : option string :=
  Some (sp_User s +:+ "/" +:+ from_option rat_Verb "" (sp_ResourceAttributes s)).

Definition attributes : review_attributes :=
  MkReviewAttributes (Some (MkReviewUser "alice" "1" [] None)) "impersonate" "" "" "v1" "users" "" "bob" "" true.

Definition authorizer : access_authorizer := NewMultiClusterSubjectAccessReviewAuthorizer 10 5.

Definition ask (now : Z) (m : manager) (a : access_authorizer) : manager * access_authorizer * authorize_result :=
  Authorize key answers now m a (Some "x.example.com") attributes.

Definition first_time : manager * access_authorizer * authorize_result := ask 0 before authorizer.
Definition from_cache : manager * access_authorizer * authorize_result := ask 3 first_time.1.1 first_time.1.2.

Definition cluster_asked (r : authorize_result) : option string := ei_Endpoint ∘ rw_endpoint <$> ar_reviewed r.

(** A name that moves to another cluster keeps the cache of the first: what
    the first cluster allowed is allowed at the second, which would deny it. *)
Example moved_name_keeps_answers :
  let again := ask 3 (moved first_time.1.1) first_time.1.2 in
  let anew := ask 3 (moved first_time.1.1) authorizer in
  ar_decision first_time.2 = DecisionAllow /\ cluster_asked first_time.2 = Some "https://a" /\
  ar_decision again.2 = DecisionAllow /\ cluster_asked again.2 = None /\
  ar_decision anew.2 = DecisionDeny /\ cluster_asked anew.2 = Some "https://b".
Proof. vm_compute. repeat split. Qed.

Lemma access_reviewed_witness : ar_error from_cache.2 = None /\ cluster_asked from_cache.2 = None.
Proof.
  split; [|vm_compute; reflexivity].
  refine (proj1 (access_reviewed key answers 10 5 before 0 first_time.1.1 first_time.1.2 3 (reviews_of before first_time.2)
    (Some "x.example.com") attributes from_cache.1.1 from_cache.1.2 from_cache.2 _ _ _)).
  - eapply (rtc_l _ _ (MkAccessWorld first_time.1.1 first_time.1.2 0 (reviews_of before first_time.2 ++ []))).
    + apply (access_authorize key answers before authorizer 0 [] (Some "x.example.com") attributes).
      unfold first_time, ask. by destruct (Authorize _ _ _ _ _ _ _) as [[]].
    + rewrite app_nil_r. apply rtc_once. constructor. lia.
  - unfold from_cache, ask. by destruct (Authorize _ _ _ _ _ _ _) as [[]].
  - vm_compute. reflexivity.
Defined.

Definition authenticator : token_authenticator := NewMultiClusterTokenReviewAuthenticator 10 5.

Definition accepted : token_world * token_authenticator * (string + option UserInfo) :=
  AuthenticateToken token_answers 0 (before, []) authenticator (Some "x.example.com") "secret".

Lemma tokens_reviewed_witness :
  exists h mr tr, Some "x.example.com" = Some h /\ (mr, tr) ∈ accepted.1.1.2 /\ token_asked token_answers (mr, tr) /\
    tr_host tr = h /\ tr_token tr = "secret" /\ tr_answer tr = Some (MkUser "alice" [] ∅) /\
    tr_time tr <= 0 <= tr_time tr + Z.max 0 10.
Proof.
  apply (tokens_reviewed token_answers 10 5 before 0 (before, []) authenticator 0 (Some "x.example.com") "secret"
    accepted.1.1 accepted.1.2 (MkUser "alice" [] ∅)).
  - apply rtc_refl.
  - assert (accepted.2 = inr (Some (MkUser "alice" [] ∅))) as Hr by (vm_compute; reflexivity).
    rewrite <- Hr. unfold accepted. by destruct (AuthenticateToken _ _ _ _ _ _) as [[]].
Defined.
End DelegationExample.
