(* ===== verification/SyncQueue.v ===== *)
(** The work queue of the controllers ([pkg/syncqueue/queue.go]): which items
    are handled again, and how often.

    The rate limited work queue of client-go is a parameter.  Its class says of
    an item how often it is still to be handed out, at once or after a delay,
    and how often it was re-added because of errors.  A call of [Get] that
    has nothing to hand out blocks, or makes the worker stop. *)
From stdpp Require Import base tactics list strings relations.
From Stdlib Require Import ZArith Lia.
From S2P Require Import Prelude.

Local Open Scope Z_scope.
Local Open Scope go_scope.

Class WorkQueue (K : Type) `{EqDecision K} := {
  WQ : Type;
  wq_New : WQ;
  wq_Add : WQ -> K -> WQ;
  wq_AddRateLimited : WQ -> K -> WQ;
  wq_AddAfter : WQ -> K -> Z -> WQ;
  wq_Forget : WQ -> K -> WQ;
  wq_Done : WQ -> K -> WQ;
  wq_Get : Z -> WQ -> option (K * WQ);
  wq_ShutDown : WQ -> WQ;
  wq_ShuttingDown : WQ -> bool;
  wq_NumRequeues : WQ -> K -> Z;
  wq_waiting : WQ -> K -> nat;
  wq_New_spec : wq_ShuttingDown wq_New = false /\ forall k, wq_NumRequeues wq_New k = 0 /\ wq_waiting wq_New k = 0%nat;
  requeues_Add : forall q k k', wq_NumRequeues (wq_Add q k) k' = wq_NumRequeues q k';
  requeues_AddRateLimited : forall q k k',
    wq_NumRequeues (wq_AddRateLimited q k) k' = wq_NumRequeues q k' + if decide (k' = k) then 1 else 0;
  requeues_AddAfter : forall q k d k', wq_NumRequeues (wq_AddAfter q k d) k' = wq_NumRequeues q k';
  requeues_Forget : forall q k k',
    wq_NumRequeues (wq_Forget q k) k' = if decide (k' = k) then 0 else wq_NumRequeues q k';
  requeues_Done : forall q k k', wq_NumRequeues (wq_Done q k) k' = wq_NumRequeues q k';
  requeues_Get : forall now q k q' k', wq_Get now q = Some (k, q') -> wq_NumRequeues q' k' = wq_NumRequeues q k';
  waiting_Add : forall q k, wq_ShuttingDown q = false ->
    (0 < wq_waiting (wq_Add q k) k <= S (wq_waiting q k))%nat;
  waiting_Add_ne : forall q k k', k' <> k -> wq_waiting (wq_Add q k) k' = wq_waiting q k';
  waiting_AddRateLimited : forall q k, wq_ShuttingDown q = false ->
    (0 < wq_waiting (wq_AddRateLimited q k) k <= S (wq_waiting q k))%nat;
  waiting_AddRateLimited_ne : forall q k k', k' <> k -> wq_waiting (wq_AddRateLimited q k) k' = wq_waiting q k';
  waiting_AddAfter : forall q k d, wq_ShuttingDown q = false ->
    (0 < wq_waiting (wq_AddAfter q k d) k <= S (wq_waiting q k))%nat;
  waiting_AddAfter_ne : forall q k d k', k' <> k -> wq_waiting (wq_AddAfter q k d) k' = wq_waiting q k';
  waiting_Forget : forall q k k', wq_waiting (wq_Forget q k) k' = wq_waiting q k';
  waiting_Done : forall q k k', wq_waiting (wq_Done q k) k' = wq_waiting q k';
  waiting_Get : forall now q k q' k', wq_Get now q = Some (k, q') ->
    if decide (k' = k) then (S (wq_waiting q' k') <= wq_waiting q k')%nat
    else (wq_waiting q' k' <= wq_waiting q k')%nat /\ (0 < wq_waiting q k' -> 0 < wq_waiting q' k')%nat;
  shutting_Add : forall q k, wq_ShuttingDown (wq_Add q k) = wq_ShuttingDown q;
  shutting_AddRateLimited : forall q k, wq_ShuttingDown (wq_AddRateLimited q k) = wq_ShuttingDown q;
  shutting_AddAfter : forall q k d, wq_ShuttingDown (wq_AddAfter q k d) = wq_ShuttingDown q;
  shutting_Forget : forall q k, wq_ShuttingDown (wq_Forget q k) = wq_ShuttingDown q;
  shutting_Done : forall q k, wq_ShuttingDown (wq_Done q k) = wq_ShuttingDown q;
  shutting_Get : forall now q k q', wq_Get now q = Some (k, q') -> wq_ShuttingDown q' = wq_ShuttingDown q;
  shutting_ShutDown : forall q, wq_ShuttingDown (wq_ShutDown q) = true
}.

(** What a handler returns without error. *)
Record Result := MkResult {
  rs_Requeue : bool;
  rs_RequeueAfter : Z;
  rs_MaxRequeueTimes : Z
}.

Definition no_result : Result := MkResult false 0 0.

Definition maxErrRetries : Z := 3.

Section queue.
Context {K : Type} `{WorkQueue K}.

(** The handler has a state of its own; [E] are its errors.  The key function
    is [None] where it fails. *)
Context {S E : Type} (syncHandler : S -> K -> S * result E Result) (keyFunc : K -> option K).

Record SyncQueue := MkSyncQueue {
  sq_queue : WQ;
  sq_maxErrRetries : Z
}.

Definition PassthroughKeyFunc (obj : K) : option K := Some obj.

Definition NewCustomSyncQueue : SyncQueue := MkSyncQueue wq_New maxErrRetries.

Definition with_queue (sq : SyncQueue) (q : WQ) : SyncQueue := MkSyncQueue q (sq_maxErrRetries sq).

Definition ShutDown (sq : SyncQueue) : SyncQueue := with_queue sq (wq_ShutDown (sq_queue sq)).

Definition SetMaxErrRetries (sq : SyncQueue) (max : Z) : SyncQueue :=
  if 0 <? max then MkSyncQueue (sq_queue sq) max else sq.

(** The operations that find the key of an object, unless the queue is being
    shut down. *)
Definition with_key (sq : SyncQueue) (obj : K) (f : WQ -> K -> WQ) : SyncQueue :=
  if wq_ShuttingDown (sq_queue sq) then sq
  else match keyFunc obj with None => sq | Some key => with_queue sq (f (sq_queue sq) key) end.

Definition Enqueue (sq : SyncQueue) (obj : K) : SyncQueue := with_key sq obj wq_Add.
Definition EnqueueRateLimited (sq : SyncQueue) (obj : K) : SyncQueue := with_key sq obj wq_AddRateLimited.
Definition EnqueueAfter (sq : SyncQueue) (obj : K) (after : Z) : SyncQueue :=
  with_key sq obj (fun q k => wq_AddAfter q k after).
Definition Dequeue (sq : SyncQueue) (obj : K) : SyncQueue :=
  with_key sq obj (fun q k => wq_Done (wq_Forget q k) k).

(** ** Events of informers *)

(** What an informer delivers: an object of the API, a tombstone for one
    whose deletion it missed, with the object it last knew, or something
    else.  [cache.DeletedFinalStateUnknown] is not a [runtime.Object]. *)
Inductive delivered := Delivered (obj : K) | DeletedFinalStateUnknown (obj : option K) | NotAnObject.

Definition as_object (o : delivered) : option K := match o with Delivered obj => Some obj | _ => None end.
Definition as_tombstone (o : delivered) : option (option K) :=
  match o with DeletedFinalStateUnknown obj => Some obj | _ => None end.

(** The kinds a scheme finds of an object, or an error.  The loop compares
    each kind with itself. *)
Definition isExpectedGVK (ObjectKinds : K -> option (list string)) (obj : K) : bool :=
  match ObjectKinds obj with
  | None => false
  | Some gvks => existsb (fun gvk => bool_decide (gvk = gvk)) gvks
  end.

Definition enqueue_delivered (ObjectKinds : K -> option (list string)) (sq : SyncQueue) (obj : delivered) : SyncQueue :=
  match as_object obj with
  | None => sq
  | Some runtimeObj =>
      if isExpectedGVK ObjectKinds runtimeObj then Enqueue sq runtimeObj
      else
        match as_tombstone obj with
        | Some (Some runtimeObj) => if isExpectedGVK ObjectKinds runtimeObj then Enqueue sq runtimeObj else sq
        | _ => sq
        end
  end.

Inductive informer_event := OnAdd (obj : delivered) | OnUpdate (oldObj newObj : delivered) | OnDelete (obj : delivered).

Definition ResourceEventHandler (ObjectKinds : K -> option (list string)) (sq : SyncQueue) (e : informer_event) : SyncQueue :=
  match e with
  | OnAdd obj | OnUpdate _ obj | OnDelete obj => enqueue_delivered ObjectKinds sq obj
  end.

(** ** The worker *)

(** When the queue is asked to handle an item again; 0 is not at all. *)
Definition requeue_after (sq : SyncQueue) (obj : K) (r : Result) : Z :=
  let requeueAfter :=
    if 0 <? rs_RequeueAfter r then rs_RequeueAfter r else if rs_Requeue r then Millisecond else 0 in
  if (0 <? requeueAfter) && (0 <? rs_MaxRequeueTimes r) &&
     (rs_MaxRequeueTimes r <=? wq_NumRequeues (sq_queue sq) obj)
  then 0 else requeueAfter.

(** What becomes of an item that was handled, and whether the worker goes on
    at once; [Panic] is that the handler panics. *)
Definition process_result (sq : SyncQueue) (obj : K) (r : result E Result) : SyncQueue * result Empty_set bool :=
  let q := sq_queue sq in
  match r with
  | Err _ =>
      if wq_NumRequeues q obj <? sq_maxErrRetries sq
      then (with_queue sq (wq_Done (wq_AddRateLimited q obj) obj), Ok false)
      else (with_queue sq (wq_Done (wq_Forget q obj) obj), Ok true)
  | Panic => (with_queue sq (wq_Done q obj), Panic)
  | Ok r =>
      let requeueAfter := requeue_after sq obj r in
      let sq := if 0 <? requeueAfter then EnqueueAfter sq obj requeueAfter else sq in
      let q := sq_queue sq in
      let q := if (requeueAfter =? 0) || (rs_MaxRequeueTimes r =? 0) then wq_Forget q obj else q in
      (with_queue sq (wq_Done q obj), Ok true)
  end.

(** [processNextWorkItem] at a time; [None] is that there is nothing to hand
    out. *)
Definition processNextWorkItem (now : Z) (sq : SyncQueue) (s : S) : option (SyncQueue * S * result Empty_set bool) :=
  match wq_Get now (sq_queue sq) with
  | None => None
  | Some (obj, q) =>
      let '(s, r) := syncHandler s obj in
      let '(sq, go) := process_result (with_queue sq q) obj r in
      Some (sq, s, go)
  end.

(** Runs: turns of the worker, with the item each of them handled, objects
    that are enqueued, and changes of the handler's state from elsewhere. *)
Inductive queue_event := Handled (obj : K) | Enqueued (obj : K) | Outside.

#[export] Instance queue_event_eq_dec : EqDecision queue_event.
Proof. solve_decision. Defined.

Inductive queue_step : SyncQueue * S -> queue_event -> SyncQueue * S -> Prop :=
  | queue_turn now sq s obj q sq' s' b :
      wq_Get now (sq_queue sq) = Some (obj, q) ->
      processNextWorkItem now sq s = Some (sq', s', Ok b) ->
      queue_step (sq, s) (Handled obj) (sq', s')
  | queue_enqueue sq s obj : queue_step (sq, s) (Enqueued obj) (Enqueue sq obj, s)
  | queue_outside sq s s' : queue_step (sq, s) Outside (sq, s').

Inductive queue_run : SyncQueue * S -> list queue_event -> SyncQueue * S -> Prop :=
  | run_nil st : queue_run st [] st
  | run_snoc st tr st' e st'' : queue_run st tr st' -> queue_step st' e st'' -> queue_run st (tr ++ [e]) st''.

Definition handled (k : K) (tr : list queue_event) : Z :=
  zsum (fun e => match e with Handled k' => if decide (k' = k) then 1 else 0 | _ => 0 end) tr.
End queue.

(** * Lemmas *)

Create Rewrite HintDb workqueue.

Section queue_lemmas.
Context {K : Type} `{WorkQueue K}.
Context {S E : Type} (syncHandler : S -> K -> S * result E Result) (keyFunc : K -> option K).
Implicit Types (sq : @SyncQueue K _ _) (k obj : K).

(** What a step does to another item. *)
Definition untouched k (q q' : WQ) : Prop :=
  wq_NumRequeues q' k = wq_NumRequeues q k /\ (wq_waiting q' k <= wq_waiting q k)%nat /\
  (0 < wq_waiting q k -> 0 < wq_waiting q' k)%nat /\ wq_ShuttingDown q' = wq_ShuttingDown q.

#[local] Hint Rewrite requeues_Add requeues_AddRateLimited requeues_AddAfter requeues_Forget requeues_Done
  waiting_Forget waiting_Done shutting_Add shutting_AddRateLimited shutting_AddAfter shutting_Forget
  shutting_Done : workqueue.
#[local] Hint Rewrite waiting_Add_ne waiting_AddRateLimited_ne waiting_AddAfter_ne using congruence : workqueue.

Lemma untouched_trans k q1 q2 q3 : untouched k q1 q2 -> untouched k q2 q3 -> untouched k q1 q3.
Proof. intros (A1 & A2 & A3 & A4) (B1 & B2 & B3 & B4). split_and!; [congruence|lia|lia|congruence]. Qed.

Lemma untouched_Get now k obj q q' : wq_Get now q = Some (obj, q') -> obj <> k -> untouched k q q'.
Proof.
  intros Hg Hne. pose proof (waiting_Get now q obj q' k Hg) as Hw. rewrite decide_False in Hw by congruence.
  split_and!; [by apply (requeues_Get now q obj)|apply Hw|apply Hw|by apply (shutting_Get now q obj)].
Qed.

Lemma untouched_same k q q' :
  wq_NumRequeues q' k = wq_NumRequeues q k -> wq_waiting q' k = wq_waiting q k ->
  wq_ShuttingDown q' = wq_ShuttingDown q -> untouched k q q'.
Proof. unfold untouched. intros -> Hw ->. by rewrite Hw. Qed.

Lemma with_key_other sq k obj f :
  (forall o, keyFunc o = Some k -> o = k) -> obj <> k ->
  (forall q o, o <> k -> untouched k q (f q o)) ->
  untouched k (sq_queue sq) (sq_queue (with_key keyFunc sq obj f)).
Proof.
  intros Hkey Hne Hf. unfold with_key. assert (untouched k (sq_queue sq) (sq_queue sq)) by (by apply untouched_same).
  destruct (wq_ShuttingDown _); [done|]. destruct (keyFunc obj) as [o|] eqn:Ho; [|done]. apply Hf.
  intros ->. by apply Hkey in Ho.
Qed.

Lemma AddAfter_other k q o d : o <> k -> untouched k q (wq_AddAfter q o d).
Proof. intros Hne. by apply untouched_same; autorewrite with workqueue. Qed.

Lemma Add_other k q o : o <> k -> untouched k q (wq_Add q o).
Proof. intros Hne. by apply untouched_same; autorewrite with workqueue. Qed.

Lemma Forget_other k q o : o <> k -> untouched k q (wq_Forget q o).
Proof. intros Hne. apply untouched_same; autorewrite with workqueue; [|done..]. by rewrite decide_False by congruence. Qed.

Lemma Done_other k q o : untouched k q (wq_Done q o).
Proof. by apply untouched_same; autorewrite with workqueue. Qed.

(** Handling an item leaves the others alone. *)
Lemma process_other sq k obj (r : result E Result) :
  (forall o, keyFunc o = Some k -> o = k) -> obj <> k ->
  untouched k (sq_queue sq) (sq_queue (fst (process_result keyFunc sq obj r))).
Proof.
  intros Hkey Hne. destruct r as [r|e|]; cbn.
  - set (sq1 := if 0 <? _ then _ else sq).
    assert (untouched k (sq_queue sq) (sq_queue sq1)) as Hu.
    { unfold sq1. destruct (0 <? _); [|by apply untouched_same].
      apply with_key_other; [done|done|]. intros q o Ho. by apply AddAfter_other. }
    eapply untouched_trans; [exact Hu|]. eapply untouched_trans; [|apply Done_other].
    destruct (_ || _); [by apply Forget_other|by apply untouched_same].
  - destruct (_ <? _); cbn; (eapply untouched_trans; [|apply Done_other]); [|by apply Forget_other].
    apply untouched_same; autorewrite with workqueue; [|done..]. rewrite decide_False by congruence. lia.
  - apply Done_other.
Qed.

Lemma step_other sq s k e sq' s' :
  (forall o, keyFunc o = Some k -> o = k) -> e <> Handled k -> e <> Enqueued k ->
  queue_step syncHandler keyFunc (sq, s) e (sq', s') ->
  untouched k (sq_queue sq) (sq_queue sq') /\ sq_maxErrRetries sq' = sq_maxErrRetries sq.
Proof.
  intros Hkey Hh He Hstep. inversion Hstep as [now ? ? obj q ? ? b Hg Hp| |]; subst.
  - unfold processNextWorkItem in Hp. rewrite Hg in Hp. destruct (syncHandler s obj) as [s1 r].
    destruct (process_result keyFunc (with_queue sq q) obj r) as [sq1 go] eqn:Hr. injection Hp as <- <- ->.
    assert (obj <> k) as Hne by congruence.
    pose proof (process_other (with_queue sq q) k obj r Hkey Hne) as Hu. rewrite Hr in Hu. split.
    + eapply untouched_trans; [by eapply untouched_Get|exact Hu].
    + apply (f_equal (fun x => sq_maxErrRetries (fst x))) in Hr. cbn in Hr. rewrite <- Hr. clear.
      destruct r; cbn; repeat case_match; try done; unfold EnqueueAfter, with_key; by repeat case_match.
  - split; [|unfold Enqueue, with_key; by repeat case_match].
    apply with_key_other; [done|congruence|]. intros q o Ho. by apply Add_other.
  - split; [by apply untouched_same|done].
Qed.

(** A turn that handles an item. *)
Lemma step_handled sq s k sq' s' :
  queue_step syncHandler keyFunc (sq, s) (Handled k) (sq', s') ->
  exists q, wq_NumRequeues q k = wq_NumRequeues (sq_queue sq) k /\
    (1 + wq_waiting q k <= wq_waiting (sq_queue sq) k)%nat /\
    wq_ShuttingDown q = wq_ShuttingDown (sq_queue sq) /\
    sq' = fst (process_result keyFunc (with_queue sq q) k (snd (syncHandler s k))).
Proof.
  intros Hstep. inversion Hstep as [now ? ? obj q ? ? b Hg Hp| |]; subst. exists q.
  pose proof (waiting_Get now _ k q k Hg) as Hw. rewrite decide_True in Hw by done.
  unfold processNextWorkItem in Hp. rewrite Hg in Hp. destruct (syncHandler s k) as [s1 r].
  destruct (process_result keyFunc (with_queue sq q) k r) as [sq1 go] eqn:Hr. injection Hp as <- <- _.
  split_and!; [by apply (requeues_Get now _ k)|lia|by apply (shutting_Get now _ k)|cbn [snd]; by rewrite Hr].
Qed.

(** The state of an item that is retried after errors, [n] turns after it
    entered the queue: it waits for the next one, or it was dropped. *)
Definition retried sq (max n : Z) k : Prop :=
  sq_maxErrRetries sq = max /\ wq_ShuttingDown (sq_queue sq) = false /\
  ((n <= max /\ wq_NumRequeues (sq_queue sq) k = n /\ wq_waiting (sq_queue sq) k = 1%nat) \/
   (n = max + 1 /\ wq_NumRequeues (sq_queue sq) k = 0 /\ wq_waiting (sq_queue sq) k = 0%nat)).

Lemma retried_other sq sq' max n k :
  retried sq max n k -> untouched k (sq_queue sq) (sq_queue sq') -> sq_maxErrRetries sq' = sq_maxErrRetries sq ->
  retried sq' max n k.
Proof.
  intros (Hm & Hs & Hd) (U1 & U2 & U3 & U4) Hm'. split; [congruence|]. split; [congruence|].
  rewrite U1. destruct Hd as [(Hn & Hr & Hw)|(Hn & Hr & Hw)]; [left|right]; split_and!; (done || lia).
Qed.

Lemma retried_turn sq s sq' s' max n k :
  (forall s, exists e, snd (syncHandler s k) = Err e) -> retried sq max n k ->
  queue_step syncHandler keyFunc (sq, s) (Handled k) (sq', s') -> retried sq' max (n + 1) k.
Proof.
  intros Hfail (Hm & Hs & Hd) (q & Hr & Hw & Hsd & ->)%step_handled. destruct (Hfail s) as [e ->].
  destruct Hd as [(Hn & Hreq & Hwait)|(_ & _ & Hwait)]; [|lia].
  unfold retried. cbn. rewrite Hr, Hreq, Hm. destruct (Z.ltb_spec n max); cbn; autorewrite with workqueue.
  - assert (wq_ShuttingDown q = false) as Hsq by congruence. pose proof (waiting_AddRateLimited q k Hsq). rewrite decide_True, Hr, Hsd by done. split; [done|]. split; [done|].
    left. split_and!; lia.
  - rewrite decide_True, Hsd by done. split; [done|]. split; [done|]. right. split_and!; [lia|done|lia].
Qed.

Lemma handled_snoc k tr e :
  handled k (tr ++ [e]) = handled k tr + if decide (e = Handled k) then 1 else 0.
Proof.
  unfold handled. rewrite zsum_app. cbn [zsum foldr]. rewrite Z.add_0_r. f_equal.
  destruct e; [|rewrite decide_False by done; done..]. repeat case_decide; congruence.
Qed.

Lemma run_retried sq s k tr st :
  (forall o, keyFunc o = Some k -> o = k) -> (forall s, exists e, snd (syncHandler s k) = Err e) ->
  retried sq (sq_maxErrRetries sq) 0 k -> Enqueued k ∉ tr -> queue_run syncHandler keyFunc (sq, s) tr st ->
  retried (fst st) (sq_maxErrRetries sq) (handled k tr) k.
Proof.
  intros Hkey Hfail Hinit Htr Hrun. remember (sq, s) as st0 eqn:Est.
  induction Hrun as [st0|st0 tr [sq1 s1] e [sq2 s2] Hrun IH Hstep]; [by subst|]. cbn.
  assert (retried sq1 (sq_maxErrRetries sq) (handled k tr) k) as Hinv.
  { apply IH; [|done]. intros Hin. apply Htr, elem_of_app. by left. }
  assert (e <> Enqueued k) as He by (intros ->; apply Htr, elem_of_app; right; by left).
  rewrite handled_snoc. case_decide as Hh; [subst e; by apply (retried_turn sq1 s1 sq2 s2)|]. rewrite Z.add_0_r.
  destruct (step_other sq1 s1 k e sq2 s2 Hkey Hh He Hstep) as [Hu Hm]. by apply (retried_other sq1).
Qed.


(** An item that asks to be handled again. *)
Definition asks_again (r : result E Result) : Prop :=
  exists res, r = Ok res /\ (0 < rs_RequeueAfter res \/ rs_Requeue res = true) /\ 0 < rs_MaxRequeueTimes res.

Lemma asks_again_turn sq s k sq' s' :
  keyFunc k = Some k -> asks_again (snd (syncHandler s k)) ->
  wq_NumRequeues (sq_queue sq) k = 0 -> wq_ShuttingDown (sq_queue sq) = false ->
  queue_step syncHandler keyFunc (sq, s) (Handled k) (sq', s') ->
  (0 < wq_waiting (sq_queue sq') k)%nat /\ wq_NumRequeues (sq_queue sq') k = 0 /\
  wq_ShuttingDown (sq_queue sq') = false.
Proof.
  intros Hkey (res & Hres & Hagain & Hmax) Hr Hs (q & Hq & _ & Hsd & ->)%step_handled. rewrite Hres. cbn.
  assert (requeue_after (with_queue sq q) k res > 0) as Hpos.
  { unfold requeue_after. cbn [sq_queue with_queue]. rewrite Hq, Hr.
    destruct (Z.leb_spec (rs_MaxRequeueTimes res) 0); [lia|]. rewrite andb_false_r.
    destruct (Z.ltb_spec 0 (rs_RequeueAfter res)); [lia|]. destruct Hagain as [?|Hreq]; [lia|]. by rewrite Hreq. }
  set (d := requeue_after _ _ _) in *. clearbody d.
  rewrite (proj2 (Z.ltb_lt 0 d)), (proj2 (Z.eqb_neq d 0)), (proj2 (Z.eqb_neq (rs_MaxRequeueTimes res) 0)) by lia.
  unfold EnqueueAfter, with_key. cbn [sq_queue with_queue orb]. rewrite Hsd, Hs, Hkey. cbn.
  autorewrite with workqueue. assert (wq_ShuttingDown q = false) as Hsq by congruence.
  pose proof (waiting_AddAfter q k d Hsq). split_and!; [lia|congruence|done].
Qed.

(** The limit [MaxRequeueTimes] of a handler does not end its requests to
    be called again: an item that asks for it keeps waiting for its next
    turn, however many it had. *)
Theorem requeue_limit_ignored sq s k tr sq' s' :
  (forall o, keyFunc o = Some k -> o = k) -> keyFunc k = Some k ->
  (forall s, asks_again (snd (syncHandler s k))) ->
  wq_ShuttingDown (sq_queue sq) = false -> (0 < wq_waiting (sq_queue sq) k)%nat ->
  wq_NumRequeues (sq_queue sq) k = 0 ->
  queue_run syncHandler keyFunc (sq, s) tr (sq', s') ->
  (0 < wq_waiting (sq_queue sq') k)%nat.
Proof.
  intros Hkey Hk Hagain Hs Hw Hr Hrun.
  cut (forall st, queue_run syncHandler keyFunc (sq, s) tr st ->
    (0 < wq_waiting (sq_queue (fst st)) k)%nat /\ wq_NumRequeues (sq_queue (fst st)) k = 0 /\
    wq_ShuttingDown (sq_queue (fst st)) = false); [intros Hall; apply (Hall _ Hrun)|].
  clear Hrun. intros st Hrun. remember (sq, s) as st0 eqn:Est.
  induction Hrun as [st0|st0 tr [sq1 s1] e [sq2 s2] Hrun IH Hstep]; [by subst|]. cbn in *.
  destruct (IH Est) as (IHw & IHr & IHs). destruct (decide (e = Handled k)) as [->|Hh].
  { by apply (asks_again_turn sq1 s1 k sq2 s2). }
  destruct (decide (e = Enqueued k)) as [->|He].
  - inversion Hstep; subst. unfold Enqueue, with_key. rewrite IHs, Hk. cbn. autorewrite with workqueue.
    pose proof (waiting_Add (sq_queue sq1) k IHs). split_and!; [lia|done|done].
  - destruct (step_other sq1 s1 k e sq2 s2 Hkey Hh He Hstep) as [(U1 & _ & U3 & U4) _].
    split_and!; [by apply U3|congruence|congruence].
Qed.
End queue_lemmas.

(** * A queue *)

Module SimpleQueue.
Section simple.
Context {K : Type} `{EqDecision K}.

(** Items that are due, those that are not with the time they are, the errors
    of items, and the time of the last [Get]. *)
Record simple := MkSimple {
  due : list K;
  later : list (K * Z);
  errors : list K;
  clock : Z;
  stopped : bool
}.

Definition count (k : K) (l : list K) : nat := length (filter (fun x => x = k) l).

Lemma count_app k l l' : count k (l ++ l') = (count k l + count k l')%nat.
Proof. unfold count. by rewrite filter_app, length_app. Qed.

Lemma count_cons k x l : count k (x :: l) = ((if decide (x = k) then 1 else 0) + count k l)%nat.
Proof. unfold count. rewrite filter_cons. by case_decide. Qed.

Lemma count_one k x : count k [x] = if decide (x = k) then 1%nat else 0%nat.
Proof. rewrite count_cons. by case_decide. Qed.

Lemma count_pos k l : k ∈ l -> (0 < count k l)%nat.
Proof.
  intros Hin. unfold count. assert (k ∈ filter (fun x => x = k) l) as Hf by (by apply list_elem_of_filter).
  destruct (filter _ l); [by apply elem_of_nil in Hf|cbn; lia].
Qed.

#[local] Arguments count : simpl never.

Lemma count_without k k' l :
  count k' (filter (fun x => x <> k) l) = if decide (k' = k) then 0%nat else count k' l.
Proof.
  induction l as [|x l IH]; [by case_decide|]. rewrite filter_cons, count_cons.
  destruct (decide (x = k)) as [->|Hx]; [rewrite (decide_False (P := k <> k)) by tauto|rewrite (decide_True (P := x <> k)) by done];
    rewrite ?count_cons, IH; repeat case_decide; congruence || lia.
Qed.

Definition add (q : simple) (k : K) : simple :=
  if stopped q || bool_decide (k ∈ due q) then q
  else MkSimple (due q ++ [k]) (later q) (errors q) (clock q) (stopped q).
Definition add_after (q : simple) (k : K) (d : Z) : simple :=
  if stopped q then q else MkSimple (due q) (later q ++ [(k, clock q + d)]) (errors q) (clock q) (stopped q).
Definition add_error (q : simple) (k : K) : simple :=
  MkSimple (due q) (later q) (k :: errors q) (clock q) (stopped q).
Definition forget (q : simple) (k : K) : simple :=
  MkSimple (due q) (later q) (filter (fun x => x <> k) (errors q)) (clock q) (stopped q).

(** What is due by now, then the first of it. *)
Definition ready (now : Z) (q : simple) : list K := due q ++ (fst <$> filter (fun x => snd x <= now) (later q)).
Definition get (now : Z) (q : simple) : option (K * simple) :=
  match ready now q with
  | [] => None
  | k :: l => Some (k, MkSimple l (filter (fun x => ~ snd x <= now) (later q)) (errors q) now (stopped q))
  end.

Definition waiting (q : simple) (k : K) : nat := (count k (due q) + count k (fst <$> later q))%nat.

Lemma count_split k (now : Z) (l : list (K * Z)) :
  count k (fst <$> l) =
    (count k (fst <$> filter (fun x => (snd x <= now)%Z) l) + count k (fst <$> filter (fun x => ~ (snd x <= now)%Z) l))%nat.
Proof.
  induction l as [|[x t] l IH]; [done|]. rewrite !filter_cons. cbn [snd fst fmap list_fmap].
  destruct (decide (t <= now)); [rewrite decide_False by tauto|rewrite decide_True by done];
    cbn [fmap list_fmap fst]; rewrite !count_cons; rewrite IH; lia.
Qed.

#[refine] Definition queue : WorkQueue K := {|
  WQ := simple;
  wq_New := MkSimple [] [] [] 0 false;
  wq_Add := add;
  wq_AddRateLimited q k := add_after (add_error q k) k (5 * Millisecond);
  wq_AddAfter := add_after;
  wq_Forget := forget;
  wq_Done q _ := q;
  wq_Get := get;
  wq_ShutDown q := MkSimple (due q) (later q) (errors q) (clock q) true;
  wq_ShuttingDown := stopped;
  wq_NumRequeues q k := Z.of_nat (count k (errors q));
  wq_waiting := waiting
|}.
Proof.
  - split; done.
  - intros q k k'. unfold add. by destruct (_ || _).
  - intros q k k'. unfold add_after. cbn. destruct (stopped q); cbn; rewrite count_cons; repeat case_decide;
      (congruence || lia).
  - intros q k d k'. unfold add_after. by destruct (stopped q).
  - intros q k k'. cbn. rewrite count_without. by case_decide.
  - done.
  - intros now q k q' k' Hg. unfold get in Hg. destruct (ready now q); [done|]. by injection Hg as <- <-.
  - intros q k Hs. unfold add, waiting. rewrite Hs. cbn. case_bool_decide as Hin.
    + pose proof (count_pos k _ Hin). lia.
    + cbn. rewrite count_app, count_one, decide_True by done. cbn. lia.
  - intros q k k' Hne. unfold add, waiting. destruct (_ || _); [done|]. cbn.
    rewrite count_app, count_one, decide_False by congruence. cbn. lia.
  - intros q k Hs. unfold add_after, waiting. cbn. rewrite Hs. cbn.
    rewrite fmap_app, count_app. cbn [fmap list_fmap fst]. rewrite count_one, decide_True by done. cbn. lia.
  - intros q k k' Hne. unfold add_after, waiting. cbn. destruct (stopped q); [done|]. cbn.
    rewrite fmap_app, count_app. cbn [fmap list_fmap fst]. rewrite count_one, decide_False by congruence. cbn. lia.
  - intros q k d Hs. unfold add_after, waiting. rewrite Hs. cbn.
    rewrite fmap_app, count_app. cbn [fmap list_fmap fst]. rewrite count_one, decide_True by done. cbn. lia.
  - intros q k d k' Hne. unfold add_after, waiting. destruct (stopped q); [done|]. cbn.
    rewrite fmap_app, count_app. cbn [fmap list_fmap fst]. rewrite count_one, decide_False by congruence. cbn. lia.
  - done.
  - done.
  - intros now q k q' k' Hg. unfold get in Hg. destruct (ready now q) as [|x l] eqn:Hl; [done|]. injection Hg as -> <-.
    assert (waiting q k' = (count k' (k :: l) + count k' (fst <$> filter (fun x => ~ (snd x <= now)%Z) (later q)))%nat) as Hw.
    { rewrite <- Hl. unfold waiting, ready. rewrite count_app, (count_split k' now (later q)). lia. }
    rewrite count_cons in Hw. rewrite Hw. unfold waiting. cbn [due later].
    repeat case_decide; try congruence; cbn in *; lia.
  - intros q k. unfold add. by destruct (_ || _).
  - intros q k. unfold add_after. cbn. by destruct (stopped q) eqn:Hs.
  - intros q k d. unfold add_after. by destruct (stopped q) eqn:Hs.
  - done.
  - done.
  - intros now q k q' Hg. unfold get in Hg. destruct (ready now q); [done|]. by injection Hg as <- <-.
  - done.
Defined.
End simple.
End SimpleQueue.

Module QueueExample.
#[local] Existing Instance SimpleQueue.queue.

(** A handler that fails, and one that asks to be called again. *)
Definition failing (_ : unit) (_ : nat) : unit * result string Result := (tt, Err "no").
Definition again (_ : unit) (_ : nat) : unit * result string Result := (tt, Ok (MkResult false (5 * Second) 3)).

Definition one : SyncQueue (K := nat) := Enqueue PassthroughKeyFunc NewCustomSyncQueue 7%nat.

(** The state after turns at given times. *)
Fixpoint turns (h : unit -> nat -> unit * result string Result) (times : list Z) (sq : SyncQueue (K := nat))
    : SyncQueue (K := nat) :=
  match times with
  | [] => sq
  | now :: times =>
      match processNextWorkItem h PassthroughKeyFunc now sq tt with
      | Some (sq, _, _) => turns h times sq
      | None => sq
      end
  end.

Definition after (h : unit -> nat -> unit * result string Result) (n : nat) : SyncQueue (K := nat) :=
  turns h (take n [0; 10 * Second; 20 * Second; 30 * Second]) one.

Lemma turn_at (h : unit -> nat -> unit * result string Result) now sq obj sq' :
  fst <$> wq_Get now (sq_queue sq) = Some obj ->
  match processNextWorkItem h PassthroughKeyFunc now sq tt with
  | Some (sq1, _, Ok _) => (sq_queue sq1, sq_maxErrRetries sq1) = (sq_queue sq', sq_maxErrRetries sq')
  | _ => False
  end ->
  queue_step h PassthroughKeyFunc (sq, tt) (Handled obj) (sq', tt).
Proof.
  destruct (wq_Get now (sq_queue sq)) as [[o q]|] eqn:Hg; [|done]. intros [= <-].
  destruct (processNextWorkItem h PassthroughKeyFunc now sq tt) as [[[sq1 []] [b|[]|]]|] eqn:Hp; try done.
  intros Heq. assert (sq1 = sq') as -> by (destruct sq1, sq'; cbn in Heq; congruence). by eapply queue_turn.
Qed.

Ltac turn_now t := apply (turn_at _ t); vm_compute; reflexivity.

(** Four turns of the only item. *)
Definition four : list (queue_event (K := nat)) := [Handled 7%nat; Handled 7%nat; Handled 7%nat; Handled 7%nat].

Lemma failing_run : queue_run failing PassthroughKeyFunc (one, tt) four (after failing 4, tt).
Proof.
  apply (run_snoc _ _ _ [_; _; _] (after failing 3, tt)); [|turn_now (30 * Second)].
  apply (run_snoc _ _ _ [_; _] (after failing 2, tt)); [|turn_now (20 * Second)].
  apply (run_snoc _ _ _ [_] (after failing 1, tt)); [|turn_now (10 * Second)].
  apply (run_snoc _ _ _ [] (one, tt)); [constructor|turn_now 0].
Qed.

Lemma again_run : queue_run again PassthroughKeyFunc (one, tt) four (after again 4, tt).
Proof.
  apply (run_snoc _ _ _ [_; _; _] (after again 3, tt)); [|turn_now (30 * Second)].
  apply (run_snoc _ _ _ [_; _] (after again 2, tt)); [|turn_now (20 * Second)].
  apply (run_snoc _ _ _ [_] (after again 1, tt)); [|turn_now (10 * Second)].
  apply (run_snoc _ _ _ [] (one, tt)); [constructor|turn_now 0].
Qed.


Lemma requeue_limit_ignored_witness : (0 < wq_waiting (sq_queue (after again 4)) 7)%nat.
Proof.
  apply (requeue_limit_ignored again PassthroughKeyFunc one tt 7%nat four
    (after again 4) tt).
  - intros o Ho. injection Ho as Ho. exact Ho.
  - reflexivity.
  - intros s. exists (MkResult false (5 * Second) 3). split; [reflexivity|]. split; [left|]; reflexivity.
  - reflexivity.
  - vm_compute. apply le_n.
  - reflexivity.
  - exact again_run.
Defined.
End QueueExample.
