(* ===== verification/Reconcile.v ===== *)
(** The controller of the gateway with its queue ([syncUpstreamCluster] of
    [pkg/gateway/controllers/upstream_controller.go] as the handler of
    [pkg/syncqueue/queue.go]): what the routing table becomes as objects are
    handled, in whatever order the queue hands them out.

    The queue holds pointers to the objects that informers deliver, so every
    version of an object is an item of its own. *)
From stdpp Require Import base tactics list strings gmap relations.
From Stdlib Require Import ZArith Lia.
From S2P Require Import Prelude Http ApiTypes Matching Clusters Controller SyncQueue.

Local Open Scope Z_scope.
Local Open Scope go_scope.

(** An object an informer delivered. *)
Record object := MkObject {
  ob_address : Z;
  ob_cluster : UpstreamCluster
}.

#[export] Instance object_eq_dec : EqDecision object.
Proof. solve_decision. Defined.

Section reconcile.
Context `{UpstreamLimiter} `{FeatureGates} `{Certificates} `{UnicodeLower} `{MapRange} `{!WorkQueue object}.

(** Which endpoints get a transport, the kind of limiters, and for which
    objects a client configuration can be built. *)
Context (transport_ok : string -> bool) (rateLimiter : string) (config : UpstreamCluster -> bool).

(** The table, and what the lister says of a name. *)
Record gateway := MkGateway {
  gw_manager : manager;
  gw_lister : string -> lookup
}.

Definition sync_object (g : gateway) (o : object) : manager * sync_result :=
  let cluster := ob_cluster o in
  syncUpstreamCluster transport_ok rateLimiter (config cluster) (gw_lister g (uc_Name cluster)) (gw_manager g) cluster.

(** What the queue is told of it. *)
Definition queue_result (r : sync_result) : result string Result :=
  match r with
  | Synced => Ok no_result
  | Requeue => Ok (MkResult false (5 * Second) 3)
  | ListerFailed e => Err e
  | Panicked => Panic
  end.

Definition syncHandler (g : gateway) (o : object) : gateway * result string Result :=
  let '(m, r) := sync_object g o in (MkGateway m (gw_lister g), queue_result r).

(** * What is wanted

    The objects the table is to route to, by the name of the cluster. *)
Abbreviation wanted_objects := (gmap string UpstreamCluster) (only parsing).

Definition want (found : lookup) (cluster : UpstreamCluster) (d : wanted_objects) : wanted_objects :=
  match found with
  | Found => <[ToLower (uc_Name cluster) := cluster]> d
  | Missing => delete (ToLower (uc_Name cluster)) d
  | LookupError _ => d
  end.

Definition names_of (cluster : UpstreamCluster) : list string :=
  ToLower (uc_Name cluster) :: (ToLower <$> ss_ServerNames (spec_SecureServing (uc_Spec cluster))).

(** Every wanted object has a cluster that reflects it, to which exactly its
    names are routed, and no other cluster is routed to. *)
Record table_matches (m : manager) (d : wanted_objects) : Prop := {
  tm_inv : routes_inv m;
  tm_wanted : forall n o, d !! n = Some o -> n = ToLower (uc_Name o) /\ exists p c,
    mg_heap m !! p = Some c /\ ci_Cluster c = n /\ reflects o c /\
    forall k, mg_clusters m !! k = Some p <-> k ∈ names_of o;
  tm_only : forall k p c, mg_clusters m !! k = Some p -> mg_heap m !! p = Some c -> is_Some (d !! ci_Cluster c)
}.

Record reconciling := MkReconciling {
  rc_queue : SyncQueue (K := object);
  rc_gateway : gateway;
  rc_wanted : wanted_objects
}.

(** The worker takes an object and synchronises it, or leaves the table alone;
    informers deliver objects; the lister changes. *)
Inductive reconcile_step : reconciling -> reconciling -> Prop :=
  | rc_synced now sq g d o q sq' g' b m :
      wq_Get now (sq_queue sq) = Some (o, q) -> sync_object g o = (m, Synced) ->
      paired (spec_SecureServing (uc_Spec (ob_cluster o))) ->
      processNextWorkItem syncHandler PassthroughKeyFunc now sq g = Some (sq', g', Ok b) ->
      reconcile_step (MkReconciling sq g d)
        (MkReconciling sq' g' (want (gw_lister g (uc_Name (ob_cluster o))) (ob_cluster o) d))
  | rc_unchanged now sq g d o q sq' g' b r :
      wq_Get now (sq_queue sq) = Some (o, q) -> sync_object g o = (gw_manager g, r) -> r <> Synced ->
      processNextWorkItem syncHandler PassthroughKeyFunc now sq g = Some (sq', g', Ok b) ->
      reconcile_step (MkReconciling sq g d) (MkReconciling sq' g' d)
  | rc_event sq g d o :
      reconcile_step (MkReconciling sq g d) (MkReconciling (Enqueue PassthroughKeyFunc sq o) g d)
  | rc_lister sq g d l :
      reconcile_step (MkReconciling sq g d) (MkReconciling sq (MkGateway (gw_manager g) l) d).

(** * The table follows what was handled *)

Lemma found_matches m m' d cluster cfg :
  table_matches m d -> paired (spec_SecureServing (uc_Spec cluster)) ->
  syncUpstreamCluster transport_ok rateLimiter cfg Found m cluster = (m', Synced) ->
  table_matches m' (<[ToLower (uc_Name cluster) := cluster]> d).
Proof.
  intros [Hinv Hwant Honly] Hp Hs. destruct (sync_routes _ _ _ _ _ _ Hinv Hp Hs) as (Hinv' & p & c & Hr).
  split; [done|..].
  - intros n o. destruct (decide (n = ToLower (uc_Name cluster))) as [->|Hne].
    + rewrite lookup_insert_eq. intros [= <-]. split; [done|]. exists p, c. by destruct Hr.
    + rewrite lookup_insert_ne by done. intros (Hn & p' & c' & Hc' & Hcl & Href & Hk)%Hwant. split; [done|].
      assert (p' <> p) as Hpp by (intros ->; apply (rt_old _ _ _ _ _ Hr) in Hc'; congruence).
      exists p', c'. split_and!; [by rewrite (rt_kept _ _ _ _ _ Hr)|done|done|].
      intros k. by rewrite (rt_others _ _ _ _ _ Hr).
  - intros k q e Hk He. destruct (decide (q = p)) as [->|Hq].
    + rewrite (rt_object _ _ _ _ _ Hr) in He. injection He as <-. rewrite (rt_name _ _ _ _ _ Hr), lookup_insert_eq.
      by eexists.
    + rewrite (rt_others _ _ _ _ _ Hr) in Hk by done. rewrite (rt_kept _ _ _ _ _ Hr) in He by done.
      apply lookup_insert_is_Some'. right. by apply (Honly k q).
Qed.

Lemma missing_matches m m' d cluster cfg :
  table_matches m d -> syncUpstreamCluster transport_ok rateLimiter cfg Missing m cluster = (m', Synced) ->
  table_matches m' (delete (ToLower (uc_Name cluster)) d).
Proof.
  intros [Hinv Hwant Honly] Hs.
  destruct (sync_deletes transport_ok rateLimiter cfg m cluster Hinv) as (m2 & Hs2 & Hinv' & Hsub & Hall).
  assert (m2 = m') as -> by congruence. split; [done|..].
  - intros n o [Hne Hd]%lookup_delete_Some. destruct (Hwant n o Hd) as (Hn & p & c & Hc & Hcl & Href & Hk).
    assert (forall k, mg_clusters m !! k = Some p -> mg_clusters m' !! k = Some p /\ mg_heap m' !! p = Some c) as Hkeep.
    { intros k Hkp. specialize (Hall k p c Hkp Hc). rewrite decide_False in Hall by congruence. exact Hall. }
    split; [done|]. exists p, c. split_and!; [|done|done|].
    + apply (Hkeep n). apply Hk. rewrite Hn. left.
    + intros k. rewrite <- Hk. split; [apply Hsub|]. intros Hkp. by apply Hkeep.
  - intros k q e Hk He. pose proof (Hsub k q Hk) as Hkm. destruct (ri_serves m Hinv k q Hkm) as (c0 & Hc0 & _).
    specialize (Hall k q c0 Hkm Hc0). case_decide as Hn; [destruct Hall; congruence|]. destruct Hall as [_ Hq].
    assert (e = c0) as -> by congruence. rewrite lookup_delete_ne by congruence. by apply (Honly k q).
Qed.

Lemma step_matches st st' :
  reconcile_step st st' -> table_matches (gw_manager (rc_gateway st)) (rc_wanted st) ->
  table_matches (gw_manager (rc_gateway st')) (rc_wanted st').
Proof.
  destruct 1 as [now sq g d o q sq' g' b m Hg Hs Hp Hn|now sq g d o q sq' g' b r Hg Hs Hr Hn| |]; cbn; intros Hm;
    [| |done|done].
  - unfold processNextWorkItem, syncHandler in Hn. rewrite Hg, Hs in Hn. cbn in Hn. injection Hn as <- <- _. cbn.
    unfold sync_object in Hs. destruct (gw_lister g (uc_Name (ob_cluster o))) eqn:El; cbn [want].
    + by eapply found_matches.
    + by eapply missing_matches.
    + done.
  - unfold processNextWorkItem, syncHandler in Hn. rewrite Hg, Hs in Hn.
    destruct (process_result _ _ _ _) as [sq1 go]. by injection Hn as <- <- _.
Qed.

End reconcile.

(** * Runs *)

Module ReconcileExample.
#[local] Existing Instance ClusterExample.limiter.
#[local] Existing Instance ClusterExample.one_gate.
#[local] Existing Instance ClusterExample.text_certificates.
#[local] Existing Instance ascii_only_lower.
#[local] Existing Instance sorted_range.
#[local] Existing Instance SimpleQueue.queue.

Definition cluster (name : string) (servers names : list string) : UpstreamCluster :=
  MkCluster name None
    (MkSpec ((fun ep => MkServer ep None) <$> servers) (MkClientConfig true "token" "" "" "" 0 0 0 "")
       (MkSecureServing "" "" "" names) (MkFlowControl []) [] (MkLogging "")).

(** Cluster b has a host name that the first version of cluster a claims as
    well; the second version of a does not. *)
Definition b1 : object := MkObject 1 (cluster "b" ["https://b"] ["x.example.com"]).
Definition a1 : object := MkObject 2 (cluster "a" ["https://old"] ["x.example.com"]).
Definition a2 : object := MkObject 3 (cluster "a" ["https://new"] []).

Definition state : Type := SyncQueue (K := object) * gateway.

Definition handler := syncHandler (fun _ => true) "" (fun _ => true).

Definition start : state :=
  (NewCustomSyncQueue, MkGateway (MkManager ∅ ∅ 0) (fun _ => Found)).

Definition deliver (o : object) (st : state) : state := (Enqueue PassthroughKeyFunc (fst st) o, snd st).
Definition delete_b (st : state) : state :=
  (fst st, MkGateway (gw_manager (snd st)) (fun n => if decide (n = "b") then Missing else Found)).
Definition turn (now : Z) (st : state) : state :=
  match processNextWorkItem handler PassthroughKeyFunc now (fst st) (snd st) with
  | Some (sq, g, _) => (sq, g)
  | None => st
  end.

Definition endpoints_of (st : state) (name : string) : option (list string) :=
  (fun '(_, c) => AllEndpoints c) <$> manager_Get (gw_manager (snd st)) name.

(** The first version of a is refused and will be tried again; the second
    one replaces it. *)
Definition updated : state :=
  turn Second (deliver a2 (turn 0 (turn 0 (deliver a1 (deliver b1 start))))).

(** When b is gone, the first version no longer conflicts, and its retry
    brings it back. *)
Definition reverted : state := turn (5 * Second) (turn (2 * Second) (deliver b1 (delete_b updated))).

Example stale_version_returns :
  endpoints_of updated "a" = Some ["https://new"] /\
  endpoints_of reverted "a" = Some ["https://old"] /\
  endpoints_of (turn (20 * Second) reverted) "a" = Some ["https://old"].
Proof. vm_compute. split_and!; reflexivity. Qed.

(** An event of the informer. *)
Definition inform (e : informer_event (K := object)) (st : state) : state :=
  (ResourceEventHandler PassthroughKeyFunc (fun _ => Some ["UpstreamCluster"]) (fst st) e, snd st).


(** ** Witness *)

Definition at_state (st : state) (d : gmap string UpstreamCluster) : reconciling := MkReconciling (fst st) (snd st) d.

Lemma turn_synced now st d o :
  fst <$> wq_Get now (sq_queue (fst st)) = Some o ->
  snd (sync_object (fun _ => true) "" (fun _ => true) (snd st) o) = Synced ->
  paired (spec_SecureServing (uc_Spec (ob_cluster o))) ->
  gw_lister (snd st) (uc_Name (ob_cluster o)) = Found ->
  reconcile_step (fun _ => true) "" (fun _ => true) (at_state st d)
    (at_state (turn now st) (want Found (ob_cluster o) d)).
Proof.
  destruct st as [sq g]. cbn [fst snd]. intros Hg Hs Hp Hf. rewrite <- Hf.
  destruct (wq_Get now (sq_queue sq)) as [[o' q]|] eqn:E; [|done]. injection Hg as ->.
  destruct (sync_object _ _ _ g o) as [m r] eqn:Es. cbn in Hs. subst r.
  assert (exists sq' g' b, processNextWorkItem handler PassthroughKeyFunc now sq g = Some (sq', g', Ok b)) as (sq' & g' & b & Hn).
  { unfold processNextWorkItem, handler, syncHandler. rewrite E, Es. cbn. by do 3 eexists. }
  unfold at_state, turn. cbn [fst snd]. rewrite Hn. by apply (rc_synced _ _ _ now sq g d o q sq' g' b m).
Qed.

Lemma deliver_step st d o :
  reconcile_step (fun _ => true) "" (fun _ => true) (at_state st d) (at_state (deliver o st) d).
Proof. apply rc_event. Qed.

Lemma start_matches : table_matches (gw_manager (snd start)) ∅.
Proof. split; [apply ControllerExample.empty_routes|by intros n o|by intros k p c]. Qed.

Definition both : state := turn 0 (deliver a2 (turn 0 (deliver b1 start))).

End ReconcileExample.
