(* ===== verification/Serving.v ===== *)
(** TLS towards clients ([WrapGetConfigForClient] and [SNIVerifyOptions] of
    [pkg/gateway/controllers/upstream_controller.go]): which certificate a
    connection is served with, and which authorities a client certificate is
    verified against.

    Certificates and pools are those of the class [Certificates]; the base
    configuration is a parameter. *)
From stdpp Require Import base tactics list strings gmap.
From Stdlib Require Import ZArith.
From S2P Require Import Prelude Http ApiTypes Clusters Controller SyncQueue Reconcile.

Local Open Scope Z_scope.
Local Open Scope go_scope.

(** [tls.ClientHelloInfo]: the name the client asks for and the address it
    connected to. *)
Record ClientHelloInfo := MkHello {
  ch_ServerName : string;
  ch_LocalAddr : string
}.

Inductive ClientAuthType := NoClientCert | RequestClientCert | RequireAnyClientCert | VerifyClientCertIfGiven
  | RequireAndVerifyClientCert.

Section serving.
Context `{UpstreamLimiter} `{FeatureGates} `{Certificates} `{UnicodeLower} `{MapRange}.

(** [tls.Config]; of its maps and functions, whether they are set. *)
Record tls_config := MkTlsConfig {
  tc_ClientAuth : ClientAuthType;
  tc_ClientCAs : option CertPool;
  tc_Certificates : list Certificate;
  tc_NameToCertificate : bool;
  tc_GetCertificate : bool;
  tc_GetConfigForClient : bool
}.

Definition with_client_cas (ca : option CertPool) (cfg : tls_config) : tls_config :=
  match ca with
  | None => cfg
  | Some pool => MkTlsConfig RequestClientCert (Some pool) (tc_Certificates cfg) (tc_NameToCertificate cfg)
                   (tc_GetCertificate cfg) (tc_GetConfigForClient cfg)
  end.

Definition with_certificates (certs : list Certificate) (cfg : tls_config) : tls_config :=
  match certs with
  | [] => cfg
  | _ => MkTlsConfig (tc_ClientAuth cfg) (tc_ClientCAs cfg) certs false false false
  end.

(** The host name of a connection: of the hello, or of its local address. *)
Definition hello_host (hello : ClientHelloInfo) : option string :=
  if decide (ch_ServerName hello = "") then SplitHostPort (ch_LocalAddr hello) else Some (ch_ServerName hello).

Definition WrapGetConfigForClient (getConfigFunc : ClientHelloInfo -> string + tls_config) (m : manager)
    (clientHello : ClientHelloInfo) : string + tls_config :=
  match getConfigFunc clientHello with
  | inl e => inl e
  | inr baseTLSConfig =>
      match hello_host clientHello with
      | None => inr baseTLSConfig
      | Some hostname =>
          match tls_for_host m hostname with
          | None => inr baseTLSConfig
          | Some (clientCAs, certs) => inr (with_certificates certs (with_client_cas clientCAs baseTLSConfig))
          end
      end
  end.

(** * Connections are served as the objects say *)

(** The configuration of a connection to a name of an object. *)
Record serves_object (o : UpstreamCluster) (base cfg : tls_config) : Prop := {
  so_certificates :
    let s := spec_SecureServing (uc_Spec o) in
    if decide (ss_KeyData s = "") then tc_Certificates cfg = tc_Certificates base /\ tc_GetCertificate cfg = tc_GetCertificate base
    else exists cert, KeyPair (ss_CertData s) (ss_KeyData s) = inr cert /\ tc_Certificates cfg = [cert] /\
      tc_GetCertificate cfg = false /\ tc_GetConfigForClient cfg = false;
  so_client :
    let s := spec_SecureServing (uc_Spec o) in
    if decide (ss_ClientCAData s = "") then tc_ClientCAs cfg = tc_ClientCAs base /\ tc_ClientAuth cfg = tc_ClientAuth base
    else exists pool, ParsePool (ss_ClientCAData s) = inr pool /\ tc_ClientCAs cfg = Some pool /\
      tc_ClientAuth cfg = RequestClientCert
}.

Lemma named_cluster (m : manager) d n o host :
  table_matches m d -> d !! n = Some o -> ToLower host ∈ names_of o ->
  exists p c, manager_Get m host = Some (p, c) /\ reflects o c.
Proof.
  intros Ht Hd Hh. destruct (tm_wanted _ _ Ht n o Hd) as (_ & p & c & Hc & _ & Href & Hk).
  exists p, c. split; [|done]. unfold manager_Get. rewrite (proj2 (Hk _) Hh). cbn. by rewrite Hc.
Qed.

Lemma reflects_serving o c :
  reflects o c -> exists cfg, ci_secure c = Some cfg /\ sc_secureServing cfg = spec_SecureServing (uc_Spec o) /\
    serving_matches cfg.
Proof.
  intros Href. destruct (ref_serving _ _ Href) as (cfg & Hs & Hcfg). exists cfg. split_and!; [done..|].
  by apply (cinv_serving _ (ref_inv _ _ Href)).
Qed.

Lemma serves_config o base cfg :
  sc_secureServing cfg = spec_SecureServing (uc_Spec o) -> serving_matches cfg ->
  serves_object o base (with_certificates (sc_certs cfg) (with_client_cas (sc_clientCA cfg) base)).
Proof.
  intros Hcfg [_ Hca Hcerts]. rewrite Hcfg in Hca, Hcerts. split; cbv zeta.
  - case_decide as Hk; [rewrite Hcerts; by destruct (sc_clientCA cfg)|].
    destruct Hcerts as (cert & -> & Hpair). by exists cert.
  - destruct (sc_clientCA cfg) as [pool|].
    + destruct Hca as [Hne Hp]. rewrite decide_False by done. exists pool. by destruct (sc_certs cfg).
    + rewrite decide_True by done. by destruct (sc_certs cfg).
Qed.

(** C9: A connection to a name of an object is served with the certificate of
    the object and asks for client certificates of its authorities, where it
    has them, and with the base configuration otherwise; the certificate of a
    client is verified against the authorities of the very cluster the
    host of its request is dispatched to; names of no object get the base
    configuration. *)
Theorem serving_follows_objects getConfig m d base hello host name :
  table_matches m d -> getConfig hello = inr base -> hello_host hello = Some host ->
  (forall n o, d !! n = Some o -> ToLower host ∈ names_of o ->
     exists cfg, WrapGetConfigForClient getConfig m hello = inr cfg /\ serves_object o base cfg) /\
  (forall n o, d !! n = Some o -> ToLower (HostWithoutPort name) ∈ names_of o ->
     (exists p c, manager_Get m (HostWithoutPort name) = Some (p, c) /\ reflects o c) /\
     let ca := ss_ClientCAData (spec_SecureServing (uc_Spec o)) in
     if decide (ca = "") then SNIVerifyOptions m name = None
     else exists pool, ParsePool ca = inr pool /\ SNIVerifyOptions m name = Some pool) /\
  (mg_clusters m !! ToLower host = None -> WrapGetConfigForClient getConfig m hello = inr base).
Proof.
  intros Ht Hbase Hhost. unfold WrapGetConfigForClient. rewrite Hbase, Hhost. unfold tls_for_host, SNIVerifyOptions. split_and!.
  - intros n o Hd Hn. destruct (named_cluster m d n o host Ht Hd Hn) as (p & c & -> & Href).
    destruct (reflects_serving o c Href) as (cfg & Hs & Hcfg & Hm).
    pose proof (serves_config o base cfg Hcfg Hm) as Hso. unfold LoadTLSConfig. rewrite Hs.
    destruct (sc_certs cfg) as [|cert certs], (sc_clientCA cfg) as [pool|]; eauto.
  - intros n o Hd Hn. destruct (named_cluster m d n o _ Ht Hd Hn) as (p & c & -> & Href).
    destruct (reflects_serving o c Href) as (cfg & Hs & Hcfg & [Hv Hca _]). split; [by exists p, c|]. cbv zeta.
    unfold LoadVerifyOptions. rewrite Hs, Hv. rewrite Hcfg in Hca. destruct (sc_clientCA cfg) as [pool|].
    + destruct Hca as [Hne Hp]. rewrite decide_False by done. by exists pool.
    + by rewrite decide_True.
  - intros Hnone. unfold manager_Get. by rewrite Hnone.
Qed.
End serving.

(** * Example *)

Module ServingExample.
#[local] Existing Instance ClusterExample.limiter.
#[local] Existing Instance ClusterExample.one_gate.
#[local] Existing Instance ClusterExample.text_certificates.
#[local] Existing Instance ascii_only_lower.
#[local] Existing Instance sorted_range.

Definition object : UpstreamCluster :=
  MkCluster "C1" None
    (MkSpec [MkServer "https://a" None] (MkClientConfig true "token" "" "" "" 0 0 0 "")
       (MkSecureServing "key" "cert" "ca" ["api.example.com"]) (MkFlowControl []) [] (MkLogging "")).

Definition served_by : manager :=
  fst (syncUpstreamCluster (fun _ => true) "" true Found (MkManager ∅ ∅ 0) object).

Lemma served_by_matches : table_matches served_by {[ "c1" := object ]}.
Proof.
  change {[ "c1" := object ]} with (<[ToLower (uc_Name object) := object]> (∅ : gmap string UpstreamCluster)).
  apply (found_matches (fun _ => true) "" (MkManager ∅ ∅ 0) served_by ∅ object true).
  - split; [apply ControllerExample.empty_routes|by intros n o|by intros k p c].
  - by split.
  - assert (snd (syncUpstreamCluster (fun _ => true) "" true Found (MkManager ∅ ∅ 0) object) = Synced) as Hs
      by (vm_compute; reflexivity).
    rewrite <- Hs. unfold served_by. apply surjective_pairing.
Qed.

Definition base : tls_config := MkTlsConfig NoClientCert None [("base", "base")] false true true.

Lemma serving_follows_objects_witness :
  exists cfg, WrapGetConfigForClient (fun _ => inr base) served_by (MkHello "API.example.com" "10.0.0.1:443") = inr cfg /\
    tc_Certificates cfg = [("cert", "key")] /\ tc_ClientCAs cfg = Some "ca".
Proof.
  destruct (serving_follows_objects (fun _ => inr base) served_by {[ "c1" := object ]} base
    (MkHello "API.example.com" "10.0.0.1:443") "API.example.com" "api.example.com:443") as (Hc & _ & _).
  - exact served_by_matches.
  - reflexivity.
  - reflexivity.
  - destruct (Hc "c1" object) as (cfg & Hcfg & [Hcerts Hca]); [reflexivity| |].
    + refine (bool_decide_unpack _ _). vm_compute. exact I.
    + exists cfg. split; [exact Hcfg|]. clear Hcfg. cbn in Hcerts, Hca. rewrite decide_False in Hcerts by discriminate.
      rewrite decide_False in Hca by discriminate.
      destruct Hcerts as (cert & [= <-] & -> & _). destruct Hca as (pool & [= <-] & -> & _).
      split; reflexivity.
Defined.
End ServingExample.
