(* ===== verification/HealthCheck.v ===== *)
(** Health checks of endpoints: what a probe does to an endpoint
    ([GatewayHealthCheck] of [pkg/gateway/controllers/upstream_controller.go],
    [ResetTransport]), and the two goroutines that run the probes
    ([startGatewayHealthCheck], [TriggerHealthCheck] of
    [pkg/clusters/endpoint.go]). *)
From stdpp Require Import base tactics list strings relations.
From Stdlib Require Import ZArith Lia.
From S2P Require Import Prelude Clusters.

Local Open Scope Z_scope.

(** * Probes *)

(** The error of a request for /healthz: whether it is a timeout, the reason
    and the message of an API status, and its text. *)
Record probe_error := MkProbeError {
  pe_timeout : bool;
  pe_status : option (string * string);
  pe_text : string
}.

(** An error, or the status code of the answer. *)
Definition probe : Type := probe_error + Z.

(** The transport of an endpoint, and the transports that were closed. *)
Record transports := MkTransports {
  ts_current : Z;
  ts_next : Z;
  ts_closed : list Z
}.

(** [created] is that a new transport can be made. *)
Definition ResetTransport (created : bool) (ts : transports) : transports :=
  if created then MkTransports (ts_next ts) (ts_next ts + 1) (ts_current ts :: ts_closed ts) else ts.

Definition ResetTransportThreshold : Z := 3.
Definition reading_body : string := "Client.Timeout or context cancellation while reading body".

(** Why a probe found the endpoint unhealthy. *)
Definition failure (endpoint : string) (itoa : Z -> string) (p : probe) : option (string * string) :=
  match p with
  | inl err =>
      Some (if pe_timeout err then ("Timeout", pe_text err)
            else match pe_status err with Some rm => rm | None => ("Failure", pe_text err) end)
  | inr code =>
      if code =? 200 then None
      else Some ("NotReady", "request " +:+ endpoint +:+ "/healthz, got response code is " +:+ itoa code)
  end.

Definition GatewayHealthCheck (itoa : Z -> string) (p : probe) (created : bool) (ets : Endpoint_Info * transports)
    : Endpoint_Info * transports :=
  let '(e, ts) := ets in
  match failure (ei_Endpoint e) itoa p with
  | None => (UpdateStatus e true "" "", ts)
  | Some (reason, message) =>
      let e := UpdateStatus e false reason message in
      match p with
      | inl err =>
          if Contains (pe_text err) reading_body && (ResetTransportThreshold <=? es_UnhealthyCount (ei_status e))
          then (e, ResetTransport created ts) else (e, ts)
      | inr _ => (e, ts)
      end
  end.

Definition probe_ok (p : probe) : bool := match p with inr code => code =? 200 | inl _ => false end.
Definition hangs (p : probe) : bool := match p with inl err => Contains (pe_text err) reading_body | inr _ => false end.

(** The probes that failed since the last good one. *)
Definition failures (ps : list probe) : Z := Z.of_nat (length (last_run (fun p => negb (probe_ok p)) ps)).

Section probes.
Context (itoa : Z -> string) (created : bool).

Definition check_all (ps : list probe) (ets : Endpoint_Info * transports) : Endpoint_Info * transports :=
  foldl (fun ets p => GatewayHealthCheck itoa p created ets) ets ps.

Lemma failures_snoc ps p : failures (ps ++ [p]) = if probe_ok p then 0 else failures ps + 1.
Proof.
  unfold failures. rewrite last_run_snoc. destruct (probe_ok p); [done|]. cbn [negb]. rewrite length_app. cbn. lia.
Qed.

Lemma failure_ok endpoint p : failure endpoint itoa p = None <-> probe_ok p = true.
Proof. destruct p as [err|code]; cbn; [done|]. destruct (code =? 200); [done|]. by split. Qed.

Lemma check_status p ets :
  let '(e', ts') := GatewayHealthCheck itoa p created ets in
  let e := fst ets in
  ei_id e' = ei_id e /\ ei_Endpoint e' = ei_Endpoint e /\
  es_Disabled (ei_status e') = es_Disabled (ei_status e) /\ es_Healthy (ei_status e') = probe_ok p /\
  es_UnhealthyCount (ei_status e') = (if probe_ok p then 0 else es_UnhealthyCount (ei_status e) + 1) /\
  ts' = (if hangs p && (ResetTransportThreshold <=? es_UnhealthyCount (ei_status e) + 1)
         then ResetTransport created (snd ets) else snd ets).
Proof.
  destruct ets as [e ts]. unfold GatewayHealthCheck. cbn [fst snd].
  pose proof (failure_ok (ei_Endpoint e) p) as Hok.
  destruct (failure (ei_Endpoint e) itoa p) as [[reason message]|].
  - destruct (probe_ok p); [destruct Hok as [_ Hok]; discriminate (Hok eq_refl)|].
    destruct p as [err|code]; cbn; [|by split_and!]. by destruct (_ && _).
  - rewrite (proj1 Hok eq_refl). cbn. split_and!; try done. destruct p as [err|code]; [|done].
    destruct Hok as [Hok _]. discriminate (Hok eq_refl).
Qed.

(** C28: After any number of probes an endpoint is ready exactly if it is not
    disabled and the last probe was answered with 200, its count is the number
    of probes that failed since the last good one, and a probe replaces its
    transport exactly if its connection hangs and it is at least the third in a
    row to fail. *)
Theorem checks_follow_probes ps p e ts :
  es_UnhealthyCount (ei_status e) = 0 ->
  let '(e1, ts1) := check_all ps (e, ts) in
  let '(e2, ts2) := check_all (ps ++ [p]) (e, ts) in
  Endpoint_Info_IsReady e2 = negb (es_Disabled (ei_status e)) && probe_ok p /\
  es_UnhealthyCount (ei_status e2) = failures (ps ++ [p]) /\
  ei_id e2 = ei_id e /\
  ts2 = (if hangs p && (3 <=? failures (ps ++ [p])) then ResetTransport created ts1 else ts1).
Proof.
  intros H0. assert (forall ps, let '(e1, _) := check_all ps (e, ts) in
    es_UnhealthyCount (ei_status e1) = failures ps /\ ei_id e1 = ei_id e /\
    es_Disabled (ei_status e1) = es_Disabled (ei_status e)) as Hall.
  { intros qs. induction qs as [|q qs IH] using rev_ind; [done|]. unfold check_all. rewrite foldl_app. cbn [foldl].
    fold (check_all qs (e, ts)). destruct (check_all qs (e, ts)) as [e1 ts1]. destruct IH as (IH1 & IH2 & IH3).
    pose proof (check_status q (e1, ts1)) as Hc. destruct (GatewayHealthCheck _ _ _ _) as [e2 ts2].
    destruct Hc as (C1 & _ & C3 & _ & C5 & _). cbn [fst] in *. rewrite failures_snoc, C5, IH1. by split_and!; [|congruence..]. }
  pose proof (Hall ps) as Hps. unfold check_all. rewrite foldl_app. cbn [foldl]. fold (check_all ps (e, ts)).
  destruct (check_all ps (e, ts)) as [e1 ts1]. destruct Hps as (P1 & P2 & P3).
  pose proof (check_status p (e1, ts1)) as Hc. destruct (GatewayHealthCheck itoa p created (e1, ts1)) as [e2 ts2].
  destruct Hc as (C1 & C2 & C3 & C4 & C5 & C6). cbn [fst snd] in *. split_and!.
  - unfold Endpoint_Info_IsReady, endpointStatus_IsReady. by rewrite C3, C4, P3.
  - by rewrite failures_snoc, C5, P1.
  - congruence.
  - rewrite C6, P1, failures_snoc. destruct p as [err|code]; [|done]. cbn [hangs probe_ok]. done.
Qed.
End probes.

(** * The goroutines

    One goroutine puts a request for a check into a channel of one place at
    the start and at every tick of a timer; another takes the requests and
    checks.  Proxied requests that are refused put one there as well.  Both
    stop when the context of the checks is cancelled, where they wait for it. *)
Inductive ticker_pc := TickSending | TickWaiting | TickReturned.
Inductive checker_pc := CheckSelecting | CheckRunning | CheckReturned.

Record checking := MkChecking {
  hc_full : bool;
  hc_cancelled : bool;
  hc_ticker : ticker_pc;
  hc_checker : checker_pc;
  hc_checks : Z
}.

Definition startGatewayHealthCheck : checking := MkChecking false false TickSending CheckSelecting 0.

Definition TriggerHealthCheck (s : checking) : checking :=
  MkChecking true (hc_cancelled s) (hc_ticker s) (hc_checker s) (hc_checks s).

Inductive ticker_step : checking -> checking -> Prop :=
  | tick_send cancelled c n :
      ticker_step (MkChecking false cancelled TickSending c n) (MkChecking true cancelled TickWaiting c n)
  | tick_fire full cancelled c n :
      ticker_step (MkChecking full cancelled TickWaiting c n) (MkChecking full cancelled TickSending c n)
  | tick_return full c n :
      ticker_step (MkChecking full true TickWaiting c n) (MkChecking full true TickReturned c n).

Inductive checker_step : checking -> checking -> Prop :=
  | check_take cancelled t n :
      checker_step (MkChecking true cancelled t CheckSelecting n) (MkChecking false cancelled t CheckRunning (n + 1))
  | check_done full cancelled t n :
      checker_step (MkChecking full cancelled t CheckRunning n) (MkChecking full cancelled t CheckSelecting n)
  | check_return full t n :
      checker_step (MkChecking full true t CheckSelecting n) (MkChecking full true t CheckReturned n).

Inductive checking_step : checking -> checking -> Prop :=
  | step_ticker s s' : ticker_step s s' -> checking_step s s'
  | step_checker s s' : checker_step s s' -> checking_step s s'
  | step_trigger s : checking_step s (TriggerHealthCheck s)
  | step_cancel full cancelled t c n : checking_step (MkChecking full cancelled t c n) (MkChecking full true t c n).

Lemma checker_lives s :
  rtc checking_step startGatewayHealthCheck s -> hc_checker s = CheckReturned -> hc_cancelled s = true.
Proof.
  apply (rtc_ind_r (fun s => hc_checker s = CheckReturned -> hc_cancelled s = true)); [done|].
  intros x y _ Hstep IH. destruct Hstep as [? ? Ht|? ? Hc| |]; [destruct Ht|destruct Hc| |]; cbn in *; try done; auto.
Qed.

(** A request in the channel stays there until a check starts. *)
Lemma request_stays s s' :
  rtc checking_step s s' -> hc_full s = true ->
  hc_checks s <= hc_checks s' /\ (hc_checks s' = hc_checks s -> hc_full s' = true).
Proof.
  intros Hr Hf. revert Hr. apply (rtc_ind_r (fun s' => hc_checks s <= hc_checks s' /\
    (hc_checks s' = hc_checks s -> hc_full s' = true))); [done|].
  intros x y _ Hstep [IH1 IH2]. destruct Hstep as [? ? Ht|? ? Hc| |]; [destruct Ht|destruct Hc| |]; cbn in *;
    (split; [lia|]); try done; intros; auto; lia.
Qed.

(** C29: A health check that is asked for takes place: while the checks are
    not stopped, the checking goroutine can always start one within two of its
    own steps, and whatever the other goroutines do meanwhile, the request
    is not lost before it did. *)
Theorem trigger_is_checked s :
  rtc checking_step startGatewayHealthCheck s -> hc_cancelled s = false ->
  (exists n s', (n <= 2)%nat /\ nsteps checker_step n (TriggerHealthCheck s) s' /\ hc_checks s' = hc_checks s + 1) /\
  forall s', rtc checking_step (TriggerHealthCheck s) s' -> hc_checks s' = hc_checks s -> hc_full s' = true.
Proof.
  intros Hr Hc. split.
  - pose proof (checker_lives s Hr) as Hl. destruct s as [full cancelled t c n]. cbn in *. subst cancelled.
    unfold TriggerHealthCheck. cbn. destruct c; [| |by specialize (Hl eq_refl)].
    + exists 1%nat, (MkChecking false false t CheckRunning (n + 1)). split_and!; [lia| |done].
      apply nsteps_once. constructor.
    + exists 2%nat, (MkChecking false false t CheckRunning (n + 1)). split_and!; [lia| |done].
      econstructor; [constructor|]. apply nsteps_once. constructor.
  - intros s' Hs' Hn. by apply (request_stays _ _ Hs').
Qed.

(** Stopping the checks can leave the ticking goroutine behind for good:
    once the checking goroutine has returned with a request in the channel,
    the other one never gets to see that it is to stop. *)
Theorem stopped_ticker_leaks :
  exists s, rtc checking_step startGatewayHealthCheck s /\ hc_cancelled s = true /\
    forall s', rtc checking_step s s' -> hc_ticker s' = TickSending.
Proof.
  exists (MkChecking true true TickSending CheckReturned 0). split_and!; [|done|].
  - eapply rtc_l; [apply step_ticker, tick_send|]. eapply rtc_l; [apply step_ticker, tick_fire|].
    eapply rtc_l; [apply step_cancel|]. apply rtc_once. apply step_checker, check_return.
  - intros s' Hr. cut (exists n, s' = MkChecking true true TickSending CheckReturned n); [by intros [n ->]|].
    revert Hr. apply (rtc_ind_r (fun s' => exists n, s' = MkChecking true true TickSending CheckReturned n)); [by eauto|].
    intros x y _ Hstep [n ->]. inversion Hstep as [? ? Ht|? ? Hc| |]; subst; [inversion Ht|inversion Hc| |]; by eauto.
Qed.

(** * Examples *)

Definition refused : probe := inl (MkProbeError false None "connection refused").
Definition hanging : probe := inl (MkProbeError true None ("net/http: " +:+ reading_body)).
Definition new_endpoint : Endpoint_Info := MkEndpoint 1 "https://a" (MkStatus false "" "" false 0) true.

Lemma checks_follow_probes_witness :
  let '(e, ts) := check_all (fun _ => "") true [refused; inr 200; hanging; hanging; hanging]
                    (new_endpoint, MkTransports 0 1 []) in
  Endpoint_Info_IsReady e = false /\ es_UnhealthyCount (ei_status e) = 3 /\ ts = MkTransports 1 2 [0].
Proof.
  pose proof (checks_follow_probes (fun _ => "") true [refused; inr 200; hanging; hanging] hanging new_endpoint
    (MkTransports 0 1 []) eq_refl) as Hc.
  change ([refused; inr 200; hanging; hanging; hanging]) with ([refused; inr 200; hanging; hanging] ++ [hanging]).
  destruct (check_all (fun _ => "") true [refused; inr 200; hanging; hanging] (new_endpoint, MkTransports 0 1 []))
    as [e1 ts1] eqn:E1.
  destruct (check_all (fun _ => "") true ([refused; inr 200; hanging; hanging] ++ [hanging]) (new_endpoint, MkTransports 0 1 []))
    as [e2 ts2]. destruct Hc as (Hready & Hcount & _ & Hts). split; [exact Hready|]. split; [exact Hcount|].
  rewrite Hts. vm_compute in E1. injection E1 as _ <-. vm_compute. reflexivity.
Defined.

Lemma trigger_is_checked_witness :
  exists n s', (n <= 2)%nat /\ nsteps checker_step n (TriggerHealthCheck startGatewayHealthCheck) s' /\ hc_checks s' = 1.
Proof. exact (proj1 (trigger_is_checked startGatewayHealthCheck (rtc_refl _ _) eq_refl)). Defined.
