(* ===== verification/ReverseProxy.v ===== *)
(** The reverse proxy ([pkg/util/reverseproxy/reverseproxy.go] and
    [ascii/print.go]): the request sent to an endpoint, the response sent
    back, and the copying of its body.

    A body is the list of what its reads return; a read past its end is the
    end of file.  A response writer that loses its client takes a limited
    number of bytes.  The transport, the error handler and
    [httpguts.HeaderValuesContainsToken] are parameters.  An entry of a header
    map without values stands for a nil slice.  Contexts, latencies and
    trace steps are left out; so is the copying of bytes between hijacked
    connections. *)
From stdpp Require Import base tactics list strings gmap.
From Stdlib Require Import ZArith Lia Ascii.
From S2P Require Import Prelude Http Impersonation.

Local Open Scope Z_scope.

(** * ASCII *)

Fixpoint EqualFold (s t : string) : bool :=
  match s, t with
  | EmptyString, EmptyString => true
  | String a s', String b t' => bool_decide (lower_byte a = lower_byte b) && EqualFold s' t'
  | _, _ => false
  end.

Definition IsPrint (s : string) : bool := string_forallb (in_range 32 126) s.

(** * Requests and responses *)

Record Request := MkRequest {
  rq_Method : string;
  rq_Host : string;
  rq_URL : URL;
  rq_Header : Header;
  rq_RemoteAddr : string;
  rq_ContentLength : Z;
  rq_Body : option string;
  rq_Close : bool
}.

Definition with_header (r : Request) (h : Header) : Request :=
  MkRequest (rq_Method r) (rq_Host r) (rq_URL r) h (rq_RemoteAddr r) (rq_ContentLength r) (rq_Body r)
    (rq_Close r).

Definition with_url (r : Request) (u : URL) : Request :=
  MkRequest (rq_Method r) (rq_Host r) u (rq_Header r) (rq_RemoteAddr r) (rq_ContentLength r) (rq_Body r)
    (rq_Close r).

(** What the reads of a body return: bytes and an error, if any. *)
Abbreviation Reads := (list (string * option string)) (only parsing).

(** [rs_Trailer] are the announced trailers, [rs_Trailer_end] those known when
    the body was read. *)
Record Response := MkResponse {
  rs_StatusCode : Z;
  rs_Header : Header;
  rs_ContentLength : Z;
  rs_Body : Reads;
  rs_Trailer : Header;
  rs_Trailer_end : Header
}.

Inductive proxy_error :=
  | InvalidClientProtocol (protocol : string)
  | InvalidBackendProtocol (protocol : string)
  | ProtocolMismatch (response request : string)
  | NotHijacker
  | BodyNotWritable
  | HijackFailed (message : string)
  | UpgradeWriteFailed (message : string)
  | RoundTripFailed (message : string)
  | AbortError (message : string).

(** [httpguts.HeaderValuesContainsToken] *)
Class HttpGuts := {
  HeaderValuesContainsToken : list string -> string -> bool
}.

(** * Response writers

    [http.ResponseWriter] with [Flush]: the headers set so far, the status and
    headers that were sent, the bytes of the body that were accepted and how
    many of them are flushed, and how many more the client takes ([None] is
    any number). *)
Record ResponseWriter := MkWriter {
  rw_Header : Header;
  rw_sent : option (Z * Header);
  rw_body : string;
  rw_flushed : Z;
  rw_room : option Z
}.

Definition rw_with_header (w : ResponseWriter) (h : Header) : ResponseWriter :=
  MkWriter h (rw_sent w) (rw_body w) (rw_flushed w) (rw_room w).

(** Only the first status is sent. *)
Definition WriteHeader (w : ResponseWriter) (code : Z) : ResponseWriter :=
  match rw_sent w with
  | Some _ => w
  | None => MkWriter (rw_Header w) (Some (code, rw_Header w)) (rw_body w) (rw_flushed w) (rw_room w)
  end.

Definition StatusOK : Z := 200.
Definition StatusSwitchingProtocols : Z := 101.

Definition rw_Write (w : ResponseWriter) (p : string) : ResponseWriter * (Z * option string) :=
  let w := WriteHeader w StatusOK in
  let n := match rw_room w with Some room => Z.max 0 (Z.min room (slen p)) | None => slen p end in
  (MkWriter (rw_Header w) (rw_sent w) (rw_body w +:+ sub_take (Z.to_nat n) p) (rw_flushed w)
     ((fun room => room - n) <$> rw_room w),
   (n, if n <? slen p then Some "client disconnected" else None)).

Definition rw_Flush (w : ResponseWriter) : ResponseWriter :=
  let w := WriteHeader w StatusOK in
  MkWriter (rw_Header w) (rw_sent w) (rw_body w) (slen (rw_body w)) (rw_room w).

(** * Paths *)

Definition singleJoiningSlash (a b : string) : string :=
  let aslash := HasSuffix a "/" in
  let bslash := HasPrefix b "/" in
  if aslash && bslash then a +:+ sub_drop 1 b
  else if negb aslash && negb bslash then a +:+ "/" +:+ b
  else a +:+ b.

Definition joinURLPath (a b : URL) : string * string :=
  if bool_decide (url_RawPath a = "") && bool_decide (url_RawPath b = "")
  then (singleJoiningSlash (url_Path a) (url_Path b), "")
  else
    let apath := EscapedPath a in
    let bpath := EscapedPath b in
    let aslash := HasSuffix apath "/" in
    let bslash := HasPrefix bpath "/" in
    if aslash && bslash then (url_Path a +:+ sub_drop 1 (url_Path b), apath +:+ sub_drop 1 bpath)
    else if negb aslash && negb bslash then (url_Path a +:+ "/" +:+ url_Path b, apath +:+ "/" +:+ bpath)
    else (url_Path a +:+ url_Path b, apath +:+ bpath).

Section proxy.
Context `{HttpGuts} `{MapRange}.

(** * Headers *)

(** The director of [NewSingleHostReverseProxy]. *)
Definition director (target : URL) (req : Request) : Request :=
  let u := rq_URL req in
  let '(path, rawpath) := joinURLPath target u in
  let targetQuery := url_RawQuery target in
  let query :=
    if bool_decide (targetQuery = "") || bool_decide (url_RawQuery u = "")
    then targetQuery +:+ url_RawQuery u else targetQuery +:+ "&" +:+ url_RawQuery u in
  let req := with_url req (MkURL (url_Scheme target) (url_Host target) path rawpath query) in
  match rq_Header req !! "User-Agent" with
  | Some _ => req
  | None => with_header req (Header_Set (rq_Header req) "User-Agent" "")
  end.

Definition copyHeader (dst src : Header) : Header :=
  foldl (fun dst '(k, vv) => foldl (fun dst v => Header_Add dst k v) dst vv) dst (Range src).

Definition hopHeaders : list string :=
  ["Connection"; "Proxy-Connection"; "Keep-Alive"; "Proxy-Authenticate"; "Proxy-Authorization"; "Te";
   "Trailer"; "Transfer-Encoding"; "Upgrade"].

(** The names listed in the Connection header. *)
Definition connection_names (h : Header) : list string :=
  filter (fun s => s <> "") (TrimString <$> (Header_values h "Connection" ≫= fun f => Split f ",")).

Definition removeConnectionHeaders (h : Header) : Header := foldl Header_Del h (connection_names h).

Definition upgradeType (h : Header) : string :=
  if HeaderValuesContainsToken (Header_values h "Connection") "Upgrade" then Header_Get h "Upgrade" else "".

(** A header without values has a nil list of them. *)
Definition add_forwarded (remoteAddr : string) (h : Header) : Header :=
  match SplitHostPort remoteAddr with
  | None => h
  | Some clientIP =>
      match h !! "X-Forwarded-For" with
      | Some [] => h
      | Some prior => Header_Set h "X-Forwarded-For" (Join prior ", " +:+ ", " +:+ clientIP)
      | None => Header_Set h "X-Forwarded-For" clientIP
      end
  end.

(** [ServeHTTP] up to the round trip: the request that is sent. *)
Definition outgoing (target : URL) (req : Request) : proxy_error + Request :=
  let outreq :=
    if rq_ContentLength req =? 0
    then MkRequest (rq_Method req) (rq_Host req) (rq_URL req) (rq_Header req) (rq_RemoteAddr req) 0 None
           (rq_Close req)
    else req in
  let outreq := director target outreq in
  let h := rq_Header outreq in
  let reqUpType := upgradeType h in
  if negb (IsPrint reqUpType) then inl (InvalidClientProtocol reqUpType)
  else
    let h := removeConnectionHeaders h in
    let h := foldl Header_Del h hopHeaders in
    let h :=
      if HeaderValuesContainsToken (Header_values (rq_Header req) "Te") "trailers"
      then Header_Set h "Te" "trailers" else h in
    let h :=
      if bool_decide (reqUpType = "") then h
      else Header_Set (Header_Set h "Connection" "Upgrade") "Upgrade" reqUpType in
    let h := add_forwarded (rq_RemoteAddr req) h in
    inr (MkRequest (rq_Method outreq) (rq_Host outreq) (rq_URL outreq) h (rq_RemoteAddr outreq)
           (rq_ContentLength outreq) (rq_Body outreq) false).
End proxy.

(** * Copying *)

Section copy.
Context {W : Type} (Write : W -> string -> W * (Z * option string)).

(** [copyBuffer]: what was written, and the error it stopped at.  No error
    of a read is the end of file. *)
Fixpoint copyBuffer (w : W) (written : Z) (src : Reads) : W * (Z * option string) :=
  match src with
  | [] => (w, (written, None))
  | (p, rerr) :: src' =>
      let continue (w : W) (written : Z) :=
        match rerr with Some e => (w, (written, Some e)) | None => copyBuffer w written src' end in
      if 0 <? slen p then
        let '(w, (nw, werr)) := Write w p in
        let written := if 0 <? nw then written + nw else written in
        match werr with
        | Some e => (w, (written, Some e))
        | None => if nw =? slen p then continue w written else (w, (written, Some "short write"))
        end
      else continue w written
  end.
End copy.

(** * Periodic flushes

    [mw_timer]: the timer is set; [mw_fired]: it went off, and the goroutine
    of [delayedFlush] waits for the lock. *)
Record maxLatencyWriter := MkLatencyWriter {
  mw_dst : ResponseWriter;
  mw_latency : Z;
  mw_timer : bool;
  mw_fired : bool;
  mw_flushPending : bool
}.

Definition mlw_Write (m : maxLatencyWriter) (p : string) : maxLatencyWriter * (Z * option string) :=
  let '(dst, r) := rw_Write (mw_dst m) p in
  if mw_latency m <? 0 then
    (MkLatencyWriter (rw_Flush dst) (mw_latency m) (mw_timer m) (mw_fired m) (mw_flushPending m), r)
  else if mw_flushPending m then
    (MkLatencyWriter dst (mw_latency m) (mw_timer m) (mw_fired m) true, r)
  else (MkLatencyWriter dst (mw_latency m) true (mw_fired m) true, r).

Definition delayedFlush (m : maxLatencyWriter) : maxLatencyWriter :=
  if mw_flushPending m then
    MkLatencyWriter (rw_Flush (mw_dst m)) (mw_latency m) (mw_timer m) (mw_fired m) false
  else m.

Definition mlw_stop (m : maxLatencyWriter) : maxLatencyWriter :=
  MkLatencyWriter (mw_dst m) (mw_latency m) false (mw_fired m) false.

(** [flushInterval] *)
Definition flushInterval (FlushInterval : Z) (res : Response) : Z :=
  if decide (Header_Get (rs_Header res) "Content-Type" = "text/event-stream") then -1
  else if rs_ContentLength res =? -1 then -1
  else FlushInterval.

(** [copyResponse], without the flushes of the timer. *)
Definition copyResponse (dst : ResponseWriter) (src : Reads) (flushInterval : Z)
    : ResponseWriter * option string :=
  if flushInterval =? 0 then
    let '(w, (_, err)) := copyBuffer rw_Write dst 0 src in (w, err)
  else
    let '(m, (_, err)) :=
      copyBuffer mlw_Write (MkLatencyWriter dst flushInterval true false true) 0 src in
    (mw_dst (mlw_stop m), err).

(** * Responses *)

Section response.
Context `{HttpGuts} `{MapRange}.

(** The error handler writes a response and may change a state of its own. *)
Context {X : Type} (ErrorHandler : X * ResponseWriter -> proxy_error -> X * ResponseWriter).

Definition map_header (f : Header -> Header) (xw : X * ResponseWriter) : X * ResponseWriter :=
  (fst xw, rw_with_header (snd xw) (f (rw_Header (snd xw)))).

(** What the server offers for an upgrade: the writer can be hijacked, the
    body of the response is a connection; what [Hijack] and writing the
    response on the connection return. *)
Record Hijacking := MkHijacking {
  hj_hijacker : bool;
  hj_writable : bool;
  hj_error : option string;
  hj_write_error : option string
}.

(** The header that is written on the hijacked connection, if the protocol is
    switched. *)
Definition handleUpgradeResponse (hj : Hijacking) (xw : X * ResponseWriter) (req : Request) (res : Response)
    : X * ResponseWriter * option (Z * Header) :=
  let reqUpType := upgradeType (rq_Header req) in
  let resUpType := upgradeType (rs_Header res) in
  let xw := if IsPrint resUpType then xw else ErrorHandler xw (InvalidBackendProtocol resUpType) in
  if negb (EqualFold reqUpType resUpType) then (ErrorHandler xw (ProtocolMismatch resUpType reqUpType), None)
  else if negb (hj_hijacker hj) then (ErrorHandler xw NotHijacker, None)
  else if negb (hj_writable hj) then (ErrorHandler xw BodyNotWritable, None)
  else
    match hj_error hj with
    | Some e => (ErrorHandler xw (HijackFailed e), None)
    | None =>
        let xw := map_header (fun h => copyHeader h (rs_Header res)) xw in
        match hj_write_error hj with
        | Some e => (ErrorHandler xw (UpgradeWriteFailed e), None)
        | None => (xw, Some (rs_StatusCode res, rw_Header (snd xw)))
        end
    end.

Definition end_to_end (h : Header) : Header := foldl Header_Del (removeConnectionHeaders h) hopHeaders.

Definition add_trailers (h : Header) (prefix : string) (trailer : Header) : Header :=
  foldl (fun h '(k, vv) => foldl (fun h v => Header_Add h (prefix +:+ k) v) h vv) h (Range trailer).

(** [ServeHTTP] after the body was copied. *)
Definition send_trailers (res : Response) (xw : X * ResponseWriter) : X * ResponseWriter :=
  let trailer := rs_Trailer_end res in
  let xw := if decide (size trailer = 0%nat) then xw else (fst xw, rw_Flush (snd xw)) in
  if decide (size trailer = size (rs_Trailer res)) then map_header (fun h => copyHeader h trailer) xw
  else map_header (fun h => add_trailers h "Trailer:" trailer) xw.

(** [ServeHTTP] from an answer on that does not switch protocols. *)
Definition send_response (underServer : bool) (FlushInterval : Z) (xw : X * ResponseWriter) (res : Response)
    : X * ResponseWriter :=
  let header := end_to_end (rs_Header res) in
  let xw := map_header (fun h => copyHeader h header) xw in
  let xw :=
    if decide (size (rs_Trailer res) = 0%nat) then xw
    else map_header (fun h => Header_Add h "Trailer" (Join (fst <$> Range (rs_Trailer res)) ", ")) xw in
  let rw := WriteHeader (snd xw) (rs_StatusCode res) in
  let '(rw, err) :=
    copyResponse rw (rs_Body res)
      (flushInterval FlushInterval (MkResponse (rs_StatusCode res) header (rs_ContentLength res) [] ∅ ∅)) in
  match err with
  | None => send_trailers res (fst xw, rw)
  | Some e =>
      if underServer then send_trailers res (ErrorHandler (fst xw, rw) (AbortError e)) else (fst xw, rw)
  end.

Definition ReverseProxy_ServeHTTP (RoundTrip : Request -> string + Response) (hj : Hijacking)
    (underServer : bool) (FlushInterval : Z) (target : URL) (xw : X * ResponseWriter) (req : Request)
    : X * ResponseWriter * option (Z * Header) :=
  match outgoing target req with
  | inl e => (ErrorHandler xw e, None)
  | inr outreq =>
      match RoundTrip outreq with
      | inl e => (ErrorHandler xw (RoundTripFailed e), None)
      | inr res =>
          if rs_StatusCode res =? StatusSwitchingProtocols then handleUpgradeResponse hj xw outreq res
          else (send_response underServer FlushInterval xw res, None)
      end
  end.
End response.

(** * Lemmas *)

Lemma sub_drop_app s t : sub_drop (String.length s) (s +:+ t) = t.
Proof. induction s as [|a s IH]; [done|]. exact IH. Qed.

(** Dropping a leading slash commutes with decoding. *)
Lemma unescape_drop_slash p q :
  HasPrefix p "/" = true -> PathUnescape p = Some q -> PathUnescape (sub_drop 1 p) = Some (sub_drop 1 q).
Proof.
  intros [t ->]%HasPrefix_spec. unfold String.app. cbn [String.append]. rewrite unescape_plain by done.
  intros Hq. destruct (PathUnescape t) as [r|] eqn:E; [|done]. injection Hq as <-. exact E.
Qed.

(** The path a proxied request gets is the decoded form of its escaped
    path, whatever escapes the path of the target and of the request have:
    joining them neither breaks an escape nor changes a segment. *)
Theorem joinURLPath_decodes a b :
  let '(path, rawpath) := joinURLPath a b in rawpath = "" \/ PathUnescape rawpath = Some path.
Proof.
  unfold joinURLPath. destruct (_ && _); [by left|].
  pose proof (EscapedPath_decodes a) as Ha. pose proof (EscapedPath_decodes b) as Hb.
  destruct (HasSuffix _ _), (HasPrefix _ _) eqn:Hp; cbn [andb negb]; right; try by apply unescape_app.
  - apply unescape_app; [done|]. by apply unescape_drop_slash.
  - apply unescape_app; [done|]. by apply (unescape_app "/").
Qed.

Lemma Header_Del_list h names k :
  foldl Header_Del h names !! k = if bool_decide (k ∈ CanonicalHeaderKey <$> names) then None else h !! k.
Proof.
  revert h. induction names as [|n names IH]; intros h; cbn [foldl].
  - by rewrite bool_decide_eq_false_2 by apply not_elem_of_nil.
  - rewrite IH. unfold Header_Del. rewrite fmap_cons. case_bool_decide as Hk.
    + rewrite bool_decide_eq_true_2; [done|]. by right.
    + destruct (decide (k = CanonicalHeaderKey n)) as [->|Hne].
      * rewrite lookup_delete_eq, bool_decide_eq_true_2; [done|]. by left.
      * rewrite lookup_delete_ne, bool_decide_eq_false_2; [done| |done]. by intros [?|?]%elem_of_cons.
Qed.

Lemma hop_canonical : CanonicalHeaderKey <$> hopHeaders = hopHeaders.
Proof. vm_compute. reflexivity. Qed.

Definition from_sum {A B C} (f : A -> C) (g : B -> C) (s : A + B) : C :=
  match s with inl a => f a | inr b => g b end.

Section headers.
Context `{HttpGuts} `{MapRange}.
Implicit Types h : Header.

(** What becomes of the header [k] of a request on its way to the endpoint. *)
Definition kept (h : Header) (k : string) : option (list string) :=
  if bool_decide (k ∈ CanonicalHeaderKey <$> connection_names h) then None
  else if decide (k = "User-Agent") then Some (default [""] (h !! k))
  else h !! k.

Definition forwarded (req : Request) (k : string) : option (list string) :=
  let h := rq_Header req in
  let upgrade := upgradeType h in
  if decide (k = "Te") then
    if HeaderValuesContainsToken (Header_values h "Te") "trailers" then Some ["trailers"] else None
  else if decide (k = "Connection") then if decide (upgrade = "") then None else Some ["Upgrade"]
  else if decide (k = "Upgrade") then if decide (upgrade = "") then None else Some [upgrade]
  else if bool_decide (k ∈ hopHeaders) then None
  else if decide (k = "X-Forwarded-For") then
    match SplitHostPort (rq_RemoteAddr req), kept h k with
    | Some ip, None => Some [ip]
    | Some ip, Some (v :: vs) => Some [Join (v :: vs) ", " +:+ ", " +:+ ip]
    | _, values => values
    end
  else kept h k.

Lemma director_values target req k :
  k <> "User-Agent" -> rq_Header (director target req) !! k = rq_Header req !! k.
Proof.
  intros Hk. unfold director. destruct (joinURLPath _ _). cbn.
  destruct (rq_Header req !! "User-Agent"); [done|]. cbn. unfold Header_Set.
  rewrite lookup_insert_ne; [done|]. by intros <-.
Qed.

Lemma director_kept target req k :
  foldl Header_Del (rq_Header (director target req)) (connection_names (rq_Header req)) !! k =
    kept (rq_Header req) k.
Proof.
  rewrite Header_Del_list. unfold kept. case_bool_decide; [done|]. case_decide as Hk; [|by apply director_values].
  subst k. unfold director. destruct (joinURLPath _ _). cbn.
  destruct (rq_Header req !! "User-Agent") as [vs|] eqn:E; cbn; [done|]. unfold Header_Set. apply lookup_insert_eq.
Qed.

Lemma add_forwarded_lookup addr h k :
  add_forwarded addr h !! k =
    if decide (k = "X-Forwarded-For") then
      match SplitHostPort addr, h !! k with
      | Some ip, None => Some [ip]
      | Some ip, Some (v :: vs) => Some [Join (v :: vs) ", " +:+ ", " +:+ ip]
      | _, values => values
      end
    else h !! k.
Proof.
  unfold add_forwarded, Header_Set. change (CanonicalHeaderKey "X-Forwarded-For") with "X-Forwarded-For".
  destruct (SplitHostPort addr) as [ip|]; [|by case_decide].
  case_decide as Hk; [subst k|].
  - destruct (h !! "X-Forwarded-For") as [[|v vs]|] eqn:E; rewrite ?lookup_insert_eq; done.
  - destruct (h !! "X-Forwarded-For") as [[|v vs]|]; rewrite ?lookup_insert_ne by congruence; done.
Qed.

Lemma outgoing_forwarded target req out k :
  outgoing target req = inr out -> rq_Header out !! k = forwarded req k.
Proof.
  unfold outgoing. set (req0 := if rq_ContentLength req =? 0 then _ else req).
  assert (rq_Header req0 = rq_Header req) as Hreq by (unfold req0; by destruct (_ =? _)). clearbody req0.
  assert (forall n, n <> "User-Agent" ->
    Header_values (rq_Header (director target req0)) n = Header_values (rq_Header req) n) as Hv.
  { intros n Hn. unfold Header_values. by rewrite director_values, Hreq. }
  assert (upgradeType (rq_Header (director target req0)) = upgradeType (rq_Header req)) as ->.
  { unfold upgradeType, Header_Get. by rewrite !Hv. }
  destruct (negb _); [done|]. intros Hout.
  apply (f_equal (from_sum (fun _ => ∅) rq_Header)) in Hout. cbn [from_sum rq_Header] in Hout.
  rewrite <- Hout, add_forwarded_lookup. clear Hout out.
  unfold removeConnectionHeaders. assert (connection_names (rq_Header (director target req0)) =
    connection_names (rq_Header req0)) as -> by (unfold connection_names; by rewrite Hv, Hreq).
  unfold Header_Set. change (CanonicalHeaderKey "Te") with "Te".
  change (CanonicalHeaderKey "Connection") with "Connection". change (CanonicalHeaderKey "Upgrade") with "Upgrade".
  unfold forwarded.
  assert (forall n, foldl Header_Del (foldl Header_Del (rq_Header (director target req0))
    (connection_names (rq_Header req0))) hopHeaders !! n =
    if bool_decide (n ∈ hopHeaders) then None else kept (rq_Header req) n) as Hhop.
  { intros n. by rewrite Header_Del_list, director_kept, Hreq, hop_canonical. }
  set (hop := foldl Header_Del _ hopHeaders) in *. clearbody hop. set (up := upgradeType _) in *. clearbody up.
  set (te := HeaderValuesContainsToken _ "trailers"). clearbody te.
  set (inner := if bool_decide (up = "") then _ else _).
  assert (inner !! k =
    if decide (k = "Te") then if te then Some ["trailers"] else None
    else if decide (k = "Connection") then if decide (up = "") then None else Some ["Upgrade"]
    else if decide (k = "Upgrade") then if decide (up = "") then None else Some [up]
    else if bool_decide (k ∈ hopHeaders) then None else kept (rq_Header req) k) as Hin.
  { assert (forall n, n ∈ hopHeaders -> hop !! n = None) as Hgone.
    { intros n Hn. by rewrite Hhop, bool_decide_eq_true_2. }
    unfold inner. rewrite <- Hhop.
    destruct (decide (k = "Te")) as [->|?]; [|destruct (decide (k = "Connection")) as [->|?];
      [|destruct (decide (k = "Upgrade")) as [->|?]]]; case_bool_decide; destruct te;
      rewrite ?decide_True, ?decide_False, ?lookup_insert_eq, ?lookup_insert_ne, ?lookup_insert_eq by congruence;
      try done; apply Hgone; by apply (bool_decide_unpack _). }
  clearbody inner. rewrite Hin. clear.
  destruct (decide (k = "X-Forwarded-For")) as [->|?]; [|done]. done.
Qed.

(** C31: The request sent to the endpoint carries the headers of the client
    except those of the connection: exactly those the protocol names and the
    client lists are dropped, an upgrade and the support of trailers are
    passed on, the address of the client is appended to the forwarding chain,
    and nothing else is added or changed. *)
Theorem outgoing_headers target req out :
  outgoing target req = inr out -> forall k, rq_Header out !! k = forwarded req k.
Proof. intros Hout k. exact (outgoing_forwarded target req out k Hout). Qed.
End headers.

(** * The user of a proxied request *)

Section user.
Context `{HttpGuts} `{MapRange} `{ImpersonationNames} `{ServiceAccountNames} `{UnicodeLower}.
Implicit Types h : Header.

(** The headers the proxy sets or drops on its own account. *)
Definition proxy_names : list string := "User-Agent" :: "X-Forwarded-For" :: hopHeaders.

Lemma proxy_names_canonical k : k ∈ proxy_names -> CanonicalHeaderKey k = k.
Proof. revert k. apply Forall_forall. apply (bool_decide_unpack _). vm_compute. exact I. Qed.

Lemma forwarded_other req k :
  k ∉ proxy_names ->
  forwarded req k = if bool_decide (k ∈ CanonicalHeaderKey <$> connection_names (rq_Header req))
                    then None else rq_Header req !! k.
Proof.
  intros Hk. assert (forall n, n ∈ proxy_names -> k <> n) as Hne by (intros n Hn ->; done).
  unfold forwarded, kept. rewrite !decide_False by (apply Hne; by apply (bool_decide_unpack _)).
  rewrite (bool_decide_eq_false_2 (k ∈ hopHeaders)); [done|]. intros Hin. apply Hk. by do 2 right.
Qed.

Lemma forwarded_canonical req k vs :
  canonical_keys (rq_Header req) -> forwarded req k = Some vs -> CanonicalHeaderKey k = k.
Proof.
  intros Hcan Hk. destruct (decide (k ∈ proxy_names)) as [|Hno]; [by apply proxy_names_canonical|].
  rewrite forwarded_other in Hk by done. case_bool_decide; [done|]. by apply (Hcan k vs).
Qed.

Lemma forwarded_plain req out :
  (forall k, rq_Header out !! k = forwarded req k) -> Forall (fun k => ordinary k = true) proxy_names ->
  plain (rq_Header req) -> plain (rq_Header out).
Proof.
  intros Hfw Hord [Hu Hg He].
  assert (forall k, ordinary k = false ->
    rq_Header out !! k = None \/ rq_Header out !! k = rq_Header req !! k) as Hout.
  { intros k Hk. rewrite Hfw, forwarded_other; [case_bool_decide; auto|].
    intros Hin. rewrite Forall_forall in Hord. specialize (Hord k Hin). congruence. }
  split.
  - unfold Header_Get, Header_values in *. destruct (Hout (CanonicalHeaderKey ImpersonateUserHeader)) as [->| ->].
    + rewrite user_canonical. unfold ordinary. by rewrite bool_decide_eq_true_2.
    + done.
    + exact Hu.
  - unfold Header_values in *. destruct (Hout ImpersonateGroupHeader) as [->| ->]; [|done..].
    unfold ordinary. rewrite (bool_decide_eq_true_2 (ImpersonateGroupHeader = ImpersonateGroupHeader)) by done.
    by rewrite andb_false_r.
  - intros k Hk. destruct (Hout k) as [->| ->]; [|done|by apply He]. unfold ordinary. by rewrite Hk, andb_false_r.
Qed.

(** From the impersonation filter through the proxy and its transport to
    the filter of the upstream: the upstream acts for the user the gateway
    decided on, with the same groups and extra values, whatever headers the
    client sent, lists in its Connection header included; and it gets the
    other headers as the proxy forwards them. *)
Theorem proxied_user Authorize requestor gateway target req h u out :
  Forall (fun k => ordinary k = true) proxy_names -> canonical_keys h ->
  WithNoLoggingImpersonation Authorize requestor h = Next (Some u) (rq_Header req) -> complete u ->
  outgoing target req = inr out ->
  exists u' h',
    WithNoLoggingImpersonation (fun _ _ => true) (Some gateway) (WrapRequest (rq_Header out) (Some u)) =
      Next (Some u') h' /\
    ui_Name u' = ui_Name u /\ ui_Groups u' = ui_Groups u /\
    (forall k, default [] (ui_Extra u' !! k) = default [] (ui_Extra u !! k)) /\
    (forall k, h' !! k = if ordinary k then forwarded req k else None).
Proof.
  intros Hord Hcan Hnext Hu Hout. destruct (filter_headers _ _ _ _ _ Hcan Hnext) as [Hplain Hother].
  pose proof (filtered_canonical _ _ Hcan Hplain Hother) as Hcan'.
  pose proof (fun k => outgoing_forwarded target req out k Hout) as Hfw.
  destruct (read_back gateway (rq_Header out) u) as (u' & h' & Hn & Hname & Hgroups & Hextra & Hh);
    [by apply (forwarded_plain req)| |done|].
  - intros k vs Hk. rewrite Hfw in Hk. by apply (forwarded_canonical req k vs).
  - exists u', h'. split_and!; [done..|]. intros k. rewrite Hh, Hfw. done.
Qed.
End user.

(** * What is copied *)

Lemma slen_nonneg s : 0 <= slen s.
Proof. induction s as [|a s IH]; simpl; lia. Qed.

Lemma slen_app s t : slen (s +:+ t) = slen s + slen t.
Proof.
  induction s as [|a s IH]; [done|]. unfold String.app in *. cbn [slen String.append]. rewrite IH. lia.
Qed.

Lemma sub_take_all s : sub_take (Z.to_nat (slen s)) s = s.
Proof.
  induction s as [|a s IH]; [done|]. cbn [slen]. pose proof (slen_nonneg s).
  replace (Z.to_nat (1 + slen s)) with (Datatypes.S (Z.to_nat (slen s))) by lia. cbn. by rewrite IH.
Qed.

Lemma slen_sub_take n s : (Z.of_nat n <= slen s) -> slen (sub_take n s) = Z.of_nat n.
Proof.
  revert s. induction n as [|n IH]; intros [|a s]; cbn [sub_take slen]; try lia.
  intros Hn. rewrite IH; lia.
Qed.

Lemma sub_take_prefix n s t : HasPrefix (s +:+ t) (sub_take n s) = true.
Proof.
  revert s. induction n as [|n IH]; intros [|a s]; cbn [sub_take]; try apply HasPrefix_nil.
  unfold String.app in *. cbn [String.append HasPrefix]. by rewrite IH, decide_True.
Qed.

Lemma HasPrefix_app s t u : HasPrefix (s +:+ t) (s +:+ u) = HasPrefix t u.
Proof.
  induction s as [|a s IH]; [done|]. unfold String.app in *. cbn [String.append HasPrefix].
  by rewrite IH, decide_True.
Qed.

Lemma string_app_inj s t u : s +:+ t = s +:+ u -> t = u.
Proof. induction s as [|a s IH]; [done|]. intros [= Hs]. by apply IH. Qed.

(** The bytes of a body up to the error a read returns. *)
Fixpoint content (src : Reads) : string * option string :=
  match src with
  | [] => ("", None)
  | (p, Some e) :: _ => (p, Some e)
  | (p, None) :: src' => (p +:+ fst (content src'), snd (content src'))
  end.

Section copied.
Context {W : Type} (Write : W -> string -> W * (Z * option string)) (delivered : W -> string).

(** What [io.Writer] promises: the bytes it took are the first ones, all of
    them unless it returns an error. *)
Definition writer_ok : Prop :=
  forall w p w' n e, Write w p = (w', (n, e)) ->
    delivered w' = delivered w +:+ sub_take (Z.to_nat n) p /\ 0 <= n <= slen p /\ (e = None -> n = slen p).

Lemma copyBuffer_prefix w n src w' n' err :
  writer_ok -> copyBuffer Write w n src = (w', (n', err)) ->
  exists d, delivered w' = delivered w +:+ d /\ n' = n + slen d /\ HasPrefix (fst (content src)) d = true /\
    (err = None -> content src = (d, None)).
Proof.
  intros Hok. revert w n. induction src as [|[p rerr] src IH]; intros w n; cbn [copyBuffer].
  { intros [= <- <- <-]. exists "". rewrite string_app_nil_r. split_and!; [done|cbn; lia|done..]. }
  destruct (Z.ltb_spec 0 (slen p)) as [Hp|Hp].
  - destruct (Write w p) as [w1 [nw werr]] eqn:E. apply Hok in E as (Hd & Hn & Hall).
    assert ((if 0 <? nw then n + nw else n) = n + nw) as -> by (destruct (Z.ltb_spec 0 nw); lia).
    assert (slen (sub_take (Z.to_nat nw) p) = nw) as Hlen by (rewrite slen_sub_take; lia).
    destruct werr as [e|].
    { intros [= <- <- <-]. exists (sub_take (Z.to_nat nw) p). rewrite Hlen. split_and!; [done..| |done].
      destruct rerr; cbn [content fst]; [|apply sub_take_prefix].
      rewrite <- (string_app_nil_r p) at 1. apply sub_take_prefix. }
    specialize (Hall eq_refl). subst nw. rewrite sub_take_all in Hd. rewrite Z.eqb_refl.
    destruct rerr as [e|].
    + intros [= <- <- <-]. exists p. split_and!; [done..| |done]. cbn. apply HasPrefix_spec. exists "".
      by rewrite string_app_nil_r.
    + intros (d & Hd' & Hn' & Hpre & Herr)%IH. exists (p +:+ d). rewrite Hd', Hd, string_app_assoc, slen_app.
      split_and!; [done|lia| |].
      * cbn [content fst]. by rewrite HasPrefix_app.
      * intros He. cbn [content]. by rewrite (Herr He).
  - assert (p = "") as -> by (destruct p as [|a p]; [done|]; cbn in Hp; pose proof (slen_nonneg p); lia).
    destruct rerr as [e|].
    + intros [= <- <- <-]. exists "". rewrite string_app_nil_r. split_and!; [done|cbn; lia|done..].
    + intros (d & Hd' & Hn' & Hpre & Herr)%IH. exists d. cbn [content fst]. split_and!; [done..|].
      intros He. cbn [content]. by rewrite (Herr He).
Qed.

(** A writer that never fails gets everything. *)
Lemma copyBuffer_all (P : W -> Prop) w n src w' n' err :
  writer_ok -> (forall w p w' n e, P w -> Write w p = (w', (n, e)) -> P w' /\ e = None) -> P w ->
  copyBuffer Write w n src = (w', (n', err)) ->
  P w' /\ delivered w' = delivered w +:+ fst (content src) /\ err = snd (content src).
Proof.
  intros Hok Hnofail. revert w n. induction src as [|[p rerr] src IH]; intros w n HP; cbn [copyBuffer].
  { intros [= <- <- <-]. by rewrite string_app_nil_r. }
  destruct (Z.ltb_spec 0 (slen p)) as [Hp|Hp].
  - destruct (Write w p) as [w1 [nw werr]] eqn:E. destruct (Hnofail _ _ _ _ _ HP E) as [HP1 ->].
    apply Hok in E as (Hd & Hn & Hall). specialize (Hall eq_refl). subst nw.
    rewrite sub_take_all in Hd. rewrite Z.eqb_refl. destruct rerr as [e|].
    + intros [= <- <- <-]. by rewrite Hd.
    + intros (HP' & Hd' & Herr)%IH; [|done]. rewrite Hd', Hd, string_app_assoc. done.
  - assert (p = "") as -> by (destruct p as [|a p]; [done|]; cbn in Hp; pose proof (slen_nonneg p); lia).
    destruct rerr as [e|]; [intros [= <- <- <-]; by rewrite string_app_nil_r|]. intros ?%IH; done.
Qed.

Lemma copyBuffer_preserves (P : W -> Prop) w n src :
  (forall w p, P w -> P (fst (Write w p))) -> P w -> P (fst (copyBuffer Write w n src)).
Proof.
  intros Hstep. revert w n. induction src as [|[p rerr] src IH]; intros w n HP; cbn [copyBuffer]; [done|].
  destruct (0 <? slen p); [|destruct rerr; [done|by apply IH]].
  specialize (Hstep w p HP). destruct (Write w p) as [w1 [nw werr]]. cbn [fst] in Hstep.
  destruct werr; [done|]. destruct (nw =? slen p); [|done]. destruct rerr; [done|by apply IH].
Qed.
End copied.

Lemma WriteHeader_body w c : rw_body (WriteHeader w c) = rw_body w /\ rw_room (WriteHeader w c) = rw_room w.
Proof. unfold WriteHeader. by destruct (rw_sent w). Qed.

Lemma rw_Write_ok : writer_ok rw_Write rw_body.
Proof.
  intros w p w' n e. unfold rw_Write. destruct (WriteHeader_body w StatusOK) as [Hb Hr]. rewrite Hr.
  pose proof (slen_nonneg p). set (m := match rw_room w with Some _ => _ | None => _ end).
  assert (0 <= m <= slen p) by (unfold m; destruct (rw_room w); lia).
  intros [= <- <- <-]. cbn. rewrite Hb. split_and!; [done|lia|lia|]. destruct (Z.ltb_spec m (slen p)); [done|lia].
Qed.

Lemma mlw_Write_eq m p :
  exists m', mlw_Write m p = (m', snd (rw_Write (mw_dst m) p)) /\ mw_latency m' = mw_latency m /\
    (mw_dst m' = fst (rw_Write (mw_dst m) p) \/ mw_dst m' = rw_Flush (fst (rw_Write (mw_dst m) p))).
Proof.
  unfold mlw_Write. destruct (rw_Write (mw_dst m) p) as [dst r]. cbn [fst snd].
  destruct (_ <? 0); [eexists; split; [done|]; auto|]. destruct (mw_flushPending m); eexists; split; auto.
Qed.

Lemma Flush_body w : rw_body (rw_Flush w) = rw_body w.
Proof. unfold rw_Flush. cbn. apply WriteHeader_body. Qed.

Lemma mlw_Write_ok : writer_ok mlw_Write (fun m => rw_body (mw_dst m)).
Proof.
  intros m p m' n e Hw. destruct (mlw_Write_eq m p) as (m1 & E & _ & Hdst). rewrite E in Hw.
  assert (m1 = m' /\ snd (rw_Write (mw_dst m) p) = (n, e)) as [-> Hr] by (split; congruence).
  destruct (rw_Write (mw_dst m) p) as [dst r] eqn:Ew. cbn [fst snd] in *. subst r.
  apply rw_Write_ok in Ew as (Hd & Hrest). destruct Hdst as [-> | ->]; rewrite ?Flush_body; done.
Qed.

(** Writing and flushing leave the headers alone once they are sent. *)
Definition same_head (w w' : ResponseWriter) : Prop := rw_Header w' = rw_Header w /\ rw_sent w' = rw_sent w.

Lemma sent_same w c : rw_sent w <> None -> WriteHeader w c = w.
Proof. unfold WriteHeader. by destruct (rw_sent w). Qed.

Lemma Write_head w w' p : rw_sent w <> None -> same_head w w' -> same_head w (fst (rw_Write w' p)).
Proof. intros Hs [Hh Hs']. unfold rw_Write. rewrite sent_same by congruence. done. Qed.

Lemma Flush_head w w' : rw_sent w <> None -> same_head w w' -> same_head w (rw_Flush w').
Proof. intros Hs [Hh Hs']. unfold rw_Flush. rewrite sent_same by congruence. done. Qed.

Lemma copyResponse_head w src interval :
  rw_sent w <> None -> same_head w (fst (copyResponse w src interval)).
Proof.
  intros Hs. unfold copyResponse. destruct (interval =? 0).
  - pose proof (copyBuffer_preserves rw_Write (same_head w) w 0 src (fun w' p => Write_head w w' p Hs)) as Hp.
    destruct (copyBuffer rw_Write w 0 src) as [w' [n err]]. by apply Hp.
  - set (m := MkLatencyWriter w interval true false true).
    pose proof (copyBuffer_preserves mlw_Write (fun m => same_head w (mw_dst m)) m 0 src) as Hp.
    destruct (copyBuffer mlw_Write m 0 src) as [m' [n err]]. apply Hp; [|done].
    intros m1 p H1. destruct (mlw_Write_eq m1 p) as (m2 & E & _ & Hdst). rewrite E. cbn [fst].
    destruct Hdst as [-> | ->]; [|apply Flush_head; [done|]]; by apply Write_head.
Qed.

Lemma copyResponse_copies w src interval w' err :
  copyResponse w src interval = (w', err) ->
  exists d, rw_body w' = rw_body w +:+ d /\ HasPrefix (fst (content src)) d = true /\
    (err = None -> content src = (d, None)) /\
    (rw_room w = None -> d = fst (content src) /\ err = snd (content src)).
Proof.
  unfold copyResponse.
  assert (forall w p w' n e, rw_room w = None -> rw_Write w p = (w', (n, e)) -> rw_room w' = None /\ e = None)
    as Hroom.
  { intros w1 p w2 n e Hr. unfold rw_Write. rewrite (proj2 (WriteHeader_body w1 StatusOK)), Hr. cbn.
    intros [= <- <- <-]. by rewrite Z.ltb_irrefl. }
  destruct (interval =? 0).
  - destruct (copyBuffer rw_Write w 0 src) as [w1 [n err1]] eqn:E. intros [= <- <-].
    destruct (copyBuffer_prefix _ _ _ _ _ _ _ _ rw_Write_ok E) as (d & Hd & _ & Hpre & Herr).
    exists d. split_and!; [done..|]. intros Hr.
    destruct (copyBuffer_all _ _ (fun w => rw_room w = None) _ _ _ _ _ _ rw_Write_ok Hroom Hr E) as (_ & Hall & Hs).
    split; [|done]. rewrite Hd in Hall. by apply string_app_inj in Hall.
  - set (m := MkLatencyWriter w interval true false true).
    destruct (copyBuffer mlw_Write m 0 src) as [m1 [n err1]] eqn:E. intros [= <- <-].
    destruct (copyBuffer_prefix _ _ _ _ _ _ _ _ mlw_Write_ok E) as (d & Hd & _ & Hpre & Herr).
    exists d. split_and!; [done..|]. intros Hr.
    assert (forall m p m' n e, rw_room (mw_dst m) = None -> mlw_Write m p = (m', (n, e)) ->
      rw_room (mw_dst m') = None /\ e = None) as Hroom'.
    { intros m2 p m3 k e H2 Hw. destruct (mlw_Write_eq m2 p) as (m4 & E4 & _ & Hdst). rewrite E4 in Hw.
      assert (m4 = m3 /\ snd (rw_Write (mw_dst m2) p) = (k, e)) as [-> Hr4] by (split; congruence).
      destruct (rw_Write (mw_dst m2) p) as [dst r] eqn:Ew. cbn [fst snd] in *. subst r.
      destruct (Hroom _ _ _ _ _ H2 Ew) as [Hdr ->]. split; [|done].
      destruct Hdst as [-> | ->]; [done|]. unfold rw_Flush. cbn. by rewrite (proj2 (WriteHeader_body dst StatusOK)). }
    destruct (copyBuffer_all _ _ (fun m => rw_room (mw_dst m) = None) m _ _ _ _ _ mlw_Write_ok Hroom' Hr E)
      as (_ & Hall & Hs).
    split; [|done]. cbn beta in *. rewrite Hd in Hall. by apply string_app_inj in Hall.
Qed.

(** * Responses *)

Section responses.
Context `{HttpGuts} `{MapRange}.
Context {X : Type} (ErrorHandler : X * ResponseWriter -> proxy_error -> X * ResponseWriter).

Lemma copyHeader_values (dst src : Header) k :
  canonical_keys src -> Header_values (copyHeader dst src) k = Header_values dst k ++ Header_values src k.
Proof.
  intros Hcan. unfold copyHeader.
  assert (forall l : list (string * list string), (forall n vv, (n, vv) ∈ l -> CanonicalHeaderKey n = n) ->
    forall dst : Header, Header_values (foldl (fun dst '(k, vv) => foldl (fun dst v => Header_Add dst k v) dst vv) dst l) k =
      Header_values dst k ++ (l ≫= fun '(n, vv) => if bool_decide (n = k) then vv else [])) as Hfold.
  { induction l as [|[n vv] l IH]; intros Hl d; cbn [foldl mbind list_bind]; [by rewrite app_nil_r|].
    rewrite IH by (intros m ww Hm; apply (Hl m ww); by right). rewrite app_assoc. f_equal.
    unfold Header_values at 1. rewrite Header_Add_all, (Hl n vv) by left. case_bool_decide as Hn; [subst n|].
    - destruct vv; [rewrite decide_False by (by intros [_ ?]); by rewrite app_nil_r|]. by rewrite decide_True.
    - rewrite decide_False by (intros [? _]; congruence). by rewrite app_nil_r. }
  rewrite Hfold by (intros n vv Hin; apply elem_of_Range in Hin; by apply (Hcan n vv)).
  f_equal. rewrite (bind_unique (fun n => bool_decide (n = k)) (Range src) k).
  - by rewrite bool_decide_eq_true_2, list_to_map_Range.
  - rewrite Range_perm. apply NoDup_fst_map_to_list.
  - intros n vv _ Hn. by apply bool_decide_eq_true in Hn.
Qed.

(** The values of a header of the response that are passed on. *)
Definition returned (h : Header) (k : string) : list string :=
  if bool_decide (k ∈ hopHeaders) || bool_decide (k ∈ CanonicalHeaderKey <$> connection_names h)
  then [] else Header_values h k.

Lemma end_to_end_lookup (h : Header) k :
  end_to_end h !! k = if bool_decide (k ∈ hopHeaders) ||
    bool_decide (k ∈ CanonicalHeaderKey <$> connection_names h) then None else h !! k.
Proof.
  unfold end_to_end, removeConnectionHeaders. rewrite Header_Del_list, hop_canonical, Header_Del_list.
  by destruct (bool_decide (k ∈ hopHeaders)).
Qed.

Lemma end_to_end_values (h : Header) k :
  canonical_keys h -> canonical_keys (end_to_end h) /\ Header_values (end_to_end h) k = returned h k.
Proof.
  intros Hcan. split.
  - intros n vs Hn. rewrite end_to_end_lookup in Hn. destruct (_ || _); [done|]. by apply (Hcan n vs).
  - unfold Header_values at 1, returned. rewrite end_to_end_lookup. by destruct (_ || _).
Qed.

Lemma send_trailers_sent res (xw : X * ResponseWriter) :
  rw_sent (snd xw) <> None ->
  fst (send_trailers res xw) = fst xw /\ rw_sent (snd (send_trailers res xw)) = rw_sent (snd xw) /\
  rw_body (snd (send_trailers res xw)) = rw_body (snd xw).
Proof.
  intros Hs. assert (rw_sent (rw_Flush (snd xw)) = rw_sent (snd xw)) as Hfl.
  { unfold rw_Flush. by rewrite sent_same. }
  unfold send_trailers. repeat case_decide; cbn [map_header fst snd rw_body rw_sent rw_with_header];
    rewrite ?Flush_body, ?Hfl; done.
Qed.

Lemma send_response_spec underServer interval x rw res :
  canonical_keys (rs_Header res) -> rw_sent rw = None -> rw_room rw = None -> snd (content (rs_Body res)) = None ->
  exists rw', send_response ErrorHandler underServer interval (x, rw) res = (x, rw') /\
  rw_body rw' = rw_body rw +:+ fst (content (rs_Body res)) /\
  exists h, rw_sent rw' = Some (rs_StatusCode res, h) /\
    forall k, k <> "Trailer" -> Header_values h k = Header_values (rw_Header rw) k ++ returned (rs_Header res) k.
Proof.
  intros Hcan Hsent Hroom Hbody. unfold send_response. cbv zeta. set (xw2 := if decide _ then _ else _).
  assert (exists rw2, xw2 = (x, rw2) /\ rw_sent rw2 = None /\ rw_body rw2 = rw_body rw /\ rw_room rw2 = None /\
    forall k, k <> "Trailer" ->
      Header_values (rw_Header rw2) k = Header_values (rw_Header rw) k ++ returned (rs_Header res) k)
    as (rw2 & -> & Hs2 & Hb2 & Hr2 & Hh2).
  { destruct (end_to_end_values (rs_Header res) "" Hcan) as [Hcan' _].
    unfold xw2. case_decide; (eexists; split; [reflexivity|]; split_and!; [done..|]); intros k Hk.
    - cbn. rewrite copyHeader_values by done. f_equal. by apply end_to_end_values.
    - cbn. unfold Header_Add. change (CanonicalHeaderKey "Trailer") with "Trailer".
      rewrite Header_values_insert, decide_False by done. rewrite copyHeader_values by done. f_equal.
      by apply end_to_end_values. }
  cbn [fst snd]. set (rw3 := WriteHeader rw2 (rs_StatusCode res)).
  assert (rw_sent rw3 = Some (rs_StatusCode res, rw_Header rw2) /\ rw_body rw3 = rw_body rw /\ rw_room rw3 = None)
    as (Hs3 & Hb3 & Hr3) by (unfold rw3, WriteHeader; by rewrite Hs2).
  clearbody rw3. set (iv := flushInterval _ _). clearbody iv.
  pose proof (copyResponse_head rw3 (rs_Body res) iv) as Hhead.
  destruct (copyResponse rw3 (rs_Body res) iv) as [rw4 err] eqn:E.
  destruct (copyResponse_copies _ _ _ _ _ E) as (d & Hd & _ & _ & Hall).
  destruct (Hall Hr3) as [-> ->]. rewrite Hbody. destruct Hhead as [_ Hs4]; [by rewrite Hs3|]. cbn [fst] in Hs4.
  destruct (send_trailers_sent res (x, rw4)) as (Hx & Hst & Hbt); [cbn; rewrite Hs4, Hs3; done|]. cbn [fst snd] in *.
  destruct (send_trailers res (x, rw4)) as [x' rw']. cbn [fst snd] in *. subst x'.
  exists rw'. split; [done|]. split; [by rewrite Hbt, Hd, Hb3|].
  exists (rw_Header rw2). split; [|done]. by rewrite Hst, Hs4, Hs3.
Qed.

(** C16: What the endpoint answers is what the client gets: its status, its
    body byte for byte, and its headers except those of the connection, after
    whatever headers the filters of the gateway had set. *)
Theorem ServeHTTP_returns_response RoundTrip hj underServer interval target x rw req out res :
  outgoing target req = inr out -> RoundTrip out = inr res ->
  rs_StatusCode res <> StatusSwitchingProtocols -> canonical_keys (rs_Header res) ->
  snd (content (rs_Body res)) = None -> rw_sent rw = None -> rw_room rw = None ->
  exists rw' h,
    ReverseProxy_ServeHTTP ErrorHandler RoundTrip hj underServer interval target (x, rw) req = (x, rw', None) /\
    rw_sent rw' = Some (rs_StatusCode res, h) /\
    rw_body rw' = rw_body rw +:+ fst (content (rs_Body res)) /\
    forall k, k <> "Trailer" -> Header_values h k = Header_values (rw_Header rw) k ++ returned (rs_Header res) k.
Proof.
  intros Hout Hres Hst Hcan Hbody Hsent Hroom. unfold ReverseProxy_ServeHTTP. rewrite Hout, Hres.
  destruct (Z.eqb_spec (rs_StatusCode res) StatusSwitchingProtocols); [done|].
  destruct (send_response_spec underServer interval x rw res Hcan Hsent Hroom Hbody)
    as (rw' & -> & Hb & h & Hs & Hh).
  by exists rw', h.
Qed.

Lemma EqualFold_print s t : EqualFold s t = true -> IsPrint s = true -> IsPrint t = true.
Proof.
  revert t. induction s as [|a s IH]; intros [|b t]; try done. cbn [EqualFold IsPrint string_forallb].
  intros [Hab Hst]%andb_true_iff [Ha Hs]%andb_true_iff. apply bool_decide_eq_true in Hab.
  apply andb_true_iff. split; [|by apply IH].
  assert (forall x, bool_decide (in_range 32 126 (lower_byte x) = in_range 32 126 x) = true) as Hlow
    by (apply byte_cases; vm_compute; reflexivity).
  pose proof (bool_decide_eq_true_1 _ (Hlow a)) as Ea. pose proof (bool_decide_eq_true_1 _ (Hlow b)) as Eb. congruence.
Qed.

(** An endpoint that answers an upgrade with a protocol that is not
    printable makes the proxy report two errors for the one response: the
    first report does not end the handler. *)
Theorem invalid_protocol_reported_twice hj xw req res :
  IsPrint (upgradeType (rq_Header req)) = true -> IsPrint (upgradeType (rs_Header res)) = false ->
  handleUpgradeResponse ErrorHandler hj xw req res =
    (ErrorHandler (ErrorHandler xw (InvalidBackendProtocol (upgradeType (rs_Header res))))
       (ProtocolMismatch (upgradeType (rs_Header res)) (upgradeType (rq_Header req))), None).
Proof.
  intros Hreq Hres. unfold handleUpgradeResponse. rewrite Hres.
  destruct (EqualFold _ _) eqn:E; [|done]. apply EqualFold_print in E; [congruence|done].
Qed.
End responses.

(** * Flushes happen *)

(** The goroutine of the handler writes; the timer goes off, and its goroutine
    flushes when it gets the lock. *)
Inductive timer_step : maxLatencyWriter -> maxLatencyWriter -> Prop :=
  | timer_fires m :
      mw_timer m = true ->
      timer_step m (MkLatencyWriter (mw_dst m) (mw_latency m) false true (mw_flushPending m))
  | timer_flushes m :
      mw_fired m = true ->
      timer_step m (delayedFlush (MkLatencyWriter (mw_dst m) (mw_latency m) (mw_timer m) false (mw_flushPending m))).

Inductive latency_step : maxLatencyWriter -> maxLatencyWriter -> Prop :=
  | latency_write m p : latency_step m (fst (mlw_Write m p))
  | latency_timer m m' : timer_step m m' -> latency_step m m'.

(** How [copyResponse] sets the writer up. *)
Definition new_latency_writer (dst : ResponseWriter) (latency : Z) : maxLatencyWriter :=
  MkLatencyWriter dst latency true false true.

Record latency_inv (m : maxLatencyWriter) : Prop := {
  li_pending : mw_flushPending m = mw_timer m || mw_fired m;
  li_once : mw_timer m && mw_fired m = false;
  li_flushed : mw_flushPending m = false -> rw_flushed (mw_dst m) = slen (rw_body (mw_dst m))
}.

Lemma Flush_flushed w : rw_flushed (rw_Flush w) = slen (rw_body (rw_Flush w)).
Proof. done. Qed.

Lemma latency_inv_step m m' : latency_inv m -> latency_step m m' -> latency_inv m'.
Proof.
  intros Hinv Hstep. destruct Hstep as [m1 p|m1 m2 [m3 Ht|m3 Hfi]]; destruct Hinv as [Hp Ho Hf].
  - unfold mlw_Write. destruct (rw_Write (mw_dst m1) p) as [dst r]. destruct (_ <? 0); [by split; cbn|].
    destruct (mw_flushPending m1) eqn:E; [by split; cbn|]. symmetry in Hp. apply orb_false_iff in Hp as [Ht Hfi].
    split; cbn; [done|by rewrite Hfi|done].
  - split; cbn; [by rewrite Hp, Ht|done|]. by rewrite Hp, Ht.
  - assert (mw_timer m3 = false) as Ht by (rewrite Hfi in Ho; by destruct (mw_timer m3)).
    unfold delayedFlush. cbn. rewrite Hp, Hfi, orb_true_r. split; cbn; rewrite ?Ht; done.
Qed.

(** C33: No byte of a response waits for ever: at any moment of the copying, the
    timer alone, in at most two steps, brings every byte written so far to
    the client, and none is lost or reordered on the way. *)
Theorem written_bytes_get_flushed dst latency m :
  rtc latency_step (new_latency_writer dst latency) m ->
  exists n m', (n <= 2)%nat /\ nsteps timer_step n m m' /\
    rw_body (mw_dst m') = rw_body (mw_dst m) /\ rw_flushed (mw_dst m') = slen (rw_body (mw_dst m)).
Proof.
  intros Hreach. assert (latency_inv m) as [Hp Ho Hf].
  { assert (latency_inv (new_latency_writer dst latency)) as Hnew by done. revert Hreach Hnew.
    generalize (new_latency_writer dst latency). intros m0 Hreach.
    induction Hreach as [|x y z Hstep _ IH]; [done|]. eauto using latency_inv_step. }
  assert (forall m1, mw_fired m1 = true -> mw_flushPending m1 = true -> mw_dst m1 = mw_dst m ->
    exists m', timer_step m1 m' /\ rw_body (mw_dst m') = rw_body (mw_dst m) /\
      rw_flushed (mw_dst m') = slen (rw_body (mw_dst m))) as Hrun.
  { intros m1 Hfi Hpe Hd. eexists. split; [by apply timer_flushes|]. unfold delayedFlush. cbn. rewrite Hpe. cbn.
    by rewrite (proj1 (WriteHeader_body _ _)), Hd. }
  destruct (mw_flushPending m) eqn:E; [|exists 0%nat, m; split_and!; [lia|constructor|done|by apply Hf]].
  destruct (mw_fired m) eqn:Hfi.
  - destruct (Hrun m) as (m' & Hs & Hb & Hfl); [done..|]. exists 1%nat, m'. split_and!; [lia| |done..].
    by apply nsteps_once.
  - destruct (mw_timer m) eqn:Ht; [|done].
    pose proof (timer_fires m Ht) as Hfire. set (m1 := MkLatencyWriter _ _ _ _ _) in Hfire.
    destruct (Hrun m1) as (m' & Hs & Hb & Hfl); [done..|].
    exists 2%nat, m'. split_and!; [lia| |done..]. eapply nsteps_l; [exact Hfire|]. by apply nsteps_once.
Qed.

(** * Witnesses *)

Module ProxyExample.
#[local] Existing Instance sorted_range.

(** Tokens are compared without regard to case and surrounding space. *)
Definition guts : HttpGuts := {|
  HeaderValuesContainsToken values token :=
    existsb (fun v => existsb (fun t => EqualFold (TrimString t) token) (Split v ",")) values
|}.

(** A client that tries to have the proxy drop the header of its user and to
    keep a header of its own. *)
Definition headers : Header :=
  {[ "Connection" := ["Impersonate-User, X-Mine"; "keep-alive"];
     "X-Mine" := ["1"];
     "Keep-Alive" := ["timeout=5"];
     "Accept" := ["application/json"] ]}.

Definition target : URL := MkURL "https" "10.0.0.1:6443" "" "" "".

Definition request : Request :=
  MkRequest "GET" "c1.example.com" (MkURL "" "" "/api/v1/pods" "" "watch=true") headers "192.0.2.7:52033" 0 None false.

Definition sent : Request :=
  match outgoing (H := guts) target request with inr r => r | inl _ => request end.

Definition answer : Response :=
  MkResponse 200 {[ "Content-Type" := ["application/json"]; "Connection" := ["close"] ]} (-1)
    [("{", None); ("}", None)] ∅ ∅.

Definition fresh : ResponseWriter := MkWriter {[ "Audit-Id" := ["a1"] ]} None "" 0 None.

Example sent_is :
  rq_Header sent = {[ "Accept" := ["application/json"]; "User-Agent" := [""];
                      "X-Forwarded-For" := ["192.0.2.7"] ]} /\
  rq_URL sent = MkURL "https" "10.0.0.1:6443" "/api/v1/pods" "" "watch=true".
Proof. split; vm_compute; reflexivity. Qed.
End ProxyExample.

#[local] Existing Instance ProxyExample.guts.
#[local] Existing Instance sorted_range.

Lemma outgoing_headers_witness :
  rq_Header ProxyExample.sent !! "X-Mine" = None /\
  rq_Header ProxyExample.sent !! "Accept" = Some ["application/json"].
Proof.
  assert (outgoing ProxyExample.target ProxyExample.request = inr ProxyExample.sent) as Hout
    by (vm_compute; reflexivity).
  rewrite !(outgoing_headers _ _ _ Hout). split; vm_compute; reflexivity.
Defined.

Lemma ServeHTTP_returns_response_witness :
  exists rw' h,
    ReverseProxy_ServeHTTP (fun xw _ => xw) (fun _ => inr ProxyExample.answer) (MkHijacking false false None None)
      true 0 ProxyExample.target (tt, ProxyExample.fresh) ProxyExample.request = (tt, rw', None) /\
    rw_sent rw' = Some (200, h) /\ rw_body rw' = "{}" /\ Header_values h "Audit-Id" = ["a1"].
Proof.
  destruct (ServeHTTP_returns_response (fun xw _ => xw) (fun _ => inr ProxyExample.answer)
    (MkHijacking false false None None) true 0 ProxyExample.target tt ProxyExample.fresh ProxyExample.request
    ProxyExample.sent ProxyExample.answer) as (rw' & h & Hserve & Hsent & Hbody & Hh).
  - vm_compute. reflexivity.
  - reflexivity.
  - discriminate.
  - refine (bool_decide_unpack _ _). vm_compute. exact I.
  - reflexivity.
  - reflexivity.
  - reflexivity.
  - exists rw', h. split; [exact Hserve|]. split; [exact Hsent|]. split; [exact Hbody|].
    rewrite Hh by discriminate. vm_compute. reflexivity.
Defined.

Lemma invalid_protocol_reported_twice_witness :
  let up (p : string) : Header := {[ "Connection" := ["Upgrade"]; "Upgrade" := [p] ]} in
  let bad := String (of_byte 7) "" in
  handleUpgradeResponse (fun xw e => (fst xw ++ [e], snd xw))
    (MkHijacking true true None None) ([], ProxyExample.fresh) (with_header ProxyExample.request (up "websocket"))
    (MkResponse 101 (up bad) 0 [] ∅ ∅) =
  ([InvalidBackendProtocol bad; ProtocolMismatch bad "websocket"], ProxyExample.fresh, None).
Proof.
  intros up bad. rewrite invalid_protocol_reported_twice; [reflexivity|vm_compute; reflexivity..].
Defined.

Lemma written_bytes_get_flushed_witness :
  exists n m', (n <= 2)%nat /\
    nsteps timer_step n (fst (mlw_Write (new_latency_writer ProxyExample.fresh 100) "abc")) m' /\
    rw_flushed (mw_dst m') = 3.
Proof.
  destruct (written_bytes_get_flushed ProxyExample.fresh 100
    (fst (mlw_Write (new_latency_writer ProxyExample.fresh 100) "abc"))) as (n & m' & Hn & Hsteps & _ & Hf).
  - apply rtc_once. constructor.
  - exists n, m'. split; [exact Hn|]. split; [exact Hsteps|]. rewrite Hf. reflexivity.
Defined.

#[local] Existing Instance ImpersonationExample.names.
#[local] Existing Instance ImpersonationExample.accounts.
#[local] Existing Instance ascii_only_lower.

(** The request of the example of the filter, proxied. *)
Lemma proxied_user_witness :
  let req := with_header ProxyExample.request (snd ImpersonationExample.passed) in
  exists out u' h',
    outgoing ProxyExample.target req = inr out /\
    WithNoLoggingImpersonation (fun _ _ => true) (Some ImpersonationExample.gateway_user)
      (WrapRequest (rq_Header out) (Some ImpersonationExample.acted)) = Next (Some u') h' /\
    ui_Name u' = "system:serviceaccount:ns1:sa1".
Proof.
  intros req. destruct (outgoing ProxyExample.target req) as [e|out] eqn:Hout;
    [vm_compute in Hout; discriminate Hout|].
  destruct (proxied_user (fun u _ => bool_decide (ui_Name u = "admin"))
    (Some ImpersonationExample.admin) ImpersonationExample.gateway_user ProxyExample.target req
    ImpersonationExample.headers ImpersonationExample.acted out) as (u' & h' & Hnext & Hn & _).
  - refine (bool_decide_unpack _ _). vm_compute. exact I.
  - exact ImpersonationExample.headers_canonical.
  - vm_compute. reflexivity.
  - rewrite ImpersonationExample.acted_is. split.
    + discriminate.
    + refine (bool_decide_unpack _ _). vm_compute. exact I.
    + rewrite decide_False by discriminate. left. refine (bool_decide_unpack _ _). vm_compute. exact I.
  - exact Hout.
  - exists out, u', h'. split; [reflexivity|]. split; [exact Hnext|].
    rewrite Hn, ImpersonationExample.acted_is. reflexivity.
Defined.
