(* ===== verification/Dispatcher.v ===== *)
(** The handlers of a proxied request
    ([cmd/kube-gateway/app/proxy.go], [pkg/gateway/endpoints/filters],
    [pkg/gateway/endpoints/response], [pkg/gateway/proxy/dispatcher]): from
    the host name of a request to the endpoint it is sent to, or the error it
    is answered with.

    A handler takes the state of the proxy and the context of the request; it
    returns the state and whether it panics.  The state holds the clusters,
    the response being written, the [ProxyInfo] the context points to, the
    meter of the rate monitor, and the requests that were sent.  While a
    request is with its endpoint anything may happen to the clusters; that is
    the argument [meanwhile].

    Filters of k8s.io/apiserver, its errors and its request info are
    parameters, as are [url.Parse] and the encoding of queries.  Logs, traces,
    metrics and the audit are left out. *)
From stdpp Require Import base tactics list strings gmap.
From Stdlib Require Import ZArith Lia.
From S2P Require Import Prelude Http ApiTypes Matching Clusters Controller Float64 Meter Impersonation ReverseProxy.

Local Open Scope Z_scope.

(** * Parameters *)

(** How a flow control of the limiter of a cluster is used by a request: an
    attempt to take it, which may panic ([None]), giving it back, how much of
    it is taken, and how much one request takes. *)
Class FlowControls `{UpstreamLimiter} := {
  fc_eq_dec :: EqDecision ul_flowControl;
  fc_TryAcquire : Z -> ul_state -> ul_flowControl -> ul_state * option bool;
  fc_Release : ul_state -> ul_flowControl -> ul_state;
  fc_taken : ul_state -> ul_flowControl -> Z;
  fc_cost : ul_state -> ul_flowControl -> Z;
  acquire_taken : forall now l f l', fc_TryAcquire now l f = (l', Some true) ->
    fc_cost l' f = fc_cost l f /\
    forall f', fc_taken l' f' = fc_taken l f' + if decide (f' = f) then fc_cost l f else 0;
  refused_taken : forall now l f l' r, fc_TryAcquire now l f = (l', r) -> r <> Some true ->
    forall f', fc_taken l' f' = fc_taken l f';
  release_taken : forall l f, fc_cost l f <= fc_taken l f ->
    forall f', fc_taken (fc_Release l f) f' = fc_taken l f' - if decide (f' = f) then fc_cost l f else 0
}.

(** Errors of k8s.io/apimachinery/pkg/api/errors. *)
Inductive StatusError :=
  | NewInternalError (message : string)
  | NewServiceUnavailable (message : string)
  | NewTooManyRequests (message : string) (retryAfter : Z)
  | NewStatusError (code : Z) (message : string).

(** The status code of an error, the delay it suggests, and its encoding. *)
Class ApiErrors := {
  StatusCode : StatusError -> Z;
  SuggestsClientDelay : StatusError -> option Z;
  EncodeError : StatusError -> string;
  code_internal : forall m, StatusCode (NewInternalError m) = 500;
  code_unavailable : forall m, StatusCode (NewServiceUnavailable m) = 503;
  code_too_many : forall m s, StatusCode (NewTooManyRequests m s) = 429;
  code_status : forall c m, StatusCode (NewStatusError c m) = c;
  delay_too_many : forall m s, SuggestsClientDelay (NewTooManyRequests m s) = if 0 <? s then Some s else None
}.

(** k8s.io/apiserver: what is read from a request, who sent it, and the
    attributes it is authorised and dispatched by.  Formats of numbers and
    strings, github.com/gobeam/stringy's snake case in lower case,
    [url.Parse] and [url.Values.Encode]. *)
Class ApiServer := {
  RequestInfo : Type;
  NewRequestInfo : Request -> string + RequestInfo;
  ri_IsResourceRequest : RequestInfo -> bool;
  ri_Verb : RequestInfo -> string;
  GetAuthorizerAttributes : UserInfo -> RequestInfo -> string + Attributes;
  LongRunningFunc : Request -> RequestInfo -> bool;
  Authenticate : Request -> option UserInfo;
  IsUpgradeRequest : Request -> bool;
  IsConnectionRefused : string -> bool;
  IsCanceled : string -> bool;
  Itoa : Z -> string;
  Quote : string -> string;
  SnakeCase : string -> string;
  url_Parse : string -> string + URL;
  EncodeQuery : string -> string
}.

(** * Contexts *)

Record ProxyInfo := MkProxyInfo {
  pi_Forwarded : bool;
  pi_Endpoint : string;
  pi_Reason : string;
  pi_FlowControl : string;
  pi_User : option UserInfo
}.

Definition NewProxyInfo : ProxyInfo := MkProxyInfo false "" "" "" None.

(** [UpstreamCluster] is a pointer into the manager. *)
Record ExtraRequestInfo := MkExtraInfo {
  xi_Scheme : string;
  xi_Hostname : string;
  xi_IsImpersonateRequest : bool;
  xi_Impersonator : option UserInfo;
  xi_UpstreamCluster : option Z;
  xi_IsProxyRequest : bool;
  xi_IsLongRunningRequest : bool
}.

Section dispatcher.
Context `{FlowControls} `{FeatureGates} `{Certificates} `{UnicodeLower} `{MapRange} `{HttpGuts}.
Context `{ImpersonationNames} `{ServiceAccountNames} `{ApiErrors} `{ApiServer}.

(** What was sent to an endpoint, and for whom. *)
Record sent_request := MkSent {
  se_endpoint : string;
  se_request : Request;
  se_user : UserInfo
}.

Record exchange := MkExchange {
  ex_manager : manager;
  ex_writer : ResponseWriter;
  ex_proxyInfo : option ProxyInfo;
  ex_rate : Meter;
  ex_sent : list sent_request
}.

Definition ex_with_manager (ex : exchange) (m : manager) : exchange :=
  MkExchange m (ex_writer ex) (ex_proxyInfo ex) (ex_rate ex) (ex_sent ex).
Definition ex_with_writer (ex : exchange) (w : ResponseWriter) : exchange :=
  MkExchange (ex_manager ex) w (ex_proxyInfo ex) (ex_rate ex) (ex_sent ex).
Definition ex_with_info (ex : exchange) (i : option ProxyInfo) : exchange :=
  MkExchange (ex_manager ex) (ex_writer ex) i (ex_rate ex) (ex_sent ex).
Definition ex_with_rate (ex : exchange) (r : Meter) : exchange :=
  MkExchange (ex_manager ex) (ex_writer ex) (ex_proxyInfo ex) r (ex_sent ex).
Definition ex_with_sent (ex : exchange) (l : list sent_request) : exchange :=
  MkExchange (ex_manager ex) (ex_writer ex) (ex_proxyInfo ex) (ex_rate ex) l.

Record context := MkContext {
  cx_request : Request;
  cx_requestInfo : option RequestInfo;
  cx_extraInfo : option ExtraRequestInfo;
  cx_user : option UserInfo
}.

Definition cx_with_extra (cx : context) (i : option ExtraRequestInfo) : context :=
  MkContext (cx_request cx) (cx_requestInfo cx) i (cx_user cx).

(** The second component is whether the handler panics. *)
Definition Handler : Type := exchange -> context -> exchange * bool.

(** * Proxy info *)

Definition SetProxyInfo (ex : exchange) (flowControl : string) (user : UserInfo) : exchange :=
  ex_with_info ex ((fun i => MkProxyInfo (pi_Forwarded i) (pi_Endpoint i) (pi_Reason i) flowControl (Some user))
                     <$> ex_proxyInfo ex).

Definition SetProxyTerminated (ex : exchange) (reason : string) : exchange :=
  ex_with_info ex ((fun i => MkProxyInfo false (pi_Endpoint i) reason (pi_FlowControl i) (pi_User i))
                     <$> ex_proxyInfo ex).

(** [None] is the error that there is no proxy info. *)
Definition SetProxyForwarded (ex : exchange) (endpoint : string) : option exchange :=
  match ex_proxyInfo ex with
  | None => None
  | Some i => Some (ex_with_info ex (Some (MkProxyInfo true endpoint (pi_Reason i) (pi_FlowControl i) (pi_User i))))
  end.

(** * Terminated requests *)

Definition RetryAfter : Z := 1.
Definition UnavailableRetryAfter : Z := 60.
Definition TerminationReasonRateLimited : string := "rate_limited".
Definition TerminationReasonClusterNotBeingProxied : string := "cluster_not_being_proxied".
Definition TerminationReasonCircuitBreaker : string := "circuit_breaker".

Definition set_response_header (ex : exchange) (k v : string) : exchange :=
  ex_with_writer ex (rw_with_header (ex_writer ex) (Header_Set (rw_Header (ex_writer ex)) k v)).

(** [responsewriters.ErrorNegotiated] sends the status and the encoded
    error. *)
Definition ErrorNegotiated (ex : exchange) (err : StatusError) : exchange :=
  ex_with_writer ex (fst (rw_Write (WriteHeader (ex_writer ex) (StatusCode err)) (EncodeError err))).

Definition TerminateWithError (ex : exchange) (err : StatusError) (reason : string) : exchange :=
  let ex :=
    match err with
    | NewTooManyRequests _ _ =>
        match SuggestsClientDelay err with
        | Some retryAfter => set_response_header ex "Retry-After" (Itoa retryAfter)
        | None => ex
        end
    | NewServiceUnavailable _ => set_response_header ex "Retry-After" (Itoa UnavailableRetryAfter)
    | _ => ex
    end in
  ErrorNegotiated (SetProxyTerminated ex reason) err.

(** * Errors of the reverse proxy *)

Definition error_message (e : proxy_error) : string :=
  match e with
  | InvalidClientProtocol p => "client tried to switch to invalid protocol " +:+ Quote p
  | InvalidBackendProtocol p => "backend tried to switch to invalid protocol " +:+ Quote p
  | ProtocolMismatch p q => "backend tried to switch protocol " +:+ Quote p +:+ " when " +:+ Quote q +:+ " was requested"
  | NotHijacker => "can't switch protocols using non-Hijacker ResponseWriter"
  | BodyNotWritable => "internal error: 101 switching protocols response with non-writable body"
  | HijackFailed m => "Hijack failed on protocol switch: " +:+ m
  | UpgradeWriteFailed m => "response write: " +:+ m
  | RoundTripFailed m | AbortError m => m
  end.

Definition goaway_closed : string := "http2: server sent GOAWAY and closed the connection".

(** Whether an aborted response is answered with an error, and with the
    connection being closed. *)
Definition abort_response (message : string) : bool * bool :=
  if Contains message goaway_closed then (false, true)
  else if IsCanceled message || Contains message "client disconnected" ||
          Contains message "http2: client connection lost" then (false, false)
  else (true, false).

(** [proxyErrorResponder.Error]; none of the errors is a status of its own, so
    [errorToProxyStatus] makes them a bad gateway. *)
Definition errorToProxyStatus (e : proxy_error) : StatusError := NewStatusError 502 (error_message e).

Definition proxyErrorResponder_Error (requestInfo : RequestInfo) (ex : exchange) (e : proxy_error) : exchange :=
  let reply ex := TerminateWithError ex (errorToProxyStatus e) "reverse_proxy_error" in
  match e with
  | AbortError message =>
      let '(responseErr, close) := abort_response message in
      let ex := if close then set_response_header ex "Connection" "close" else ex in
      let isWatch := ri_IsResourceRequest requestInfo && bool_decide (ri_Verb requestInfo = "watch") in
      let established := bool_decide (fst <$> rw_sent (ex_writer ex) = Some StatusOK) in
      if responseErr && negb (isWatch && established) then reply ex else ex
  | _ => reply ex
  end.

(** Whether the error makes the endpoint be checked at once. *)
Definition triggers_check (e : proxy_error) : bool := IsConnectionRefused (error_message e).

(** * The proxy handler *)

(** What answers a request on behalf of the network, what the handler of
    k8s.io/apimachinery does to one that asks for an upgrade, and the flush
    interval it defaults to. *)
Record upstream := MkUpstream {
  up_RoundTrip : string -> Request -> string + Response;
  up_Upgrade : exchange -> string -> Request -> exchange;
  up_hijacking : Hijacking;
  up_FlushInterval : Z
}.

(** [ServeHTTP] of the upgrade aware handler for an endpoint at [location].
    The transport of the endpoint adds the user to what it sends. *)
Definition UpgradeAwareHandler_ServeHTTP (up : upstream) (requestInfo : RequestInfo) (endpoint : string)
    (user : UserInfo) (location : URL) (ex : exchange) (req : Request) : exchange :=
  if IsUpgradeRequest req then up_Upgrade up ex endpoint req
  else
    let slash := negb (HasSuffix (url_Path location) "/") && HasSuffix (url_Path (rq_URL req)) "/" in
    let path := if slash then url_Path location +:+ "/" else url_Path location in
    let loc := MkURL (url_Scheme location) (url_Host location) path (url_RawPath location)
                 (url_RawQuery (rq_URL req)) in
    if decide (path = "") then
      let query := url_RawQuery (rq_URL req) in
      let queryPart := if decide (query = "") then "" else "?" +:+ query in
      let ex := set_response_header ex "Location" (url_Path (rq_URL req) +:+ "/" +:+ queryPart) in
      ex_with_writer ex (WriteHeader (ex_writer ex) 301)
    else
      let newReq := with_url req loc in
      let target := MkURL (url_Scheme location) (url_Host location) "" "" "" in
      let wrap out := with_header out (WrapRequest (rq_Header out) (Some user)) in
      let ex :=
        match outgoing target newReq with
        | inr out => ex_with_sent ex (ex_sent ex ++ [MkSent endpoint (wrap out) user])
        | inl _ => ex
        end in
      let '(ex', w, _) :=
        ReverseProxy_ServeHTTP
          (fun '(ex, w) e =>
             let ex := proxyErrorResponder_Error requestInfo (ex_with_writer ex w) e in (ex, ex_writer ex))
          (fun out => up_RoundTrip up endpoint (wrap out)) (up_hijacking up) true (up_FlushInterval up) target
          (ex, ex_writer ex) newReq in
      ex_with_writer ex' w.

(** * The dispatcher *)

Definition unready_message (u : unready) : string :=
  match u with
  | NoReason => ""
  | IsDisabled ep => "endpoint=" +:+ Quote ep +:+ " is disabled."
  | IsUnhealthy ep reason message =>
      "endpoint=" +:+ Quote ep +:+ " is unhealthy, reason=" +:+ Quote reason +:+ ", message=" +:+ Quote message +:+ "."
  end.

Definition pick_message (e : pick_error) : string :=
  match e with
  | ErrNoRouterRuleMatches => "no router rule matches this request"
  | ErrNoReadyEndpoints None => "no ready endpoints"
  | ErrNoReadyEndpoints (Some reasons) => Join (unready_message <$> reasons) " " +:+ ": no ready endpoints"
  end.

Definition normalizeErrToReason (e : pick_error) : string := SnakeCase (pick_message e).

(** A request changes the limiter of the cluster at a pointer, or its balance
    over endpoints. *)
Definition update_cluster (ex : exchange) (p : Z) (f : ClusterInfo -> ClusterInfo) : exchange :=
  let m := ex_manager ex in
  ex_with_manager ex (MkManager (mg_clusters m) (alter f p (mg_heap m)) (mg_next m)).

Definition release (ex : exchange) (p : Z) (fc : ul_flowControl) : exchange :=
  update_cluster ex p (fun c => with_limiter c (fc_Release (ci_flowcontrol c) fc)).

(** [ServeHTTP] after the flow control let the request pass, up to the deferred
    release. *)
Definition dispatch_acquired (up : upstream) (meanwhile : manager -> manager) (ex : exchange) (cx : context)
    (requestInfo : RequestInfo) (user : UserInfo) (p : Z) (c : ClusterInfo) (upstreams : list string) : exchange :=
  let '(c', picked) := Pop c upstreams in
  let ex := update_cluster ex p (fun _ => c') in
  match picked with
  | inl e => TerminateWithError ex (NewServiceUnavailable (pick_message e)) "no_ready_endpoints"
  | inr endpoint =>
      match url_Parse (ei_Endpoint endpoint) with
      | inl e => TerminateWithError ex (NewInternalError e) "invalid_endpoint"
      | inr ep =>
          match SetProxyForwarded ex (ei_Endpoint endpoint) with
          | None => TerminateWithError ex (NewInternalError "no proxy info found in context") "invalid_request_context"
          | Some ex =>
              let req := cx_request cx in
              let location := MkURL (url_Scheme ep) (url_Host ep) (url_Path (rq_URL req)) ""
                                (EncodeQuery (url_RawQuery (rq_URL req))) in
              let ex := UpgradeAwareHandler_ServeHTTP up requestInfo (ei_Endpoint endpoint) user location ex
                          (with_url req location) in
              ex_with_manager ex (meanwhile (ex_manager ex))
          end
      end
  end.

Definition dispatcher_ServeHTTP (up : upstream) (meanwhile : manager -> manager) (now : Z) : Handler := fun ex cx =>
  let fail err reason := (TerminateWithError ex err reason, false) in
  match cx_user cx, cx_extraInfo cx, cx_requestInfo cx with
  | None, _, _ => fail (NewInternalError "no user info found in request context") "invalid_request_context"
  | _, None, _ => fail (NewInternalError "no extra request info found in request context") "invalid_request_context"
  | _, _, None => fail (NewInternalError "no request info found in request context") "invalid_request_context"
  | Some user, Some info, Some requestInfo =>
      if xi_IsProxyRequest info && bool_decide (xi_UpstreamCluster info = None) then
        fail (NewServiceUnavailable ("the request cluster(" +:+ xi_Hostname info +:+ ") is not being proxied"))
          TerminationReasonClusterNotBeingProxied
      else
        match GetAuthorizerAttributes user requestInfo with
        | inl e => fail (NewInternalError e) "invalid_request_context"
        | inr attributes =>
            match p ← xi_UpstreamCluster info; c ← mg_heap (ex_manager ex) !! p; Some (p, c) with
            | None => (ex, true)
            | Some (p, c) =>
                match MatchAttributes c attributes with
                | inl e => fail (NewInternalError (pick_message e)) (normalizeErrToReason e)
                | inr pk =>
                    let ex := SetProxyInfo ex (pk_flowControlName pk) user in
                    let '(l, ok) := fc_TryAcquire now (ci_flowcontrol c) (pk_flowControl pk) in
                    let c := with_limiter c l in
                    let ex := update_cluster ex p (fun _ => c) in
                    match ok with
                    | None => (ex, true)
                    | Some true =>
                        let ex := dispatch_acquired up meanwhile ex cx requestInfo user p c (pk_upstreams pk) in
                        (release ex p (pk_flowControl pk), false)
                    | Some false =>
                        (TerminateWithError ex
                           (NewTooManyRequests ("too many requests for cluster(" +:+ xi_Hostname info +:+ ")")
                              (if decide (GetResource attributes = "events") then 0 else RetryAfter))
                           TerminationReasonRateLimited, false)
                    end
                end
            end
        end
  end.

(** * Filters *)

Definition WithDispatcher (handler dispatcher : Handler) : Handler := fun ex cx =>
  match cx_extraInfo cx with
  | Some info => if xi_IsProxyRequest info then dispatcher ex cx else handler ex cx
  | None => handler ex cx
  end.

(** The impersonation filter as a handler; what it answers a request with
    that it does not let pass. *)
Definition WithImpersonation (Authorize : UserInfo -> AttributesRecord -> bool) (reject : exchange -> exchange)
    (handler : Handler) : Handler := fun ex cx =>
  match WithNoLoggingImpersonation Authorize (cx_user cx) (rq_Header (cx_request cx)) with
  | Next u h =>
      handler ex (MkContext (with_header (cx_request cx) h) (cx_requestInfo cx) (cx_extraInfo cx) u)
  | _ => (reject ex, false)
  end.

Definition WithImpersonator (handler : Handler) : Handler := fun ex cx =>
  match cx_user cx with
  | None => handler ex cx
  | Some user =>
      handler ex (cx_with_extra cx
        ((fun i => if xi_IsImpersonateRequest i
                   then MkExtraInfo (xi_Scheme i) (xi_Hostname i) (xi_IsImpersonateRequest i) (Some user)
                          (xi_UpstreamCluster i) (xi_IsProxyRequest i) (xi_IsLongRunningRequest i)
                   else i) <$> cx_extraInfo cx))
  end.

(** [genericapifilters.WithAuthentication]: a request of nobody is answered by
    [failed]; one of a user goes on without its credentials. *)
Definition WithAuthentication (failed : exchange -> exchange) (handler : Handler) : Handler := fun ex cx =>
  match Authenticate (cx_request cx) with
  | None => (failed ex, false)
  | Some user =>
      let req := with_header (cx_request cx) (Header_Del (rq_Header (cx_request cx)) "Authorization") in
      handler ex (MkContext req (cx_requestInfo cx) (cx_extraInfo cx) (Some user))
  end.

Definition InternalError (ex : exchange) (message : string) : exchange :=
  ErrorNegotiated ex (NewInternalError message).

(** [WithRequestRate] *)
Definition uncount_limited (ex : exchange) : exchange :=
  match ex_proxyInfo ex with
  | Some i =>
      if negb (pi_Forwarded i) && bool_decide (pi_Reason i = TerminationReasonRateLimited)
      then ex_with_rate ex (AddN (ex_rate ex) (-1)) else ex
  | None => ex
  end.

Definition WithRequestRate (handler : Handler) : Handler := fun ex cx =>
  match cx_requestInfo cx with
  | None => (InternalError ex "no RequestInfo found in the context", false)
  | Some requestInfo =>
      if LongRunningFunc (cx_request cx) requestInfo then
        let '(ex, panic) := handler (ex_with_rate ex (AddN (ex_rate ex) 1)) cx in (uncount_limited ex, panic)
      else
        let '(ex, panic) := handler (ex_with_rate ex (StartOne (ex_rate ex))) cx in
        (uncount_limited (ex_with_rate ex (EndOne (ex_rate ex))), panic)
  end.

Definition CloseConnectionWhenIdle : string := "CloseConnectionWhenIdle".
Definition DenyAllRequests : string := "DenyAllRequests".

Definition with_upstream (i : ExtraRequestInfo) (p : option Z) : ExtraRequestInfo :=
  MkExtraInfo (xi_Scheme i) (xi_Hostname i) (xi_IsImpersonateRequest i) (xi_Impersonator i) p true
    (xi_IsLongRunningRequest i).

Definition WithUpstreamInfo (handler : Handler) : Handler := fun ex cx =>
  match cx_extraInfo cx with
  | None => handler ex cx
  | Some info =>
      if ParseIP (xi_Hostname info) then handler ex cx
      else
        match manager_Get (ex_manager ex) (xi_Hostname info) with
        | None =>
            (TerminateWithError ex
               (NewServiceUnavailable ("the request cluster(" +:+ xi_Hostname info +:+ ") is not being proxied"))
               TerminationReasonClusterNotBeingProxied, false)
        | Some (p, c) =>
            let ex := if gates_Enabled (ci_featuregate c) CloseConnectionWhenIdle
                      then set_response_header ex "Connection" "close" else ex in
            if gates_Enabled (ci_featuregate c) DenyAllRequests then
              (TerminateWithError ex
                 (NewTooManyRequests ("request for " +:+ xi_Hostname info +:+ " denied by featureGate(DenyAllRequests)") 0)
                 TerminationReasonCircuitBreaker, false)
            else handler ex (cx_with_extra cx (Some (with_upstream info (Some p))))
        end
  end.

Definition NewExtraRequestInfo (cx : context) : string + ExtraRequestInfo :=
  match cx_requestInfo cx with
  | None => inl "no RequestInfo found in the context"
  | Some requestInfo =>
      let req := cx_request cx in
      inr (MkExtraInfo (url_Scheme (rq_URL req)) (HostWithoutPort (rq_Host req))
             (negb (bool_decide (Header_Get (rq_Header req) ImpersonateUserHeader = ""))) None None false
             (LongRunningFunc req requestInfo))
  end.

Definition WithExtraRequestInfo (handler : Handler) : Handler := fun ex cx =>
  match NewExtraRequestInfo cx with
  | inl e => (InternalError ex ("failed to create ExtraRequestInfo: " +:+ e), false)
  | inr info => handler ex (cx_with_extra cx (Some info))
  end.

(** [WithTerminationMetrics], of which the proxy info it adds matters here. *)
Definition WithTerminationMetrics (handler : Handler) : Handler := fun ex cx =>
  handler (ex_with_info ex (Some NewProxyInfo)) cx.

Definition WithRequestInfo (handler : Handler) : Handler := fun ex cx =>
  match NewRequestInfo (cx_request cx) with
  | inl e => (InternalError ex ("failed to create RequestInfo: " +:+ e), false)
  | inr info => handler ex (MkContext (cx_request cx) (Some info) (cx_extraInfo cx) (cx_user cx))
  end.

(** [WithNoLoggingPanicRecovery] answers a request that panicked, except for
    [http.ErrAbortHandler], which no handler here panics with. *)
Definition WithNoLoggingPanicRecovery (handler : Handler) : Handler := fun ex cx =>
  let '(ex, panic) := handler ex cx in
  (if panic then
     ex_with_writer ex (fst (rw_Write (WriteHeader (ex_writer ex) 500)
       "This request caused apiserver to panic. Look in the logs for details."))
   else ex, false).

(** * The chain of [buildProxyHandlerChainFunc], without the filters that only
    measure or log, those of k8s.io/apiserver for CORS, audit and cache control,
    and the one that makes clients reconnect under load. *)
Definition proxyHandlerChain (up : upstream) (meanwhile : manager -> manager) (now : Z)
    (Authorize : UserInfo -> AttributesRecord -> bool) (reject failed : exchange -> exchange) (apiHandler : Handler)
    : Handler :=
  let handler := WithDispatcher apiHandler (dispatcher_ServeHTTP up meanwhile now) in
  let handler := WithImpersonation Authorize reject handler in
  let handler := WithImpersonator handler in
  let handler := WithAuthentication failed handler in
  let handler := WithRequestRate handler in
  let handler := WithUpstreamInfo handler in
  let handler := WithExtraRequestInfo handler in
  let handler := WithTerminationMetrics handler in
  let handler := WithRequestInfo handler in
  WithNoLoggingPanicRecovery handler.

(** A request as it comes from the network. *)
Definition serve (up : upstream) (meanwhile : manager -> manager) (now : Z)
    (Authorize : UserInfo -> AttributesRecord -> bool) (reject failed : exchange -> exchange) (apiHandler : Handler)
    (ex : exchange) (req : Request) : exchange :=
  fst (proxyHandlerChain up meanwhile now Authorize reject failed apiHandler ex (MkContext req None None None)).
End dispatcher.

(** * Lemmas *)

Section reverse_proxy_frame.
Context `{HttpGuts} `{MapRange}.
Context {X : Type} (ErrorHandler : X * ResponseWriter -> proxy_error -> X * ResponseWriter).

(** What the error handler preserves, the reverse proxy preserves. *)
Lemma ServeHTTP_preserves (P : X -> Prop) RoundTrip hj under interval target xw req :
  (forall xw e, P (fst xw) -> P (fst (ErrorHandler xw e))) -> P (fst xw) ->
  P (fst (fst (ReverseProxy_ServeHTTP ErrorHandler RoundTrip hj under interval target xw req))).
Proof.
  intros Herr HP. unfold ReverseProxy_ServeHTTP. destruct (outgoing target req) as [e|out]; [by apply Herr|].
  destruct (RoundTrip out) as [e|res]; [by apply Herr|]. destruct (_ =? _).
  - unfold handleUpgradeResponse. set (xw1 := if IsPrint _ then xw else _).
    assert (P (fst xw1)) as H1 by (unfold xw1; destruct (IsPrint _); [done|by apply Herr]). clearbody xw1.
    repeat (case_match; cbn [fst snd map_header]; try (by apply Herr); try done).
  - cbn [fst]. unfold send_response.
    assert (forall f, P (fst (map_header f xw))) as Hm by done.
    assert (forall res xw, fst (send_trailers res xw) = fst (xw : X * ResponseWriter)) as Ht.
    { intros r xw'. unfold send_trailers. by repeat case_decide. }
    case_decide; destruct (copyResponse _ _ _) as [rw [e|]]; rewrite ?Ht; try done;
      destruct under; rewrite ?Ht; try done; cbn [fst map_header]; by apply Herr.
Qed.
End reverse_proxy_frame.

Section dispatcher_lemmas.
Context `{FlowControls} `{FeatureGates} `{Certificates} `{UnicodeLower} `{MapRange} `{HttpGuts}.
Context `{ImpersonationNames} `{ServiceAccountNames} `{ApiErrors} `{ApiServer}.
Implicit Types ex : exchange.

(** What an answer does not touch. *)
Definition same_proxy ex ex' : Prop :=
  ex_manager ex' = ex_manager ex /\ ex_rate ex' = ex_rate ex /\ ex_sent ex' = ex_sent ex.

Lemma Terminate_same ex err reason : same_proxy ex (TerminateWithError ex err reason).
Proof. unfold TerminateWithError. destruct err; try done. by destruct (SuggestsClientDelay _). Qed.

Lemma Responder_same requestInfo ex0 ex e :
  same_proxy ex0 ex -> same_proxy ex0 (proxyErrorResponder_Error requestInfo ex e).
Proof.
  assert (forall ex err reason, same_proxy ex0 ex -> same_proxy ex0 (TerminateWithError ex err reason)) as Hterm.
  { intros ex1 err reason (Hm & Hr & Hs). destruct (Terminate_same ex1 err reason) as (Hm1 & Hr1 & Hs1).
    split_and!; congruence. }
  intros Hex. unfold proxyErrorResponder_Error. destruct e; try by apply Hterm.
  destruct (abort_response message) as [responseErr close]. set (ex1 := if close then _ else ex).
  assert (same_proxy ex0 ex1) by (unfold ex1; by destruct close). clearbody ex1.
  destruct (_ && _); [by apply Hterm|done].
Qed.

(** What proxying sends, and that it leaves the clusters and the meter alone. *)
Lemma UpgradeAware_spec up requestInfo endpoint user location ex req :
  (forall ex e r, same_proxy ex (up_Upgrade up ex e r)) ->
  let ex' := UpgradeAwareHandler_ServeHTTP up requestInfo endpoint user location ex req in
  ex_manager ex' = ex_manager ex /\ ex_rate ex' = ex_rate ex /\
  (ex_sent ex' = ex_sent ex \/
   exists target req' out, rq_Header req' = rq_Header req /\ outgoing target req' = inr out /\
     ex_sent ex' = ex_sent ex ++
       [MkSent endpoint (with_header out (WrapRequest (rq_Header out) (Some user))) user]).
Proof.
  intros Hup. unfold UpgradeAwareHandler_ServeHTTP. destruct (IsUpgradeRequest req).
  { destruct (Hup ex endpoint req) as (Hm & Hr & Hs). cbn zeta. auto. }
  cbv zeta. set (path := if _ && _ then _ else _). clearbody path. case_decide; [cbn; auto|].
  set (target := MkURL _ _ "" "" ""). set (newReq := with_url req _).
  set (ex1 := match outgoing target newReq with inl _ => _ | inr _ => _ end).
  assert (ex_manager ex1 = ex_manager ex /\ ex_rate ex1 = ex_rate ex) as [Hm1 Hr1]
    by (unfold ex1; by destruct (outgoing target newReq)).
  assert (ex_sent ex1 = ex_sent ex \/
    exists target req' out, rq_Header req' = rq_Header req /\ outgoing target req' = inr out /\
     ex_sent ex1 = ex_sent ex ++
       [MkSent endpoint (with_header out (WrapRequest (rq_Header out) (Some user))) user]) as Hs1.
  { unfold ex1. destruct (outgoing target newReq) as [e|out] eqn:E; [by left|].
    right. by exists target, newReq, out. }
  clearbody ex1 newReq target. set (handler := fun '(ex, w) e => _). set (rt := fun out => up_RoundTrip _ _ _).
  pose proof (ServeHTTP_preserves handler (same_proxy ex1) rt (up_hijacking up) true (up_FlushInterval up) target
    (ex1, ex_writer ex1) newReq) as Hpres.
  destruct (ReverseProxy_ServeHTTP handler _ _ _ _ _ _ _) as [[ex2 w] sw].
  destruct Hpres as (Hm2 & Hr2 & Hs2); [|done|].
  - intros [ex3 w3] e Hex3. unfold handler. by apply Responder_same.
  - cbn [fst] in *. cbn [ex_manager ex_rate ex_sent ex_with_writer]. rewrite Hm2, Hr2, Hs2, Hm1, Hr1. auto.
Qed.

(** Why the dispatcher sent a request. *)
Inductive dispatched (m : manager) (now : Z) (cx : context) (s : sent_request) : Prop :=
  | MkDispatched info requestInfo p c attr pk l e target req out :
      cx_user cx = Some (se_user s) -> cx_extraInfo cx = Some info -> xi_UpstreamCluster info = Some p ->
      cx_requestInfo cx = Some requestInfo -> mg_heap m !! p = Some c ->
      GetAuthorizerAttributes (se_user s) requestInfo = inr attr -> MatchAttributes c attr = inr pk ->
      fc_TryAcquire now (ci_flowcontrol c) (pk_flowControl pk) = (l, Some true) ->
      snd (Pop (with_limiter c l) (pk_upstreams pk)) = inr e -> se_endpoint s = ei_Endpoint e ->
      rq_Header req = rq_Header (cx_request cx) -> outgoing target req = inr out ->
      se_request s = with_header out (WrapRequest (rq_Header out) (Some (se_user s))) ->
      dispatched m now cx s.

Definition sends_only (P : sent_request -> Prop) ex ex' : Prop :=
  ex_sent ex' = ex_sent ex \/ exists s, ex_sent ex' = ex_sent ex ++ [s] /\ P s.

Lemma sends_same P ex ex' : same_proxy ex ex' -> sends_only P ex ex'.
Proof. intros (_ & _ & Hs). by left. Qed.

Lemma dispatcher_sends up meanwhile now ex cx :
  (forall ex e r, same_proxy ex (up_Upgrade up ex e r)) ->
  sends_only (dispatched (ex_manager ex) now cx) ex (fst (dispatcher_ServeHTTP up meanwhile now ex cx)).
Proof.
  intros Hup. assert (forall err reason P, sends_only P ex (TerminateWithError ex err reason)) as Hterm
    by (intros; apply sends_same, Terminate_same).
  unfold dispatcher_ServeHTTP. destruct (cx_user cx) as [user|] eqn:Eu; [|apply Hterm].
  destruct (cx_extraInfo cx) as [info|] eqn:Ei; [|apply Hterm].
  destruct (cx_requestInfo cx) as [requestInfo|] eqn:Er; [|apply Hterm].
  destruct (_ && _); [apply Hterm|].
  destruct (GetAuthorizerAttributes user requestInfo) as [e|attr] eqn:Ea; [apply Hterm|].
  destruct (xi_UpstreamCluster info) as [p|] eqn:Ep; [|by left].
  cbn [mbind option_bind]. destruct (mg_heap (ex_manager ex) !! p) as [c|] eqn:Ec; [|by left]. cbn [mbind option_bind].
  destruct (MatchAttributes c attr) as [e|pk] eqn:Em; [apply Hterm|].
  destruct (fc_TryAcquire now (ci_flowcontrol c) (pk_flowControl pk)) as [l [[|]|]] eqn:Ef; cbn [fst];
    [|left; rewrite (proj2 (proj2 (Terminate_same _ _ _))); done|by left].
  unfold dispatch_acquired. set (ex1 := update_cluster _ p (fun _ => with_limiter c l)).
  assert (ex_sent ex1 = ex_sent ex) as E1 by done. clearbody ex1.
  destruct (Pop (with_limiter c l) (pk_upstreams pk)) as [c' picked] eqn:Epop.
  assert (forall P ex2 err reason, ex_sent ex2 = ex_sent ex ->
    sends_only P ex (release (TerminateWithError ex2 err reason) p (pk_flowControl pk))) as Hterm2.
  { intros P ex2 err reason E2. left. change (ex_sent (TerminateWithError ex2 err reason) = ex_sent ex).
    by rewrite (proj2 (proj2 (Terminate_same ex2 err reason))). }
  destruct picked as [e|endpoint]; [by apply Hterm2|].
  destruct (url_Parse (ei_Endpoint endpoint)) as [e|ep]; [by apply Hterm2|].
  unfold SetProxyForwarded. destruct (ex_proxyInfo _); [|by apply Hterm2].
  set (ex3 := ex_with_info _ _). assert (ex_sent ex3 = ex_sent ex) as E3 by done. clearbody ex3.
  set (location := MkURL _ _ _ _ _). clearbody location.
  destruct (UpgradeAware_spec up requestInfo (ei_Endpoint endpoint) user location ex3
    (with_url (cx_request cx) location) Hup) as (_ & _ & Hs). cbv zeta in Hs.
  unfold sends_only. cbn [ex_sent release update_cluster ex_with_manager].
  destruct Hs as [->|(target & req' & out & Hh & Hout & ->)]; rewrite E3; [by left|]. right.
  eexists. split; [reflexivity|]. eapply MkDispatched; try done; by rewrite ?Epop.
Qed.

(** * The chain *)

Section chain.
Context (up : upstream) (meanwhile : manager -> manager) (now : Z).
Context (Authorize : UserInfo -> AttributesRecord -> bool) (reject failed : exchange -> exchange) (apiHandler : Handler).

(** The code around the proxy neither uses its flow controls nor sends
    requests in its name. *)
Record quiet : Prop := {
  quiet_upgrade : forall ex e r, same_proxy ex (up_Upgrade up ex e r);
  quiet_reject : forall ex, same_proxy ex (reject ex);
  quiet_failed : forall ex, same_proxy ex (failed ex);
  quiet_api : forall ex cx, same_proxy ex (fst (apiHandler ex cx))
}.

(** Why a request reached an endpoint: its host is that of a cluster in
    service, its user was authenticated and, if it is another one, authorised
    to be impersonated, a policy of the cluster matched it, the flow control
    of the policy let it pass, and the endpoint is one the policy allows. *)
Inductive proxied (m : manager) (req : Request) (s : sent_request) : Prop :=
  | MkProxied requestInfo requestor p c h attr pk l e target req' out :
      NewRequestInfo req = inr requestInfo ->
      ParseIP (HostWithoutPort (rq_Host req)) = false ->
      manager_Get m (HostWithoutPort (rq_Host req)) = Some (p, c) ->
      gates_Enabled (ci_featuregate c) DenyAllRequests = false ->
      Authenticate req = Some requestor ->
      WithNoLoggingImpersonation Authorize (Some requestor) (Header_Del (rq_Header req) "Authorization") =
        Next (Some (se_user s)) h ->
      GetAuthorizerAttributes (se_user s) requestInfo = inr attr -> MatchAttributes c attr = inr pk ->
      fc_TryAcquire now (ci_flowcontrol c) (pk_flowControl pk) = (l, Some true) ->
      snd (Pop (with_limiter c l) (pk_upstreams pk)) = inr e -> se_endpoint s = ei_Endpoint e ->
      rq_Header req' = h -> outgoing target req' = inr out ->
      se_request s = with_header out (WrapRequest (rq_Header out) (Some (se_user s))) ->
      proxied m req s.

(** A request that gets to the dispatcher. *)
Inductive reaches (m : manager) (req : Request) (cx : context) : Prop :=
  | MkReaches requestInfo requestor p c h info :
      NewRequestInfo req = inr requestInfo -> cx_requestInfo cx = Some requestInfo ->
      ParseIP (HostWithoutPort (rq_Host req)) = false ->
      manager_Get m (HostWithoutPort (rq_Host req)) = Some (p, c) ->
      gates_Enabled (ci_featuregate c) DenyAllRequests = false ->
      Authenticate req = Some requestor ->
      WithNoLoggingImpersonation Authorize (Some requestor) (Header_Del (rq_Header req) "Authorization") =
        Next (cx_user cx) h ->
      rq_Header (cx_request cx) = h -> cx_extraInfo cx = Some info -> xi_UpstreamCluster info = Some p ->
      reaches m req cx.

Definition core ex : manager * list sent_request := (ex_manager ex, ex_sent ex).

Lemma same_core ex ex' : same_proxy ex ex' -> core ex' = core ex.
Proof. intros (Hm & _ & Hs). unfold core. congruence. Qed.

Lemma uncount_core ex : core (uncount_limited ex) = core ex.
Proof. unfold uncount_limited. destruct (ex_proxyInfo ex); [|done]. by destruct (_ && _). Qed.

(** The handlers from the authentication on. *)
Lemma authenticated_core ex cx info requestInfo :
  quiet -> cx_requestInfo cx = Some requestInfo -> cx_extraInfo cx = Some info ->
  let final := fst (WithAuthentication failed (WithImpersonator (WithImpersonation Authorize reject
                 (WithDispatcher apiHandler (dispatcher_ServeHTTP up meanwhile now)))) ex cx) in
  core final = core ex \/
  xi_IsProxyRequest info = true /\ exists requestor info' h u,
    Authenticate (cx_request cx) = Some requestor /\
    WithNoLoggingImpersonation Authorize (Some requestor) (Header_Del (rq_Header (cx_request cx)) "Authorization") =
      Next u h /\
    xi_UpstreamCluster info' = xi_UpstreamCluster info /\
    final = fst (dispatcher_ServeHTTP up meanwhile now ex
      (MkContext (with_header (with_header (cx_request cx)
         (Header_Del (rq_Header (cx_request cx)) "Authorization")) h) (Some requestInfo) (Some info') u)).
Proof.
  intros [Hup Hrej Hfail Hapi] Hri Hxi. unfold WithAuthentication.
  destruct (Authenticate (cx_request cx)) as [requestor|] eqn:Ea; [|left; cbn; by apply same_core].
  unfold WithImpersonator. cbn [cx_user cx_with_extra cx_extraInfo]. rewrite Hxi. cbn [fmap option_fmap option_map].
  set (info' := if xi_IsImpersonateRequest info then _ else info).
  assert (xi_UpstreamCluster info' = xi_UpstreamCluster info /\ xi_IsProxyRequest info' = xi_IsProxyRequest info)
    as [Hu Hp] by (unfold info'; by destruct (xi_IsImpersonateRequest info)). clearbody info'.
  unfold WithImpersonation. cbn [cx_user cx_request cx_requestInfo cx_extraInfo cx_with_extra rq_Header with_header].
  destruct (WithNoLoggingImpersonation _ _ _) as [u h| |] eqn:En; [|left; cbn; by apply same_core..].
  unfold WithDispatcher. cbn [cx_extraInfo]. rewrite Hp.
  destruct (xi_IsProxyRequest info); [|left; by apply same_core, Hapi].
  right. split; [done|]. exists requestor, info', h, u. rewrite Hri. done.
Qed.

Lemma rate_core handler ex cx requestInfo :
  cx_requestInfo cx = Some requestInfo ->
  exists r, core (fst (WithRequestRate handler ex cx)) = core (fst (handler (ex_with_rate ex r) cx)).
Proof.
  intros Hri. unfold WithRequestRate. rewrite Hri. destruct (LongRunningFunc _ _);
    [exists (AddN (ex_rate ex) 1)|exists (StartOne (ex_rate ex))]; destruct (handler _ cx) as [ex' panic]; cbn [fst]; by rewrite uncount_core.
Qed.

Lemma recovery_core handler ex cx :
  core (fst (WithNoLoggingPanicRecovery handler ex cx)) = core (fst (handler ex cx)).
Proof. unfold WithNoLoggingPanicRecovery. by destruct (handler ex cx) as [ex' []]. Qed.

Lemma serve_reaches ex req :
  quiet -> let final := serve up meanwhile now Authorize reject failed apiHandler ex req in
  core final = core ex \/
  exists ex' cx, core ex' = core ex /\ reaches (ex_manager ex) req cx /\
    core final = core (fst (dispatcher_ServeHTTP up meanwhile now ex' cx)).
Proof.
  intros Hq. unfold serve, proxyHandlerChain. cbv zeta. rewrite recovery_core.
  unfold WithRequestInfo. cbn [cx_request cx_requestInfo cx_extraInfo cx_user].
  destruct (NewRequestInfo req) as [e|requestInfo] eqn:Eri; [by left|].
  unfold WithTerminationMetrics, WithExtraRequestInfo, NewExtraRequestInfo.
  cbn [cx_request cx_requestInfo cx_extraInfo cx_user]. set (info := MkExtraInfo _ _ _ _ _ _ _).
  set (ex1 := ex_with_info ex _). assert (core ex1 = core ex) as Hc1 by done.
  assert (ex_manager ex1 = ex_manager ex) as Hm1 by done. clearbody ex1.
  unfold WithUpstreamInfo. cbn [cx_extraInfo cx_with_extra cx_request cx_requestInfo cx_user].
  change (xi_Hostname info) with (HostWithoutPort (rq_Host req)). rewrite Hm1.
  destruct (ParseIP _) eqn:Eip.
  { left. edestruct rate_core as [r ->]; [done|].
    destruct (authenticated_core (ex_with_rate ex1 r) (MkContext req (Some requestInfo) (Some info) None) info
      requestInfo Hq eq_refl eq_refl) as [Hcore|(Hf & _)]; [|done]. rewrite <- Hc1. exact Hcore. }
  destruct (manager_Get (ex_manager ex) (HostWithoutPort (rq_Host req))) as [[p c]|] eqn:Eg;
    [|left; cbn [fst]; rewrite <- Hc1; apply same_core, Terminate_same].
  set (ex2 := if gates_Enabled _ CloseConnectionWhenIdle then _ else ex1).
  assert (core ex2 = core ex1) as Hc2 by (unfold ex2; by destruct (gates_Enabled _ _)). clearbody ex2.
  destruct (gates_Enabled (ci_featuregate c) DenyAllRequests) eqn:Ed;
    [left; cbn [fst]; rewrite <- Hc1, <- Hc2; apply same_core, Terminate_same|].
  edestruct rate_core as [r ->]; [done|].
  destruct (authenticated_core (ex_with_rate ex2 r) (MkContext req (Some requestInfo)
    (Some (with_upstream info (Some p))) None) _ requestInfo Hq eq_refl eq_refl)
    as [Hcore|(_ & requestor & info' & h & u & Ha & Hn & Hu & Hfinal)].
  - left. rewrite <- Hc1, <- Hc2. exact Hcore.
  - right. cbv zeta in Hfinal. eexists (ex_with_rate ex2 r), _. split; [rewrite <- Hc1, <- Hc2; done|].
    split; [|exact (f_equal core Hfinal)]. by eapply MkReaches.
Qed.

Lemma serve_sends ex req :
  quiet -> sends_only (proxied (ex_manager ex) req) ex
    (serve up meanwhile now Authorize reject failed apiHandler ex req).
Proof.
  intros Hq. destruct (serve_reaches ex req Hq) as [Hc|(ex' & cx & Hc & Hr & Hfinal)].
  { left. by injection Hc. }
  destruct (dispatcher_sends up meanwhile now ex' cx (quiet_upgrade Hq)) as [Hs|(s & Hs & Hd)].
  - left. unfold core in *. congruence.
  - right. exists s. split; [unfold core in *; congruence|].
    destruct Hr as [requestInfo requestor p c h info]. destruct Hd as [info' requestInfo' p' c' attr pk l e target req' out].
    assert (ex_manager ex' = ex_manager ex) as Hm by (unfold core in *; congruence). simplify_eq.
    assert (c' = c) as ->.
    { unfold manager_Get in *. destruct (mg_clusters _ !! _) as [q|]; [|done]. cbn in *.
      destruct (mg_heap (ex_manager ex) !! q) eqn:Eq; [|done]. cbn in *. simplify_eq. congruence. }
    eapply MkProxied; try done; congruence.
Qed.


(** ** Flow controls *)

(** The clusters after a step, with the same requests in their flow
    controls. *)
Definition same_counts (m m' : manager) : Prop :=
  forall p c, mg_heap m !! p = Some c -> exists c', mg_heap m' !! p = Some c' /\
    forall f, fc_taken (ci_flowcontrol c') f = fc_taken (ci_flowcontrol c) f /\
              fc_cost (ci_flowcontrol c') f = fc_cost (ci_flowcontrol c) f.

(** One more request in the flow control [f] of the cluster at [p]. *)
Definition one_more (p : Z) (f : ul_flowControl) (m m' : manager) : Prop :=
  forall q c, mg_heap m !! q = Some c -> exists c', mg_heap m' !! q = Some c' /\
    forall f', fc_taken (ci_flowcontrol c') f' =
      fc_taken (ci_flowcontrol c) f' + if decide (q = p /\ f' = f) then fc_cost (ci_flowcontrol c') f else 0.

Definition same_taken (m m' : manager) : Prop :=
  forall p c, mg_heap m !! p = Some c -> exists c', mg_heap m' !! p = Some c' /\
    forall f, fc_taken (ci_flowcontrol c') f = fc_taken (ci_flowcontrol c) f.

(** No flow control has given out less than nothing. *)
Definition counts_nonneg (m : manager) : Prop :=
  forall p c f, mg_heap m !! p = Some c -> 0 <= fc_taken (ci_flowcontrol c) f.

Lemma release_one ex p f m0 :
  counts_nonneg m0 -> one_more p f m0 (ex_manager ex) -> same_taken m0 (ex_manager (release ex p f)).
Proof.
  intros Hpos Hone q c Hq. destruct (Hone q c Hq) as (c' & Hc' & Ht). cbn.
  destruct (decide (q = p)) as [->|Hne].
  - rewrite lookup_alter_eq, Hc'. eexists. split; [done|]. intros f'. cbn. rewrite release_taken.
    + rewrite Ht. destruct (decide (f' = f)); [rewrite decide_True by done|rewrite decide_False by naive_solver]; lia.
    + rewrite Ht, decide_True by done. specialize (Hpos p c f Hq). lia.
  - rewrite lookup_alter_ne by done. exists c'. split; [done|]. intros f'. rewrite Ht, decide_False by naive_solver. lia.
Qed.

Lemma one_more_counts p f m0 m m' : one_more p f m0 m -> same_counts m m' -> one_more p f m0 m'.
Proof.
  intros Hone Hsame q c Hq. destruct (Hone q c Hq) as (c1 & Hc1 & Ht1).
  destruct (Hsame q c1 Hc1) as (c2 & Hc2 & Hf2). exists c2. split; [done|]. intros f'.
  rewrite (proj1 (Hf2 f')), Ht1. case_decide; [by rewrite (proj2 (Hf2 f))|done].
Qed.

Lemma dispatch_acquired_one m0 ex cx requestInfo user p c f ups :
  (forall ex e r, same_proxy ex (up_Upgrade up ex e r)) -> (forall m, same_counts m (meanwhile m)) ->
  one_more p f m0 (ex_manager ex) -> mg_heap (ex_manager ex) !! p = Some c ->
  one_more p f m0 (ex_manager (dispatch_acquired up meanwhile ex cx requestInfo user p c ups)).
Proof.
  intros Hup Hmw Hone Hp. unfold dispatch_acquired. pose proof (Pop_frame c ups) as [lb Hlb].
  destruct (Pop c ups) as [c' picked]. cbn [fst] in Hlb. subst c'.
  set (ex1 := update_cluster ex p _). assert (one_more p f m0 (ex_manager ex1)) as Hone1.
  { apply (one_more_counts _ _ _ _ _ Hone). intros q d Hq. unfold ex1. cbn.
    destruct (decide (q = p)) as [->|Hne].
    - rewrite lookup_alter_eq, Hq. eexists. split; [done|]. by simplify_eq.
    - rewrite lookup_alter_ne by done. by exists d. }
  clearbody ex1. clear Hone.
  assert (forall ex err reason, one_more p f m0 (ex_manager ex) ->
    one_more p f m0 (ex_manager (TerminateWithError ex err reason))) as Hterm.
  { intros ex2 err reason Ho2. by rewrite (proj1 (Terminate_same ex2 err reason)). }
  destruct picked as [e|endpoint]; [by apply Hterm|].
  destruct (url_Parse _) as [e|ep]; [by apply Hterm|].
  unfold SetProxyForwarded. destruct (ex_proxyInfo ex1); [|by apply Hterm].
  set (ex3 := ex_with_info _ _). assert (ex_manager ex3 = ex_manager ex1) as E3 by done. clearbody ex3.
  cbn [ex_manager ex_with_manager]. rewrite (proj1 (UpgradeAware_spec _ _ _ _ _ _ _ Hup)), E3.
  by apply (one_more_counts _ _ _ (ex_manager ex1)).
Qed.

Lemma dispatcher_balanced ex cx :
  (forall ex e r, same_proxy ex (up_Upgrade up ex e r)) -> (forall m, same_counts m (meanwhile m)) ->
  counts_nonneg (ex_manager ex) ->
  same_taken (ex_manager ex) (ex_manager (fst (dispatcher_ServeHTTP up meanwhile now ex cx))).
Proof.
  intros Hup Hmw Hpos.
  assert (same_taken (ex_manager ex) (ex_manager ex)) as Hrefl by (intros p c Hp; by exists c).
  assert (forall ex2 err reason, same_taken (ex_manager ex) (ex_manager ex2) ->
    same_taken (ex_manager ex) (ex_manager (TerminateWithError ex2 err reason))) as Hterm.
  { intros ex2 err reason Ht2. by rewrite (proj1 (Terminate_same ex2 err reason)). }
  unfold dispatcher_ServeHTTP. destruct (cx_user cx) as [user|]; [|by apply Hterm].
  destruct (cx_extraInfo cx) as [info|]; [|by apply Hterm].
  destruct (cx_requestInfo cx) as [requestInfo|]; [|by apply Hterm].
  destruct (_ && _); [by apply Hterm|].
  destruct (GetAuthorizerAttributes user requestInfo) as [e|attr]; [by apply Hterm|].
  destruct (xi_UpstreamCluster info) as [p|]; [|done]. cbn [mbind option_bind].
  destruct (mg_heap (ex_manager ex) !! p) as [c|] eqn:Ec; [|done]. cbn [mbind option_bind].
  destruct (MatchAttributes c attr) as [e|pk]; [by apply Hterm|].
  destruct (fc_TryAcquire now (ci_flowcontrol c) (pk_flowControl pk)) as [l ok] eqn:Ef.
  set (ex1 := update_cluster _ p (fun _ => with_limiter c l)).
  assert (forall q, mg_heap (ex_manager ex1) !! q =
    if decide (q = p) then Some (with_limiter c l) else mg_heap (ex_manager ex) !! q) as Hheap.
  { intros q. unfold ex1. cbn. destruct (decide (q = p)) as [->|Hne]; [by rewrite lookup_alter_eq, Ec|].
    by rewrite lookup_alter_ne. }
  clearbody ex1. assert (ok <> Some true -> same_taken (ex_manager ex) (ex_manager ex1)) as Hrefused.
  { intros Hok q d Hq. rewrite Hheap. case_decide as Hd; [subst q|by exists d].
    eexists. split; [done|]. simplify_eq. intros f'. cbn. by apply (refused_taken now _ (pk_flowControl pk) _ ok). }
  destruct ok as [[|]|]; cbn [fst]; [|by apply Hterm, Hrefused|by apply Hrefused].
  apply release_one; [done|]. apply dispatch_acquired_one; [done..| |by rewrite Hheap, decide_True].
  destruct (acquire_taken _ _ _ _ Ef) as [Hco Ht]. intros q d Hq. rewrite Hheap. case_decide as Hd; [subst q|].
  - eexists. split; [done|]. simplify_eq. intros f'. cbn. rewrite Ht, Hco.
    destruct (decide (f' = pk_flowControl pk)); [by rewrite decide_True|by rewrite decide_False by naive_solver].
  - exists d. split; [done|]. intros f'. rewrite decide_False by naive_solver. lia.
Qed.


(** ** The rate monitor *)

Lemma dispatcher_rate ex cx :
  (forall ex e r, same_proxy ex (up_Upgrade up ex e r)) ->
  ex_rate (fst (dispatcher_ServeHTTP up meanwhile now ex cx)) = ex_rate ex.
Proof.
  intros Hup. assert (forall ex2 err reason, ex_rate (TerminateWithError ex2 err reason) = ex_rate ex2) as Hterm
    by (intros; by apply Terminate_same).
  unfold dispatcher_ServeHTTP. repeat (case_match; cbn [fst]; rewrite ?Hterm; try done).
  unfold dispatch_acquired. destruct (Pop _ _) as [? picked]. cbn [ex_rate release update_cluster ex_with_manager].
  destruct picked as [?|endpoint]; [by rewrite Hterm|]. destruct (url_Parse _) as [?|ep]; [by rewrite Hterm|].
  unfold SetProxyForwarded. destruct (ex_proxyInfo _); [|by rewrite Hterm].
  cbn [ex_rate ex_with_manager]. by rewrite (proj1 (proj2 (UpgradeAware_spec _ _ _ _ _ _ _ Hup))).
Qed.

Lemma authenticated_rate ex cx :
  quiet ->
  ex_rate (fst (WithAuthentication failed (WithImpersonator (WithImpersonation Authorize reject
                 (WithDispatcher apiHandler (dispatcher_ServeHTTP up meanwhile now)))) ex cx)) = ex_rate ex.
Proof.
  intros [Hup Hrej Hfail Hapi]. unfold WithAuthentication, WithImpersonator, WithImpersonation, WithDispatcher.
  destruct (Authenticate (cx_request cx)); [|by apply Hfail]. cbn [cx_user].
  destruct (WithNoLoggingImpersonation _ _ _); [|by apply Hrej..]. cbn [cx_extraInfo cx_with_extra].
  destruct (cx_extraInfo cx) as [i|]; cbn [fmap option_fmap option_map]; [|by apply Hapi].
  destruct (xi_IsProxyRequest _); [by apply dispatcher_rate|by apply Hapi].
Qed.

Lemma uncount_inflight ex : CurrentInflight (ex_rate (uncount_limited ex)) = CurrentInflight (ex_rate ex).
Proof. unfold uncount_limited. destruct (ex_proxyInfo ex); [|done]. by destruct (_ && _). Qed.

Lemma rate_inflight handler ex cx :
  (forall ex cx, ex_rate (fst (handler ex cx)) = ex_rate ex) ->
  in_int32 (CurrentInflight (ex_rate ex)) -> in_int32 (CurrentInflight (ex_rate ex) + 1) ->
  CurrentInflight (ex_rate (fst (WithRequestRate handler ex cx))) = CurrentInflight (ex_rate ex).
Proof.
  intros Hh H1' H2'. unfold WithRequestRate. destruct (cx_requestInfo cx); [|done].
  destruct (LongRunningFunc _ _).
  - pose proof (Hh (ex_with_rate ex (AddN (ex_rate ex) 1)) cx) as Hr. destruct (handler _ cx) as [ex' panic].
    cbn [fst] in *. by rewrite uncount_inflight, Hr.
  - pose proof (Hh (ex_with_rate ex (StartOne (ex_rate ex))) cx) as Hr. destruct (handler _ cx) as [ex' panic].
    cbn [fst] in *. rewrite uncount_inflight. cbn [ex_rate ex_with_rate]. rewrite Hr. cbn -[wrap32].
    rewrite (wrap32_id (_ + 1)) by done. unfold CurrentInflight in *. rewrite wrap32_id; [lia|].
    by replace (mt_inflight (ex_rate ex) + 1 + -1) with (mt_inflight (ex_rate ex)) by lia.
Qed.

(** Under every outcome, panics included, the count of requests in flight
    that decides about load pressure returns to what it was before the
    request. *)
Theorem requests_in_flight_return ex req :
  quiet -> in_int32 (CurrentInflight (ex_rate ex)) -> in_int32 (CurrentInflight (ex_rate ex) + 1) ->
  CurrentInflight (ex_rate (serve up meanwhile now Authorize reject failed apiHandler ex req)) =
    CurrentInflight (ex_rate ex).
Proof.
  intros Hq Hi Hi1. unfold serve, proxyHandlerChain. cbv zeta.
  unfold WithNoLoggingPanicRecovery, WithRequestInfo, WithTerminationMetrics, WithExtraRequestInfo,
    NewExtraRequestInfo, WithUpstreamInfo.
  assert (forall ex' cx, ex_rate ex' = ex_rate ex ->
    CurrentInflight (ex_rate (fst (WithRequestRate (WithAuthentication failed (WithImpersonator
      (WithImpersonation Authorize reject (WithDispatcher apiHandler (dispatcher_ServeHTTP up meanwhile now)))))
      ex' cx))) = CurrentInflight (ex_rate ex)) as Hrate.
  { intros ex' cx E. rewrite rate_inflight; rewrite ?E; [done| |done..].
    intros ex2 cx2. by apply authenticated_rate. }
  assert (forall ex2 err reason, ex_rate (TerminateWithError ex2 err reason) = ex_rate ex2) as Hterm
    by (intros; by apply Terminate_same).
  set (h := WithRequestRate _) in *. clearbody h.
  assert (forall r : exchange * bool, CurrentInflight (ex_rate (fst r)) = CurrentInflight (ex_rate ex) ->
    CurrentInflight (ex_rate (fst (let '(ex, panic) := r in
      (if panic : bool then ex_with_writer ex (fst (rw_Write (WriteHeader (ex_writer ex) 500)
       "This request caused apiserver to panic. Look in the logs for details.")) else ex, false)))) =
    CurrentInflight (ex_rate ex)) as Hrec by (intros [ex' []]; done).
  apply Hrec. clear Hrec. cbn [cx_request cx_requestInfo cx_extraInfo cx_user cx_with_extra].
  destruct (NewRequestInfo req); [done|]. cbn [cx_request cx_requestInfo cx_extraInfo cx_user cx_with_extra].
  destruct (ParseIP _); [by apply Hrate|]. destruct (manager_Get _ _) as [[p c]|]; [|cbn [fst]; by rewrite Hterm].
  destruct (gates_Enabled _ DenyAllRequests); [cbn [fst]; rewrite Hterm|apply Hrate];
    by destruct (gates_Enabled _ CloseConnectionWhenIdle).
Qed.
End chain.
End dispatcher_lemmas.
