(* ===== verification/LimiterInstance.v ===== *)
(** The limiter of the gateway ([GatewayLimiter], [RemoteCounter]) as the
    interface that clusters and the dispatcher use ([UpstreamLimiter],
    [FlowControls]), so that their theorems hold of the flow controls of
    [pkg/flowcontrols].

    The state is [Panic] once a synchronisation panicked.  A request that
    waits for the rate limiter server gets no answer while it waits.  A flow
    control is known by the name of its cache: a request that outlives the
    cache is not followed. *)
From stdpp Require Import base tactics list strings gmap.
From Stdlib Require Import ZArith Lia.
From S2P Require Import Prelude Http ApiTypes Validation FlowControl Float64 Meter RemoteFlowControl FlowControlCache.
From S2P Require Import GatewayLimiter RemoteCounter Matching Clusters Controller Impersonation ReverseProxy Dispatcher.

Local Open Scope Z_scope.
Local Open Scope go_scope.

Section instance.
Context `{InflightLock} `{TokenBucketLimiter} `{FloatToInt} `{FloatToUint} `{BurstPercents} `{MapRange}.

(** The time of a synchronisation, the limiter kind and the clients a limiter
    is made with, and whether a server is ready. *)
Context (clock : Z) (rateLimiter : string) (clientSets : option string) (ready : bool).

Definition gateway_limiter : UpstreamLimiter := {|
  ul_state := result Empty_set upstreamLimiter;
  ul_flowControl := chosen;
  ul_New cluster := Ok (NewUpstreamLimiter cluster rateLimiter clientSets);
  ul_ResetLimiter l t := let! l := l in Ok (ResetLimiter l t);
  ul_Sync l s := let! l := l in limiter_Sync clock l s;
  ul_GetOrDefault l name :=
    match l with Ok l => snd (GetOrDefault ready l name) | _ => UseDefault end
|}.

#[export] Instance chosen_eq_dec : EqDecision chosen.
Proof. solve_decision. Defined.

(** [TryAcquire] and [Release] of what [GetOrDefault] returned.  The default
    flow control lets everything pass. *)
Definition chosen_TryAcquire (now : Z) (l : result Empty_set upstreamLimiter) (f : chosen)
    : result Empty_set upstreamLimiter * option bool :=
  match l, f with
  | Ok lim, UseLocal name =>
      match local_TryAcquire now lim name with Ok (lim, ok) => (Ok lim, Some ok) | _ => (l, None) end
  | Ok lim, UseRemote name =>
      match remote_TryAcquire_begin now lim name with
      | Ok (lim, Finished ok) => (Ok lim, Some ok)
      | Ok (lim, Waiting _) =>
          match remote_TryAcquire_end now lim name with
          | Ok (lim, Finished ok) => (Ok lim, Some ok)
          | _ => (Ok lim, None)
          end
      | _ => (l, None)
      end
  | Ok _, UseDefault => (l, Some true)
  | _, _ => (l, None)
  end.

Definition chosen_Release (l : result Empty_set upstreamLimiter) (f : chosen) : result Empty_set upstreamLimiter :=
  match l, f with
  | Ok lim, UseLocal name => Ok (local_Release lim name)
  | Ok lim, UseRemote name => Ok (remote_Release lim name)
  | _, _ => l
  end.

(** The lock a request holds while it is under way: token buckets have none. *)
Definition held_lock (lim : upstreamLimiter) (f : chosen) : option LocalFlowControl :=
  match f with
  | UseLocal name => c ← gl_flowControls lim !! name; fcc_local c
  | UseRemote name =>
      cr ← remote_of lim name;
      match rw_GlobalCounterFlowControl (snd cr) with
      | Some (EmptyGlobal fc) => Some fc
      | Some (MaxInflightGlobal w) => Some (mw_FlowControl w)
      | _ => None
      end
  | UseDefault => None
  end.

Definition taken_of (fc : LocalFlowControl) : Z :=
  match fc with InflightControl f => lock_taken (if_TokenBucket f) | BucketControl _ => 0 end.

Definition cost_of (fc : LocalFlowControl) : Z :=
  match fc with InflightControl _ => 1 | BucketControl _ => 0 end.

Definition chosen_taken (l : result Empty_set upstreamLimiter) (f : chosen) : Z :=
  match l with Ok lim => from_option taken_of 0 (held_lock lim f) | _ => 0 end.

Definition chosen_cost (l : result Empty_set upstreamLimiter) (f : chosen) : Z :=
  match l with Ok lim => from_option cost_of 0 (held_lock lim f) | _ => 0 end.

(** ** Laws *)

(** Whether a flow control is a lock, and of what capacity. *)
Definition lock_kind (fc : LocalFlowControl) : option (option Z) :=
  match fc with InflightControl f => Some (lock_capacity (if_TokenBucket f)) | BucketControl _ => None end.

Lemma TryAcquire_taken now fc fc' ok :
  LocalFlowControl_TryAcquire now fc = (fc', ok) ->
  lock_kind fc' = lock_kind fc /\ taken_of fc' = taken_of fc + (if ok then cost_of fc else 0) /\
  (forall n, lock_kind fc = Some (Some n) -> ok = true <-> taken_of fc < n).
Proof.
  destruct fc as [f|f]; cbn.
  - pose proof (lock_TryAcquire_spec (if_TokenBucket f)) as Hs.
    destruct (lock_TryAcquire (if_TokenBucket f)) as [t b]. destruct Hs as (Hc & Ht & Hb). intros [= <- <-]. cbn.
    split_and!; [by rewrite Hc|rewrite Ht; destruct b; lia|]. intros n [= Hn]. rewrite Hb, Hn.
    split; [intros Hall; by apply Hall|]. intros Hlt m [= <-]. done.
  - unfold resizeableTokenBucket_TryAcquire. destruct (TryAccept _ _) as [t b]. intros [= <- <-].
    split_and!; [done|by destruct b|done].
Qed.

Lemma kind_cost fc fc' : lock_kind fc' = lock_kind fc -> cost_of fc' = cost_of fc.
Proof. by destruct fc, fc'. Qed.

Lemma Release_taken fc :
  cost_of fc <= taken_of fc ->
  lock_kind (LocalFlowControl_Release fc) = lock_kind fc /\
  taken_of (LocalFlowControl_Release fc) = taken_of fc - cost_of fc.
Proof.
  destruct fc as [f|f]; [|done]. cbn. intros Hf.
  destruct (lock_Release_spec (if_TokenBucket f)) as [Hc Ht]; [lia|]. by rewrite Hc.
Qed.

(** Storing a lock changes no other one. *)
Lemma held_set_local lim name mt fc c f :
  gl_flowControls lim !! name = Some c ->
  held_lock (set_local lim name mt fc) f = if decide (f = UseLocal name) then Some fc else held_lock lim f.
Proof.
  intros Hc. destruct f as [n|n|]; cbn -[set_local]; [| |done].
  - rewrite decide_False by done. unfold remote_of. cbn. destruct (decide (n = name)) as [->|Hne].
    + rewrite lookup_alter_eq, Hc. cbn. by destruct (fcc_remote c).
    + by rewrite lookup_alter_ne.
  - cbn. destruct (decide (n = name)) as [->|Hne].
    + rewrite lookup_alter_eq, Hc, decide_True by done. done.
    + rewrite lookup_alter_ne, decide_False by congruence. done.
Qed.

Definition lock_of (w : GlobalCounterFlowControl) : option LocalFlowControl :=
  match w with
  | EmptyGlobal fc => Some fc
  | MaxInflightGlobal w => Some (mw_FlowControl w)
  | TokenBucketGlobal _ => None
  end.

Lemma held_set_remote lim name mt w c r f :
  remote_of lim name = Some (c, r) ->
  held_lock (set_remote lim name mt w) f = if decide (f = UseRemote name) then lock_of w else held_lock lim f.
Proof.
  unfold remote_of. destruct (gl_flowControls lim !! name) as [c'|] eqn:Hc; [|done]. cbn.
  destruct (fcc_remote c') as [r'|] eqn:Hr; [|done]. cbn. intros [= -> ->].
  destruct f as [n|n|]; cbn -[set_remote]; [| |done].
  - unfold remote_of. cbn. destruct (decide (n = name)) as [->|Hne].
    + rewrite lookup_alter_eq, Hc, decide_True by done. cbn. rewrite Hr. cbn. by destruct w.
    + by rewrite lookup_alter_ne, decide_False by congruence.
  - rewrite decide_False by done. cbn. destruct (decide (n = name)) as [->|Hne].
    + by rewrite lookup_alter_eq, Hc.
    + by rewrite lookup_alter_ne.
Qed.

Lemma held_count b lim name f : held_lock (count_if b lim name) f = held_lock lim f.
Proof. by destruct b. Qed.

Definition lock_taken_of (o : option LocalFlowControl) : Z := from_option taken_of 0 o.
Definition lock_cost_of (o : option LocalFlowControl) : Z := from_option cost_of 0 o.

(** What an attempt does to a lock. *)
Definition attempt (o o' : option LocalFlowControl) (acquired : bool) : Prop :=
  lock_kind <$> o' = lock_kind <$> o /\
  lock_taken_of o' = lock_taken_of o + if acquired then lock_cost_of o else 0.

Lemma attempt_cost o o' b : attempt o o' b -> lock_cost_of o' = lock_cost_of o.
Proof. intros [Hk _]. destruct o, o'; try done. injection Hk as Hk. by apply kind_cost. Qed.

Definition got (p : progress) : bool := match p with Finished b => b | Waiting _ => false end.

Lemma attempt_refused o : attempt o o false.
Proof. split; [done|lia]. Qed.

Lemma meter_attempt now mt fc mt' fc' ok :
  meter_TryAcquire now mt fc = (mt', fc', ok) -> attempt (Some fc) (Some fc') ok.
Proof.
  unfold meter_TryAcquire. destruct (LocalFlowControl_TryAcquire now fc) as [fc1 ok1] eqn:E.
  intros [= _ <- <-]. destruct (TryAcquire_taken _ _ _ _ E) as (Hk & Ht & _). split; [cbn; by rewrite Hk|done].
Qed.

Lemma Global_begin_attempt now mt w mt' w' e p :
  Global_TryAcquire_begin now mt w = (mt', w', e, p) -> attempt (lock_of w) (lock_of w') (got p).
Proof.
  destruct w as [fc|w|w]; cbn.
  - destruct (meter_TryAcquire now mt fc) as [[mt1 fc1] ok] eqn:E. intros [= <- <- <- <-].
    by apply meter_attempt in E.
  - unfold maxInflight_TryAcquire_begin. cbv zeta. pose proof (attempt_refused (Some (mw_FlowControl w))) as Hno.
    destruct (meter_TryAcquire now mt (mw_FlowControl w)) as [[mt1 fc1] ok] eqn:E. apply meter_attempt in E.
    destruct (negb _ || _); [by intros [= <- <- <- <-]|].
    destruct (_ || _); [by intros [= <- <- <- <-]|].
    destruct (_ <=? _); [|by intros [= <- <- <- <-]].
    destruct ok; intros [= <- <- <- <-]; exact E.
  - destruct (tokenBucket_TryAcquire_begin now mt w) as [[[mt1 w1] e1] p1]. intros [= <- <- <- <-].
    split; [done|]. cbn. by destruct (got p1).
Qed.

Lemma Global_end_attempt now mt w mt' w' e p :
  Global_TryAcquire_end now mt w = (mt', w', e, p) -> attempt (lock_of w) (lock_of w') (got p).
Proof.
  destruct w as [fc|w|w]; cbn.
  - destruct (meter_TryAcquire now mt fc) as [[mt1 fc1] ok] eqn:E. intros [= <- <- <- <-].
    by apply meter_attempt in E.
  - unfold maxInflight_TryAcquire_end. destruct (meter_TryAcquire now mt (mw_FlowControl w)) as [[mt1 fc1] ok] eqn:E.
    apply meter_attempt in E. by intros [= <- <- <- <-].
  - destruct (tokenBucket_TryAcquire_end mt w) as [[[mt1 w1] e1] p1]. intros [= <- <- <- <-].
    split; [done|]. cbn. by destruct (got p1).
Qed.

(** An attempt at the lock of one flow control leaves the others alone. *)
Definition attempt_at (lim lim' : upstreamLimiter) (f : chosen) (acquired : bool) : Prop :=
  attempt (held_lock lim f) (held_lock lim' f) acquired /\
  forall f', f' <> f -> held_lock lim' f' = held_lock lim f'.

Lemma local_attempt now lim name lim' ok :
  local_TryAcquire now lim name = Ok (lim', ok) -> attempt_at lim lim' (UseLocal name) ok.
Proof.
  unfold local_TryAcquire. destruct (gl_flowControls lim !! name) as [c|] eqn:Hc; [|done]. cbn.
  destruct (fcc_local c) as [fc|] eqn:Hl; [|done]. cbn.
  destruct (meter_TryAcquire now (fcc_meter c) fc) as [[mt fc'] ok'] eqn:E. intros [= <- <-]. split.
  - rewrite (held_set_local _ _ _ _ c), decide_True by done. cbn. rewrite Hc. cbn. rewrite Hl. by eapply meter_attempt.
  - intros f' Hf. by rewrite (held_set_local _ _ _ _ c), decide_False.
Qed.

Lemma remote_attempt step lim name lim' p :
  (forall mt w mt' w' e p, step mt w = (mt', w', e, p) -> attempt (lock_of w) (lock_of w') (got p)) ->
  remote_request step lim name = Ok (lim', p) -> attempt_at lim lim' (UseRemote name) (got p).
Proof.
  intros Hstep. unfold remote_request. destruct (remote_of lim name) as [[c [[w|] cfg]]|] eqn:Hr; try done.
  destruct (step (fcc_meter c) w) as [[[mt w'] e] p'] eqn:E. intros [= <- <-]. split.
  - rewrite held_count, (held_set_remote _ _ _ _ c (MkRemote (Some w) cfg)), decide_True by done.
    cbn. rewrite Hr. cbn. apply Hstep in E. by destruct w.
  - intros f' Hf. by rewrite held_count, (held_set_remote _ _ _ _ c (MkRemote (Some w) cfg)), decide_False.
Qed.

Lemma attempt_at_taken lim lim' f b :
  attempt_at lim lim' f b ->
  chosen_cost (Ok lim') f = chosen_cost (Ok lim) f /\
  forall f', chosen_taken (Ok lim') f' =
    chosen_taken (Ok lim) f' + if decide (f' = f) then (if b then chosen_cost (Ok lim) f else 0) else 0.
Proof.
  intros [Ha Hother]. split; [exact (attempt_cost _ _ _ Ha)|]. destruct Ha as [_ Ht]. intros f'. case_decide as Hf; [subst f'; exact Ht|].
  cbn. rewrite Hother by done. lia.
Qed.

Lemma attempt_at_trans lim1 lim2 lim3 f b :
  attempt_at lim1 lim2 f false -> attempt_at lim2 lim3 f b -> attempt_at lim1 lim3 f b.
Proof.
  intros [Ha1 Ho1] [[Hk2 Ht2] Ho2]. pose proof (attempt_cost _ _ _ Ha1) as Hc1. destruct Ha1 as [Hk1 Ht1].
  split; [split; [congruence|]|].
  - rewrite Ht2, Ht1, Hc1. lia.
  - intros f' Hf. by rewrite Ho2, Ho1.
Qed.

Lemma chosen_attempt_at now lim f lim' r :
  chosen_TryAcquire now (Ok lim) f = (Ok lim', r) -> attempt_at lim lim' f (bool_decide (r = Some true)).
Proof.
  assert (forall x, attempt_at x x f false) as Hno by (intros x; split; [apply attempt_refused|done]).
  assert (forall ok, bool_decide (Some ok = Some true) = ok) as Hb by (by intros []).
  cbn. destruct f as [name|name|].
  - destruct (remote_TryAcquire_begin now lim name) as [[lim1 [ok|t]]|[]|] eqn:E; [| |by intros [= <- <-]; apply Hno].
    + intros [= <- <-]. rewrite Hb. by apply (remote_attempt _ _ _ _ _ (Global_begin_attempt now)) in E.
    + apply (remote_attempt _ _ _ _ _ (Global_begin_attempt now)) in E.
      destruct (remote_TryAcquire_end now lim1 name) as [[lim2 [ok|t']]|[]|] eqn:E2;
        [|by intros [= <- <-]; apply E|by intros [= <- <-]; apply E].
      intros [= <- <-]. rewrite Hb. apply (remote_attempt _ _ _ _ _ (Global_end_attempt now)) in E2.
      by eapply attempt_at_trans.
  - destruct (local_TryAcquire now lim name) as [[lim1 ok]|[]|] eqn:E; [|by intros [= <- <-]; apply Hno].
    intros [= <- <-]. rewrite Hb. by apply local_attempt in E.
  - intros [= <- <-]. split; [|done]. by split.
Qed.

Lemma chosen_attempt now l f l' r :
  chosen_TryAcquire now l f = (l', r) ->
  chosen_cost l' f = chosen_cost l f /\
  forall f', chosen_taken l' f' =
    chosen_taken l f' + if decide (f' = f) then (if decide (r = Some true) then chosen_cost l f else 0) else 0.
Proof.
  destruct l as [lim|[]|].
  - intros E. assert (exists lim', l' = Ok lim') as [lim' ->].
    { cbn in E. destruct f; repeat case_match; simplify_eq; eauto. }
    apply chosen_attempt_at, attempt_at_taken in E as [Hc Ht]. split; [done|]. intros f'. rewrite Ht.
    case_decide; [|done]. unfold bool_decide. by destruct (decide (r = Some true)).
  - intros [= <- <-]. split; [done|]. intros f'. cbn. by repeat case_decide.
Qed.

(** Giving a lock back. *)
Definition released (o o' : option LocalFlowControl) : Prop :=
  lock_kind <$> o' = lock_kind <$> o /\ lock_taken_of o' = lock_taken_of o - lock_cost_of o.

Lemma release_released fc :
  cost_of fc <= taken_of fc -> released (Some fc) (Some (LocalFlowControl_Release fc)).
Proof. intros Hf. destruct (Release_taken fc Hf) as [Hk Ht]. split; [cbn; by rewrite Hk|done]. Qed.

Lemma Global_release_released mt w mt' w' e :
  lock_cost_of (lock_of w) <= lock_taken_of (lock_of w) -> Global_Release mt w = (mt', w', e) ->
  released (lock_of w) (lock_of w').
Proof.
  destruct w as [fc|w|w]; cbn; intros Hf.
  - intros [= <- <- <-]. by apply release_released.
  - unfold maxInflight_Release. cbn. intros [= <- <- <-]. by apply release_released.
  - unfold tokenBucket_Release. cbn. intros [= <- <- <-]. done.
Qed.

Lemma chosen_release lim f :
  chosen_cost (Ok lim) f <= chosen_taken (Ok lim) f ->
  exists lim', chosen_Release (Ok lim) f = Ok lim' /\ released (held_lock lim f) (held_lock lim' f) /\
    forall f', f' <> f -> held_lock lim' f' = held_lock lim f'.
Proof.
  intros Hf. assert (forall o, lock_cost_of o = 0 -> released o o) as Hno by (intros o Ho; split; [done|rewrite Ho; lia]).
  destruct f as [name|name|]; cbn [chosen_Release]; [| |by exists lim]; (eexists; split; [reflexivity|]).
  - unfold remote_Release. destruct (remote_of lim name) as [[c [[w|] cfg]]|] eqn:Hr.
    + destruct (Global_Release (fcc_meter c) w) as [[mt w'] e] eqn:E.
      assert (held_lock lim (UseRemote name) = lock_of w) as Hw by (cbn; rewrite Hr; cbn; by destruct w).
      split.
      * rewrite held_count, (held_set_remote _ _ _ _ c (MkRemote (Some w) cfg)), decide_True by done.
        rewrite Hw. eapply Global_release_released; [|done]. cbn [chosen_cost chosen_taken] in Hf. by rewrite Hw in Hf.
      * intros f' Hne. by rewrite held_count, (held_set_remote _ _ _ _ c (MkRemote (Some w) cfg)), decide_False.
    + split; [|done]. apply Hno. cbn. by rewrite Hr.
    + split; [|done]. apply Hno. cbn. by rewrite Hr.
  - unfold local_Release. destruct (gl_flowControls lim !! name) as [c|] eqn:Hc; cbn -[set_local held_lock];
      [|split; [apply Hno|]; [cbn; by rewrite Hc|done]].
    destruct (fcc_local c) as [fc|] eqn:Hl; cbn -[set_local held_lock];
      [|split; [apply Hno|]; [cbn; rewrite Hc; cbn; by rewrite Hl|done]].
    assert (held_lock lim (UseLocal name) = Some fc) as Hw by (cbn; rewrite Hc; exact Hl). split.
    + rewrite (held_set_local _ _ _ _ c), decide_True, Hw by done.
      apply release_released. cbn [chosen_cost chosen_taken] in Hf. by rewrite Hw in Hf.
    + intros f' Hne. by rewrite (held_set_local _ _ _ _ c), decide_False.
Qed.

#[export] Instance gateway_flow_controls : FlowControls (H := gateway_limiter).
Proof.
  refine (@Build_FlowControls gateway_limiter chosen_eq_dec chosen_TryAcquire chosen_Release chosen_taken chosen_cost _ _ _).
  - intros now l f l' E. destruct (chosen_attempt now l f l' _ E) as [Hc Ht]. split; [done|]. intros f'. rewrite Ht.
    by rewrite (decide_True (P := Some true = Some true)).
  - intros now l f l' r E Hr f'. destruct (chosen_attempt now l f l' r E) as [_ ->].
    rewrite (decide_False (P := r = Some true)) by done. case_decide; lia.
  - intros [lim|[]|] f Hf f'.
    + destruct (chosen_release lim f Hf) as (lim' & -> & [_ Ht] & Ho). cbn.
      case_decide as Hd; [subst f'; exact Ht|]. rewrite Ho by done. lia.
    + cbn in *. case_decide; lia.
Defined.

(** ** Limits on requests in flight *)

(** Requests that take and give back flow controls, in any order: the requests
    under way are a list of what each of them holds. *)
Inductive usage : upstreamLimiter * list chosen -> upstreamLimiter * list chosen -> Prop :=
  | use_acquire now lim held f lim' : chosen_TryAcquire now (Ok lim) f = (Ok lim', Some true) ->
      usage (lim, held) (lim', f :: held)
  | use_refused now lim held f lim' r : chosen_TryAcquire now (Ok lim) f = (Ok lim', r) -> r <> Some true ->
      usage (lim, held) (lim', held)
  | use_release lim before f after lim' : chosen_Release (Ok lim) f = Ok lim' ->
      usage (lim, before ++ f :: after) (lim', before ++ after).

Definition holders (f : chosen) (held : list chosen) : Z := Z.of_nat (length (filter (fun g => g = f) held)).

(** No lock is taken. *)
Definition idle (lim : upstreamLimiter) : Prop := forall f, chosen_taken (Ok lim) f = 0.

Lemma holders_cons f g held : holders f (g :: held) = holders f held + if decide (g = f) then 1 else 0.
Proof. unfold holders. rewrite filter_cons. case_decide; cbn [length]; lia. Qed.

Lemma holders_remove f g before after :
  holders f (before ++ g :: after) = holders f (before ++ after) + if decide (g = f) then 1 else 0.
Proof. unfold holders. rewrite !filter_app, filter_cons. rewrite !length_app. case_decide; cbn [length]; lia. Qed.

Lemma holders_nonneg f held : 0 <= holders f held.
Proof. unfold holders. lia. Qed.

(** A lock is taken once by every request that holds it, and keeps its
    capacity. *)
Record held_ok (start lim : upstreamLimiter) (held : list chosen) : Prop := {
  ho_taken : forall f, chosen_taken (Ok lim) f = chosen_cost (Ok lim) f * holders f held;
  ho_kind : forall f, lock_kind <$> held_lock lim f = lock_kind <$> held_lock start f
}.

Lemma kind_lock_cost o o' : lock_kind <$> o' = lock_kind <$> o -> lock_cost_of o' = lock_cost_of o.
Proof. destruct o, o'; try done. intros [= Hk]. by apply kind_cost. Qed.

Lemma cost_unit lim f : 0 <= chosen_cost (Ok lim) f.
Proof. cbn. destruct (held_lock lim f) as [[]|]; cbn; lia. Qed.

Lemma attempt_at_held start lim lim' f b held :
  attempt_at lim lim' f b -> held_ok start lim held -> held_ok start lim' (if b then f :: held else held).
Proof.
  intros Hat [Ht Hk]. assert (forall g, lock_kind <$> held_lock lim' g = lock_kind <$> held_lock lim g) as Hsame.
  { intros g. destruct (decide (g = f)) as [->|Hne]; [apply Hat|]. destruct Hat as [_ Ho]. by rewrite Ho. }
  split; [|intros g; by rewrite Hsame]. intros g.
  destruct (attempt_at_taken _ _ _ _ Hat) as [_ Htaken]. rewrite Htaken, Ht.
  change (chosen_cost (Ok lim') g) with (lock_cost_of (held_lock lim' g)).
  rewrite (kind_lock_cost _ _ (Hsame g)). change (lock_cost_of (held_lock lim g)) with (chosen_cost (Ok lim) g).
  destruct b; [rewrite holders_cons|]; repeat case_decide; try congruence; subst; lia.
Qed.

Lemma release_held start lim before f after lim' :
  chosen_Release (Ok lim) f = Ok lim' -> held_ok start lim (before ++ f :: after) ->
  held_ok start lim' (before ++ after).
Proof.
  intros Hrel [Ht Hk]. destruct (chosen_release lim f) as (l' & Hr & [Hkind Htaken] & Ho).
  { rewrite Ht, holders_remove, decide_True by done. pose proof (holders_nonneg f (before ++ after)).
    pose proof (cost_unit lim f). nia. }
  rewrite Hrel in Hr. injection Hr as <-.
  assert (forall g, lock_kind <$> held_lock lim' g = lock_kind <$> held_lock lim g) as Hsame.
  { intros g. destruct (decide (g = f)) as [->|Hne]; [done|]. by rewrite Ho. }
  split; [|intros g; by rewrite Hsame]. intros g. specialize (Ht g). rewrite holders_remove in Ht.
  change (chosen_cost (Ok lim') g) with (lock_cost_of (held_lock lim' g)).
  rewrite (kind_lock_cost _ _ (Hsame g)). cbn [chosen_taken chosen_cost] in *.
  unfold lock_taken_of, lock_cost_of in *. case_decide as Hd.
  - subst g. rewrite Htaken. lia.
  - rewrite Ho by done. lia.
Qed.

Lemma usage_held start x y :
  rtc usage x y -> held_ok start (fst x) (snd x) -> held_ok start (fst y) (snd y).
Proof.
  induction 1 as [|x y z Hstep _ IH]; [done|]. intros Hx. apply IH. clear IH.
  destruct Hstep as [now lim held f lim' E|now lim held f lim' r E Hr|lim before f after lim' E]; cbn in *.
  - exact (attempt_at_held _ _ _ _ _ _ (chosen_attempt_at _ _ _ _ _ E) Hx).
  - pose proof (attempt_at_held _ _ _ _ _ _ (chosen_attempt_at _ _ _ _ _ E) Hx) as Hy.
    by rewrite bool_decide_eq_false_2 in Hy.
  - by eapply release_held.
Qed.

Lemma local_lock_attempt now lim name fc :
  held_lock lim (UseLocal name) = Some fc ->
  exists lim' ok, chosen_TryAcquire now (Ok lim) (UseLocal name) = (Ok lim', Some ok) /\
    forall n, lock_kind fc = Some (Some n) -> ok = true <-> taken_of fc < n.
Proof.
  cbn. unfold local_TryAcquire. destruct (gl_flowControls lim !! name) as [c|]; [|done]. cbn. intros ->. cbn.
  unfold meter_TryAcquire. destruct (LocalFlowControl_TryAcquire now fc) as [fc1 ok] eqn:E. cbn.
  do 2 eexists. split; [reflexivity|]. by apply TryAcquire_taken in E as (_ & _ & Hn).
Qed.

Lemma usage_bounded start name n x y :
  lock_kind <$> held_lock start (UseLocal name) = Some (Some (Some n)) ->
  rtc usage x y -> held_ok start (fst x) (snd x) -> holders (UseLocal name) (snd x) <= n ->
  holders (UseLocal name) (snd y) <= n.
Proof.
  intros Hstart. induction 1 as [|x y z Hstep _ IH]; [done|]. intros Hx Hn.
  apply IH; [exact (usage_held _ _ _ (rtc_once _ _ Hstep) Hx)|]. clear IH.
  destruct Hstep as [now lim held f lim' E|now lim held f lim' r E Hr|lim before f after lim' E]; cbn [fst snd] in *; [|done|].
  - rewrite holders_cons. case_decide as Hf; [|lia]. subst f. destruct Hx as [Ht Hk].
    specialize (Ht (UseLocal name)). specialize (Hk (UseLocal name)). rewrite Hstart in Hk.
    destruct (held_lock lim (UseLocal name)) as [fc|] eqn:Hfc; [|done].
    destruct (local_lock_attempt now lim name fc Hfc) as (l2 & ok & E' & Hok).
    rewrite E in E'. injection E' as <- <-. cbn [chosen_taken chosen_cost] in Ht. rewrite Hfc in Ht. injection Hk as Hk.
    specialize (Hok n Hk). destruct fc as [f|f]; [|done]. cbn in *.
    assert (lock_taken (if_TokenBucket f) < n) by (by apply Hok). lia.
  - rewrite holders_remove in Hn. case_decide; lia.
Qed.

Lemma installed_lock lim s m :
  installed lim s -> fc_MaxRequestsInflight (fs_Config s) = Some m -> 0 <= Max m -> in_int32 (Max m) ->
  lock_kind <$> held_lock lim (UseLocal (fs_Name s)) = Some (Some (Some (Max m))).
Proof.
  intros (c & Hc & [Hl _] & Hcfg & [fc Hfc]) Hm Hpos H32. rewrite Hfc in Hl. destruct Hl as [_ He].
  cbn. rewrite Hc. cbn. rewrite Hfc. cbn. rewrite Hcfg in He. unfold enforces in He. rewrite Hm in He.
  destruct fc as [f|f].
  - destruct He as (_ & Hmax & Hcap). cbn. rewrite Hcap, Hmax. do 3 f_equal. unfold uwrap32, in_int32 in *.
    apply Z.mod_small. lia.
  - destruct He as (tb & He & _). congruence.
Qed.

End instance.

(** * A gateway *)

Module GatewayScenario.
#[local] Existing Instance SimpleLock.lock.
#[local] Existing Instance SimpleLock.limiter.
#[local] Existing Instance amd64_conversion.
#[local] Existing Instance saturating_uint.
#[local] Existing Instance default_percents.
#[local] Existing Instance sorted_range.
#[local] Existing Instance ascii_only_lower.
#[local] Existing Instance ClusterExample.one_gate.
#[local] Existing Instance ClusterExample.text_certificates.
#[local] Existing Instance ProxyExample.guts.
#[local] Existing Instance ImpersonationExample.names.
#[local] Existing Instance ImpersonationExample.accounts.

Definition limiter : UpstreamLimiter := gateway_limiter 0 "" None false.
#[local] Existing Instance limiter.
Definition flow_controls : FlowControls := gateway_flow_controls 0 "" None false.
#[local] Existing Instance flow_controls.

#[refine] Definition errors : ApiErrors := {|
  StatusCode e :=
    match e with
    | NewInternalError _ => 500 | NewServiceUnavailable _ => 503
    | NewTooManyRequests _ _ => 429 | NewStatusError c _ => c
    end;
  SuggestsClientDelay e :=
    match e with NewTooManyRequests _ s => if 0 <? s then Some s else None | _ => None end;
  EncodeError e :=
    match e with
    | NewInternalError m | NewServiceUnavailable m | NewTooManyRequests m _ | NewStatusError _ m => m
    end
|}.
Proof. all: reflexivity. Defined.
#[local] Existing Instance errors.

(** Requests for pods, sent by an administrator who shows a token. *)
Definition server : ApiServer := {|
  RequestInfo := string;
  NewRequestInfo req := inr "list";
  ri_IsResourceRequest _ := true;
  ri_Verb i := i;
  GetAuthorizerAttributes u i :=
    inr (MkAttributes (ui_Name u) (ui_Groups u) i "" "pods" "" "" "/api/v1/pods" true);
  LongRunningFunc _ _ := false;
  Authenticate req := if decide (rq_Header req !! "Authorization" = None) then None else Some ImpersonationExample.admin;
  IsUpgradeRequest _ := false;
  IsConnectionRefused _ := false;
  IsCanceled _ := false;
  Itoa n := "1";
  Quote s := s;
  SnakeCase s := s;
  url_Parse s := inr (MkURL "https" s "/" "" "");
  EncodeQuery q := q
|}.
#[local] Existing Instance server.

(** A cluster with one endpoint that takes one request at a time. *)
Definition one_at_a_time : FlowControlSchema :=
  MkSchema "one" (MkSchemaConfig None (Some (MkMaxInflight 1)) None None None) LocalLimit.
Definition cluster : UpstreamCluster :=
  MkCluster "C1" None
    (MkSpec [MkServer "https://a" None] (MkClientConfig true "token" "" "" "" 0 0 0 "")
       (MkSecureServing "" "" "" ["c1.example.com"]) (MkFlowControl [one_at_a_time])
       [MkPolicy RoundRobin [] [ClusterExample.rule] "one" ""] (MkLogging "")).

Definition routed : manager :=
  fst (syncUpstreamCluster (fun _ => true) "" true Found (MkManager ∅ ∅ 0) cluster).

(** Its endpoint was found healthy. *)
Definition clusters : manager :=
  MkManager (mg_clusters routed) ((fun c => check_result c "https://a" true "" "") <$> mg_heap routed) (mg_next routed).

Definition request : Request :=
  MkRequest "GET" "c1.example.com:443" (MkURL "" "" "/api/v1/pods" "" "")
    {[ "Authorization" := ["Bearer t"]; "Impersonate-User" := ["alice"]; "Accept" := ["json"] ]} "192.0.2.7:52033" 0
    None false.

Definition answering : upstream :=
  MkUpstream (fun _ _ => inr ProxyExample.answer) (fun ex _ _ => ex) (MkHijacking false false None None) 0.

Definition start : exchange :=
  MkExchange clusters ProxyExample.fresh None (NewMeter 0 3 3 1) [].

Definition may (u : UserInfo) (_ : AttributesRecord) : bool := bool_decide (ui_Name u = "admin").
Definition api : Handler := fun ex _ => (ex, false).

Definition served : exchange := serve answering id 0 may id id api start request.

Lemma request_canonical : canonical_keys (rq_Header request).
Proof. refine (bool_decide_unpack _ _). vm_compute. exact I. Qed.

(** The request reaches the endpoint as one of the user it acts as, and its
    answer reaches the client. *)
Example served_is :
  (fun s => (se_endpoint s, ui_Name (se_user s), ui_Groups (se_user s), rq_Header (se_request s) !! "Authorization",
     rq_Header (se_request s) !! "Impersonate-User")) <$> ex_sent served =
    [("https://a", "alice", ["system:authenticated"], None, Some ["alice"])] /\
  (fst <$> rw_sent (ex_writer served)) = Some 200 /\ rw_body (ex_writer served) = "{}".
Proof. vm_compute. split_and!; reflexivity. Qed.

(** While another request is in flight the request is refused. *)
Definition busy : exchange :=
  ex_with_manager start
    (MkManager (mg_clusters clusters)
       ((fun c => with_limiter c (fst (fc_TryAcquire 0 (ci_flowcontrol c) (UseLocal "one")))) <$> mg_heap clusters)
       (mg_next clusters)).

Example busy_refused :
  let ex := serve answering id 0 may id id api busy request in
  ex_sent ex = [] /\ (fst <$> rw_sent (ex_writer ex)) = Some 429 /\
  (fun c => fc_taken (ci_flowcontrol c) (UseLocal "one")) <$> mg_heap (ex_manager ex) !! 0 = Some 1.
Proof. vm_compute. split_and!; reflexivity. Qed.

Lemma all_quiet : quiet answering id id api.
Proof. split; done. Qed.

(** ** Witnesses *)


(** What is taken of the local flow controls of a limiter, and which of them
    have a remote one. *)
Definition taken_by (l : upstreamLimiter) : gmap string (Z * bool) :=
  (fun k => (from_option taken_of 0 (fcc_local k), bool_decide (is_Some (fcc_remote k)))) <$> gl_flowControls l.

Lemma taken_by_spec l f :
  map_Forall (fun _ x => x.2 = false) (taken_by l) ->
  chosen_taken (Ok l) f = match f with UseLocal n => from_option fst 0 (taken_by l !! n) | _ => 0 end.
Proof.
  intros Hall. destruct f as [n|n|]; cbn; [| |done]; unfold taken_by in *.
  - unfold remote_of. destruct (gl_flowControls l !! n) as [k|] eqn:Hk; [|done]. cbn.
    specialize (Hall n). rewrite lookup_fmap, Hk in Hall. specialize (Hall _ eq_refl). cbn in Hall.
    apply bool_decide_eq_false in Hall. destruct (fcc_remote k); [exfalso; apply Hall; eauto|done].
  - rewrite lookup_fmap. by destruct (gl_flowControls l !! n).
Qed.

Definition cluster_taken (c : ClusterInfo) : gmap string (Z * bool) :=
  match ci_flowcontrol c with Ok l => taken_by l | _ => ∅ end.

Lemma busy_taken : cluster_taken <$> mg_heap (ex_manager busy) = {[ 0 := {[ "one" := (1, false) ]} ]}.
Proof. vm_compute. reflexivity. Qed.

Lemma one_only (m : gmap string (Z * bool)) n : m = {[ "one" := (n, false) ]} -> map_Forall (fun _ x => x.2 = false) m.
Proof. intros ->. by apply map_Forall_singleton. Qed.

Lemma busy_nonneg : counts_nonneg (ex_manager busy).
Proof.
  intros p c f Hc. assert ((cluster_taken <$> mg_heap (ex_manager busy)) !! p = Some (cluster_taken c)) as Ht
    by (by rewrite lookup_fmap, Hc).
  rewrite busy_taken in Ht. apply lookup_singleton_Some in Ht as [_ Ht]. symmetry in Ht. unfold cluster_taken in Ht.
  change (0 <= chosen_taken (ci_flowcontrol c) f). destruct (ci_flowcontrol c) as [l|[]|]; [|done].
  rewrite taken_by_spec by (by eapply one_only). rewrite Ht. destruct f as [n|n|]; [done| |done].
  destruct (decide (n = "one")) as [->|Hn]; [done|]. by rewrite lookup_singleton_ne.
Qed.


Lemma requests_in_flight_return_witness : CurrentInflight (ex_rate served) = 0.
Proof.
  unfold served. rewrite (requests_in_flight_return answering id 0 may id id api start request all_quiet);
    [reflexivity|split; [vm_compute; discriminate|reflexivity]..].
Defined.

(** The limiter of the cluster, and a request that takes its only place. *)
Definition fresh_limiter : upstreamLimiter := GatewayExample.ok_or GatewayExample.new_limiter
  (limiter_Sync 0 (NewUpstreamLimiter "c1" "" None) (MkFlowControl [one_at_a_time])).
Definition taken_limiter : upstreamLimiter :=
  match chosen_TryAcquire 0 (Ok fresh_limiter) (UseLocal "one") with (Ok l, _) => l | _ => fresh_limiter end.

Lemma fresh_synced :
  limiter_Sync 0 (NewUpstreamLimiter "c1" "" None) (MkFlowControl [one_at_a_time]) = Ok fresh_limiter.
Proof. vm_compute. reflexivity. Qed.

Lemma fresh_ok : limiter_ok fresh_limiter.
Proof.
  destruct (limiter_Sync_ok 0 (NewUpstreamLimiter "c1" "" None) (MkFlowControl [one_at_a_time])) as (l & Hl & Hok & _).
  - split; [|by intros s Hs%elem_of_nil]. intros n. split; [by intros [? ?]|by intros Hn%elem_of_nil].
  - split; [refine (bool_decide_unpack _ _); vm_compute; exact I|]. apply Forall_singleton.
    split_and!; [done|reflexivity|]. apply (ValidateFlowControlConfiguration_nil _ []). vm_compute. reflexivity.
  - rewrite fresh_synced in Hl. by injection Hl as ->.
Qed.

Lemma fresh_idle : idle fresh_limiter.
Proof.
  assert (taken_by fresh_limiter = {[ "one" := (0, false) ]}) as Ht by (vm_compute; reflexivity).
  intros f. rewrite taken_by_spec by (by eapply one_only). rewrite Ht. destruct f as [n|n|]; [done| |done].
  destruct (decide (n = "one")) as [->|Hn]; [done|]. by rewrite lookup_singleton_ne.
Qed.

End GatewayScenario.
