(* ===== verification/Tracing.v ===== *)
(** What is recorded of a request: its trace
    ([pkg/util/tracing/trace.go],
    [pkg/gateway/endpoints/filters/tracelog.go]) and whether it is logged
    ([pkg/gateway/proxy/dispatcher/proxylog.go],
    [pkg/gateway/endpoints/request/requestlog.go]).

    Times are nanoseconds.  The lines that are logged are not modelled, but
    the durations in them. *)
From stdpp Require Import base tactics list strings gmap.
From Stdlib Require Import ZArith Lia.
From S2P Require Import Prelude.

Local Open Scope Z_scope.

(** * Traces *)

Definition StepGotConn : string := "got_conn".
Definition StepWroteRequestHeader : string := "wrote_req_header".
Definition StepReadRequest : string := "read_request".
Definition StepWroteRequest : string := "wrote_req".
Definition StepGotResponse : string := "got_resp".
Definition StepWroteResponseHeader : string := "wrote_resp_header".
Definition StepReadResp : string := "read_resp".
Definition StepWroteResp : string := "wrote_resp".

Definition MetricStageClientRead : string := "client_read".
Definition MetricStageClientWrite : string := "client_write".
Definition MetricStageUpstreamRead : string := "upstream_read".
Definition MetricStageUpstreamWrite : string := "upstream_write".
Definition MetricStageHandlingDelay : string := "handling_delay".
Definition MetricStageClientOverCost : string := "client_over_cost".

Record Transition := MkTransition {
  From : string;
  FromAlt : string;
  To : string
}.

Definition stagesTransitions : gmap string (list Transition) :=
  list_to_map [
    (MetricStageClientRead, [MkTransition StepWroteRequestHeader "" StepReadRequest]);
    (MetricStageUpstreamWrite, [MkTransition StepGotConn "" StepWroteRequestHeader;
                                MkTransition StepReadRequest StepWroteRequestHeader StepWroteRequest]);
    (MetricStageUpstreamRead, [MkTransition StepWroteRequest "" StepGotResponse;
                               MkTransition StepWroteResponseHeader "" StepReadResp]);
    (MetricStageClientWrite, [MkTransition StepGotResponse "" StepWroteResponseHeader;
                              MkTransition StepReadResp "" StepWroteResp])].

Record step := MkStep {
  stepTime : Z;
  step_msg : string
}.

Record RequestTraceInfo := MkTrace {
  tr_startTime : Z;
  tr_endTime : Z;
  tr_steps : list step;
  tr_stageLatency : option (gmap string Z)
}.

Definition tracing_New (now : Z) : RequestTraceInfo := MkTrace now 0 [] None.

(** A step at a time given by an option is recorded with that time. *)
Definition RequestTraceInfo_Step (now : Z) (t : RequestTraceInfo) (msg : string) (timestamp : option Z) : RequestTraceInfo :=
  MkTrace (tr_startTime t) (tr_endTime t) (tr_steps t ++ [MkStep (default now timestamp) msg]) (tr_stageLatency t).

Definition RequestTraceInfo_End (now : Z) (t : RequestTraceInfo) : RequestTraceInfo :=
  MkTrace (tr_startTime t) now (tr_steps t) (tr_stageLatency t).

Definition IfLong (now : Z) (t : RequestTraceInfo) (threshold : Z) : bool := threshold <=? now - tr_startTime t.

Definition stepTimestamp (steps : list step) : gmap string Z :=
  foldl (fun m st => <[step_msg st := stepTime st]> m) ∅ steps.

(** The time a transition took, if both ends were recorded in order. *)
Definition transition_cost (ts : gmap string Z) (trans : Transition) : option Z :=
  let start := match ts !! From trans with Some t => Some t | None => ts !! FromAlt trans end in
  match start, ts !! To trans with
  | Some s, Some e => if e - s <? 0 then None else Some (e - s)
  | _, _ => None
  end.

Definition add_transition (ts : gmap string Z) (stage : string) (acc : gmap string Z * Z) (trans : Transition)
    : gmap string Z * Z :=
  let '(stageLatency, eliminatedLatency) := acc in
  match transition_cost ts trans with
  | None => acc
  | Some cost => (<[stage := default 0 (stageLatency !! stage) + cost]> stageLatency, eliminatedLatency + cost)
  end.

Definition add_stage (ts : gmap string Z) (acc : gmap string Z * Z) (entry : string * list Transition)
    : gmap string Z * Z :=
  let '(stage, transitions) := entry in foldl (add_transition ts stage) acc transitions.

Definition latency_of (m : gmap string Z) (stage : string) : Z := default 0 (m !! stage).

Definition StageLatency `{MapRange} (t : RequestTraceInfo) : RequestTraceInfo * gmap string Z :=
  match tr_stageLatency t with
  | Some l => (t, l)
  | None =>
      let ts := stepTimestamp (tr_steps t) in
      let '(l, eliminatedLatency) := foldl (add_stage ts) (∅, 0) (Range stagesTransitions) in
      let l := <[MetricStageHandlingDelay := tr_endTime t - tr_startTime t - eliminatedLatency]> l in
      let l := <[MetricStageClientOverCost :=
        latency_of l MetricStageClientRead + latency_of l MetricStageClientWrite
        - latency_of l MetricStageUpstreamRead - latency_of l MetricStageUpstreamWrite]> l in
      (MkTrace (tr_startTime t) (tr_endTime t) (tr_steps t) (Some l), l)
  end.

(** The durations [Log] prints: of every step since the one before, and of the
    rest. *)
Fixpoint log_durations (lastStepTime : Z) (endTime : Z) (steps : list step) : list Z :=
  match steps with
  | [] => [endTime - lastStepTime]
  | s :: steps' => stepTime s - lastStepTime :: log_durations (stepTime s) endTime steps'
  end.

Definition RequestTraceInfo_Log (t : RequestTraceInfo) : list Z := log_durations (tr_startTime t) (tr_endTime t) (tr_steps t).

(** * Logs *)

Definition ShortRequestLogThreshold : Z := 5 * Second.
Definition ListRequestLogThreshold : Z := 30 * Second.

Definition LogThreshold `{UnicodeLower} (verb : string) : Z :=
  if Contains (ToLower verb) "list" then ListRequestLogThreshold else ShortRequestLogThreshold.

(** [verbose] is [klog.V(5)]. *)
Definition proxyLogPred `{UnicodeLower} (verbose : bool) (status : Z) (verb : string) (latency : Z) (isLongRunning : bool)
    : bool :=
  if verbose then true
  else if negb isLongRunning && (LogThreshold verb <? latency) then true
  else if isLongRunning && (status =? 0) then false
  else ((status <? 200) || (500 <=? status)) && negb (status =? 101).

(** * Properties *)

(** What the transitions of a stage took together. *)
Definition stage_cost (ts : gmap string Z) (transitions : list Transition) : Z :=
  zsum (fun trans => default 0 (transition_cost ts trans)) transitions.

Lemma transition_cost_nonneg ts trans : 0 <= default 0 (transition_cost ts trans).
Proof.
  unfold transition_cost. repeat case_match; cbn; bool_to_prop; lia.
Qed.

Lemma stage_cost_nonneg ts transitions : 0 <= stage_cost ts transitions.
Proof. apply zsum_nonneg, Forall_forall. intros trans _. apply transition_cost_nonneg. Qed.

Lemma stage_cost_cons ts trans transitions :
  stage_cost ts (trans :: transitions) = default 0 (transition_cost ts trans) + stage_cost ts transitions.
Proof. reflexivity. Qed.

Lemma add_stage_spec ts stage transitions l e l' e' :
  add_stage ts (l, e) (stage, transitions) = (l', e') ->
  e' = e + stage_cost ts transitions /\
  forall s, latency_of l' s = latency_of l s + if decide (s = stage) then stage_cost ts transitions else 0.
Proof.
  cbn. revert l e. induction transitions as [|trans transitions IH]; intros l e.
  - intros [= <- <-]. cbn. split; [lia|]. intros s. case_decide; lia.
  - cbn [foldl]. unfold add_transition at 2. rewrite stage_cost_cons.
    destruct (transition_cost ts trans) as [cost|]; intros Hf; destruct (IH _ _ Hf) as [-> Hs]; cbn [from_option id];
      (split; [lia|]); intros s; rewrite Hs; unfold latency_of; destruct (decide (s = stage)) as [->|Hne].
    + rewrite lookup_insert_eq. cbn. lia.
    + by rewrite lookup_insert_ne.
    + lia.
    + lia.
Qed.

Lemma add_stages_spec ts entries l e l' e' :
  foldl (add_stage ts) (l, e) entries = (l', e') ->
  e' = e + zsum (fun entry => stage_cost ts entry.2) entries /\
  forall s, latency_of l' s = latency_of l s + zsum (fun entry => if decide (s = entry.1) then stage_cost ts entry.2 else 0) entries.
Proof.
  revert l e. induction entries as [|[stage transitions] entries IH]; intros l e; cbn [foldl].
  - intros [= <- <-]. cbn. split; [lia|]. intros s. lia.
  - destruct (add_stage ts (l, e) (stage, transitions)) as [l1 e1] eqn:E.
    apply add_stage_spec in E as [-> Hs]. intros Hf. destruct (IH _ _ Hf) as [-> Hs']. rewrite zsum_cons. cbn [snd].
    split; [lia|]. intros s. rewrite Hs', Hs, zsum_cons. cbn [fst snd]. lia.
Qed.

Lemma stages_listed : map_to_list stagesTransitions ≡ₚ
  [(MetricStageClientRead, [MkTransition StepWroteRequestHeader "" StepReadRequest]);
   (MetricStageUpstreamWrite, [MkTransition StepGotConn "" StepWroteRequestHeader;
                               MkTransition StepReadRequest StepWroteRequestHeader StepWroteRequest]);
   (MetricStageUpstreamRead, [MkTransition StepWroteRequest "" StepGotResponse;
                              MkTransition StepWroteResponseHeader "" StepReadResp]);
   (MetricStageClientWrite, [MkTransition StepGotResponse "" StepWroteResponseHeader;
                             MkTransition StepReadResp "" StepWroteResp])].
Proof. apply map_to_list_to_map. apply (bool_decide_unpack _). vm_compute. exact I. Qed.

(** The latency of a stage, by its transitions. *)
Definition stage_spec (ts : gmap string Z) (stage : string) : Z :=
  stage_cost ts (default [] (stagesTransitions !! stage)).

(** The sum over the entries of a map under one key. *)
Lemma zsum_lookup {V} (f : V -> Z) (m : gmap string V) s :
  zsum (fun entry => if decide (s = entry.1) then f entry.2 else 0) (map_to_list m) = from_option f 0 (m !! s).
Proof.
  induction m as [|k v m Hk IH] using map_ind; [by rewrite map_to_list_empty, lookup_empty|].
  rewrite map_to_list_insert, zsum_cons, IH by done. cbn [fst snd]. destruct (decide (s = k)) as [->|Hne].
  - rewrite lookup_insert_eq, Hk. cbn. lia.
  - by rewrite lookup_insert_ne.
Qed.

Lemma zsum_lookup_default ts s :
  zsum (fun entry => if decide (s = entry.1) then stage_cost ts entry.2 else 0) (map_to_list stagesTransitions) =
  stage_cost ts (default [] (stagesTransitions !! s)).
Proof. rewrite zsum_lookup. by destruct (stagesTransitions !! s). Qed.

Lemma stage_specs ts :
  zsum (fun entry => stage_cost ts entry.2) (map_to_list stagesTransitions) =
  stage_spec ts MetricStageClientRead + stage_spec ts MetricStageClientWrite + stage_spec ts MetricStageUpstreamRead +
  stage_spec ts MetricStageUpstreamWrite.
Proof.
  unfold stage_spec. rewrite <- !(zsum_lookup_default ts). rewrite !stages_listed, !zsum_cons. cbn [fst snd].
  repeat first [rewrite decide_True by reflexivity|rewrite decide_False by discriminate]. cbn [zsum foldr]. lia.
Qed.

Section trace_lemmas.
Context `{MapRange}.

(** The time of a request is divided without loss: the latencies of the
    four stages and the handling delay add up to the time from start to end,
    in whatever order the stages are visited; the latency of a stage is that
    of its transitions, never negative, and asking again gives the same. *)
Theorem latency_accounts t t' l :
  tr_stageLatency t = None -> StageLatency t = (t', l) ->
  let ts := stepTimestamp (tr_steps t) in
  latency_of l MetricStageClientRead + latency_of l MetricStageClientWrite + latency_of l MetricStageUpstreamRead +
    latency_of l MetricStageUpstreamWrite + latency_of l MetricStageHandlingDelay = tr_endTime t - tr_startTime t /\
  (forall stage, stage ∈ [MetricStageClientRead; MetricStageClientWrite; MetricStageUpstreamRead; MetricStageUpstreamWrite] ->
     latency_of l stage = stage_spec ts stage /\ 0 <= latency_of l stage) /\
  StageLatency t' = (t', l).
Proof.
  intros Hnone. unfold StageLatency at 1. rewrite Hnone.
  destruct (foldl _ _ (Range stagesTransitions)) as [l0 e] eqn:E. apply add_stages_spec in E as [He Hs].
  intros [= <- <-]. cbv zeta. set (ts := stepTimestamp (tr_steps t)) in *.
  assert (forall stage, stage <> MetricStageHandlingDelay -> stage <> MetricStageClientOverCost ->
    forall x y, latency_of (<[MetricStageClientOverCost := x]> (<[MetricStageHandlingDelay := y]> l0)) stage = latency_of l0 stage) as Hl.
  { intros stage Hne1 Hne2 x y. unfold latency_of. by rewrite !lookup_insert_ne. }
  assert (forall s, latency_of l0 s = zsum (fun entry => if decide (s = entry.1) then stage_cost ts entry.2 else 0)
    (map_to_list stagesTransitions)) as Hs'.
  { intros s. rewrite Hs, Range_perm. unfold latency_of. by rewrite lookup_empty. }
  rewrite Range_perm, stage_specs in He. subst e.
  assert (forall s, latency_of l0 s = stage_spec ts s) as Heq by (intros s; rewrite Hs'; apply zsum_lookup_default).
  split_and!; [| |done].
  - rewrite !Hl, !Heq by done. unfold latency_of at 1. rewrite lookup_insert_ne, lookup_insert_eq by done. cbn. lia.
  - intros stage Hin.
    assert (stage <> MetricStageHandlingDelay /\ stage <> MetricStageClientOverCost) as [Hd Ho]
      by (apply list_elem_of_In in Hin; by destruct Hin as [<-|[<-|[<-|[<-|[]]]]]).
    rewrite Hl, Heq by done. split; [done|]. apply stage_cost_nonneg.
Qed.

(** The durations in the log of a trace add up to its time. *)
Lemma log_durations_sum t : zsum (fun d => d) (RequestTraceInfo_Log t) = tr_endTime t - tr_startTime t.
Proof.
  unfold RequestTraceInfo_Log. generalize (tr_startTime t). induction (tr_steps t) as [|s steps IH]; intros z; cbn [log_durations];
    rewrite zsum_cons; [cbn; lia|]. rewrite IH. lia.
Qed.
End trace_lemmas.

(** * Examples *)

Module TracingExample.
#[local] Existing Instance sorted_range.

(** A request without a body: its header is the start of the write. *)
Definition traced : RequestTraceInfo :=
  MkTrace 100 200
    [MkStep 110 StepGotConn; MkStep 115 StepWroteRequestHeader; MkStep 120 StepWroteRequest; MkStep 160 StepGotResponse;
     MkStep 165 StepWroteResponseHeader; MkStep 170 StepReadResp; MkStep 190 StepWroteResp] None.

Lemma latency_accounts_witness :
  let l := (StageLatency traced).2 in
  latency_of l MetricStageUpstreamRead = 45 /\ latency_of l MetricStageHandlingDelay = 20 /\
  latency_of l MetricStageClientRead + latency_of l MetricStageClientWrite + latency_of l MetricStageUpstreamRead +
    latency_of l MetricStageUpstreamWrite + latency_of l MetricStageHandlingDelay = 100.
Proof.
  intros l. split; [vm_compute; reflexivity|]. split; [vm_compute; reflexivity|].
  refine (proj1 (latency_accounts traced (StageLatency traced).1 l _ _)).
  - reflexivity.
  - apply surjective_pairing.
Defined.
End TracingExample.
