(* ===== verification/Registry.v ===== *)
(** The storage of the API server of the gateway
    ([staging/src/github.com/kubewharf/apiserver-runtime/pkg/registry],
    [pkg/server/storage], [pkg/schema] and
    [pkg/gateway/controlplane/registry/proxy/rest]): what is kept of an object
    on creation and on updates, where it is kept, and the options of a
    resource.

    The registry of k8s.io/apiserver that calls the strategies, the encoding
    configuration and the scheme are parameters. *)
From stdpp Require Import base tactics list strings gmap.
From Stdlib Require Import ZArith Lia Ascii.
From S2P Require Import Prelude.

Local Open Scope Z_scope.
Local Open Scope go_scope.

(** * Strategies *)

(** An object with metadata, a specification and, where its type has one, a
    status; [so_address] is the pointer to it. *)
Record stored_object (S T : Type) := MkStored {
  so_address : Z;
  so_generation : Z;
  so_labels : gmap string string;
  so_annotations : gmap string string;
  so_spec : S;
  so_status : option T
}.
Arguments MkStored {S T}. Arguments so_address {S T}. Arguments so_generation {S T}. Arguments so_labels {S T}.
Arguments so_annotations {S T}. Arguments so_spec {S T}. Arguments so_status {S T}.

Record DefaultRESTStrategy := MkStrategy {
  rst_namespaced : bool;
  rst_subStatus : bool
}.

Definition NewDefaultRESTStrategy (namespaced subStatus : bool) : DefaultRESTStrategy := MkStrategy namespaced subStatus.

Section strategies.
Context {S T : Type} (zero_status : T).

(** What [rest.BeforeUpdate] of k8s.io/apiserver hands to the strategy. *)
Context (BeforeUpdate : stored_object S T -> stored_object S T -> stored_object S T).
Implicit Types obj old : stored_object S T.

Definition so_with_generation obj (g : Z) : stored_object S T :=
  MkStored (so_address obj) g (so_labels obj) (so_annotations obj) (so_spec obj) (so_status obj).
Definition so_with_labels obj (l : gmap string string) : stored_object S T :=
  MkStored (so_address obj) (so_generation obj) l (so_annotations obj) (so_spec obj) (so_status obj).
Definition so_with_spec obj (s : S) : stored_object S T :=
  MkStored (so_address obj) (so_generation obj) (so_labels obj) (so_annotations obj) s (so_status obj).
Definition so_with_status obj (t : option T) : stored_object S T :=
  MkStored (so_address obj) (so_generation obj) (so_labels obj) (so_annotations obj) (so_spec obj) t.

Definition HasStatus obj : bool := bool_decide (is_Some (so_status obj)).

Definition PrepareForCreate (s : DefaultRESTStrategy) obj : stored_object S T :=
  let obj := if rst_subStatus s && HasStatus obj then so_with_status obj (Some zero_status) else obj in
  so_with_generation obj 1.

(** [reflect.DeepEqual] of two [reflect.Value]s compares the pointers in them:
    the fields of two objects are equal exactly if the objects are the same. *)
Definition spec_values_equal obj old : bool := so_address obj =? so_address old.

Definition PrepareForUpdate (s : DefaultRESTStrategy) obj old : stored_object S T :=
  if HasStatus obj then
    let obj := if rst_subStatus s then so_with_status obj (so_status old) else obj in
    if negb (spec_values_equal obj old) || negb (bool_decide (so_annotations obj = so_annotations old))
    then so_with_generation obj (so_generation old + 1) else obj
  else obj.

(** Of the status strategy. *)
Definition status_PrepareForUpdate obj old : stored_object S T :=
  if HasStatus obj then so_with_labels (so_with_spec obj (so_spec old)) (so_labels old) else obj.

(** ** A resource *)

Inductive write := WriteObject (obj : stored_object S T) | WriteStatus (obj : stored_object S T).

Definition written (w : write) : stored_object S T := match w with WriteObject obj | WriteStatus obj => obj end.

(** A write of a client: to the resource, or to its subresource [status]. *)
Definition apply_write (s : DefaultRESTStrategy) old (w : write) : stored_object S T :=
  match w with
  | WriteObject obj => PrepareForUpdate s (BeforeUpdate obj old) old
  | WriteStatus obj => status_PrepareForUpdate (BeforeUpdate obj old) old
  end.

(** What clients last asked for. *)
Definition last_spec (s : S) (w : write) : S := match w with WriteObject obj => so_spec obj | WriteStatus _ => s end.
Definition last_status (t : option T) (w : write) : option T :=
  match w with WriteObject _ => t | WriteStatus obj => so_status obj end.
Definition last_labels (l : gmap string string) (w : write) : gmap string string :=
  match w with WriteObject obj => so_labels obj | WriteStatus _ => l end.
Definition object_writes (ws : list write) : Z :=
  zsum (fun w => match w with WriteObject _ => 1 | WriteStatus _ => 0 end) ws.

(** An update starts with the generation of the stored object. *)
Definition keeps_generation : Prop :=
  forall obj old, BeforeUpdate obj old = so_with_generation obj (so_generation old).

Lemma apply_write_spec s old w :
  keeps_generation ->
  rst_subStatus s = true -> is_Some (so_status old) -> is_Some (so_status (written w)) ->
  so_address (written w) <> so_address old ->
  let new := apply_write s old w in
  so_address new = so_address (written w) /\ so_spec new = last_spec (so_spec old) w /\
  so_status new = last_status (so_status old) w /\ so_labels new = last_labels (so_labels old) w /\
  so_annotations new = so_annotations (written w) /\ so_generation new = so_generation old + object_writes [w].
Proof.
  intros HB Hs Hold Hw Hne. destruct w as [obj|obj]; cbn [written] in Hw, Hne; cbn [apply_write]; rewrite HB.
  - unfold PrepareForUpdate, HasStatus. cbn. rewrite bool_decide_eq_true_2, Hs by done.
    unfold spec_values_equal. cbn. rewrite (proj2 (Z.eqb_neq _ _) Hne). cbn. split_and!; try done.
  - unfold status_PrepareForUpdate, HasStatus. cbn. rewrite bool_decide_eq_true_2 by done. split_and!; try done. cbn. lia.
Qed.

(** The pointers of the objects of successive writes differ, each from the one
    stored before. *)
Fixpoint fresh_writes (a : Z) (ws : list write) : Prop :=
  match ws with
  | [] => True
  | w :: ws' => so_address (written w) <> a /\ is_Some (so_status (written w)) /\ fresh_writes (so_address (written w)) ws'
  end.

Lemma writes_spec s old ws :
  keeps_generation ->
  rst_subStatus s = true -> is_Some (so_status old) -> fresh_writes (so_address old) ws ->
  let final := foldl (apply_write s) old ws in
  so_spec final = foldl last_spec (so_spec old) ws /\ so_status final = foldl last_status (so_status old) ws /\
  so_labels final = foldl last_labels (so_labels old) ws /\ so_generation final = so_generation old + object_writes ws.
Proof.
  intros HB Hs. revert old. induction ws as [|w ws IH]; intros old Hst Hf; cbn [foldl]; [split_and!; try done; cbn; lia|].
  destruct Hf as (Hne & Hw & Hf). destruct (apply_write_spec s old w HB Hs Hst Hw Hne) as (Ha & Hsp & Hstt & Hl & _ & Hg).
  destruct (IH (apply_write s old w)) as (I1 & I2 & I3 & I4).
  - rewrite Hstt. by destruct w.
  - by rewrite Ha.
  - cbv zeta in *. rewrite I1, I2, I3, I4, Hsp, Hstt, Hl, Hg. unfold object_writes. rewrite !zsum_cons. cbn. split_and!; try done. lia.
Qed.

End strategies.

(** * Where objects are kept *)

Record GroupResource := MkGroupResource { gr_Group : string; gr_Resource : string }.

#[export] Instance GroupResource_eq_dec : EqDecision GroupResource.
Proof. solve_decision. Defined.

Section prefixes.
Context `{UnicodeLower}.

(** [IsProtectedCommunityGroup] of apiextensions, and [ResourcePrefix] of the
    storage factory of k8s.io/apiserver. *)
Context (IsProtectedCommunityGroup : string -> bool) (default_ResourcePrefix : GroupResource -> string).

Definition IsProtectedGroup (group : string) : bool := bool_decide (group = "") || IsProtectedCommunityGroup group.

Definition ResourcePrefix (g : GroupResource) : string :=
  let resourcePrefix := default_ResourcePrefix g in
  if IsProtectedGroup (gr_Group g) then resourcePrefix
  else if decide (resourcePrefix = ToLower (gr_Resource g)) then gr_Group g +:+ "/" +:+ resourcePrefix
  else resourcePrefix.

Definition no_slash (s : string) : Prop := Contains s "/" = false.

Lemma slash_split a b c d :
  no_slash a -> no_slash c -> a +:+ String "/"%char b = c +:+ String "/"%char d -> a = c /\ b = d.
Proof.
  unfold no_slash. revert c. induction a as [|x a IH]; intros [|y c] Ha Hc Heq.
  - by injection Heq.
  - injection Heq as <- _. rewrite Contains_char_cons in Hc. by rewrite bool_decide_eq_true_2 in Hc.
  - injection Heq as -> _. rewrite Contains_char_cons in Ha. by rewrite bool_decide_eq_true_2 in Ha.
  - rewrite Contains_char_cons in Ha, Hc. apply orb_false_iff in Ha as [_ Ha], Hc as [_ Hc].
    injection Heq as -> Heq. destruct (IH c Ha Hc Heq) as [-> ->]. done.
Qed.

Lemma slash_contained a b : Contains (a +:+ String "/"%char b) "/" = true.
Proof.
  induction a as [|x a IH].
  - change ("" +:+ String "/"%char b) with (String "/"%char b). rewrite Contains_char_cons. by rewrite bool_decide_eq_true_2.
  - change (String x a +:+ String "/"%char b) with (String x (a +:+ String "/"%char b)).
    rewrite Contains_char_cons, IH. apply orb_true_r.
Qed.

(** Different resources of groups outside Kubernetes are kept under
    different prefixes, and not under one of a resource of Kubernetes, where
    the factory has no prefix of its own for them. *)
Theorem prefixes_distinct g g' :
  default_ResourcePrefix g = ToLower (gr_Resource g) -> default_ResourcePrefix g' = ToLower (gr_Resource g') ->
  IsProtectedGroup (gr_Group g) = false ->
  no_slash (gr_Group g) -> no_slash (gr_Group g') -> no_slash (ToLower (gr_Resource g')) ->
  ResourcePrefix g = ResourcePrefix g' ->
  gr_Group g = gr_Group g' /\ ToLower (gr_Resource g) = ToLower (gr_Resource g').
Proof.
  intros He He' Hp Hs Hs' Hr. unfold ResourcePrefix. rewrite He, He', Hp.
  rewrite !decide_True by done. destruct (IsProtectedGroup (gr_Group g')) eqn:Hp'.
  - intros Heq. exfalso. rewrite <- Heq in Hr.
    pose proof (slash_contained (gr_Group g) (ToLower (gr_Resource g))) as Hc. unfold no_slash in Hr.
    change (Contains (gr_Group g +:+ "/" +:+ ToLower (gr_Resource g)) "/" = true) in Hc. rewrite Hc in Hr. done.
  - apply slash_split; done.
Qed.
End prefixes.

(** * Options *)

Record GroupVersion := MkGroupVersion { gv_Group : string; gv_Version : string }.

Record GroupVersionKindResource := MkGVKR {
  gvkr_Group : string;
  gvkr_Version : string;
  gvkr_Kind : string;
  gvkr_Resource : string
}.

#[export] Instance GVKR_eq_dec : EqDecision GroupVersionKindResource.
Proof. solve_decision. Defined.
#[export] Instance GVKR_countable : Countable GroupVersionKindResource.
Proof.
  refine (inj_countable' (fun g => (gvkr_Group g, gvkr_Version g, gvkr_Kind g, gvkr_Resource g))
    (fun '(g, v, k, r) => MkGVKR g v k r) _). by intros [].
Defined.

Definition gvkr_GroupResource (g : GroupVersionKindResource) : GroupResource := MkGroupResource (gvkr_Group g) (gvkr_Resource g).
Definition gvkr_GroupVersion (g : GroupVersionKindResource) : GroupVersion := MkGroupVersion (gvkr_Group g) (gvkr_Version g).

(** The names of the fields that are required. *)
Definition gvkr_Validate (g : GroupVersionKindResource) : list string :=
  (if decide (gvkr_Group g = "") then ["Group"] else []) ++ (if decide (gvkr_Version g = "") then ["Version"] else []) ++
  (if decide (gvkr_Kind g = "") then ["Kind"] else []) ++ (if decide (gvkr_Resource g = "") then ["Resource"] else []).

(** The functions that make the stores of other subresources are left out: no
    resource of the gateway has one. *)
Record RESTStorageOptions := MkOptions {
  op_GVKR : GroupVersionKindResource;
  op_ListKind : string;
  op_ShortNames : list string;
  op_RESTStrategy : DefaultRESTStrategy;
  op_HubGroupVersion : GroupVersion;
  op_SubStatus : bool
}.

Record groupResourceOverrides := MkOverrides {
  ov_shortNames : list string;
  ov_restStrategy : option DefaultRESTStrategy
}.

Definition no_overrides : groupResourceOverrides := MkOverrides [] None.

Definition Apply (o : groupResourceOverrides) (i : RESTStorageOptions) : RESTStorageOptions :=
  MkOptions (op_GVKR i) (op_ListKind i) (if decide (ov_shortNames o = []) then op_ShortNames i else ov_shortNames o)
    (default (op_RESTStrategy i) (ov_restStrategy o)) (op_HubGroupVersion i) (op_SubStatus i).

(** [DefaultResourceEncodingConfig] of k8s.io/apiserver. *)
Class EncodingConfig := {
  encoding : Type;
  SetResourceEncoding : encoding -> GroupResource -> GroupVersion -> GroupVersion -> encoding;
  default_InMemoryEncodingFor : encoding -> GroupResource -> string + GroupVersion;
  group_registered : string -> bool;
  encoding_set : forall e gr ext int, group_registered (gr_Group gr) = true ->
    default_InMemoryEncodingFor (SetResourceEncoding e gr ext int) gr = inr int;
  encoding_other : forall e gr gr' ext int, gr' <> gr ->
    default_InMemoryEncodingFor (SetResourceEncoding e gr ext int) gr' = default_InMemoryEncodingFor e gr'
}.

Section options.
Context `{EncodingConfig}.

(** The types the scheme knows of a version. *)
Context (KnownTypes : GroupVersion -> list string).

Definition APIVersionInternal : string := "__internal".

(** Whether nothing but watch events is registered. *)
Definition isInternalVersionRegistered (gv : GroupVersion) : bool :=
  bool_decide (filter (fun k => k <> "WatchEvent") (KnownTypes gv) = []).

Definition InMemoryEncodingFor (e : encoding) (gr : GroupResource) : string + GroupVersion :=
  match default_InMemoryEncodingFor e gr with
  | inl err => inl err
  | inr gv =>
      if bool_decide (gv_Version gv = APIVersionInternal) && isInternalVersionRegistered gv
      then inl "groupVersion is not registered in scheme" else inr gv
  end.

Record RESTStorageOptionsFactory := MkFactory {
  fa_encoding : encoding;
  fa_overrides : gmap GroupVersionKindResource groupResourceOverrides
}.

Definition overrides_of (f : RESTStorageOptionsFactory) (g : GroupVersionKindResource) : groupResourceOverrides :=
  default no_overrides (fa_overrides f !! g).

Definition newRESTStorageOptions (g : GroupVersionKindResource) : RESTStorageOptions :=
  MkOptions g (gvkr_Kind g +:+ "List") [] (NewDefaultRESTStrategy true true) (MkGroupVersion "" "") false.

Definition GetRESTStorageOptions (f : RESTStorageOptionsFactory) (g : GroupVersionKindResource)
    : string + RESTStorageOptions :=
  if decide (gvkr_Validate g = []) then
    match InMemoryEncodingFor (fa_encoding f) (gvkr_GroupResource g) with
    | inl err => inl err
    | inr hubGV =>
        let o := newRESTStorageOptions g in
        inr (Apply (overrides_of f g)
               (MkOptions (op_GVKR o) (op_ListKind o) (op_ShortNames o) (op_RESTStrategy o) hubGV (op_SubStatus o)))
    end
  else inl "required".

Definition SetShortName (f : RESTStorageOptionsFactory) (g : GroupVersionKindResource) (names : list string)
    : RESTStorageOptionsFactory :=
  MkFactory (fa_encoding f) (<[g := MkOverrides names (ov_restStrategy (overrides_of f g))]> (fa_overrides f)).

Definition SetRESTStrategy (f : RESTStorageOptionsFactory) (g : GroupVersionKindResource) (s : DefaultRESTStrategy)
    : RESTStorageOptionsFactory :=
  MkFactory (fa_encoding f) (<[g := MkOverrides (ov_shortNames (overrides_of f g)) (Some s)]> (fa_overrides f)).

Definition SetHubGroupVersion (f : RESTStorageOptionsFactory) (g : GroupVersionKindResource) (hub : GroupVersion)
    : RESTStorageOptionsFactory :=
  MkFactory (SetResourceEncoding (fa_encoding f) (gvkr_GroupResource g) (gvkr_GroupVersion g) hub) (fa_overrides f).

(** ** The resources of the gateway *)

Definition SchemeGroupVersion : GroupVersion := MkGroupVersion "proxy.kubegateway.io" "v1alpha1".

Definition resource_gvkr (kind resource : string) : GroupVersionKindResource :=
  MkGVKR (gv_Group SchemeGroupVersion) (gv_Version SchemeGroupVersion) kind resource.

Definition resource_option (f : RESTStorageOptionsFactory) (kind resource : string) (s : DefaultRESTStrategy)
    : RESTStorageOptionsFactory * (string + RESTStorageOptions) :=
  let g := resource_gvkr kind resource in
  let f := SetHubGroupVersion f g (gvkr_GroupVersion g) in
  let f := SetRESTStrategy f g s in
  (f, GetRESTStorageOptions f g).

Definition newUpstreamClusterOption (f : RESTStorageOptionsFactory)
    : RESTStorageOptionsFactory * (string + RESTStorageOptions) :=
  let '(f, o) := resource_option f "UpstreamCluster" "upstreamclusters" (NewDefaultRESTStrategy false true) in
  (f, match o with
      | inl e => inl e
      | inr o => inr (MkOptions (op_GVKR o) (op_ListKind o) (op_ShortNames o) (op_RESTStrategy o) (op_HubGroupVersion o) true)
      end).

Definition newRateLimitConditionOption (f : RESTStorageOptionsFactory)
    : RESTStorageOptionsFactory * (string + RESTStorageOptions) :=
  resource_option f "RateLimitCondition" "ratelimitconditions" (NewDefaultRESTStrategy false false).

Definition NewRESTStorageProvider (f : RESTStorageOptionsFactory)
    : RESTStorageOptionsFactory * (string + list RESTStorageOptions) :=
  match newUpstreamClusterOption f with
  | (f, inl e) => (f, inl e)
  | (f, inr u) =>
      match newRateLimitConditionOption f with
      | (f, inl e) => (f, inl e)
      | (f, inr r) => (f, inr [u; r])
      end
  end.

(** What was set for a resource is what its options have. *)
Lemma options_set f kind resource s :
  group_registered (gv_Group SchemeGroupVersion) = true -> kind <> "" -> resource <> "" ->
  (resource_option f kind resource s).2 =
  inr (MkOptions (resource_gvkr kind resource) (kind +:+ "List") (ov_shortNames (overrides_of f (resource_gvkr kind resource)))
         s SchemeGroupVersion false).
Proof.
  intros Hreg Hk Hr. unfold resource_option, GetRESTStorageOptions. cbn [fst snd].
  assert (gvkr_Validate (resource_gvkr kind resource) = []) as Hval.
  { unfold gvkr_Validate. cbn. by rewrite !decide_False. }
  rewrite decide_True by done. unfold InMemoryEncodingFor. cbn [fa_encoding SetRESTStrategy SetHubGroupVersion].
  rewrite encoding_set by done. rewrite (bool_decide_eq_false_2 (gv_Version _ = APIVersionInternal)) by discriminate. cbn [andb].
  unfold Apply, overrides_of. cbn. rewrite lookup_insert_eq. cbn. unfold overrides_of. cbn.
  case_decide as Hn; [by rewrite Hn|done].
Qed.

(** The API server of the gateway has two resources, whatever was set
    before: upstream clusters, which are not namespaced and have a status of
    their own, and rate limit conditions, whose status is written with them;
    both are kept in the version they are served in. *)
Theorem gateway_resources f :
  group_registered (gv_Group SchemeGroupVersion) = true ->
  exists f' u r, NewRESTStorageProvider f = (f', inr [u; r]) /\
    (gvkr_Resource (op_GVKR u) = "upstreamclusters" /\ op_ListKind u = "UpstreamClusterList" /\
     op_RESTStrategy u = MkStrategy false true /\ op_SubStatus u = true) /\
    (gvkr_Resource (op_GVKR r) = "ratelimitconditions" /\ op_ListKind r = "RateLimitConditionList" /\
     op_RESTStrategy r = MkStrategy false false /\ op_SubStatus r = false) /\
    Forall (fun o => op_HubGroupVersion o = gvkr_GroupVersion (op_GVKR o)) [u; r].
Proof.
  intros Hreg. unfold NewRESTStorageProvider, newUpstreamClusterOption, newRateLimitConditionOption.
  pose proof (options_set f "UpstreamCluster" "upstreamclusters" (NewDefaultRESTStrategy false true)
    Hreg ltac:(discriminate) ltac:(discriminate)) as Hu.
  destruct (resource_option f _ _ _) as [f1 o1]. cbn in Hu. subst o1.
  pose proof (options_set f1 "RateLimitCondition" "ratelimitconditions" (NewDefaultRESTStrategy false false)
    Hreg ltac:(discriminate) ltac:(discriminate)) as Hr.
  destruct (resource_option f1 _ _ _) as [f2 o2]. cbn in Hr. subst o2.
  do 3 eexists. split; [reflexivity|]. split_and!; try done. by repeat constructor.
Qed.
End options.

(** * Examples *)

Module RegistryExample.
Definition object (a : Z) (spec status : string) : stored_object string string := MkStored a 0 ∅ ∅ spec (Some status).

Definition before_update (obj old : stored_object string string) : stored_object string string :=
  so_with_generation obj (so_generation old).


#[local] Existing Instance ascii_only_lower.

Lemma prefixes_distinct_witness :
  ResourcePrefix (fun _ => false) (fun g => ToLower (gr_Resource g)) (MkGroupResource "proxy.kubegateway.io" "upstreamclusters") <>
  ResourcePrefix (fun _ => false) (fun g => ToLower (gr_Resource g)) (MkGroupResource "" "secrets").
Proof.
  intros Heq. destruct (prefixes_distinct (fun _ => false) (fun g => ToLower (gr_Resource g)) (MkGroupResource "proxy.kubegateway.io" "upstreamclusters")
    (MkGroupResource "" "secrets")) as [Hg _]; try reflexivity; [exact Heq|discriminate Hg].
Defined.
End RegistryExample.
