(* ===== verification/Metrics.v ===== *)
(** Metrics of the proxy ([pkg/gateway/metrics]) and the monitor of a proxied
    request ([pkg/gateway/proxy/dispatcher/proxylog.go]): which series an event
    changes, under which labels.

    What a metric vector of Prometheus does with an operation is not part of
    the repository: the observers are modelled by the operations they ask
    for. *)
From stdpp Require Import base tactics list strings gmap pretty.
From Stdlib Require Import ZArith SpecFloat Lia Ascii.
From S2P Require Import Prelude Http Float64 ApiTypes Clusters Controller Impersonation Dispatcher Tracing.

Local Open Scope Z_scope.

(** [strings.ToUpper], bytewise on ASCII. *)
Definition upper_byte (a : ascii) : ascii :=
  if (97 <=? byte a) && (byte a <=? 122) then of_byte (byte a - 32) else a.

Class UnicodeUpper := { unicode_upper : string -> string }.

Definition ToUpper `{UnicodeUpper} (s : string) : string :=
  if is_ascii s then string_map upper_byte s else unicode_upper s.

(** * What is reported *)

(** Of [RequestInfo] of k8s.io/apiserver. *)
Record request_info := MkRequestInfo {
  rqi_IsResourceRequest : bool;
  rqi_Path : string;
  rqi_Verb : string;
  rqi_Namespace : string;
  rqi_Resource : string;
  rqi_Subresource : string;
  rqi_Name : string
}.

(** Of the HTTP request: the values of the query [watch] and the content type
    decide how a verb is reported. *)
Record metric_request := MkMetricRequest {
  mr_Method : string;
  mr_Path : string;
  mr_Host : string;
  mr_watch : list string;
  mr_ContentType : string
}.

(** The fields an observer of the repository reads. *)
Record MetricInfo := MkMetricInfo {
  mi_ServerName : string;
  mi_Endpoint : string;
  mi_FlowControl : string;
  mi_Verb : string;
  mi_Resource : string;
  mi_HttpCode : string;
  mi_Path : string;
  mi_Reason : string;
  mi_UserName : string;
  mi_IsLongRunning : bool;
  mi_RequestSize : Z;
  mi_ResponseSize : Z;
  mi_Latency : float64;
  mi_Rate : float64;
  mi_Inflight : float64;
  mi_TraceLatencies : gmap string Z;
  mi_Method : string;
  mi_Result : string;
  mi_LimitMethod : string;
  mi_Type : string
}.

Definition zero : float64 := S754_zero false.

(** A metric with nothing but labels that most metrics have. *)
Definition labelled (serverName endpoint flowControl verb resource : string) : MetricInfo := {|
  mi_ServerName := serverName; mi_Endpoint := endpoint; mi_FlowControl := flowControl; mi_Verb := verb;
  mi_Resource := resource; mi_HttpCode := ""; mi_Path := ""; mi_Reason := ""; mi_UserName := "";
  mi_IsLongRunning := false; mi_RequestSize := 0; mi_ResponseSize := 0; mi_Latency := zero; mi_Rate := zero;
  mi_Inflight := zero; mi_TraceLatencies := ∅; mi_Method := ""; mi_Result := ""; mi_LimitMethod := ""; mi_Type := ""
|}.

(** * Observers *)

(** The metric vectors, by the names of their variables, with their types and
    the labels they are declared with. *)
Inductive metric_vec :=
  | proxyReceiveRequestCounter | proxyRequestCounter | proxyUserRequestCounter | proxyUserRequestLoad
  | proxyRequestLatencies | proxyRequestUserLatencies | proxyResponseSizes | proxyUpstreamUnhealthy
  | proxyRequestTerminationsTotal | proxyRequestUserTerminations | proxyRegisteredWatchers
  | proxyRateLimiterRequestCounter | proxyGlobalFlowControlRequestCounter | proxyRequestInflight
  | proxyRequestRate | proxyRequestTotalDataSize | proxyRequestUserDataSize | proxyHandlingLatencies
  | proxyUserClientOverCostLatencies.

#[export] Instance metric_vec_eq_dec : EqDecision metric_vec.
Proof. solve_decision. Defined.

Inductive vec_type := CounterVec | GaugeVec | HistogramVec.

(** The name comes after [kubegateway_proxy_]; help texts and the buckets of
    histograms decide nothing here. *)
Record declaration := MkDeclared { de_type : vec_type; de_Name : string; de_labels : list string }.

Definition vec_declared (v : metric_vec) : declaration :=
  match v with
  | proxyReceiveRequestCounter =>
      MkDeclared CounterVec "received_apiserver_request_total" ["pid"; "serverName"; "verb"; "resource"]
  | proxyRequestCounter =>
      MkDeclared CounterVec "apiserver_request_total" ["pid"; "serverName"; "endpoint"; "verb"; "resource"; "code"; "flowcontrol"]
  | proxyUserRequestCounter =>
      MkDeclared CounterVec "apiserver_request_total_with_user" ["serverName"; "verb"; "resource"; "code"; "flowcontrol"; "user"]
  | proxyUserRequestLoad =>
      MkDeclared CounterVec "apiserver_request_load_with_user" ["serverName"; "verb"; "resource"; "code"; "flowcontrol"; "user"]
  | proxyRequestLatencies =>
      MkDeclared HistogramVec "apiserver_request_duration_seconds" ["pid"; "serverName"; "endpoint"; "verb"; "resource"]
  | proxyRequestUserLatencies =>
      MkDeclared HistogramVec "apiserver_request_duration_seconds_with_user" ["serverName"; "verb"; "resource"; "flowcontrol"; "user"; "priority"]
  | proxyResponseSizes =>
      MkDeclared HistogramVec "apiserver_response_sizes" ["pid"; "serverName"; "endpoint"; "verb"; "resource"]
  | proxyUpstreamUnhealthy =>
      MkDeclared CounterVec "upstream_unhealthy" ["pid"; "serverName"; "endpoint"; "reason"]
  | proxyRequestTerminationsTotal =>
      MkDeclared CounterVec "apiserver_request_terminations_total" ["pid"; "serverName"; "verb"; "code"; "reason"; "resource"; "flowcontrol"]
  | proxyRequestUserTerminations =>
      MkDeclared CounterVec "apiserver_request_terminations_total_with_user" ["serverName"; "verb"; "code"; "reason"; "resource"; "flowcontrol"; "user"]
  | proxyRegisteredWatchers =>
      MkDeclared GaugeVec "apiserver_registered_watchers" ["pid"; "serverName"; "endpoint"; "resource"]
  | proxyRateLimiterRequestCounter =>
      MkDeclared CounterVec "ratelimter_request_total" ["pid"; "serverName"; "method"; "result"; "flowcontrol"]
  | proxyGlobalFlowControlRequestCounter =>
      MkDeclared CounterVec "global_flowcontrol_acquire_total" ["pid"; "serverName"; "type"; "limitMethod"; "flowcontrol"]
  | proxyRequestInflight =>
      MkDeclared GaugeVec "http_request_inflight" ["pid"]
  | proxyRequestRate =>
      MkDeclared GaugeVec "http_request_rate" ["pid"]
  | proxyRequestTotalDataSize =>
      MkDeclared GaugeVec "http_data_size_bytes_total" ["pid"; "type"]
  | proxyRequestUserDataSize =>
      MkDeclared GaugeVec "http_data_size_bytes_with_user" ["type"; "serverName"; "verb"; "resource"; "flowcontrol"; "user"]
  | proxyHandlingLatencies =>
      MkDeclared HistogramVec "handling_duration_seconds" ["pid"; "serverName"; "verb"; "resource"; "stage"]
  | proxyUserClientOverCostLatencies =>
      MkDeclared HistogramVec "user_client_over_cost_seconds" ["serverName"; "verb"; "resource"; "user"]
  end.

Definition localMetrics : list metric_vec :=
  [proxyReceiveRequestCounter; proxyRequestCounter; proxyRequestLatencies; proxyResponseSizes;
   proxyUpstreamUnhealthy; proxyRequestTerminationsTotal; proxyRequestUserTerminations;
   proxyRegisteredWatchers; proxyRateLimiterRequestCounter; proxyGlobalFlowControlRequestCounter;
   proxyRequestInflight; proxyRequestRate; proxyRequestTotalDataSize; proxyRequestUserDataSize;
   proxyHandlingLatencies; proxyUserRequestCounter; proxyUserRequestLoad; proxyRequestUserLatencies;
   proxyUserClientOverCostLatencies].

Inductive metric_op :=
  | OpInc (vec : metric_vec) (labels : list string)
  | OpDec (vec : metric_vec) (labels : list string)
  | OpAdd (vec : metric_vec) (labels : list string) (v : float64)
  | OpSet (vec : metric_vec) (labels : list string) (v : float64)
  | OpObserve (vec : metric_vec) (labels : list string) (v : float64).

Definition observer : Type := MetricInfo -> list metric_op.

(** The union observers, by the names of their variables. *)
Inductive metric_kind :=
  | ProxyUpstreamUnhealthyObservers | ProxyReceiveRequestCounterObservers | ProxyRequestCounterObservers | ProxyRequestLatenciesObservers
  | ProxyResponseSizesObservers | ProxyRequestTerminationsObservers | ProxyWatcherRegisteredObservers | ProxyWatcherUnregisteredObservers
  | ProxyRateLimiterRequestCounterObservers | ProxyGlobalFlowControlAcquireObservers | ProxyRequestInflightObservers
  | ProxyRequestTotalDataSizeObservers | ProxyRequestDataSizeObservers | ProxyHandlingLatencyObservers.

#[export] Instance metric_kind_eq_dec : EqDecision metric_kind.
Proof. solve_decision. Defined.

Definition union_Observe (observers : list observer) (metric : MetricInfo) : list metric_op :=
  observers ≫= (fun o => o metric).

Record metric_registry := MkMetricRegistry {
  reg_done : bool;
  reg_observers : metric_kind -> list observer
}.

Definition no_metrics : metric_registry := MkMetricRegistry false (fun _ => []).

Definition AddObserver (r : metric_registry) (k : metric_kind) (o : observer) : metric_registry :=
  MkMetricRegistry (reg_done r) (fun k' => if decide (k' = k) then reg_observers r k' ++ [o] else reg_observers r k').

(** [time.Duration.Seconds]. *)
Definition duration_Seconds (d : Z) : float64 :=
  fadd (of_int (Z.quot d Second)) (fdiv (of_int (Z.rem d Second)) (of_int Second)).

Section observers.
(** The process, and whether metrics have the user as a label. *)
Context (proxyPid : string) (enableRequestMetricByUser : bool).

Definition unhealthyUpstreamObserver : observer := fun m =>
  [OpInc proxyUpstreamUnhealthy [proxyPid; mi_ServerName m; mi_Endpoint m; mi_Reason m]].

Definition proxyReceiveRequestCounterObserver : observer := fun m =>
  [OpInc proxyReceiveRequestCounter [proxyPid; mi_ServerName m; mi_Verb m; mi_Resource m]].

Definition proxyRequestCounterObserver : observer := fun m =>
  OpInc proxyRequestCounter [proxyPid; mi_ServerName m; mi_Endpoint m; mi_Verb m; mi_Resource m; mi_HttpCode m; mi_FlowControl m] ::
  if enableRequestMetricByUser then
    let labels := [mi_ServerName m; mi_Verb m; mi_Resource m; mi_HttpCode m; mi_FlowControl m; mi_UserName m] in
    OpInc proxyUserRequestCounter labels :: (if mi_IsLongRunning m then [] else [OpAdd proxyUserRequestLoad labels (mi_Latency m)])
  else [].

Definition proxyRequestLatenciesObserver : observer := fun m =>
  OpObserve proxyRequestLatencies [proxyPid; mi_ServerName m; mi_Endpoint m; mi_Verb m; mi_Resource m] (mi_Latency m) ::
  if enableRequestMetricByUser then
    [OpObserve proxyRequestUserLatencies
       [mi_ServerName m; mi_Verb m; mi_Resource m; mi_FlowControl m; mi_UserName m; "default"] (mi_Latency m)]
  else [].

Definition proxyResponseSizesObserver : observer := fun m =>
  [OpObserve proxyResponseSizes [proxyPid; mi_ServerName m; mi_Endpoint m; mi_Verb m; mi_Resource m] (of_int (mi_ResponseSize m))].

Definition proxyRequestTerminationsObserver : observer := fun m =>
  OpInc proxyRequestTerminationsTotal [proxyPid; mi_ServerName m; mi_Verb m; mi_HttpCode m; mi_Reason m; mi_Resource m; mi_FlowControl m] ::
  if enableRequestMetricByUser then
    [OpInc proxyRequestUserTerminations
       [mi_ServerName m; mi_Verb m; mi_HttpCode m; mi_Reason m; mi_Resource m; mi_FlowControl m; mi_UserName m]]
  else [].

Definition proxyWatcherRegisteredObserver : observer := fun m =>
  [OpInc proxyRegisteredWatchers [proxyPid; mi_ServerName m; mi_Endpoint m; mi_Resource m]].

Definition proxyWatcherUnregisteredObserver : observer := fun m =>
  [OpDec proxyRegisteredWatchers [proxyPid; mi_ServerName m; mi_Endpoint m; mi_Resource m]].

Definition proxyRateLimiterRequestCounterObserver : observer := fun m =>
  [OpInc proxyRateLimiterRequestCounter [proxyPid; mi_ServerName m; mi_Method m; mi_Result m; mi_FlowControl m]].

Definition proxyGlobalFlowControlAcquireObserver : observer := fun m =>
  [OpInc proxyGlobalFlowControlRequestCounter [proxyPid; mi_ServerName m; mi_Type m; mi_LimitMethod m; mi_FlowControl m]].

Definition proxyRequestInflightObserver : observer := fun m =>
  [OpSet proxyRequestInflight [proxyPid] (mi_Inflight m); OpSet proxyRequestRate [proxyPid] (mi_Rate m)].

Definition proxyRequestTotalDataSizeObserver : observer := fun m =>
  [OpSet proxyRequestTotalDataSize [proxyPid; "request"] (of_int (mi_RequestSize m));
   OpSet proxyRequestTotalDataSize [proxyPid; "response"] (of_int (mi_ResponseSize m))].

Definition proxyRequestDataSizeObserver : observer := fun m =>
  if enableRequestMetricByUser then
    let labels := [mi_ServerName m; mi_Verb m; mi_Resource m; mi_FlowControl m; mi_UserName m] in
    [OpSet proxyRequestUserDataSize ("request" :: labels) (of_int (mi_RequestSize m));
     OpSet proxyRequestUserDataSize ("response" :: labels) (of_int (mi_ResponseSize m))]
  else [].

Definition proxyHandlingLatenciesObserver : observer := fun m =>
  let delay := default 0 (mi_TraceLatencies m !! MetricStageHandlingDelay) in
  OpObserve proxyHandlingLatencies [proxyPid; mi_ServerName m; mi_Verb m; mi_Resource m; MetricStageHandlingDelay]
    (duration_Seconds delay) ::
  if enableRequestMetricByUser then
    let overCostLatency := default 0 (mi_TraceLatencies m !! MetricStageClientOverCost) in
    if Millisecond <? overCostLatency then
      [OpObserve proxyUserClientOverCostLatencies [mi_ServerName m; mi_Verb m; mi_Resource m; mi_UserName m]
         (duration_Seconds overCostLatency)]
    else []
  else [].

Definition default_observer (k : metric_kind) : observer :=
  match k with
  | ProxyUpstreamUnhealthyObservers => unhealthyUpstreamObserver
  | ProxyReceiveRequestCounterObservers => proxyReceiveRequestCounterObserver
  | ProxyRequestCounterObservers => proxyRequestCounterObserver
  | ProxyRequestLatenciesObservers => proxyRequestLatenciesObserver
  | ProxyResponseSizesObservers => proxyResponseSizesObserver
  | ProxyRequestTerminationsObservers => proxyRequestTerminationsObserver
  | ProxyWatcherRegisteredObservers => proxyWatcherRegisteredObserver
  | ProxyWatcherUnregisteredObservers => proxyWatcherUnregisteredObserver
  | ProxyRateLimiterRequestCounterObservers => proxyRateLimiterRequestCounterObserver
  | ProxyGlobalFlowControlAcquireObservers => proxyGlobalFlowControlAcquireObserver
  | ProxyRequestInflightObservers => proxyRequestInflightObserver
  | ProxyRequestTotalDataSizeObservers => proxyRequestTotalDataSizeObserver
  | ProxyRequestDataSizeObservers => proxyRequestDataSizeObserver
  | ProxyHandlingLatencyObservers => proxyHandlingLatenciesObserver
  end.

(** [Register], once per process ([sync.Once]). *)
Definition metric_kinds : list metric_kind :=
  [ProxyUpstreamUnhealthyObservers; ProxyReceiveRequestCounterObservers; ProxyRequestCounterObservers; ProxyRequestLatenciesObservers; ProxyResponseSizesObservers;
   ProxyRequestTerminationsObservers; ProxyWatcherRegisteredObservers; ProxyWatcherUnregisteredObservers; ProxyRateLimiterRequestCounterObservers;
   ProxyGlobalFlowControlAcquireObservers; ProxyRequestInflightObservers; ProxyRequestTotalDataSizeObservers; ProxyRequestDataSizeObservers; ProxyHandlingLatencyObservers].

Definition Register (r : metric_registry) : metric_registry :=
  if reg_done r then r
  else
    let r := foldl (fun r k => AddObserver r k (default_observer k)) r metric_kinds in
    MkMetricRegistry true (reg_observers r).
End observers.

Create HintDb metric_ops.
#[export] Hint Unfold default_observer unhealthyUpstreamObserver proxyReceiveRequestCounterObserver
  proxyRequestCounterObserver proxyRequestLatenciesObserver proxyResponseSizesObserver
  proxyRequestTerminationsObserver proxyWatcherRegisteredObserver proxyWatcherUnregisteredObserver
  proxyRateLimiterRequestCounterObserver proxyGlobalFlowControlAcquireObserver proxyRequestInflightObserver
  proxyRequestTotalDataSizeObserver proxyRequestDataSizeObserver proxyHandlingLatenciesObserver : metric_ops.

(** Each operation an observer asks for. *)
Ltac each_op tac :=
  autounfold with metric_ops; cbv beta iota zeta; repeat case_match;
  repeat (apply Forall_cons; split; [tac|]); by apply Forall_nil.

(** * Labels *)

Definition OtherRequestMethod : string := "other".

Definition ValidRequestMethods : list string :=
  ["APPLY"; "CONNECT"; "CREATE"; "DELETE"; "DELETECOLLECTION"; "GET"; "LIST"; "PATCH"; "POST"; "PROXY"; "PUT";
   "UPDATE"; "WATCH"; "WATCHLIST"].

Definition CleanScope (requestInfo : request_info) : string :=
  if negb (bool_decide (rqi_Name requestInfo = "")) || bool_decide (rqi_Verb requestInfo = "create") then "resource"
  else if negb (bool_decide (rqi_Namespace requestInfo = "")) then "namespace"
  else if rqi_IsResourceRequest requestInfo then "cluster"
  else "".

Definition canonicalVerb `{UnicodeUpper} (requestInfo : request_info) (scope : string) : string :=
  let verb := ToUpper (rqi_Verb requestInfo) in
  if negb (rqi_IsResourceRequest requestInfo) then verb
  else if bool_decide (verb = "GET") || bool_decide (verb = "HEAD") then
    if negb (bool_decide (scope = "resource")) then "LIST" else "GET"
  else verb.

Definition ApplyPatchType : string := "application/apply-patch+yaml".

(** [serverSideApply] is the feature gate of that name. *)
Definition cleanVerb `{UnicodeLower} (serverSideApply : bool) (verb : string) (request : metric_request) : string :=
  let reportedVerb := verb in
  let reportedVerb :=
    if bool_decide (verb = "LIST") then
      match mr_watch request with
      | v :: _ =>
          let value := ToLower v in
          if negb (bool_decide (value = "0")) && negb (bool_decide (value = "false")) then "WATCH" else reportedVerb
      | [] => reportedVerb
      end
    else reportedVerb in
  let reportedVerb := if bool_decide (verb = "WATCHLIST") then "WATCH" else reportedVerb in
  let reportedVerb :=
    if bool_decide (verb = "PATCH") && bool_decide (mr_ContentType request = ApplyPatchType) && serverSideApply
    then "APPLY" else reportedVerb in
  if bool_decide (reportedVerb ∈ ValidRequestMethods) then reportedVerb else OtherRequestMethod.

Definition cleanResource (requestInfo : request_info) : string :=
  if rqi_IsResourceRequest requestInfo then
    if negb (bool_decide (rqi_Subresource requestInfo = ""))
    then rqi_Resource requestInfo +:+ "/" +:+ rqi_Subresource requestInfo
    else rqi_Resource requestInfo
  else "NonResourceRequest".

Definition codeToString (s : Z) : string := pretty s.

Definition cleanUserForMetric (user : option UserInfo) : string :=
  match user with
  | None => "anonymous"
  | Some u =>
      match filter (fun ug => Contains ug "system:nodes" = true) (ui_Groups u) with
      | ug :: _ => ug
      | [] => ui_Name u
      end
  end.

(** A request without request info is reported by its method and path. *)
Definition info_of_request (req : metric_request) : request_info :=
  MkRequestInfo false (mr_Path req) (mr_Method req) "" "" "" "".

(** * Reporting *)

Section reporting.
Context `{UnicodeUpper} `{UnicodeLower}.
Context (serverSideApply : bool) (r : metric_registry).

Definition Observe (k : metric_kind) (m : MetricInfo) : list metric_op := union_Observe (reg_observers r k) m.

Definition RecordUnhealthyUpstream (serverName endpoint reason : string) : list metric_op :=
  Observe ProxyUpstreamUnhealthyObservers {|
    mi_ServerName := serverName; mi_Endpoint := endpoint; mi_FlowControl := ""; mi_Verb := ""; mi_Resource := "";
    mi_HttpCode := ""; mi_Path := ""; mi_Reason := reason; mi_UserName := ""; mi_IsLongRunning := false;
    mi_RequestSize := 0; mi_ResponseSize := 0; mi_Latency := zero; mi_Rate := zero; mi_Inflight := zero;
    mi_TraceLatencies := ∅; mi_Method := ""; mi_Result := ""; mi_LimitMethod := ""; mi_Type := "" |}.

Definition RecordProxyRequestReceived (req : metric_request) (serverName : string) (requestInfo : option request_info)
    : list metric_op :=
  let requestInfo := default (info_of_request req) requestInfo in
  let verb := canonicalVerb requestInfo (CleanScope requestInfo) in
  Observe ProxyReceiveRequestCounterObservers (labelled serverName "" "" verb (cleanResource requestInfo)).

Definition MonitorProxyRequest (req : metric_request) (serverName endpoint flowControl : string)
    (requestInfo : option request_info) (user : option UserInfo) (isLongRunning : bool)
    (httpCode reqSize respSize elapsed : Z) : list metric_op :=
  let requestInfo := default (info_of_request req) requestInfo in
  let verb := canonicalVerb requestInfo (CleanScope requestInfo) in
  let metricInfo := {|
    mi_ServerName := serverName; mi_Endpoint := endpoint; mi_FlowControl := flowControl; mi_Verb := verb;
    mi_Resource := cleanResource requestInfo; mi_HttpCode := codeToString httpCode; mi_Path := ""; mi_Reason := "";
    mi_UserName := cleanUserForMetric user; mi_IsLongRunning := isLongRunning; mi_RequestSize := reqSize;
    mi_ResponseSize := respSize; mi_Latency := duration_Seconds elapsed; mi_Rate := zero; mi_Inflight := zero;
    mi_TraceLatencies := ∅; mi_Method := ""; mi_Result := ""; mi_LimitMethod := ""; mi_Type := "" |} in
  Observe ProxyRequestCounterObservers metricInfo ++
  Observe ProxyRequestLatenciesObservers metricInfo ++
  (if rqi_IsResourceRequest requestInfo then Observe ProxyResponseSizesObservers metricInfo else []) ++
  Observe ProxyRequestDataSizeObservers metricInfo.

(** [requestInfo] is what the context of the request has. *)
Definition RecordProxyRequestTermination (req : metric_request) (requestInfo : option request_info) (code : Z)
    (reason flowControl : string) (user : option UserInfo) : list metric_op :=
  let requestInfo := default (info_of_request req) requestInfo in
  let verb := canonicalVerb requestInfo (CleanScope requestInfo) in
  let verb := if negb (bool_decide (verb ∈ ValidRequestMethods)) then OtherRequestMethod else verb in
  Observe ProxyRequestTerminationsObservers {|
    mi_ServerName := HostWithoutPort (mr_Host req); mi_Endpoint := ""; mi_FlowControl := flowControl;
    mi_Verb := cleanVerb serverSideApply verb req; mi_Resource := cleanResource requestInfo;
    mi_HttpCode := codeToString code; mi_Path := rqi_Path requestInfo; mi_Reason := reason;
    mi_UserName := cleanUserForMetric user; mi_IsLongRunning := false; mi_RequestSize := 0; mi_ResponseSize := 0;
    mi_Latency := zero; mi_Rate := zero; mi_Inflight := zero; mi_TraceLatencies := ∅; mi_Method := "";
    mi_Result := ""; mi_LimitMethod := ""; mi_Type := "" |}.

Definition RecordWatcherRegistered (serverName endpoint resource : string) : list metric_op :=
  Observe ProxyWatcherRegisteredObservers (labelled serverName endpoint "" "" resource).

Definition RecordWatcherUnregistered (serverName endpoint resource : string) : list metric_op :=
  Observe ProxyWatcherUnregisteredObservers (labelled serverName endpoint "" "" resource).

Definition RecordProxyTraceLatency (traceLatencies : gmap string Z) (serverName : string) (requestInfo : request_info)
    (user : option UserInfo) : list metric_op :=
  Observe ProxyHandlingLatencyObservers {|
    mi_ServerName := serverName; mi_Endpoint := ""; mi_FlowControl := ""; mi_Verb := ToUpper (rqi_Verb requestInfo);
    mi_Resource := cleanResource requestInfo; mi_HttpCode := ""; mi_Path := ""; mi_Reason := "";
    mi_UserName := cleanUserForMetric user; mi_IsLongRunning := false; mi_RequestSize := 0; mi_ResponseSize := 0;
    mi_Latency := zero; mi_Rate := zero; mi_Inflight := zero; mi_TraceLatencies := traceLatencies; mi_Method := "";
    mi_Result := ""; mi_LimitMethod := ""; mi_Type := "" |}.

Definition RecordRateLimiterRequest (serverName method result flowControl : string) (elapsed : Z) : list metric_op :=
  Observe ProxyRateLimiterRequestCounterObservers {|
    mi_ServerName := serverName; mi_Endpoint := ""; mi_FlowControl := flowControl; mi_Verb := "";
    mi_Resource := ""; mi_HttpCode := ""; mi_Path := ""; mi_Reason := ""; mi_UserName := "";
    mi_IsLongRunning := false; mi_RequestSize := 0; mi_ResponseSize := 0;
    mi_Latency := duration_Seconds elapsed; mi_Rate := zero; mi_Inflight := zero; mi_TraceLatencies := ∅;
    mi_Method := method; mi_Result := result; mi_LimitMethod := ""; mi_Type := "" |}.

Definition RecordGlobalFlowControlAcquire (serverName flowControlType limitMethod flowControl : string) (elapsed : Z)
    : list metric_op :=
  Observe ProxyGlobalFlowControlAcquireObservers {|
    mi_ServerName := serverName; mi_Endpoint := ""; mi_FlowControl := flowControl; mi_Verb := "";
    mi_Resource := ""; mi_HttpCode := ""; mi_Path := ""; mi_Reason := ""; mi_UserName := "";
    mi_IsLongRunning := false; mi_RequestSize := 0; mi_ResponseSize := 0;
    mi_Latency := duration_Seconds elapsed; mi_Rate := zero; mi_Inflight := zero; mi_TraceLatencies := ∅;
    mi_Method := ""; mi_Result := ""; mi_LimitMethod := limitMethod; mi_Type := flowControlType |}.

Definition RecordProxyRateAndInflight (rate : float64) (inflight : Z) : list metric_op :=
  Observe ProxyRequestInflightObservers {|
    mi_ServerName := ""; mi_Endpoint := ""; mi_FlowControl := ""; mi_Verb := ""; mi_Resource := "";
    mi_HttpCode := ""; mi_Path := ""; mi_Reason := ""; mi_UserName := ""; mi_IsLongRunning := false;
    mi_RequestSize := 0; mi_ResponseSize := 0; mi_Latency := zero; mi_Rate := rate;
    mi_Inflight := of_int inflight; mi_TraceLatencies := ∅; mi_Method := ""; mi_Result := "";
    mi_LimitMethod := ""; mi_Type := "" |}.

Definition RecordRequestThroughput (requestSizeTotal responseSizeTotal : Z) : list metric_op :=
  Observe ProxyRequestTotalDataSizeObservers {|
    mi_ServerName := ""; mi_Endpoint := ""; mi_FlowControl := ""; mi_Verb := ""; mi_Resource := "";
    mi_HttpCode := ""; mi_Path := ""; mi_Reason := ""; mi_UserName := ""; mi_IsLongRunning := false;
    mi_RequestSize := requestSizeTotal; mi_ResponseSize := responseSizeTotal; mi_Latency := zero;
    mi_Rate := zero; mi_Inflight := zero; mi_TraceLatencies := ∅; mi_Method := ""; mi_Result := "";
    mi_LimitMethod := ""; mi_Type := "" |}.

(** [WithPreProcessingMetrics]: the error it answers with, or what it reports
    before the next handler serves the request. *)
Definition WithPreProcessingMetrics (req : metric_request) (info : option request_info) (hostname : option string)
    : string + list metric_op :=
  match info, hostname with
  | None, _ => inl "failed to get request info from context"
  | _, None => inl "failed to get extra request info from context"
  | Some info, Some hostname => inr (RecordProxyRequestReceived req hostname (Some info))
  end.

(** * The monitor of a proxied request *)

Record proxyRequestMonitor := MkMonitor {
  pm_startTime : Z;
  pm_host : string;
  pm_endpoint : string;
  pm_flowControlName : string;
  pm_user : option UserInfo;
  pm_impersonator : option UserInfo;
  pm_req : metric_request;
  pm_requestInfo : request_info;
  pm_IsLongRunningRequest : bool
}.

Definition isWatch (rw : proxyRequestMonitor) : bool :=
  rqi_IsResourceRequest (pm_requestInfo rw) && bool_decide (rqi_Verb (pm_requestInfo rw) = "watch").

Definition MonitorBeforeProxy (rw : proxyRequestMonitor) : list metric_op :=
  if isWatch rw then RecordWatcherRegistered (pm_host rw) (pm_endpoint rw) (rqi_Resource (pm_requestInfo rw)) else [].

Definition IsProxyForwarded (proxyInfo : option ProxyInfo) : bool :=
  match proxyInfo with Some i => pi_Forwarded i | None => false end.

(** What the end of a request reads: the proxy info of its context, request
    size, response size and status of the wrapped reader and writer, and the
    clock. *)
Record request_end := MkEnd {
  en_proxyInfo : option ProxyInfo;
  en_ReaderWriter : option (Z * Z * Z);
  en_now : Z
}.

Definition MonitorAfterProxy (rw : proxyRequestMonitor) (e : request_end) : list metric_op :=
  (if isWatch rw then RecordWatcherUnregistered (pm_host rw) (pm_endpoint rw) (rqi_Resource (pm_requestInfo rw)) else []) ++
  if negb (IsProxyForwarded (en_proxyInfo e)) then []
  else
    let userInfo := match pm_impersonator rw with Some u => Some u | None => pm_user rw end in
    let '(requestSize, responseSize, status) := default (0, 0, 0) (en_ReaderWriter e) in
    MonitorProxyRequest (pm_req rw) (pm_host rw) (pm_endpoint rw) (pm_flowControlName rw) (Some (pm_requestInfo rw))
      userInfo (pm_IsLongRunningRequest rw) status requestSize responseSize (en_now e - pm_startTime rw).

(** * Terminated requests *)

Record terminationMetricsWriter := MkTermination { tw_status : Z; tw_statusRecorded : bool }.

Definition tw_recordStatus (rw : terminationMetricsWriter) (status : Z) : terminationMetricsWriter :=
  MkTermination status true.

Definition tw_Write (rw : terminationMetricsWriter) : terminationMetricsWriter :=
  if negb (tw_statusRecorded rw) then tw_recordStatus rw 200 else rw.

(** [status_reason] is stringy's snake case of the text of a status.  Without
    proxy info its fields are read through a nil pointer. *)
Definition recordMetrics (status_reason : Z -> string) (rw : terminationMetricsWriter) (req : metric_request)
    (requestInfo : option request_info) (proxyInfo : option ProxyInfo) : result string (list metric_op) :=
  let forwarded := IsProxyForwarded proxyInfo in
  let reason := match proxyInfo with Some i => pi_Reason i | None => "" end in
  if negb forwarded && (400 <=? tw_status rw) then
    let reason := if bool_decide (reason = "") then status_reason (tw_status rw) else reason in
    match proxyInfo with
    | None => Panic
    | Some i =>
        Ok (RecordProxyRequestTermination req requestInfo (tw_status rw) reason (pi_FlowControl i) (pi_User i))
    end
  else Ok [].
End reporting.

(** * Requests in progress *)

Definition op_vec (o : metric_op) : metric_vec :=
  match o with OpInc v _ | OpDec v _ | OpAdd v _ _ | OpSet v _ _ | OpObserve v _ _ => v end.

Definition op_labels (o : metric_op) : list string :=
  match o with OpInc _ l | OpDec _ l | OpAdd _ l _ | OpSet _ l _ | OpObserve _ l _ => l end.

(** Value of a series after a list of operations: increments less
    decrements. *)
Definition op_delta (v : metric_vec) (labels : list string) (o : metric_op) : Z :=
  match o with
  | OpInc v' l => if decide (v' = v /\ l = labels) then 1 else 0
  | OpDec v' l => if decide (v' = v /\ l = labels) then -1 else 0
  | _ => 0
  end.

Definition series (v : metric_vec) (labels : list string) (log : list metric_op) : Z := zsum (op_delta v labels) log.

Record monitored := MkMonitored {
  mo_active : gmap nat proxyRequestMonitor;
  mo_finished : list (proxyRequestMonitor * request_end);
  mo_log : list metric_op
}.

Section progress.
Context `{UnicodeUpper} `{UnicodeLower}.
Context (proxyPid : string) (enableRequestMetricByUser : bool).

Definition registered_metrics : metric_registry := Register proxyPid enableRequestMetricByUser no_metrics.

(** The union observers that the monitor of a proxied request reports to. *)
Definition monitor_kinds : list metric_kind :=
  [ProxyWatcherRegisteredObservers; ProxyWatcherUnregisteredObservers; ProxyRequestCounterObservers;
   ProxyRequestLatenciesObservers; ProxyResponseSizesObservers; ProxyRequestDataSizeObservers].

(** Requests start and end in any order; anything else may be reported in
    between. *)
Inductive monitor_step : monitored -> monitored -> Prop :=
  | step_before s id rw :
      mo_active s !! id = None ->
      monitor_step s (MkMonitored (<[id := rw]> (mo_active s)) (mo_finished s)
                        (mo_log s ++ MonitorBeforeProxy registered_metrics rw))
  | step_after s id rw e :
      mo_active s !! id = Some rw ->
      monitor_step s (MkMonitored (delete id (mo_active s)) (mo_finished s ++ [(rw, e)])
                        (mo_log s ++ MonitorAfterProxy registered_metrics rw e))
  | step_report s k m :
      k ∉ monitor_kinds ->
      monitor_step s (MkMonitored (mo_active s) (mo_finished s) (mo_log s ++ Observe registered_metrics k m)).

Definition no_requests : monitored := MkMonitored ∅ [] [].

Definition watch_labels (rw : proxyRequestMonitor) : list string :=
  [proxyPid; pm_host rw; pm_endpoint rw; rqi_Resource (pm_requestInfo rw)].

Definition watches (labels : list string) (rw : proxyRequestMonitor) : Prop :=
  isWatch rw = true /\ watch_labels rw = labels.

#[local] Instance watches_dec labels rw : Decision (watches labels rw).
Proof. unfold watches. apply _. Defined.

Definition request_labels (rw : proxyRequestMonitor) (e : request_end) : list string :=
  let info := pm_requestInfo rw in
  [proxyPid; pm_host rw; pm_endpoint rw; canonicalVerb info (CleanScope info); cleanResource info;
   codeToString (default (0, 0, 0) (en_ReaderWriter e)).2; pm_flowControlName rw].

Definition forwarded_with (labels : list string) (f : proxyRequestMonitor * request_end) : Prop :=
  IsProxyForwarded (en_proxyInfo f.2) = true /\ request_labels f.1 f.2 = labels.

#[local] Instance forwarded_with_dec labels f : Decision (forwarded_with labels f).
Proof. unfold forwarded_with. apply _. Defined.

Lemma registered_observe k m :
  Observe registered_metrics k m = default_observer proxyPid enableRequestMetricByUser k m.
Proof. destruct k; exact (app_nil_r _). Qed.

Lemma series_app v l a b : series v l (a ++ b) = series v l a + series v l b.
Proof. apply zsum_app. Qed.

Lemma series_other v l ops : Forall (fun o => op_vec o <> v) ops -> series v l ops = 0.
Proof.
  unfold series. induction 1 as [|o ops Ho _ IH]; [done|]. rewrite zsum_cons, IH.
  destruct o; cbn [op_delta op_vec] in *; rewrite ?decide_False by tauto; lia.
Qed.

Lemma report_series v l k m :
  k ∉ monitor_kinds -> v = proxyRegisteredWatchers \/ v = proxyRequestCounter ->
  series v l (Observe registered_metrics k m) = 0.
Proof.
  intros Hk Hv. rewrite registered_observe. generalize enableRequestMetricByUser as byUser; intros byUser.
  apply series_other. destruct Hv as [->| ->], k; try (exfalso; apply Hk, (bool_decide_unpack _); exact I).
  all: each_op discriminate.
Qed.

Lemma before_series v l rw :
  series v l (MonitorBeforeProxy registered_metrics rw) =
  if decide (v = proxyRegisteredWatchers /\ watches l rw) then 1 else 0.
Proof.
  unfold MonitorBeforeProxy. destruct (isWatch rw) eqn:E; [|by rewrite decide_False by (intros (_ & Ht & _); congruence)].
  unfold RecordWatcherRegistered. rewrite registered_observe. unfold series; cbn -[decide].
  fold (watch_labels rw).
  repeat case_decide; unfold watches in *; naive_solver.
Qed.

Lemma monitored_series v l req host ep fc info u long code rs ws el :
  v = proxyRegisteredWatchers \/ v = proxyRequestCounter ->
  series v l (MonitorProxyRequest registered_metrics req host ep fc (Some info) u long code rs ws el) =
  if decide (v = proxyRequestCounter /\
    [proxyPid; host; ep; canonicalVerb info (CleanScope info); cleanResource info; codeToString code; fc] = l) then 1 else 0.
Proof.
  intros Hv. unfold MonitorProxyRequest. cbn [default from_option id].
  set (c := codeToString code). set (vb := canonicalVerb _ _). set (cr := cleanResource _).
  set (un := cleanUserForMetric _). set (sec := duration_Seconds _).
  rewrite !series_app, !registered_observe. generalize enableRequestMetricByUser as byUser; intros byUser.
  destruct (rqi_IsResourceRequest info); rewrite ?registered_observe.
  all: destruct Hv as [->| ->], byUser, long; unfold series; cbn -[decide];
    repeat case_decide; naive_solver lia.
Qed.

Lemma after_series v l rw e :
  v = proxyRegisteredWatchers \/ v = proxyRequestCounter ->
  series v l (MonitorAfterProxy registered_metrics rw e) =
  (if decide (v = proxyRegisteredWatchers /\ watches l rw) then -1 else 0) +
  (if decide (v = proxyRequestCounter /\ forwarded_with l (rw, e)) then 1 else 0).
Proof.
  intros Hv. unfold MonitorAfterProxy. rewrite series_app. f_equal.
  - destruct (isWatch rw) eqn:E; [|by rewrite decide_False by (intros (_ & Ht & _); congruence)].
    unfold RecordWatcherUnregistered. rewrite registered_observe. unfold series; cbn -[decide].
    fold (watch_labels rw).
  repeat case_decide; unfold watches in *; naive_solver.
  - destruct (IsProxyForwarded (en_proxyInfo e)) eqn:E; cbn [negb];
      [|by rewrite decide_False by (intros (_ & Ht & _); cbn in Ht; congruence)].
    destruct (default _ _) as [[rs ws] code] eqn:Ed. rewrite monitored_series by done.
    repeat case_decide; unfold forwarded_with, request_labels in *; cbn [fst snd] in *;
      rewrite ?Ed in *; naive_solver.
Qed.

(** The series the monitor keeps are those of the requests. *)
Definition accounted (s : monitored) : Prop := forall l,
  series proxyRegisteredWatchers l (mo_log s) =
    Z.of_nat (size (filter (fun x => watches l x.2) (mo_active s))) /\
  series proxyRequestCounter l (mo_log s) = Z.of_nat (length (filter (forwarded_with l) (mo_finished s))).

Lemma step_accounted s s' : monitor_step s s' -> accounted s -> accounted s'.
Proof.
  intros Hs Ha l. destruct (Ha l) as [Hw Hc]. destruct Hs as [s id rw Hn|s id rw e Hi|s k m Hk];
    cbn [mo_log mo_active mo_finished];
    rewrite !series_app.
  - rewrite !before_series, Hw, Hc. split; [|rewrite decide_False by naive_solver; lia].
    destruct (decide (watches l rw)) as [Hl|Hl].
    + rewrite decide_True by done. rewrite map_filter_insert_True by done.
      rewrite map_size_insert_None; [lia|]. apply map_lookup_filter_None. naive_solver.
    + rewrite decide_False by naive_solver. rewrite map_filter_insert_False by done.
      rewrite delete_id by done. lia.
  - rewrite !after_series, Hw, Hc by auto. rewrite filter_app, length_app. split.
    + rewrite (decide_False (P := _ = proxyRequestCounter /\ _)) by naive_solver.
      rewrite map_filter_delete. destruct (decide (watches l rw)) as [Hl|Hl].
      * rewrite decide_True by done.
        assert (Hf : filter (fun x => watches l x.2) (mo_active s) !! id = Some rw)
          by (by apply map_lookup_filter_Some).
        rewrite map_size_delete_Some by (by eexists).
        assert (size (filter (fun x => watches l x.2) (mo_active s)) <> 0%nat); [|lia].
        intros Hz. apply map_size_empty_inv in Hz. by rewrite Hz in Hf.
      * rewrite decide_False by naive_solver. rewrite delete_id; [lia|].
        apply map_lookup_filter_None. naive_solver.
    + rewrite (decide_False (P := _ = proxyRegisteredWatchers /\ _)) by naive_solver.
      rewrite filter_cons, filter_nil. repeat case_decide; cbn; naive_solver lia.
  - rewrite !report_series by auto. rewrite Hw, Hc. split; lia.
Qed.

(** C35: Over any interleaving of requests that start and end, and of anything
    else that is reported, the gauge of registered watchers is for every host,
    endpoint and resource the number of watches in progress, and the counter
    of proxied requests is for every labels the number of requests that ended
    forwarded with them. *)
Theorem watchers_and_requests_accounted s l :
  rtc monitor_step no_requests s ->
  series proxyRegisteredWatchers l (mo_log s) =
    Z.of_nat (size (filter (fun x => watches l x.2) (mo_active s))) /\
  series proxyRequestCounter l (mo_log s) = Z.of_nat (length (filter (forwarded_with l) (mo_finished s))).
Proof.
  intros Hr. cut (accounted s); [auto|].
  eapply (rtc_ind_r accounted); [| |exact Hr]; [|intros ? ? _ Hs; by apply step_accounted].
  intros ?. by split.
Qed.

(** What a vector takes: as many label values as it has labels (otherwise
    [WithLabelValues] panics), on an operation of its type, and it is one of
    those that are registered. *)
Definition op_fits (o : metric_op) : Prop :=
  length (op_labels o) = length (de_labels (vec_declared (op_vec o))) /\ op_vec o ∈ localMetrics /\
  match o, de_type (vec_declared (op_vec o)) with
  | (OpInc _ _ | OpAdd _ _ _), (CounterVec | GaugeVec) => True
  | (OpDec _ _ | OpSet _ _ _), GaugeVec => True
  | OpObserve _ _ _, HistogramVec => True
  | _, _ => False
  end.

(** Whatever is reported, every operation on a metric vector gives it as
    many label values as it was declared with, is one its type has (no counter
    is set or decremented, only histograms observe), and its vector was
    registered, under a name of its own; and registering a second time changes
    nothing. *)
Theorem observers_fit_vectors k m :
  Forall op_fits (Observe registered_metrics k m) /\ NoDup ((fun v => de_Name (vec_declared v)) <$> localMetrics) /\
  Register proxyPid enableRequestMetricByUser registered_metrics = registered_metrics.
Proof.
  split; [|split; [by apply (bool_decide_unpack _)|done]]. rewrite registered_observe. generalize enableRequestMetricByUser as byUser; intros byUser.
  destruct k; each_op ltac:(split; [reflexivity|split; [unfold localMetrics; set_solver|exact I]]).
Qed.

Lemma cleanVerb_bounded ssa verb req : cleanVerb ssa verb req ∈ OtherRequestMethod :: ValidRequestMethods.
Proof.
  unfold cleanVerb. cbv zeta. set (v := if bool_decide (verb = "PATCH") && _ && _ then _ else _).
  case_bool_decide as Hv; [by apply list_elem_of_further|apply list_elem_of_here].
Qed.

Definition counted_terminated (ops : list metric_op) : list (list string) :=
  omap (fun o => match o with OpInc proxyRequestTerminationsTotal l => Some l | _ => None end) ops.

(** C38: When a request ends, it is counted as terminated exactly when it was not
    forwarded and was answered with an error, once, under a verb of the fixed
    set and the reason it was terminated for (the text of the status if
    none was recorded); a request counted so is not counted as proxied. *)
Theorem terminated_counted_once ssa status_reason tw rw info e i ops :
  en_proxyInfo e = Some i ->
  recordMetrics ssa registered_metrics status_reason tw (pm_req rw) info (en_proxyInfo e) = Ok ops ->
  (pi_Forwarded i = true \/ tw_status tw < 400 -> ops = []) /\
  (pi_Forwarded i = false -> 400 <= tw_status tw ->
   (exists verb,
      verb ∈ OtherRequestMethod :: ValidRequestMethods /\
      counted_terminated ops =
        [[proxyPid; HostWithoutPort (mr_Host (pm_req rw)); verb; codeToString (tw_status tw);
          if decide (pi_Reason i = "") then status_reason (tw_status tw) else pi_Reason i;
          cleanResource (default (info_of_request (pm_req rw)) info); pi_FlowControl i]]) /\
   forall l, series proxyRequestCounter l (MonitorAfterProxy registered_metrics rw e) = 0).
Proof.
  intros Hi. unfold recordMetrics. rewrite Hi. cbn [IsProxyForwarded]. intros Hr. split.
  - intros [Hf|Hs]; [rewrite Hf in Hr|]; [by injection Hr|].
    rewrite (proj2 (Z.leb_gt _ _)), andb_false_r in Hr by lia. by injection Hr.
  - intros Hf Hs. rewrite Hf, (proj2 (Z.leb_le _ _) Hs) in Hr. cbn [negb andb] in Hr. injection Hr as <-. split.
    + eexists. split; [|].
      2: { unfold RecordProxyRequestTermination. rewrite registered_observe.
           generalize enableRequestMetricByUser as byUser; intros [|];
             cbn -[cleanVerb cleanResource HostWithoutPort codeToString bool_decide decide];
             repeat f_equal; repeat case_decide; repeat case_bool_decide; done. }
      apply cleanVerb_bounded.
    + intros l. rewrite after_series by auto.
      rewrite !decide_False; [done| |naive_solver]. intros (_ & Ht & _). cbn in Ht. rewrite Hi in Ht. cbn in Ht. congruence.
Qed.

(** The nil pointer: a request that fails outside of the filter that adds the
    proxy info. *)
Lemma no_proxy_info_panics ssa status_reason req info :
  recordMetrics ssa registered_metrics status_reason (MkTermination 500 true) req info None = Panic.
Proof. done. Qed.
End progress.

(** * Examples *)

Module MetricsExample.
#[local] Instance upper : UnicodeUpper := {| unicode_upper s := s |}.
#[local] Existing Instance ascii_only_lower.

Definition watch_info : request_info := MkRequestInfo true "/api/v1/pods" "watch" "" "pods" "" "".
Definition watch_request : metric_request := MkMetricRequest "GET" "/api/v1/pods" "A.cluster:6443" ["true"] "".
Definition watcher : proxyRequestMonitor :=
  MkMonitor 0 "a.cluster" "https://10.0.0.1" "system" None None watch_request watch_info true.
Definition forwarded : ProxyInfo := MkProxyInfo true "https://10.0.0.1" "" "system" None.
Definition refused : ProxyInfo := MkProxyInfo false "" "rate_limited" "system" None.
Definition ended : request_end := MkEnd (Some forwarded) (Some (10, 20, 200)) Second.

Definition started (id : nat) (s : monitored) : monitored :=
  MkMonitored (<[id := watcher]> (mo_active s)) (mo_finished s)
    (mo_log s ++ MonitorBeforeProxy (registered_metrics "7" true) watcher).
Definition finished (id : nat) (s : monitored) : monitored :=
  MkMonitored (delete id (mo_active s)) (mo_finished s ++ [(watcher, ended)])
    (mo_log s ++ MonitorAfterProxy (registered_metrics "7" true) watcher ended).

(** Two watches start, the first ends. *)
Definition watching : monitored := started 1 (started 0 no_requests).
Definition one_watching : monitored := finished 0 watching.

Lemma one_watching_reached : rtc (monitor_step "7" true) no_requests one_watching.
Proof.
  apply (rtc_l _ _ (started 0 no_requests)); [exact (step_before "7" true no_requests 0 watcher eq_refl)|].
  apply (rtc_l _ _ watching); [exact (step_before "7" true (started 0 no_requests) 1 watcher eq_refl)|].
  apply rtc_once. exact (step_after "7" true watching 0 watcher ended eq_refl).
Qed.

Lemma watchers_and_requests_accounted_witness :
  series proxyRegisteredWatchers ["7"; "a.cluster"; "https://10.0.0.1"; "pods"] (mo_log one_watching) = 1 /\
  series proxyRequestCounter ["7"; "a.cluster"; "https://10.0.0.1"; "WATCH"; "pods"; "200"; "system"]
    (mo_log one_watching) = 1.
Proof.
  split.
  - rewrite (proj1 (watchers_and_requests_accounted "7" true one_watching _ one_watching_reached)). by vm_compute.
  - rewrite (proj2 (watchers_and_requests_accounted "7" true one_watching _ one_watching_reached)). by vm_compute.
Defined.

(** The reason given is kept; the verb of a list that watches is [WATCH]. *)
Lemma terminated_counted_once_witness :
  counted_terminated (RecordProxyRequestTermination false (registered_metrics "7" true) watch_request
    (Some (MkRequestInfo true "/api/v1/pods" "list" "" "pods" "" "")) 429 "rate_limited" "system" None) =
    [["7"; "a.cluster"; "WATCH"; "429"; "rate_limited"; "pods"; "system"]] /\
  forall l, series proxyRequestCounter l
    (MonitorAfterProxy (registered_metrics "7" true) watcher (MkEnd (Some refused) None Second)) = 0.
Proof.
  split; [by vm_compute|].
  refine (proj2 (proj2 (terminated_counted_once "7" true false (fun _ => "") (MkTermination 429 true) watcher
    (Some watch_info) (MkEnd (Some refused) None Second) refused _ eq_refl eq_refl) eq_refl _)).
  cbn. lia.
Defined.

(** The verb a received request is counted under is whatever the client sent:
    unlike that of a terminated request it is not of a fixed set. *)
Lemma received_verb_unbounded :
  RecordProxyRequestReceived (registered_metrics "7" true)
    (MkMetricRequest "FOO" "/x" "a.cluster" [] "") "a.cluster" None =
    [OpInc proxyReceiveRequestCounter ["7"; "a.cluster"; "FOO"; "NonResourceRequest"]].
Proof. by vm_compute. Qed.
End MetricsExample.
