(* ===== verification/Authentication.v ===== *)
(** How the proxy authenticates requests: the configuration built from the
    options ([pkg/gateway/proxy/options/authentication.go]) and the chain of
    authenticators it is turned into
    ([pkg/gateway/proxy/authenticator/config.go]). *)
From stdpp Require Import base tactics list strings gmap.
From Stdlib Require Import ZArith Lia.
From S2P Require Import Prelude Impersonation.

Local Open Scope Z_scope.

(** What an authenticator says of a request: an error, a user, or that it does
    not know the request. *)
Definition answer : Type := result string (option UserInfo).

Section authenticators.
Context {R : Type}.

Definition authenticator : Type := R -> answer.

(** A nil interface value: its method cannot be called. *)
Definition nil_authenticator : authenticator := fun _ => Panic.

Definition rejects (r : R) (a : authenticator) : Prop := a r = Ok None \/ exists e, a r = Err e.

End authenticators.
Arguments authenticator R : clear implicits.

(** The authenticators of k8s.io/apiserver.  [VerifyOptions] and
    [SNIVerifyOptions] are the providers of certificates, [TokenAuth] the
    authenticators of tokens. *)
Class Authenticators (R : Type) := {
  VerifyOptions : Type;
  SNIVerifyOptions : Type;
  RequestHeaderConfig : Type;
  TokenAuth : Type;
  headerrequest_New : RequestHeaderConfig -> authenticator R;
  x509_NewSNIDynamic : SNIVerifyOptions -> option VerifyOptions -> authenticator R;
  x509_NewDynamic : VerifyOptions -> authenticator R;
  bearertoken_New : TokenAuth -> authenticator R;
  websocket_New : TokenAuth -> authenticator R;
  anonymous_New : authenticator R;
  AuthenticatedGroupAdder : authenticator R -> authenticator R;
  union_New : list (authenticator R) -> authenticator R;
  union_NewFailOnError : list (authenticator R) -> authenticator R
}.

(** Their documented behaviour: a union tries the whole chain until one
    succeeds and fails with the errors of all otherwise; the other kind of
    union stops at the first error; the group of authenticated users is added
    to every user but the anonymous one and those marked as unauthenticated;
    every request can be anonymous. *)
Class AuthenticatorLaws `{ImpersonationNames} (R : Type) `{!Authenticators R} := {
  union_first : forall r pre a post u,
    Forall (rejects r) pre -> a r = Ok (Some u) -> union_New (pre ++ a :: post) r = Ok (Some u);
  union_none : forall r l, Forall (fun a => a r = Ok None) l -> union_New l r = Ok None;
  union_error : forall r l, Forall (rejects r) l -> Exists (fun a => exists e, a r = Err e) l ->
    exists e, union_New l r = Err e;
  fail_on_error_stops : forall r a l, (a r <> Ok None) -> union_NewFailOnError (a :: l) r = a r;
  fail_on_error_next : forall r a l, a r = Ok None -> union_NewFailOnError (a :: l) r = union_NewFailOnError l r;
  with_group : UserInfo -> UserInfo;
  group_added : forall a r u, a r = Ok (Some u) -> AuthenticatedGroupAdder a r = Ok (Some (with_group u));
  group_rejected : forall a r, (forall u, a r <> Ok (Some u)) -> AuthenticatedGroupAdder a r = a r;
  group_user : forall u, ui_Name (with_group u) = ui_Name u;
  group_groups : forall u g, g ∈ ui_Groups u -> g ∈ ui_Groups (with_group u);
  group_authenticated : forall u, ui_Name u <> Anonymous -> AllUnauthenticated ∉ ui_Groups u ->
    AllAuthenticated ∈ ui_Groups (with_group u);
  anonymous_user : forall r, exists u, anonymous_New r = Ok (Some u) /\ ui_Name u = Anonymous
}.

(** * The configuration *)

Section config.
Context {R : Type} `{!Authenticators R}.

Record ClientCertAuthenticationConfig := MkClientCert {
  cca_CAContentProvider : option VerifyOptions;
  cca_SNIVerifyOptionsPorvider : option SNIVerifyOptions
}.

Definition ClientCert_New (c : option ClientCertAuthenticationConfig) : authenticator R :=
  match c with
  | None => nil_authenticator
  | Some c =>
      match cca_CAContentProvider c, cca_SNIVerifyOptionsPorvider c with
      | Some ca, Some sni => x509_NewSNIDynamic sni (Some ca)
      | Some ca, None => x509_NewDynamic ca
      | None, Some sni => x509_NewSNIDynamic sni None
      | None, None => nil_authenticator
      end
  end.

(** [P] are the providers of clients of clusters; [token_review] is
    [NewMultiClusterTokenReviewAuthenticator] (the authenticator of
    Delegation.v) on a provider, the lives of its answers and the audiences. *)
Context {P : Type} (token_review : P -> Z -> Z -> list string -> TokenAuth).

Record AuthenricatorConfig := MkAuthenricatorConfig {
  ac_RequestHeaderConfig : option RequestHeaderConfig;
  ac_ClientCert : option ClientCertAuthenticationConfig;
  ac_TokenSuccessCacheTTL : Z;
  ac_TokenFailureCacheTTL : Z;
  ac_APIAudiences : list string;
  ac_TokenRequest : option (option P);
  ac_Anonymous : bool
}.

(** The methods that are configured, in the order they are tried. *)
Definition configured (c : AuthenricatorConfig) : list (authenticator R) :=
  match ac_RequestHeaderConfig c with Some h => [headerrequest_New h] | None => [] end ++
  match ac_ClientCert c with Some cc => [ClientCert_New (Some cc)] | None => [] end ++
  match ac_TokenRequest c with
  | Some (Some p) =>
      let tokenAuth := token_review p (ac_TokenSuccessCacheTTL c) (ac_TokenFailureCacheTTL c) (ac_APIAudiences c) in
      [bearertoken_New tokenAuth; websocket_New tokenAuth]
  | _ => []
  end.

Definition AuthenricatorConfig_New (c : AuthenricatorConfig) : string + authenticator R :=
  let authenticators := configured c in
  if decide (authenticators = []) then
    if ac_Anonymous c then inr anonymous_New else inl "No authentication method configured"
  else
    let authenticator := AuthenticatedGroupAdder (union_New authenticators) in
    inr (if ac_Anonymous c then union_NewFailOnError [authenticator; anonymous_New] else authenticator).

(** * The options *)

Record AuthenticationOptions := MkAuthenticationOptions {
  ao_TokenSuccessCacheTTL : Z;
  ao_TokenFailureCacheTTL : Z
}.

Definition NewAuthenticationOptions : AuthenticationOptions := MkAuthenticationOptions (600 * Second) (10 * Second).

(** What the configuration of the control plane has: audiences, the provider
    of its client certificates, its request headers. *)
Record controlplane_authentication := MkControlplane {
  cp_APIAudiences : list string;
  cp_ClientCert : option (option VerifyOptions);
  cp_RequestHeaderConfig : option RequestHeaderConfig
}.

Definition ToAuthenticationConfig (o : option AuthenticationOptions) (cp : controlplane_authentication)
    (sniVerifyOptionsProvider : option SNIVerifyOptions) (clientProvider : option P) : option AuthenricatorConfig :=
  match o with
  | None => None
  | Some o =>
      let clientCert := (fun ca => MkClientCert ca None) <$> cp_ClientCert cp in
      let clientCert :=
        match sniVerifyOptionsProvider with
        | Some sni => Some (MkClientCert (clientCert ≫= cca_CAContentProvider) (Some sni))
        | None => clientCert
        end in
      Some (MkAuthenricatorConfig (cp_RequestHeaderConfig cp) clientCert (ao_TokenSuccessCacheTTL o)
              (ao_TokenFailureCacheTTL o) (cp_APIAudiences cp) (Some <$> clientProvider) true)
  end.

(** * Who a request is served as *)

Context `{Hnames : ImpersonationNames} `{!AuthenticatorLaws R}.

Definition accepted_first (r : R) (l : list (authenticator R)) (u : UserInfo) : Prop :=
  exists pre a post, l = pre ++ a :: post /\ Forall (rejects r) pre /\ a r = Ok (Some u).

Lemma first_answer r l :
  Forall (fun a => a r <> Panic) l ->
  (exists u, accepted_first r l u) \/ Forall (fun a => a r = Ok None) l \/
  (Forall (rejects r) l /\ Exists (fun a => exists e, a r = Err e) l).
Proof.
  induction 1 as [|a l Ha _ IH]; [by right; left|].
  assert (Hcase : (exists u, a r = Ok (Some u)) \/ a r = Ok None \/ exists e, a r = Err e)
    by (destruct (a r) as [[u|]|e|]; naive_solver).
  destruct Hcase as [[u Hu]|Hrej]; [left; exists u, [], a, l; by repeat split|].
  assert (rejects r a) by (unfold rejects; naive_solver).
  destruct IH as [(u & pre & b & post & -> & Hpre & Hb)|[Hl|[Hl He]]].
  - left. exists u, (a :: pre), b, post. repeat split; [by constructor|done].
  - destruct Hrej as [Hn|He]; [right; left; by constructor|right; right]. split; [|by left].
    constructor; [done|]. eapply Forall_impl; [exact Hl|]. intros b Hb. by left.
  - right; right. split; [by constructor|by right].
Qed.

Lemma union_accepts r l u : accepted_first r l u -> union_New l r = Ok (Some u).
Proof. intros (pre & a & post & -> & Hpre & Ha). by apply union_first. Qed.

(** What the chain answers when there are methods and anonymous requests are
    let through. *)
Inductive chain_answer (r : R) (l : list (authenticator R)) : answer -> Prop :=
  | answer_user u : accepted_first r l u -> chain_answer r l (Ok (Some (with_group u)))
  | answer_anonymous u : Forall (fun a => a r = Ok None) l -> ui_Name u = Anonymous -> chain_answer r l (Ok (Some u))
  | answer_error e : Forall (rejects r) l -> Exists (fun a => exists e, a r = Err e) l -> chain_answer r l (Err e).

Lemma anonymous_last a r :
  exists u, ui_Name u = Anonymous /\ (a r = Ok None -> union_NewFailOnError [a; anonymous_New] r = Ok (Some u)).
Proof.
  destruct (anonymous_user r) as (u & Hu & Hname). exists u. split; [done|]. intros Ha.
  rewrite (fail_on_error_next r a [anonymous_New] Ha), (fail_on_error_stops r anonymous_New []); [done|].
  by rewrite Hu.
Qed.

Lemma New_answers c f r :
  ac_Anonymous c = true -> configured c <> [] -> AuthenricatorConfig_New c = inr f ->
  Forall (fun a => a r <> Panic) (configured c) -> chain_answer r (configured c) (f r).
Proof.
  intros Hanon Hne. unfold AuthenricatorConfig_New. rewrite decide_False, Hanon by done.
  intros Hf%(inj inr) Hp. subst f.
  set (g := AuthenticatedGroupAdder (union_New (configured c))).
  pose proof (fail_on_error_stops r g [anonymous_New]) as Hstop.
  destruct (first_answer r _ Hp) as [[u Hu]|[Hnone|[Hrej Herr]]].
  - assert (Hg : g r = Ok (Some (with_group u))) by (by apply group_added, union_accepts).
    refine (eq_ind_r (chain_answer r _) _ (eq_trans (Hstop _) Hg)); [by constructor|by rewrite Hg].
  - assert (Hg : g r = Ok None) by (unfold g; by rewrite group_rejected; rewrite union_none).
    destruct (anonymous_last g r) as (u & Hname & Hu).
    refine (eq_ind_r (chain_answer r _) _ (Hu Hg)). by apply answer_anonymous.
  - destruct (union_error r _ Hrej Herr) as [e He].
    assert (Hg : g r = Err e) by (unfold g; by rewrite group_rejected; rewrite He).
    refine (eq_ind_r (chain_answer r _) _ (eq_trans (Hstop _) Hg)); [by apply answer_error|by rewrite Hg].
Qed.

(** C12: The authenticator of the proxy, as built from the options with the
    controller of clusters as the provider of certificates and clients: it
    serves a request as the user of the first method that knows it, out of
    request headers, client certificates, bearer and websocket tokens in that
    order, with the name and the groups the method gave and the group of
    authenticated users; as anonymous only if no method knows it and none
    fails; a request on which a method fails and that none knows is refused.
    No method of the chain is nil. *)
Theorem proxy_authenticates o cp sni p c r :
  ToAuthenticationConfig (Some o) cp (Some sni) (Some p) = Some c ->
  Forall (fun a => a r <> Panic) (configured c) ->
  configured c =
     match cp_RequestHeaderConfig cp with Some h => [headerrequest_New h] | None => [] end ++
     [x509_NewSNIDynamic sni (mjoin (cp_ClientCert cp));
      bearertoken_New (token_review p (ao_TokenSuccessCacheTTL o) (ao_TokenFailureCacheTTL o) (cp_APIAudiences cp));
      websocket_New (token_review p (ao_TokenSuccessCacheTTL o) (ao_TokenFailureCacheTTL o) (cp_APIAudiences cp))] /\
  exists f, AuthenricatorConfig_New c = inr f /\ f r <> Ok None /\
    (forall v, f r = Ok (Some v) -> ui_Name v <> Anonymous ->
       exists u, accepted_first r (configured c) u /\ ui_Name v = ui_Name u /\
         (forall g, g ∈ ui_Groups u -> g ∈ ui_Groups v) /\
         (AllUnauthenticated ∉ ui_Groups u -> AllAuthenticated ∈ ui_Groups v)) /\
    (forall u, accepted_first r (configured c) u -> f r = Ok (Some (with_group u))) /\
    (Forall (fun a => a r = Ok None) (configured c) -> exists u, f r = Ok (Some u) /\ ui_Name u = Anonymous) /\
    (Forall (rejects r) (configured c) -> Exists (fun a => exists e, a r = Err e) (configured c) ->
       exists e, f r = Err e).
Proof.
  unfold ToAuthenticationConfig. intros [= <-] Hp. set (c := MkAuthenricatorConfig _ _ _ _ _ _ _) in *.
  split; [by destruct (cp_ClientCert cp) as [[?|]|]|].
  assert (Hne : configured c <> []) by (unfold configured; cbn; by destruct (cp_RequestHeaderConfig cp)).
  destruct (AuthenricatorConfig_New c) as [e|f] eqn:Hf;
    [unfold AuthenricatorConfig_New in Hf; by rewrite decide_False in Hf|].
  exists f. split; [done|]. pose proof (New_answers c f r eq_refl Hne Hf Hp) as Hans. clear Hf.
  repeat split.
  - by destruct Hans.
  - intros v Hv Hname. destruct Hans as [u Hu|u Hn Ha|e Hr He]; simplify_eq. exists u.
    rewrite group_user in *. auto using group_groups, group_authenticated.
  - intros u Hu. pose proof (union_accepts _ _ _ Hu) as Hun.
    destruct Hans as [u' Hu'|u' Hn Ha|e Hr He].
    + apply union_accepts in Hu'. congruence.
    + by rewrite union_none in Hun.
    + destruct (union_error _ _ Hr He). congruence.
  - intros Hn. pose proof (union_none _ _ Hn) as Hun.
    destruct Hans as [u' Hu'|u' _ Ha|e Hr He]; [|by eauto|].
    + apply union_accepts in Hu'. congruence.
    + destruct (union_error _ _ Hr He). congruence.
  - intros Hr He. destruct (union_error _ _ Hr He) as [e Hun].
    destruct Hans as [u' Hu'|u' Hn Ha|]; [| |by eauto].
    + apply union_accepts in Hu'. congruence.
    + by rewrite union_none in Hun.
Qed.
End config.

(** * An instance *)

Module AuthenticationExample.
#[local] Existing Instance ImpersonationExample.names.

(** Of a request: the user its front proxy vouches for, that of its
    certificate and its token. *)
Record request := MkRequest { rq_front : option string; rq_cert : option string; rq_token : option string }.

Definition known (name : option string) : answer := Ok ((fun n => MkUser n ["users"] ∅) <$> name).

(** A token is reviewed; the review of the token [broken] fails. *)
Definition reviewed (r : request) : answer :=
  if decide (rq_token r = Some "broken") then Err "review failed" else known (rq_token r).

Fixpoint union_any (errs : list string) (l : list (authenticator request)) (r : request) : answer :=
  match l with
  | [] => match errs with [] => Ok None | e :: _ => Err e end
  | a :: l =>
      match a r with
      | Ok (Some u) => Ok (Some u)
      | Ok None => union_any errs l r
      | Err e => union_any (errs ++ [e]) l r
      | Panic => Panic
      end
  end.

Fixpoint union_strict (l : list (authenticator request)) (r : request) : answer :=
  match l with
  | [] => Ok None
  | a :: l => match a r with Ok None => union_strict l r | x => x end
  end.

Definition grouped (u : UserInfo) : UserInfo :=
  if decide (ui_Name u = Anonymous \/ AllUnauthenticated ∈ ui_Groups u) then u
  else MkUser (ui_Name u) (ui_Groups u ++ [AllAuthenticated]) (ui_Extra u).

#[local] Instance methods : Authenticators request := {|
  VerifyOptions := unit; SNIVerifyOptions := unit; RequestHeaderConfig := unit; TokenAuth := unit;
  headerrequest_New _ r := known (rq_front r);
  x509_NewSNIDynamic _ _ r := known (rq_cert r);
  x509_NewDynamic _ r := known (rq_cert r);
  bearertoken_New _ r := reviewed r;
  websocket_New _ r := Ok None;
  anonymous_New r := Ok (Some (MkUser Anonymous [AllUnauthenticated] ∅));
  AuthenticatedGroupAdder a r := match a r with Ok (Some u) => Ok (Some (grouped u)) | x => x end;
  union_New := union_any [];
  union_NewFailOnError := union_strict
|}.

Lemma union_any_first errs r pre a post u :
  Forall (rejects r) pre -> a r = Ok (Some u) -> union_any errs (pre ++ a :: post) r = Ok (Some u).
Proof.
  intros Hpre Ha. revert errs. induction Hpre as [|b pre [Hb|[e Hb]] _ IH]; intros errs; cbn;
    [by rewrite Ha|by rewrite Hb|by rewrite Hb].
Qed.

Lemma union_any_none errs r l :
  Forall (fun a => a r = Ok None) l -> union_any errs l r = match errs with [] => Ok None | e :: _ => Err e end.
Proof. induction 1 as [|b l Hb _ IH]; cbn; [done|by rewrite Hb]. Qed.

Lemma union_any_error errs r l :
  Forall (rejects r) l -> errs <> [] \/ Exists (fun a => exists e, a r = Err e) l -> exists e, union_any errs l r = Err e.
Proof.
  intros Hl. revert errs. induction Hl as [|b l Hb _ IH]; intros errs Hor; cbn.
  - destruct errs as [|e errs]; [|by exists e]. destruct Hor as [|Hx]; [done|by apply Exists_nil in Hx].
  - destruct Hb as [Hb|[e Hb]]; rewrite Hb; apply IH; [|left; by destruct errs].
    destruct Hor as [|Hx]; [by left|]. apply Exists_cons in Hx as [[e He]|Hx]; [congruence|by right].
Qed.

#[local] Instance methods_laws : AuthenticatorLaws request.
Proof.
  refine {| with_group := grouped |}.
  - intros. by apply union_any_first.
  - intros. by apply union_any_none.
  - intros. apply union_any_error; auto.
  - intros r a l Ha. cbn. by destruct (a r) as [[u|]|e|].
  - intros r a l Ha. cbn. by rewrite Ha.
  - intros a r u Ha. cbn. by rewrite Ha.
  - intros a r Ha. cbn. destruct (a r) as [[u|]|e|]; naive_solver.
  - intros u. unfold grouped. by case_decide.
  - intros u g Hg. unfold grouped. case_decide; [done|]. cbn. set_solver.
  - intros u Hn Hg. unfold grouped. rewrite decide_False by naive_solver. cbn. set_solver.
  - intros r. by eexists.
Defined.

Definition config : AuthenricatorConfig :=
  MkAuthenricatorConfig (P := unit) (Some tt) (Some (MkClientCert (Some tt) (Some tt))) (600 * Second) (10 * Second) [] (Some (Some tt)) true.

Definition controlplane (ca : option VerifyOptions) : controlplane_authentication :=
  MkControlplane [] (Some ca) (Some tt).

Definition review : unit -> Z -> Z -> list string -> TokenAuth := fun _ _ _ _ => tt.

(** A request with a certificate, whose token cannot be reviewed, is served as
    the user of the certificate; without the certificate it is refused, not
    anonymous. *)
Lemma proxy_authenticates_witness :
  exists f, AuthenricatorConfig_New review config = inr f /\
    f (MkRequest None (Some "ann") (Some "broken")) <> Ok None /\
    exists u, f (MkRequest None (Some "ann") (Some "broken")) = Ok (Some u) /\ ui_Name u = "ann".
Proof.
  destruct (proxy_authenticates review NewAuthenticationOptions (controlplane (Some tt)) tt tt
    config (MkRequest None (Some "ann") (Some "broken")) eq_refl) as (_ & f & Hf & Hn & _ & Hfirst & _).
  { repeat (apply Forall_cons; split; [discriminate|]). by apply Forall_nil. }
  exists f. split; [exact Hf|]. split; [exact Hn|]. exists (grouped (MkUser "ann" ["users"] ∅)).
  split; [|reflexivity]. apply Hfirst.
  eexists [_], _, [_; _]. split; [reflexivity|]. split; [|reflexivity]. apply Forall_cons. split; [by left|by apply Forall_nil].
Defined.

Lemma broken_token_refused :
  exists f e, AuthenricatorConfig_New review config = inr f /\ f (MkRequest None None (Some "broken")) = Err e.
Proof. eexists _, _. split; reflexivity. Qed.

(** A control plane with client certificates but no provider of them, and no
    provider by server name, makes the chain call a nil authenticator. *)
Lemma nil_certificate_provider :
  exists c f, ToAuthenticationConfig (Some NewAuthenticationOptions) (controlplane None) None (Some tt) = Some c /\
    AuthenricatorConfig_New review c = inr f /\ f (MkRequest None None None) = Panic.
Proof. eexists _, _. repeat split; reflexivity. Qed.
End AuthenticationExample.
