(* ===== verification/Options.v ===== *)
(** Options of the processes: which ports the control plane, the proxy and the
    rate limiter accept, and what they listen on once they are applied
    ([pkg/gateway/controlplane/options], [pkg/gateway/proxy/options],
    [pkg/ratelimiter/options], [cmd/kube-gateway/app/options]).

    The pointers inside of the options are set by their constructors; an
    embedded struct is part of its struct, so a deep copy is the value. *)
From stdpp Require Import base tactics list strings gmap sets.
From Stdlib Require Import ZArith SpecFloat Lia.
From S2P Require Import Prelude Float64.

Local Open Scope Z_scope.
Local Open Scope go_scope.

(** One attempt to listen; [net.JoinHostPort] is kept as its arguments. *)
Record listen_call := MkListen {
  lc_reuse : bool;
  lc_network : string;
  lc_host : string;
  lc_port : Z
}.

Inductive Listener :=
  | Bound (call : listen_call) (port : Z)
  | ProxyProto (l : Listener)
  | Aggregated (ls : list Listener).

(** What serving options have of k8s.io/apiserver, with the repository's own
    fields last; [so_ServerCert] stands for the files of its certificates. *)
Record SecureServingOptions := MkServing {
  so_BindAddress : string;
  so_BindNetwork : string;
  so_BindPort : Z;
  so_Listener : option Listener;
  so_Required : bool;
  so_ServerCert : string;
  so_ReusePort : bool;
  so_OtherPorts : list Z;
  so_LoopbackClientToken : string
}.

Definition so_with_listener (s : SecureServingOptions) (l : option Listener) (address : string) (port : Z)
    : SecureServingOptions :=
  MkServing address (so_BindNetwork s) port l (so_Required s) (so_ServerCert s) (so_ReusePort s)
    (so_OtherPorts s) (so_LoopbackClientToken s).

(** Of [rest.Config]. *)
Record loopback := MkLoopback {
  lb_Insecure : bool;
  lb_CAData : string;
  lb_BearerToken : string
}.

(** The operating system through go-reuseport and k8s.io/apiserver, after the
    calls made so far: the port that was bound ([None] where the address is
    not one of TCP) or an error; and the generic options: their validation,
    the error their certificates give, the client for the own server, and
    the listener of golib around several. *)
Class ServingSystem := {
  reuseport_Listen : list listen_call -> listen_call -> string + option Z;
  CreateListener : list listen_call -> listen_call -> string + Z;
  generic_Validate : SecureServingOptions -> list string;
  load_certificates : string -> option string;
  generic_loopback : SecureServingOptions -> loopback;
  NewAggregatedListener : list (option Listener) -> string + Listener;
  generic_ApplyTo : list listen_call -> SecureServingOptions ->
    string + (list listen_call * option Listener * string * Z)
}.

(** Documented: the port of valid options is in range, and 0 turns serving
    off; without a listener one is created on the port, and a given one is kept with
    the address it has; an aggregate of
    listeners is made of all of them. *)
Class ServingSystemLaws `{ServingSystem} := {
  generic_port : forall s, generic_Validate s = [] -> 0 <= so_BindPort s <= 65535;
  apply_off : forall log s, so_BindPort s <= 0 -> so_Listener s = None ->
    generic_ApplyTo log s = inr (log, None, so_BindAddress s, so_BindPort s);
  apply_listener : forall log s l, so_Listener s = Some l -> load_certificates (so_ServerCert s) = None ->
    exists address port, generic_ApplyTo log s = inr (log, Some l, address, port);
  apply_creates : forall log s, 0 < so_BindPort s -> so_Listener s = None ->
    let call := MkListen false (so_BindNetwork s) (so_BindAddress s) (so_BindPort s) in
    generic_ApplyTo log s =
      match CreateListener log call with
      | inl e => inl ("failed to create listener: " +:+ e)
      | inr port =>
          match load_certificates (so_ServerCert s) with
          | Some e => inl e
          | None => inr (log ++ [call], Some (Bound call port), so_BindAddress s, port)
          end
      end;
  aggregated : forall ls, NewAggregatedListener (Some <$> ls) = inr (Aggregated ls)
}.

Section options.
Context `{ServingSystem}.

(** * The control plane *)

(** The ports of a flag, with the ports used before them.  The messages of
    errors are kept without the ports and addresses they name. *)
Fixpoint check_ports (duplicate range : string) (usedPorts : list Z) (ports : list Z) : list string :=
  match ports with
  | [] => []
  | port :: ports =>
      (if (port <? 1) || (65535 <? port) then [range] else []) ++
      (if decide (port ∈ usedPorts) then duplicate :: check_ports duplicate range usedPorts ports
       else check_ports duplicate range (port :: usedPorts) ports)
  end.

Definition SecureServing_Validate (s : SecureServingOptions) : list string :=
  (if so_ReusePort s && bool_decide (so_LoopbackClientToken s = "")
   then ["--loopback-client-token must be set when reuse port is enabled"] else []) ++
  check_ports "port in --orther-secure-ports is duplicate"
    "port in --orther-secure-ports must be between 1 and 65535, inclusive. It cannot be turned off with 0"
    [so_BindPort s] (so_OtherPorts s) ++
  generic_Validate s.

Definition CreateReusePortListener (log : list listen_call) (network host : string) (port : Z)
    : string + (list listen_call * Listener * Z) :=
  let network := if decide (network = "") then "tcp" else network in
  let call := MkListen true network host port in
  match reuseport_Listen log call with
  | inl e => inl ("failed to listen: " +:+ e)
  | inr None => inl "invalid listen address"
  | inr (Some port) => inr (log ++ [call], Bound call port, port)
  end.

Definition wrapProxyProtoListener (l : Listener) : Listener := ProxyProto l.

(** One more port, and the loop over all of them. *)
Definition listen_other (log : list listen_call) (s : SecureServingOptions) (port : Z)
    : string + (list listen_call * Listener * Z) :=
  if so_ReusePort s then CreateReusePortListener log (so_BindNetwork s) (so_BindAddress s) port
  else
    let call := MkListen false (so_BindNetwork s) (so_BindAddress s) port in
    match CreateListener log call with
    | inl e => inl e
    | inr port => inr (log ++ [call], Bound call port, port)
    end.

Fixpoint listen_others (log : list listen_call) (s : SecureServingOptions) (ports : list Z)
    : string + (list listen_call * list Listener) :=
  match ports with
  | [] => inr (log, [])
  | port :: ports =>
      match listen_other log s port with
      | inl e => inl ("failed to create listener: " +:+ e)
      | inr (log, l, _) =>
          match listen_others log s ports with
          | inl e => inl e
          | inr (log, ls) => inr (log, wrapProxyProtoListener l :: ls)
          end
      end
  end.

(** What is left after applying options: the calls, the options, the listener
    of the server ([None]: there is no serving info) and its own client. *)
Record applied := MkApplied {
  ap_log : list listen_call;
  ap_options : SecureServingOptions;
  ap_info : option Listener;
  ap_loopback : option loopback
}.

Definition reused_loopback (s : SecureServingOptions) (l : loopback) : loopback :=
  MkLoopback true "" (so_LoopbackClientToken s).

(** [loopbackClientConfig] is whether a place for the client is given. *)
Definition SecureServing_ApplyTo (log : list listen_call) (s : SecureServingOptions) (loopbackClientConfig : bool)
    : result string applied :=
  let reused :=
    if so_ReusePort s then
      match CreateReusePortListener log (so_BindNetwork s) (so_BindAddress s) (so_BindPort s) with
      | inl e => inl ("failed to create listener: " +:+ e)
      | inr (log, l, port) => inr (log, so_with_listener s (Some (wrapProxyProtoListener l)) (so_BindAddress s) port)
      end
    else inr (log, s) in
  match reused with
  | inl e => Err e
  | inr (log, s) =>
      match generic_ApplyTo log s with
      | inl e => Err e
      | inr (log, info, address, port) =>
          let s := so_with_listener s info address port in
          let client := if loopbackClientConfig && bool_decide (is_Some info) then Some (generic_loopback s) else None in
          let client := if so_ReusePort s then reused_loopback s <$> client else client in
          if decide (so_OtherPorts s = []) then Ok (MkApplied log s info client)
          else
            match listen_others log s (so_OtherPorts s) with
            | inl e => Err e
            | inr (log, ls) =>
                match NewAggregatedListener (so_Listener s :: (Some <$> ls)) with
                | inl e => Err e
                | inr aggregate =>
                    match info with
                    | None => Panic
                    | Some _ => Ok (MkApplied log (so_with_listener s (Some aggregate) address port) (Some aggregate) client)
                    end
                end
            end
      end
  end.

(** * The proxy *)

Definition proxy_ValidateWith (Ports : list Z) (controlplane : SecureServingOptions) : list string :=
  (if decide (Ports = []) then ["--proxy-secure-ports must be set"] else []) ++
  check_ports "ports in --proxy-secure-ports is duplicate in --secure-port or --other-secure-ports"
    "ports in --proxy-secure-ports must be between 1 and 65535, inclusive. It cannot be turned off with 0"
    (so_BindPort controlplane :: so_OtherPorts controlplane) Ports.

Definition proxy_options (port : Z) (others : list Z) (s : SecureServingOptions) : SecureServingOptions :=
  MkServing (so_BindAddress s) (so_BindNetwork s) port None true (so_ServerCert s) (so_ReusePort s) others
    (so_LoopbackClientToken s).

(** [s.Ports[0]] of no ports is out of range. *)
Definition proxy_ApplyTo (log : list listen_call) (Ports : list Z) (controlplane : SecureServingOptions)
    : result string applied :=
  match Ports with
  | [] => Panic
  | port :: others => SecureServing_ApplyTo log (proxy_options port others controlplane) false
  end.

Record ServerRunOptions := MkServerRun {
  sr_MaxInflightThreshold : Z;
  sr_MaxQPSThreshold : Z;
  sr_MaxThroughputMBThreshold : Z;
  sr_GoawayChance : float64
}.

Definition ServerRun_Validate (s : ServerRunOptions) : list string :=
  (if fltb (sr_GoawayChance s) (S754_zero false) then ["--proxy-goaway-chance can not be less than 0"] else []) ++
  (if sr_MaxInflightThreshold s <? 0 then ["--proxy-max-inflight-threshold can not be less than 0"] else []) ++
  (if sr_MaxQPSThreshold s <? 0 then ["--proxy-max-qps-threshold can not be less than 0"] else []) ++
  (if sr_MaxThroughputMBThreshold s <? 0 then ["--proxy-max-throughput-mb-threshold can not be less than 0"] else []).

(** The gateway: [recommended] and [others] are the errors of the options of
    k8s.io, before and after those of serving; the options of the proxy on
    authentication and authorisation have none. *)
Definition Options_Validate (recommended others : list string) (s : SecureServingOptions) (Ports : list Z)
    (sr : ServerRunOptions) : list string :=
  recommended ++ SecureServing_Validate s ++ others ++ proxy_ValidateWith Ports s ++ ServerRun_Validate sr.

(** The control plane listens first, then the proxy. *)
Definition listen_all (s : SecureServingOptions) (Ports : list Z) : result string (applied * applied) :=
  let! controlplane := SecureServing_ApplyTo [] s true in
  let! proxy := proxy_ApplyTo (ap_log controlplane) Ports (ap_options controlplane) in
  Ok (controlplane, proxy).

(** * The rate limiter *)

Definition ratelimiter_ValidateWith (SecurePort : Z) (controlPlane : SecureServingOptions) (enableControlPlane : bool)
    : list string :=
  let controlPlanePort := so_BindPort controlPlane in
  (if 65535 <? SecurePort then ["ports in --ratelimiter-secure-port must be between 1 and 65535"] else []) ++
  (if enableControlPlane && ((controlPlanePort <=? 0) || (65535 <? controlPlanePort))
   then ["if --enable-controlplane=true, ports in --secure-port must be between 1 and 65535"] else []) ++
  (if (0 <? controlPlanePort) && (controlPlanePort =? SecurePort)
   then ["ports in --ratelimiter-secure-port is duplicate in --secure-port"] else []).

(** Its own options are a copy of those of the control plane, applied by
    k8s.io/apiserver. *)
Definition ratelimiter_ApplyTo (log : list listen_call) (SecurePort : Z) (controlPlane : SecureServingOptions)
    : string + (list listen_call * option Listener * string * Z) :=
  generic_ApplyTo log (so_with_listener controlPlane None (so_BindAddress controlPlane) SecurePort).

(** * What valid options lead to *)

Definition in_range (port : Z) : Prop := 1 <= port <= 65535.

Definition ports_of (log : list listen_call) : list Z := lc_port <$> log.

Lemma check_ports_nil duplicate range used ports :
  check_ports duplicate range used ports = [] ->
  Forall in_range ports /\ NoDup ports /\ Forall (fun p => p ∉ used) ports.
Proof.
  revert used. induction ports as [|p ports IH]; intros used; [by repeat constructor|]. cbn [check_ports].
  intros [Hr Hd]%app_eq_nil. case_decide as Hu; [done|]. destruct (IH _ Hd) as (Hf & Hn & Hused).
  assert (Hp : in_range p) by (unfold in_range; destruct (p <? 1) eqn:E1, (65535 <? p) eqn:E2; try done; bool_to_prop; lia).
  repeat split; [by constructor| |].
  - constructor; [|done]. intros Hin. rewrite Forall_forall in Hused. specialize (Hused p Hin). set_solver.
  - constructor; [done|]. eapply Forall_impl; [exact Hused|]. set_solver.
Qed.

Context `{!ServingSystemLaws}.

(** Nobody else listens on the ports, and the system binds what it is asked
    for. *)
Definition ports_free : Prop := forall log call, in_range (lc_port call) -> lc_port call ∉ ports_of log ->
  reuseport_Listen log call = inr (Some (lc_port call)) /\ CreateListener log call = inr (lc_port call).

Section free.
Context (Hfree : ports_free).

Definition adds (log log' : list listen_call) (reuse : bool) (ports : list Z) : Prop :=
  exists calls, log' = log ++ calls /\ ports_of calls = ports /\ Forall (fun c => lc_reuse c = reuse) calls.

Lemma adds_one log reuse network host port : adds log (log ++ [MkListen reuse network host port]) reuse [port].
Proof. eexists. repeat split. by repeat constructor. Qed.

Lemma adds_trans log log' log'' reuse ports ports' :
  adds log log' reuse ports -> adds log' log'' reuse ports' -> adds log log'' reuse (ports ++ ports').
Proof.
  intros (c & -> & <- & Hc) (c' & -> & <- & Hc'). exists (c ++ c'). rewrite app_assoc. split; [done|].
  unfold ports_of. by rewrite fmap_app, Forall_app.
Qed.

Lemma adds_ports log log' reuse ports : adds log log' reuse ports -> ports_of log' = ports_of log ++ ports.
Proof. intros (c & -> & <- & _). apply fmap_app. Qed.

Lemma CreateReuse_ok log network host port :
  in_range port -> port ∉ ports_of log ->
  exists log' l, CreateReusePortListener log network host port = inr (log', l, port) /\ adds log log' true [port].
Proof.
  intros Hp Hl. unfold CreateReusePortListener.
  rewrite (proj1 (Hfree log (MkListen true _ host port) Hp Hl)). eexists _, _. split; [done|]. apply adds_one.
Qed.

Lemma listen_other_ok log s port :
  in_range port -> port ∉ ports_of log ->
  exists log' l, listen_other log s port = inr (log', l, port) /\ adds log log' (so_ReusePort s) [port].
Proof.
  intros Hp Hl. unfold listen_other. destruct (so_ReusePort s); [by apply CreateReuse_ok|]. cbv zeta.
  rewrite (proj2 (Hfree log (MkListen false _ _ port) Hp Hl)). eexists _, _. split; [done|]. apply adds_one.
Qed.

Lemma listen_others_ok log s ports :
  Forall in_range ports -> NoDup ports -> Forall (fun p => p ∉ ports_of log) ports ->
  exists log' ls, listen_others log s ports = inr (log', ls) /\ adds log log' (so_ReusePort s) ports.
Proof.
  intros Hr Hn. revert log. induction Hn as [|p ports Hp Hn IH]; intros log Hl.
  { exists log, []. split; [done|]. exists []. rewrite app_nil_r. by repeat constructor. }
  apply Forall_cons in Hr as [Hrp Hr]. apply Forall_cons in Hl as [Hlp Hl]. cbn [listen_others].
  destruct (listen_other_ok log s p Hrp Hlp) as (log' & l & -> & Hadd).
  destruct (IH Hr log') as (log'' & ls & -> & Hadd').
  - rewrite (adds_ports _ _ _ _ Hadd). rewrite Forall_forall in *. set_solver.
  - eexists _, _. split; [done|]. exact (adds_trans _ _ _ _ [p] _ Hadd Hadd').
Qed.

(** Options that were applied, with everything they ask for. *)
Record served (log : list listen_call) (s : SecureServingOptions) (lb : bool) (a : applied) : Prop := MkServed {
  served_log : adds log (ap_log a) (so_ReusePort s) (so_BindPort s :: so_OtherPorts s);
  served_info : is_Some (ap_info a);
  served_reuse : so_ReusePort (ap_options a) = so_ReusePort s;
  served_cert : so_ServerCert (ap_options a) = so_ServerCert s;
  served_loopback : lb = true -> so_ReusePort s = true ->
    ap_loopback a = Some (MkLoopback true "" (so_LoopbackClientToken s))
}.

(** The first port: by the repository where ports are reused, by the generic
    options otherwise. *)
Lemma first_port_ok log s :
  in_range (so_BindPort s) -> so_BindPort s ∉ ports_of log -> so_Listener s = None ->
  load_certificates (so_ServerCert s) = None ->
  exists log' s' l address port,
    (if so_ReusePort s then
       match CreateReusePortListener log (so_BindNetwork s) (so_BindAddress s) (so_BindPort s) with
       | inl e => inl ("failed to create listener: " +:+ e)
       | inr (log, l, port) => inr (log, so_with_listener s (Some (wrapProxyProtoListener l)) (so_BindAddress s) port)
       end
     else inr (log, s)) = inr s' /\
    generic_ApplyTo s'.1 s'.2 = inr (log', Some l, address, port) /\
    adds log log' (so_ReusePort s) [so_BindPort s] /\
    forall l' a' p', so_with_listener s'.2 l' a' p' = so_with_listener s l' a' p'.
Proof.
  intros Hp Hl Hn Hc. destruct (so_ReusePort s).
  - destruct (CreateReuse_ok log (so_BindNetwork s) (so_BindAddress s) _ Hp Hl) as (log' & l & -> & Hadd).
    set (s' := so_with_listener s _ _ _).
    destruct (apply_listener log' s' (wrapProxyProtoListener l) eq_refl Hc) as (address & port & Hg).
    by exists log', (log', s'), (wrapProxyProtoListener l), address, port.
  - eexists _, (log, s), _, _, _. split; [done|]. cbn [fst snd].
    rewrite apply_creates by (unfold in_range in Hp; done || lia). cbv zeta.
    rewrite (proj2 (Hfree log (MkListen false _ _ _) Hp Hl)), Hc. split; [done|]. split; [apply adds_one|done].
Qed.

Lemma ApplyTo_ok log s lb :
  Forall in_range (so_BindPort s :: so_OtherPorts s) -> NoDup (so_BindPort s :: so_OtherPorts s) ->
  Forall (fun p => p ∉ ports_of log) (so_BindPort s :: so_OtherPorts s) -> so_Listener s = None ->
  load_certificates (so_ServerCert s) = None ->
  exists a, SecureServing_ApplyTo log s lb = Ok a /\ served log s lb a.
Proof.
  intros [Hp Hr]%Forall_cons [Hnot Hn]%NoDup_cons [Hl Hls]%Forall_cons Hnone Hc. unfold SecureServing_ApplyTo.
  destruct (first_port_ok log s Hp Hl Hnone Hc) as (log' & [log1 s1] & l & address & port & -> & Hg & Hadd & Hs1).
  cbn [fst snd] in Hg, Hs1. rewrite Hg. cbv zeta. rewrite !Hs1. cbn [so_ReusePort so_OtherPorts so_with_listener so_Listener].
  rewrite bool_decide_true by done. rewrite andb_true_r.
  case_decide as Ho.
  { eexists. split; [done|]. split; cbn; try done; [by rewrite Ho|by intros -> ->]. }
  destruct (listen_others_ok log' (so_with_listener s (Some l) address port) (so_OtherPorts s) Hr Hn) as (log'' & ls & -> & Hadd').
  { rewrite (adds_ports _ _ _ _ Hadd). rewrite Forall_forall in *. set_solver. }
  rewrite (aggregated (l :: ls) : NewAggregatedListener (Some l :: (Some <$> ls)) = _).
  eexists. split; [done|]. split; cbn; try done; [exact (adds_trans _ _ _ _ [_] _ Hadd Hadd')|by intros -> ->].
Qed.

End free.

(** A control plane whose port is turned off passes validation, but with other
    ports it cannot start: there is no serving info to put the listener in. *)
Lemma off_port_never_starts log s lb a :
  so_BindPort s <= 0 -> so_Listener s = None -> so_ReusePort s = false -> so_OtherPorts s <> [] ->
  SecureServing_ApplyTo log s lb <> Ok a.
Proof.
  intros Hp Hl Hr Ho. unfold SecureServing_ApplyTo. rewrite Hr, apply_off by done. cbv zeta.
  cbn [so_OtherPorts so_with_listener so_Listener]. rewrite decide_False by done.
  destruct (listen_others _ _ _) as [e|[log' ls]]; [done|]. by destruct (NewAggregatedListener _).
Qed.

(** A valid port of the rate limiter is not that of the control plane, nor too
    large; it may be negative. *)
Lemma ratelimiter_port SecurePort s enable :
  ratelimiter_ValidateWith SecurePort s enable = [] ->
  SecurePort <= 65535 /\ (0 < so_BindPort s -> SecurePort <> so_BindPort s) /\
  (enable = true -> in_range (so_BindPort s)).
Proof.
  unfold ratelimiter_ValidateWith, in_range. cbv zeta. intros [H1 [H2 H3]%app_eq_nil]%app_eq_nil. repeat split.
  - destruct (Z.ltb_spec 65535 SecurePort); [done|lia].
  - intros Hpos ->. by rewrite (proj2 (Z.ltb_lt _ _) Hpos), Z.eqb_refl in H3.
  - subst enable. destruct (Z.leb_spec (so_BindPort s) 0); [done|lia].
  - subst enable. destruct (Z.leb_spec (so_BindPort s) 0), (Z.ltb_spec 65535 (so_BindPort s)); done || lia.
Qed.
End options.

(** * An instance *)

Module OptionsExample.
(** Nothing else listens. *)
Definition bind (log : list listen_call) (call : listen_call) : string + Z :=
  if decide (lc_port call ∈ lc_port <$> log) then inl "address already in use" else inr (lc_port call).

Definition join (ls : list (option Listener)) : string + Listener :=
  match mapM id ls with Some ls => inr (Aggregated ls) | None => inl "nil listener" end.

Definition apply (log : list listen_call) (s : SecureServingOptions)
    : string + (list listen_call * option Listener * string * Z) :=
  match so_Listener s with
  | Some l => inr (log, Some l, so_BindAddress s, so_BindPort s)
  | None =>
      if so_BindPort s <=? 0 then inr (log, None, so_BindAddress s, so_BindPort s)
      else
        let call := MkListen false (so_BindNetwork s) (so_BindAddress s) (so_BindPort s) in
        match bind log call with
        | inl e => inl ("failed to create listener: " +:+ e)
        | inr port => inr (log ++ [call], Some (Bound call port), so_BindAddress s, port)
        end
  end.

#[local] Instance system : ServingSystem := {|
  reuseport_Listen log call := match bind log call with inl e => inl e | inr port => inr (Some port) end;
  CreateListener := bind;
  generic_Validate s := if (so_BindPort s <? 0) || (65535 <? so_BindPort s) then ["--secure-port"] else [];
  load_certificates _ := None;
  generic_loopback _ := MkLoopback false "own" "random";
  NewAggregatedListener := join;
  generic_ApplyTo := apply
|}.

#[local] Instance system_laws : ServingSystemLaws.
Proof.
  split.
  - intros s. cbn. destruct (Z.ltb_spec (so_BindPort s) 0), (Z.ltb_spec 65535 (so_BindPort s)); done || lia.
  - intros log s Hp Hl. cbn. unfold apply. rewrite Hl. by rewrite (proj2 (Z.leb_le _ _) Hp).
  - intros log s l Hl _. cbn. unfold apply. rewrite Hl. by eexists _, _.
  - intros log s Hp Hl. cbn -[bind]. unfold apply. rewrite Hl. by rewrite (proj2 (Z.leb_gt _ _) Hp).
  - intros ls. cbn. unfold join. replace (mapM id (Some <$> ls)) with (Some ls); [done|].
    symmetry. apply mapM_Some. apply Forall2_fmap_r. by apply Forall_Forall2_diag, Forall_true.
Qed.

Lemma system_free : ports_free.
Proof. intros log call _ Hl. cbn. unfold bind. rewrite decide_False by done. done. Qed.

Definition serving (reuse : bool) (port : Z) (token : string) : SecureServingOptions :=
  MkServing "0.0.0.0" "" port None false "tls.crt" reuse [6444] token.
Definition run_options : ServerRunOptions := MkServerRun 0 0 0 (S754_zero false).


(** The port of the control plane can be taken by one of the proxy only in
    options that are refused. *)
Lemma shared_port_refused : Options_Validate [] [] (serving false 6443 "") [6444] run_options <> [].
Proof. discriminate. Qed.

(** The port 0 is accepted with other ports. *)
Lemma off_port_valid : Options_Validate [] [] (serving false 0 "") [9443] run_options = [].
Proof. reflexivity. Qed.

(** The first port speaks no PROXY protocol where the others do. *)
Lemma first_port_differs :
  exists a c1 c2, SecureServing_ApplyTo [] (serving false 6443 "") false = Ok a /\
    ap_info a = Some (Aggregated [Bound c1 6443; ProxyProto (Bound c2 6444)]).
Proof. eexists _, _, _. split; reflexivity. Qed.

Lemma negative_port_accepted : ratelimiter_ValidateWith (-1) (serving false 6443 "") true = [].
Proof. reflexivity. Qed.
End OptionsExample.
