(* ===== verification/LimiterController.v ===== *)
(** The controller of the rate limiter server
    ([pkg/ratelimiter/limiter/controller/upstream_controller.go]) with the
    server's handler of clusters, driven by the queue. *)
From stdpp Require Import base tactics list strings gmap relations.
From Stdlib Require Import ZArith Lia.
From S2P Require Import Prelude ApiTypes Matching FlowControl GlobalFlowControl LimitStore Float64 Allocation RateLimiter RateLimiterSpec ServerInvariant SyncQueue Reconcile.

Local Open Scope Z_scope.

(** What the queue holds: clusters an informer delivered, or other objects. *)
Definition item : Type := object + Z.

Section controller.
Context {R E L : Type}.

(** [UpstreamClusterHandler]; a handler may change the state [R] it belongs
    to, and panics as a whole. *)
Definition UpstreamClusterHandler : Type := R -> UpstreamCluster -> R * result E unit.

(** The loop over the handlers: the first error ends it. *)
Fixpoint run_handlers (handlers : list UpstreamClusterHandler) (r : R) (cluster : UpstreamCluster) : R * result E unit :=
  match handlers with
  | [] => (r, Ok tt)
  | handler :: handlers =>
      match handler r cluster with
      | (r, Ok _) => run_handlers handlers r cluster
      | (r, e) => (r, e)
      end
  end.
End controller.
Arguments UpstreamClusterHandler R E : clear implicits.

Section limiter.
Context `{RateLimiter} `{MapRange} `{FloatToInt} {W S : Type} `{!LimitStore W S}.

(** The lister follows the API server; [clusters] is a map of the controller. *)
Record upstreamController := MkUpstreamController {
  uc_server : rateLimiter (W := W) (S := S);
  uc_lister : cluster_lister;
  uc_clusters : gmap string UpstreamCluster
}.

Definition retry_later : Result := MkResult false (5 * Second) 3.

(** The handlers of [NewRateLimiter]: that of the server. *)
Definition server_handlers (lister : cluster_lister) : list (UpstreamClusterHandler rateLimiter limiter_error) :=
  [UpstreamConditionHandler lister].

Definition limiter_syncUpstreamCluster (c : upstreamController) (obj : item)
    : upstreamController * result limiter_error Result :=
  match obj with
  | inr _ => (c, Ok no_result)
  | inl o =>
      let cluster := ob_cluster o in
      let clusters :=
        match lister_Get (uc_lister c) (uc_Name cluster) with
        | inl e => if IsNotFound e then delete (uc_Name cluster) (uc_clusters c) else uc_clusters c
        | inr _ => uc_clusters c
        end in
      let '(r, res) := run_handlers (server_handlers (uc_lister c)) (uc_server c) cluster in
      (MkUpstreamController r (uc_lister c) clusters,
       match res with Ok _ => Ok no_result | Err _ => Ok retry_later | Panic => Panic end)
  end.

Definition UpstreamController_Get (c : upstreamController) (cluster : string) : option UpstreamCluster :=
  uc_clusters c !! cluster.

Definition NewUpstreamController (r : rateLimiter) (lister : cluster_lister) : upstreamController :=
  MkUpstreamController r lister ∅.

(** * Nothing that was delivered is lost *)

Context `{!WorkQueue item}.

Notation run := (queue_run limiter_syncUpstreamCluster PassthroughKeyFunc).
Notation qstep := (queue_step limiter_syncUpstreamCluster PassthroughKeyFunc).

Lemma sync_result c obj :
  snd (limiter_syncUpstreamCluster c obj) = Ok no_result \/ snd (limiter_syncUpstreamCluster c obj) = Ok retry_later \/
  snd (limiter_syncUpstreamCluster c obj) = Panic.
Proof.
  destruct obj as [o|]; [|by left]. cbn. destruct (UpstreamConditionHandler _ _ _) as [r [[]|e|]]; cbn; auto.
Qed.

(** Items are never counted as failed, and the queue is not shut down. *)
Definition counts_nothing (sq : SyncQueue (K := item)) : Prop :=
  wq_ShuttingDown (sq_queue sq) = false /\ forall k, wq_NumRequeues (sq_queue sq) k = 0.

Lemma passthrough_key (k o : item) : PassthroughKeyFunc o = Some k -> o = k.
Proof. by intros [= ->]. Qed.

Lemma handled_requeues sq c k sq' c' :
  qstep (sq, c) (Handled k) (sq', c') -> counts_nothing sq ->
  counts_nothing sq' /\
  (snd (limiter_syncUpstreamCluster c k) = Ok no_result \/ (0 < wq_waiting (sq_queue sq') k)%nat).
Proof.
  intros Hstep [Hs Hn]. pose proof (sync_result c k) as Hres.
  assert (Hother : forall k', k' <> k -> wq_NumRequeues (sq_queue sq') k' = 0).
  { intros k' Hne. destruct (step_other limiter_syncUpstreamCluster PassthroughKeyFunc sq c k' (Handled k) sq' c')
      as [[-> _] _]; [apply passthrough_key|congruence|congruence|done|apply Hn]. }
  destruct Hres as [Hok|[Hagain|Hp]].
  - assert (Hown : wq_NumRequeues (sq_queue sq') k = 0 /\ wq_ShuttingDown (sq_queue sq') = false).
    { destruct (step_handled _ _ _ _ _ _ _ Hstep) as (q & Hq & _ & Hsd & ->). rewrite Hok. cbn.
      rewrite requeues_Done, requeues_Forget, shutting_Done, shutting_Forget, decide_True by done. split; congruence. }
    split; [|by left]. split; [apply Hown|]. intros k'. destruct (decide (k' = k)) as [->|Hne]; [apply Hown|by apply Hother].
  - destruct (asks_again_turn limiter_syncUpstreamCluster PassthroughKeyFunc sq c k sq' c') as (Hw & Hr & Hsd); try done.
    { exists retry_later. split; [done|]. split; [left|]; cbn; unfold Second; lia. }
    split; [|by right]. split; [done|]. intros k'. destruct (decide (k' = k)) as [->|Hne]; [done|by apply Hother].
  - exfalso. inversion Hstep as [now ? ? obj q ? ? b Hg Hproc| |]; subst.
    unfold processNextWorkItem in Hproc. rewrite Hg in Hproc.
    destruct (limiter_syncUpstreamCluster c k) as [c1 res]. cbn in Hp. subst res. by cbn in Hproc.
Qed.

Lemma enqueued_waits sq c k sq' c' :
  qstep (sq, c) (Enqueued k) (sq', c') -> counts_nothing sq ->
  counts_nothing sq' /\ (0 < wq_waiting (sq_queue sq') k)%nat.
Proof.
  intros Hstep [Hs Hn]. inversion Hstep; subst. unfold Enqueue, with_key. rewrite Hs. cbn.
  pose proof (waiting_Add (sq_queue sq) k Hs). split; [|lia]. split; [cbn; by rewrite shutting_Add|].
  intros k'. cbn. rewrite requeues_Add. apply Hn.
Qed.

Lemma step_counts_nothing sq c e sq' c' : qstep (sq, c) e (sq', c') -> counts_nothing sq -> counts_nothing sq'.
Proof.
  intros Hstep Hc. destruct e as [k|k|]; [by eapply handled_requeues|by eapply enqueued_waits|].
  by inversion Hstep; subst.
Qed.

(** An item was last handled well after a part of a run, and not enqueued
    since. *)
Definition settled (st0 : SyncQueue * upstreamController) (tr : list queue_event) (st : SyncQueue * upstreamController)
    (k : item) : Prop :=
  exists tr1 tr2 sq1 c1, tr = tr1 ++ (Handled k :: tr2) /\ Enqueued k ∉ tr2 /\
    run st0 tr1 (sq1, c1) /\ run (sq1, c1) (Handled k :: tr2) st /\
    snd (limiter_syncUpstreamCluster c1 k) = Ok no_result.

Lemma settled_step st0 tr st k e st' :
  settled st0 tr st k -> e <> Enqueued k -> qstep st e st' -> settled st0 (tr ++ [e]) st' k.
Proof.
  intros (tr1 & tr2 & sq1 & c1 & -> & Hne & Hr1 & Hr2 & Hok) He Hstep. exists tr1, (tr2 ++ [e]), sq1, c1.
  split; [by rewrite <- app_assoc|]. split; [set_solver|]. split; [done|]. split; [|done].
  exact (run_snoc _ _ _ _ _ _ _ Hr2 Hstep).
Qed.

Lemma run_waits_or_settled sq0 c0 tr st :
  counts_nothing sq0 -> run (sq0, c0) tr st ->
  counts_nothing st.1 /\
  forall k, Enqueued k ∈ tr -> (0 < wq_waiting (sq_queue st.1) k)%nat \/ settled (sq0, c0) tr st k.
Proof.
  intros Hc0 Hrun. remember (sq0, c0) as st0 eqn:Est.
  induction Hrun as [st0|st0 tr [sq c] e [sq' c'] Hrun IH Hstep]; subst; [split; [done|set_solver]|].
  destruct (IH eq_refl) as [Hc Hk]. split; [by eapply step_counts_nothing|]. intros k Hin.
  destruct (decide (e = Enqueued k)) as [->|Hne]; [left; by eapply enqueued_waits|].
  assert (Hin' : Enqueued k ∈ tr) by (apply elem_of_app in Hin as [|Hin%list_elem_of_singleton]; [done|by subst]).
  destruct (decide (e = Handled k)) as [->|Hh].
  - destruct (handled_requeues _ _ _ _ _ Hstep Hc) as [_ [Hok|Hw]]; [right|by left].
    exists tr, [], sq, c. repeat split; [set_solver|done| |done].
    exact (run_snoc _ _ _ [] _ _ _ (run_nil _ _ _) Hstep).
  - destruct (Hk k Hin') as [Hw|Hset]; [left|right; by eapply settled_step].
    destruct (step_other limiter_syncUpstreamCluster PassthroughKeyFunc sq c k e sq' c') as [(_ & _ & Hpos & _) _];
      [apply passthrough_key|done|done|done|by apply Hpos].
Qed.

Lemma new_counts_nothing : counts_nothing NewCustomSyncQueue.
Proof. destruct wq_New_spec as [Hs Hk]. split; [done|]. intros k. apply Hk. Qed.


(** The map of the controller is only deleted from: [Get] finds nothing. *)
Lemma sync_keeps_empty c obj :
  uc_clusters c = ∅ -> uc_clusters (fst (limiter_syncUpstreamCluster c obj)) = ∅.
Proof.
  intros Hc. destruct obj as [o|]; [|done]. cbn -[UpstreamConditionHandler].
  destruct (UpstreamConditionHandler _ _ _) as [r [[]|e|]]; cbn; rewrite Hc;
    destruct (lister_Get _ _) as [e'|]; try done; destruct (IsNotFound e'); by rewrite ?delete_empty.
Qed.
End limiter.

(** * Examples *)

Module LimiterControllerExample.
#[local] Existing Instance SimpleLimiter.limiter.
#[local] Existing Instance sorted_range.
#[local] Existing Instance amd64_conversion.
#[local] Existing Instance SimpleQueue.queue.

Definition delivery : object := MkObject 1 LimiterExample.upstream.

(** The server leads the shard of the cluster, but has no store for it yet. *)
Definition no_store : upstreamController (W := unit) :=
  NewUpstreamController (LimiterExample.server ∅ ∅) LimiterExample.lister.

Definition queued : SyncQueue (K := item) := Enqueue PassthroughKeyFunc NewCustomSyncQueue (inl delivery).

Definition turn : option (SyncQueue * upstreamController * result Empty_set bool) :=
  processNextWorkItem limiter_syncUpstreamCluster PassthroughKeyFunc 0 queued no_store.

Definition after_turn : SyncQueue := from_option (fun x => x.1.1) queued turn.

Lemma failed_turn :
  queue_run limiter_syncUpstreamCluster PassthroughKeyFunc (NewCustomSyncQueue, no_store)
    [Enqueued (inl delivery); Handled (inl delivery)] (after_turn, no_store).
Proof.
  apply (run_snoc _ _ _ [Enqueued (inl delivery)] (queued, no_store)).
  - apply (run_snoc _ _ _ [] _ _ _ (run_nil _ _ _)). apply queue_enqueue.
  - eapply (queue_turn _ _ 0); [reflexivity|]. reflexivity.
Qed.

Lemma one_event st e st' :
  queue_run limiter_syncUpstreamCluster PassthroughKeyFunc st [e] st' ->
  queue_step (limiter_syncUpstreamCluster (W := unit)) PassthroughKeyFunc st e st'.
Proof.
  intros Hr. remember [e] as tr eqn:Etr. destruct Hr as [|st tr st1 e' st' Hr Hstep]; [done|].
  apply (app_inj_tail tr []) in Etr as [-> ->]. remember [] as nil eqn:En. destruct Hr; [done|].
  by apply app_eq_nil in En as [_ ?].
Qed.

End LimiterControllerExample.
